(* ===== verification/_CoqProject ===== *)
-Q . S2P
Prelude.v
PyPath.v
CspSpec.v
BruteForce.v
CspCore.v
BackCSP.v
PlainCSP.v
Scenarios.v
Fitness.v
Random.v
Annealing.v
Genetic.v
CapacityCSP.v
CapacityHeuristics.v
Drivers.v
CspDriver.v
Experiments.v
