(* ===== verification/Prelude.v ===== *)
(** * A verification development of the match-triad benchmark

    The repository solves a student/tutor matching problem three ways:
    an exact constraint-optimisation search (backtracking with MRV,
    forward checking, descending value order and branch-and-bound), a
    genetic algorithm and simulated annealing, all scored by the same
    weighted fitness of a (student, tutor) pair.  This development models
    the exact engine in full and proves it returns the optimum, models
    the fitness and both stochastic solvers with Python's [random] as an
    explicit state, and proves their bounds, invariants and errors.  It
    also models the three drivers (both [main.py] and
    Backtracking_CSP/test.py) over an explicit file system, the
    capacity-constrained solvers of src/tests ([csp_backtrack],
    [sa_match], [ga_match]) and the experiment scripts that compose
    them, where it proves their contracts and the bugs it found.

    The parts interact as follows: back_CSP.py is a generic engine over
    variables, domains, binary constraints and a soft score (the driver
    Backtracking_CSP/test.py plugs in [score_pair]); sa.py and ga.py
    search tutor assignments and score them with [compute_fitness]; the
    two main.py drivers run each solver three times from one random
    state and compare the results; src/tests/test.py compares a
    capacity-constrained backtracking search with annealing and genetic
    heuristics scoring capacity overflow by a penalty.

    ** Files and what they model

    - [Prelude] (this file): the result type [result] for code that can
      raise ([KeyError], [ValueError], [ZeroDivisionError],
      [IndexError], [TypeError]) with its bind notation in [result_scope], the
      model's own fuel failure [OutOfFuel], [list_setitem]
      ([xs[i] = v], [IndexError] out of range), Python's
      builtins as the engine uses them: [py_min_by] ([min(xs, key=f)]:
      first minimal element, [ValueError] on an empty sequence),
      [py_max] ([max] of a non-empty sequence), [sort_desc]
      ([sorted(xs, key=f, reverse=True)], a stable insertion sort), the
      accumulation loop [sum_by] ([acc += f(x)] from [0]); the hint
      database [csp] and the tactic [invc].
    - [CspSpec]: the problem of src/Backtracking_CSP/back_CSP.py as
      data: a constraint is a triple [(X, Y, pred)], domains and
      assignments are Python dicts modelled as stdpp [gmap]s.  It states
      the abstract contract of a solver: [solution] (complete, every value
      from its domain, every constraint [pred(a[X], a[Y])] true),
      [score] (sum of [soft_score] over the variables), [optimal] (the
      returned pair is an optimal solution with its score, or [({}, -inf)]
      exactly when there is none; [-inf] is [None]) and the interface
      class [CspSolver] with its law [CspSolverCorrect].
    - [CspCore]: the operations back_CSP.py nests inside
      [backtracking_csp], translated one by one: [init_domains] (line 14),
      [unassigned], [mrv] (18-20), [forward_check] (22-29), the hard
      consistency loop [consistent] (52-58), the wipe-out test
      [all_nonempty] (65), and the loop over candidate values [try_values]
      (51-67), which assigns [var] in place, recurses, and deletes it
      again.  It proves that constraints [(X, X, cons)] are never
      evaluated, and the invariants the search keeps ([Inv]: the
      assignment is consistent, within the domains, scored exactly; the
      current domains keep the caller's keys and only shrink) and that
      the value loop loses no solution ([try_values_spec]).
    - [BackCSP]: the optimistic bound [rem_upper] (34-38), the recursive
      [backtrack] (31-67) threading the shared search context
      ([assignment], [best_assignment], [best_score]) as a record, and
      [backtracking_csp] (4-71).  Main theorems: the search always
      finishes ([backtracking_csp_ok]), undoes every tentative
      assignment, never lowers [best_score], and returns an optimal
      solution ([backtracking_csp_optimal]); it is an instance of the
      solver interface; it returns the same result once every
      self-constraint [(X, X, cons)] is removed
      ([backtracking_csp_ignores_self_constraints]).
    - [PlainCSP]: the earlier variant src/tests/Back_CSP.py (no bound, no
      value ordering, completion by [len(assignment) == len(variables)]);
      its optimality, and the pruning-equivalence theorem that both
      variants return the same score.
    - [BruteForce]: the spec's reference solver (every complete
      assignment within the domains, the first best consistent one),
      proved to meet [optimal]; the engines are compared with it.
    - [Scenarios]: the concrete instances of the spec and source
      (src/tests/Back_CSP.py's example, the reuse-permitted and
      infeasible instances) evaluated by [vm_compute], and the witnesses
      of the engine's theorems.
    - [PyPath]: [os.path.join], [basename], [dirname] and [splitext] as
      CPython's posixpath writes them (a library, modelled for the
      drivers), with the round trip [splitext_basename_join].
    - [Fitness]: [time_score], [score_pair] and [compute_fitness] of the
      three identical fitness.py files, one copy per file (top level for
      Backtracking_CSP, Modules [SaFitness] and [GaFitness] for the copies
      the solvers call, each proved equal to the first): a pandas row is a record of the columns
      read, the weights dict a [gmap string Q], [.loc] raises
      [KeyError].  Theorems: the exact condition for five satisfied
      criteria, the bounds of [total_score] and [pct_satisfied], that
      only [KeyError] is raised, and that an extra key in [weights]
      dilutes [pct_satisfied].
    - [Random]: the interface [PyRandom] of Python's [random]
      ([randrange], [random], [sample]), [py_choice] and [py_randint]
      defined on [randrange] as CPython defines [choice] and [randint],
      the laws [PyRandomLaws] the solvers rely on, and a linear congruential instance [Lcg] on
      which the examples run.
    - [Annealing]: [run_sa] of simulated_annealing/src/sa.py as
      [init_curr], the Metropolis test [metropolis] (short-circuit draw,
      [delta / T]), [sa_step] and [sa_loop], and [run_scenario_sa] of its
      main.py.  Theorems: [run_sa] returns an in-range assignment with
      its fitness, never below the initial one ([sa_inv] is the loop
      invariant), for [cooling > 1/2], the range where the float
      temperature of sa.py never underflows to [0.0]; its [ValueError]
      and [ZeroDivisionError] cases.
    - [Genetic]: every function of Genetic_Algorithm_Tutas/src/ga/ga.py
      ([tournament_selection], [pmx_crossover] with its mapping, chase
      loop and fill loop, [swap_mutation], [init_population], the
      breeding [while] loop [breed], [ga_generation], [run_ga]) and
      [run_scenario_ga] of its main.py.  Theorems: PMX terminates and
      yields a permutation when the parents are permutations of each
      other (the chase visits distinct genes, [rchain_nodup]), but can
      cycle forever otherwise; mutation and tournament contracts;
      [run_ga] returns a permutation with its fitness, at least as good
      as the initial population, and elitism never lowers the best
      ([ga_inv]); its [ValueError] cases.
    - [CapacityCSP]: [csp_backtrack] and [evaluate] of src/tests/test.py:
      [score_table], [cap_mrv], the forward checking [cap_fc], the value
      loop [cap_loop] and the recursion [cap_backtrack] threading the
      assignment, the capacity dict and [best] ([cstate]); [domains] is an
      insertion-ordered association list passed by value (the caller
      rebinds [domains = old_domains] before reading it again).  Theorems:
      the invariant [CapInv] (capacities non-negative, usage plus remaining
      capacity within the initial one, [best] valid), soundness and
      totality of [csp_backtrack].  Its [mrv] picks assigned students
      again; the soundness theorem holds despite it.
    - [CapacityHeuristics]: [sa_match] and [ga_match] of
      src/tests/test.py and the [sa_match] of src/tests/sa.py, with the
      penalised fitness [cap_fitness] / [ga_fitness].  Theorems: both
      heuristics return for every random state on well-formed inputs
      with the fitness of what they return ([ga_match]: the best of its
      last population); a positive [sa_match] result respects the
      capacities (the penalty dominates); the tests/sa.py variant reports
      a [best_fit] at least the unpenalised score of its random start;
      with one student a breeding step of [ga_match] raises [ValueError]
      exactly when a crossover is drawn.
    - [Drivers]: [load_preferences], the scenario key and
      [run_all_scenarios] of both [main.py] files as one [Section Driver]
      over the driver's loader and the solver's [run_scenario],
      instantiated by [SaMain] and [GaMain] (each with its own copy of
      [load_preferences], as in the source).  Theorems: the key round
      trip ([scenario_key_join]), that each driver runs every existing
      scenario under its title ([sa_run_all_sound] with a student and a
      tutor per file, [ga_run_all_sound] with two students and a tutor
      for each, reporting permutations) and that a missing [data]
      folder ends the run at once.
    - [CspDriver]: the driver src/Backtracking_CSP/test.py ([Module
      CspMain]: [load_preferences], the problem built per CSV, the
      engine's two reruns [all_same_score], the fulfilment loop
      [sat_loop], [run_scenario], [main]).  It first proves, against the
      interface [CspSolverCorrect], that without constraints a solver
      gives each variable its own best value ([unconstrained_optimum]);
      then that each scenario with tutors gets a best tutor per student
      with a fulfilment in [0, 1], that a scenario without tutors reports
      [-inf], and that [main] reports every existing scenario.
    - [Experiments]: the experiment scripts src/tests/test.py
      ([TestPy]: [generate_preferences], [scenario_conflict_heavy],
      [scenario_capacity], [run_scenario], [main]) and
      src/tests/test_sa.py ([TestSa]: its copy of the generators,
      [run_sa_only], [main]), composed with [csp_backtrack], [sa_match],
      [ga_match] and [evaluate], and test.py's printed summary
      [groupby(["Scenario","Alg"]).mean()] ([summary]).  Theorems: the
      shape of the generated preferences and capacities, the conflict
      mode, the agreement of the two generators, that both [__main__]
      blocks return for every random state, and that test.py's summary
      has the nine (scenario, algorithm) groups of three rows, with a
      mean CSP score of [0] in Capacity-Asym (capacity 18 for 20
      students, so [csp_backtrack] returns [({}, -1)]).

    ** Modelling choices

    Scores are Python floats; they are modelled as [Z] (the engine only
    adds and compares them), so rounding is not modelled, and [-inf] is
    [None] in [option Z].  Variables are any countable type with decidable
    equality (Python [==] on hashable keys); values are any type (they are
    only passed to predicates and to [soft_score]).  The recursion of
    [backtrack] is structural on a fuel argument; [backtracking_csp]
    passes [1 + len(variables)], and [backtracking_csp_ok] shows the fuel
    never runs out: every recursive call assigns one more variable of
    [variables], and the search stops when none is left.  A dict lookup
    that can miss raises [KeyError] in the model exactly where the code
    raises it ([forward_check] on a constraint naming a non-variable);
    lookups that the invariant [Inv] proves present use [dget].

    In the fitness and the stochastic solvers floats are rationals [Q]:
    the temperature [T] of [run_sa] and [sa_match] is exact.  The float
    [T *= cooling] reaches [0.0] only when [cooling <= 1/2] (from the
    smallest subnormal [2^-1074], [c * 2^-1074] rounds back to [2^-1074]
    for [c > 1/2]), and then line 51 of sa.py raises
    [ZeroDivisionError]; every theorem on the annealers assumes
    [cooling > 1/2] (the drivers use [0.995]), the range in which the
    float program never divides by [0.0] either.  [np.exp] is a
    parameter.  Python's
    global random state is threaded explicitly, so the determinism
    checks of the drivers compare three runs drawing one after another.
    [ga.chromosome], which provides [init_chromosome], is missing from
    the repository: it is a parameter, assumed to return a permutation
    of [range(num_pairs)].  The [while gene in mapping1] loop of
    [pmx_crossover] runs on fuel [len(parent1) + 1]: the chase from a
    gene outside the mapping's image visits distinct keys, at most
    [len(mapping1) <= len(parent1)] of them, so the fuel is enough for
    permutations ([pmx_crossover_permutation]); a model run out of fuel
    is a Python loop that never ends ([pmx_crossover_diverges]).  The
    breeding loop [while len(new_pop) < pop_size] appends one child per
    iteration and is modelled by its iteration count.

    [cap_backtrack] runs on fuel [1 + sum of the positive capacities]:
    every recursive call takes one unit of a positive capacity that is
    only given back when the call returns ([cap_potential_take]), so the
    fuel is enough ([csp_backtrack_total]).  The [while] loop of
    [ga_match] adds two chromosomes per iteration and runs on fuel
    [pop_size + 1] ([ga_breed_ok]).  Preference values of src/tests are
    integers ([generate_preferences] without [weights]); [ga_match]
    needs students numbered by position and is stated for
    [murid = list(range(n))].  The file system of the drivers is a set of
    directories and a map from paths to the frames [pd.read_csv] returns;
    [str.lower] is modelled on ASCII letters.

    The CSP driver of Backtracking_CSP/test.py scores pairs with
    [score_pair] under weights that are tenths; the engine receives the
    score times [10] ([soft_score_tenths], exact by
    [soft_score_tenths_spec]), which changes no comparison.  A preference
    entry [{a: v for a in attrs}] of src/tests is the list of its four
    values in the order of [attrs]; [weights=None] is the empty dict
    (both are false for [if weights:]).

    ** Not modelled

    - [round(x, 2)] of the experiment reports (the rows keep the exact
      percentage), so the mean [%Constraint] of test.py's summary is
      over unrounded values; the [Time(s)] column; test_sa.py's
      [agg(['mean','std'])] (the standard deviation is a float square
      root).  The [sa_match] and [evaluate] of src/tests/test_sa.py are
      those of src/tests/test.py verbatim and are defined as them.
    - CSV parsing, printing and timing ([time.perf_counter]) in the
      drivers, which are I/O; [os.path.abspath(__file__)] is an input.
    - The annealers with [cooling <= 1/2], where the float temperature
      underflows to [0.0] (see above); the exact temperature of the
      model cannot reach that [ZeroDivisionError]. *)

From Stdlib Require Import ZArith Lia Permutation Sorted.
From stdpp Require Import base list.

(** ** Results of code that may raise *)

Inductive pyexn : Type :=
  | KeyError      (** a dict lookup of a missing key *)
  | ValueError    (** [min()] of an empty sequence, [randrange(0)] *)
  | ZeroDivisionError (** [x / 0] *)
  | IndexError    (** [xs[i] = v] with [i] out of range *)
  | TypeError     (** [x in None] *)
  | OutOfFuel.    (** the model's recursion bound was exhausted *)

#[export] Instance pyexn_eq_dec : EqDecision pyexn.
Proof. solve_decision. Defined.

Inductive result (A : Type) : Type :=
  | Ok (a : A)
  | Err (e : pyexn).
Arguments Ok {A} a.
Arguments Err {A} e.

Definition res_bind {A B} (m : result A) (k : A -> result B) : result B :=
  match m with Ok a => k a | Err e => Err e end.

Declare Scope result_scope.
Delimit Scope result_scope with result.
Notation "x <- m ;; k" := (res_bind m (fun x => k))
  (at level 100, m at next level, right associativity) : result_scope.
Open Scope result_scope.

Lemma res_bind_Ok {A B} (m : result A) (k : A -> result B) (b : B) :
  res_bind m k = Ok b <-> exists a, m = Ok a /\ k a = Ok b.
Proof.
  destruct m as [a|e]; simpl; split.
  - eauto.
  - intros (a' & [= ->] & H). exact H.
  - discriminate.
  - intros (a' & ? & _). discriminate.
Qed.

(** ** Python builtins used by the engine *)

(** [xs[i] = x] on a list: [IndexError] out of range. *)
Definition list_setitem {A} (xs : list A) (i : nat) (x : A) : result (list A) :=
  if Nat.ltb i (length xs) then Ok (<[i := x]> xs) else Err IndexError.

Lemma list_setitem_ok {A} (xs : list A) i x :
  (i < length xs)%nat -> list_setitem xs i x = Ok (<[i := x]> xs).
Proof. intros Hi. unfold list_setitem. destruct (Nat.ltb_spec i (length xs)); [reflexivity|lia]. Qed.

Section Builtins.
Context {A : Type}.

(** [min(xs, key=f)]: CPython keeps the first element and replaces it
    only by a strictly smaller key, so ties go to the earliest. *)
Definition py_min_by (f : A -> nat) (xs : list A) : result A :=
  match xs with
  | [] => Err ValueError
  | x :: rest => Ok (fold_left (fun b y => if f y <? f b then y else b) rest x)
  end.

(** [max(f(x) for x in xs)] on a non-empty sequence. *)
Definition py_max (x : Z) (xs : list Z) : Z := fold_left Z.max xs x.

(** [acc = 0; for x in xs: acc += f(x)]. *)
Definition sum_by (f : A -> Z) (xs : list A) : Z :=
  fold_left (fun acc x => (acc + f x)%Z) xs 0%Z.

(** [sorted(xs, key=f, reverse=True)]: stable, so equal keys keep their
    input order; insertion from the right puts [x] before every later
    element whose key is not larger. *)
Fixpoint insert_desc (f : A -> Z) (x : A) (xs : list A) : list A :=
  match xs with
  | [] => [x]
  | y :: ys => if (f y <=? f x)%Z then x :: y :: ys else y :: insert_desc f x ys
  end.

Fixpoint sort_desc (f : A -> Z) (xs : list A) : list A :=
  match xs with
  | [] => []
  | x :: ys => insert_desc f x (sort_desc f ys)
  end.
End Builtins.

Create HintDb csp.
Create Rewrite HintDb csp_sum.

Ltac invc H := inversion H; clear H; subst.

(** ** Generic lemmas *)

Section BuiltinFacts.
Context {A : Type}.

Lemma sum_by_acc (f : A -> Z) xs a :
  fold_left (fun acc x => (acc + f x)%Z) xs a = (a + sum_by f xs)%Z.
Proof.
  unfold sum_by. revert a. induction xs as [|x xs IH]; intros a; simpl; [lia|].
  rewrite IH, (IH (0 + f x)%Z). lia.
Qed.

Lemma sum_by_nil (f : A -> Z) : sum_by f [] = 0%Z.
Proof. reflexivity. Qed.

Lemma sum_by_cons (f : A -> Z) x xs : sum_by f (x :: xs) = (f x + sum_by f xs)%Z.
Proof. unfold sum_by at 1. simpl. rewrite sum_by_acc. lia. Qed.

Lemma sum_by_le (f g : A -> Z) xs :
  (forall x, In x xs -> (f x <= g x)%Z) -> (sum_by f xs <= sum_by g xs)%Z.
Proof.
  induction xs as [|x xs IH]; intros H; [reflexivity|].
  rewrite !sum_by_cons. pose proof (H x (or_introl eq_refl)).
  pose proof (IH (fun y Hy => H y (or_intror Hy))). lia.
Qed.

Lemma sum_by_ext (f g : A -> Z) xs :
  (forall x, In x xs -> f x = g x) -> sum_by f xs = sum_by g xs.
Proof.
  intros H. apply Z.le_antisymm; apply sum_by_le; intros x Hx; rewrite H; auto; lia.
Qed.

Lemma py_max_ge_acc x xs : (x <= py_max x xs)%Z.
Proof.
  unfold py_max. revert x. induction xs as [|y ys IH]; intros x; simpl; [lia|].
  specialize (IH (Z.max x y)). lia.
Qed.

Lemma py_max_ge x xs y : In y (x :: xs) -> (y <= py_max x xs)%Z.
Proof.
  unfold py_max. revert x. induction xs as [|z zs IH]; intros x Hy; simpl in *.
  - destruct Hy as [->|[]]; lia.
  - destruct Hy as [->|[->|Hy]].
    + pose proof (py_max_ge_acc (Z.max y z) zs). unfold py_max in *. lia.
    + pose proof (py_max_ge_acc (Z.max x y) zs). unfold py_max in *. lia.
    + apply IH. right. exact Hy.
Qed.

Lemma sum_by_add (f g : A -> Z) xs : sum_by (fun x => f x + g x)%Z xs = (sum_by f xs + sum_by g xs)%Z.
Proof. induction xs as [|x xs IH]; [reflexivity|]. rewrite !sum_by_cons, IH. lia. Qed.

(** The maximum is one of the values. *)
Lemma py_max_in x xs : In (py_max x xs) (x :: xs).
Proof.
  unfold py_max. revert x. induction xs as [|y ys IH]; intros x; simpl; [left; reflexivity|].
  destruct (IH (Z.max x y)) as [Hm|Hm]; rewrite <- ?Hm.
  - destruct (Z.max_spec x y) as [[_ ->]|[_ ->]]; [right; left|left]; reflexivity.
  - right. right. exact Hm.
Qed.

(** Termwise [<=] and equal sums give termwise equality. *)
Lemma sum_by_le_eq (f g : A -> Z) xs :
  (forall x, In x xs -> (f x <= g x)%Z) -> sum_by f xs = sum_by g xs ->
  forall x, In x xs -> f x = g x.
Proof.
  induction xs as [|y ys IH]; intros Hle Heq x Hx; [destruct Hx|].
  rewrite !sum_by_cons in Heq.
  pose proof (sum_by_le f g ys (fun z Hz => Hle z (or_intror Hz))).
  pose proof (Hle y (or_introl eq_refl)).
  destruct Hx as [<-|Hx]; [lia|].
  apply IH; [intros z Hz; apply Hle; right; exact Hz|lia|exact Hx].
Qed.

Lemma insert_desc_perm (f : A -> Z) x xs : Permutation (insert_desc f x xs) (x :: xs).
Proof.
  induction xs as [|y ys IH]; simpl; [reflexivity|].
  destruct (f y <=? f x)%Z; [reflexivity|].
  rewrite IH. apply perm_swap.
Qed.

Lemma sort_desc_perm (f : A -> Z) xs : Permutation (sort_desc f xs) xs.
Proof.
  induction xs as [|x xs IH]; simpl; [reflexivity|].
  rewrite insert_desc_perm, IH. reflexivity.
Qed.

Lemma insert_desc_sorted (f : A -> Z) x xs :
  Sorted (fun a b => f b <= f a)%Z xs ->
  Sorted (fun a b => f b <= f a)%Z (insert_desc f x xs).
Proof.
  induction 1 as [|y ys Hs IH Hhd]; simpl; [repeat constructor|].
  destruct (f y <=? f x)%Z eqn:E.
  - apply Z.leb_le in E. constructor; [constructor; auto|]. constructor. exact E.
  - apply Z.leb_gt in E. constructor; [exact IH|].
    destruct ys as [|z zs]; simpl; [constructor; lia|].
    invc Hhd. destruct (f z <=? f x)%Z; constructor; lia.
Qed.

Lemma sort_desc_sorted (f : A -> Z) xs : Sorted (fun a b => f b <= f a)%Z (sort_desc f xs).
Proof. induction xs; simpl; [constructor|]. apply insert_desc_sorted. assumption. Qed.

(** The fold inside [py_min_by] either keeps its start [b] (then no later
    key is smaller) or ends on an element of [xs] whose key is strictly
    below [b]'s and below every key before its first position. *)
Lemma py_min_fold_spec (f : A -> nat) xs b r :
  fold_left (fun b y => if f y <? f b then y else b) xs b = r ->
  (forall y, In y xs -> f r <= f y) /\ f r <= f b /\
  (r = b \/ exists pre post, xs = pre ++ r :: post /\ f r < f b /\
                            forall y, In y pre -> f r < f y).
Proof.
  revert b. induction xs as [|y ys IH]; intros b Hr; simpl in Hr.
  - subst r. split; [intros ? []|]. split; [lia|]. left; reflexivity.
  - destruct (f y <? f b) eqn:E.
    + apply Nat.ltb_lt in E. destruct (IH y Hr) as (Hle & Hy & Hr').
      split; [intros z [<-|Hz]; auto|]. split; [lia|]. right.
      destruct Hr' as [Hr'|(pre & post & Heq & Hlt & Hpre)].
      * exists [], ys. rewrite Hr'. split; [reflexivity|]. split; [lia|]. intros ? [].
      * exists (y :: pre), post. rewrite Heq. split; [reflexivity|]. split; [lia|].
        intros z [<-|Hz]; auto.
    + apply Nat.ltb_ge in E. destruct (IH b Hr) as (Hle & Hb & Hr').
      split; [intros z [<-|Hz]; auto; lia|]. split; [exact Hb|].
      destruct Hr' as [Hr'|(pre & post & Heq & Hlt & Hpre)]; [left; exact Hr'|].
      right. exists (y :: pre), post. rewrite Heq. split; [reflexivity|]. split; [lia|].
      intros z [<-|Hz]; auto; lia.
Qed.

Lemma py_min_by_spec (f : A -> nat) xs m :
  py_min_by f xs = Ok m ->
  (forall y, In y xs -> f m <= f y) /\
  exists pre post, xs = pre ++ m :: post /\ forall y, In y pre -> f m < f y.
Proof.
  destruct xs as [|x rest]; simpl; intros H; [discriminate|]. invc H.
  destruct (py_min_fold_spec f rest x _ eq_refl) as (Hle & Hx & Hr). split.
  - intros y [<-|Hy]; auto.
  - destruct Hr as [Hr|(pre & post & Heq & Hlt & Hpre)].
    + rewrite Hr. exists [], rest. split; [reflexivity|]. intros ? [].
    + exists (x :: pre), post. rewrite Heq at 1. split; [reflexivity|].
      intros y [<-|Hy]; auto.
Qed.

Lemma py_min_by_In (f : A -> nat) xs m : py_min_by f xs = Ok m -> In m xs.
Proof.
  intros H. destruct (py_min_by_spec f xs m H) as (_ & pre & post & -> & _).
  apply in_or_app. right. left. reflexivity.
Qed.

Lemma py_min_by_nonempty (f : A -> nat) x xs : exists m, py_min_by f (x :: xs) = Ok m.
Proof. eexists. reflexivity. Qed.
Lemma sum_by_app (f : A -> Z) xs ys : sum_by f (xs ++ ys) = (sum_by f xs + sum_by f ys)%Z.
Proof.
  induction xs as [|x xs IH]; simpl; [rewrite sum_by_nil; lia|].
  rewrite !sum_by_cons, IH. lia.
Qed.

(** Splitting a sum by a boolean test on the summands' index. *)
Lemma sum_by_filter (p : A -> bool) (f : A -> Z) xs :
  sum_by f xs = (sum_by f (List.filter p xs) + sum_by f (List.filter (fun x => negb (p x)) xs))%Z.
Proof.
  induction xs as [|x xs IH]; simpl; [reflexivity|].
  destruct (p x); simpl; rewrite !sum_by_cons, IH; lia.
Qed.

Lemma sum_by_if (p : A -> bool) (f : A -> Z) xs :
  sum_by (fun x => if p x then f x else 0%Z) xs = sum_by f (List.filter p xs).
Proof.
  induction xs as [|x xs IH]; simpl; [reflexivity|].
  rewrite sum_by_cons, IH. destruct (p x); simpl; rewrite ?sum_by_cons; lia.
Qed.

(** Changing one summand of a duplicate-free index list. *)
Lemma sum_by_update (f g : A -> Z) xs x0 :
  NoDup xs -> In x0 xs -> (forall x, x <> x0 -> g x = f x) ->
  sum_by g xs = (sum_by f xs + (g x0 - f x0))%Z.
Proof.
  induction 1 as [|x xs Hx Hnd IH]; intros Hin Hg; [destruct Hin|].
  rewrite !sum_by_cons. destruct Hin as [<-|Hin].
  - rewrite (sum_by_ext g f xs); [lia|].
    intros y Hy. apply Hg. intros ->. by apply Hx, list_elem_of_In.
  - rewrite IH by assumption. rewrite Hg; [lia|]. intros ->. by apply Hx, list_elem_of_In.
Qed.

Lemma filter_length_le (f g : A -> bool) xs :
  (forall x, In x xs -> g x = true -> f x = true) ->
  length (List.filter g xs) <= length (List.filter f xs).
Proof.
  induction xs as [|x xs IH]; intros Hgf; simpl; [lia|].
  specialize (IH (fun y Hy => Hgf y (or_intror Hy))).
  destruct (g x) eqn:Eg; [rewrite (Hgf x (or_introl eq_refl) Eg)|destruct (f x)];
    simpl; lia.
Qed.

Lemma filter_length_lt (f g : A -> bool) xs x0 :
  (forall x, In x xs -> g x = true -> f x = true) ->
  In x0 xs -> f x0 = true -> g x0 = false ->
  length (List.filter g xs) < length (List.filter f xs).
Proof.
  induction xs as [|x xs IH]; intros Hgf Hin Hf Hg; [destruct Hin|].
  pose proof (filter_length_le f g xs (fun y Hy => Hgf y (or_intror Hy))) as Hle.
  simpl. destruct Hin as [->|Hin].
  - rewrite Hf, Hg. simpl. lia.
  - specialize (IH (fun y Hy => Hgf y (or_intror Hy)) Hin Hf Hg).
    destruct (g x) eqn:Eg; [rewrite (Hgf x (or_introl eq_refl) Eg)|destruct (f x)];
      simpl; lia.
Qed.
Lemma sum_by_zero (f : A -> Z) xs : (forall x, In x xs -> f x = 0%Z) -> sum_by f xs = 0%Z.
Proof.
  induction xs as [|x xs IH]; intros Hf; [reflexivity|].
  rewrite sum_by_cons, (Hf x (or_introl eq_refl)), IH; [reflexivity|].
  intros y Hy. apply Hf. right. exact Hy.
Qed.

Lemma filter_length_self (g : A -> bool) xs : length (List.filter g xs) <= length xs.
Proof. induction xs as [|x xs IH]; simpl; [lia|]. destruct (g x); simpl; lia. Qed.

Lemma filter_length_partition (g : A -> bool) xs :
  (length (List.filter g xs) + length (List.filter (fun x => negb (g x)) xs) = length xs)%nat.
Proof. induction xs as [|x xs IH]; simpl; [lia|]. destruct (g x); simpl; lia. Qed.

Lemma insert_desc_filter (f : A -> Z) x ys k :
  List.filter (fun y => (f y =? k)%Z) (insert_desc f x ys) =
  if (f x =? k)%Z then x :: List.filter (fun y => (f y =? k)%Z) ys
  else List.filter (fun y => (f y =? k)%Z) ys.
Proof.
  induction ys as [|y ys IH]; simpl; [destruct (f x =? k)%Z; reflexivity|].
  destruct (f y <=? f x)%Z eqn:Hyx; simpl; [reflexivity|].
  rewrite IH. apply Z.leb_gt in Hyx.
  destruct (f x =? k)%Z eqn:Hx, (f y =? k)%Z eqn:Hy; try reflexivity.
  apply Z.eqb_eq in Hx, Hy. lia.
Qed.

(** [sorted(xs, key=f, reverse=True)]: a permutation of [xs], in
    non-increasing key order, and stable: the elements of any one key
    keep their order in [xs]. *)
Theorem sort_desc_spec (f : A -> Z) xs :
  Permutation (sort_desc f xs) xs /\
  Sorted (fun a b => f b <= f a)%Z (sort_desc f xs) /\
  forall k, List.filter (fun y => (f y =? k)%Z) (sort_desc f xs) =
            List.filter (fun y => (f y =? k)%Z) xs.
Proof.
  split; [apply sort_desc_perm|]. split; [apply sort_desc_sorted|].
  intros k. induction xs as [|x xs IH]; simpl; [reflexivity|].
  rewrite insert_desc_filter, IH. reflexivity.
Qed.

End BuiltinFacts.

#[export] Hint Resolve sort_desc_perm sort_desc_sorted py_min_by_In : csp.
#[export] Hint Rewrite @sum_by_nil @sum_by_cons : csp_sum.
