(* ===== verification/PyPath.v ===== *)
(** * Python's [os.path] on POSIX, as the drivers use it

    The [main.py] drivers build the path of every scenario with
    [os.path.join(data_dir, f"{key}.csv")] and recover the key with
    [os.path.splitext(os.path.basename(file_path))[0]]; they find the
    data folder with [os.path.dirname].  These are library functions
    (CPython's [posixpath] and [genericpath._splitext]), translated here
    from that source over [string]: [str.rfind] returns [-1] when the
    character is absent, slices clamp to the string.  The round trip
    [splitext_basename_join] shows when the key comes back: for a key
    without ["/"] that has a character other than ["."]. *)

From Stdlib Require Import String Ascii ZArith Bool Lia.
From S2P Require Import Prelude.

Local Open Scope string_scope.
Local Open Scope char_scope.
Local Open Scope bool_scope.

Module PyPath.

(** [s[:n]] and [s[n:]] for [0 <= n]. *)
Fixpoint str_take (n : nat) (s : string) : string :=
  match n, s with
  | S n', String c s' => String c (str_take n' s')
  | _, _ => EmptyString
  end.

Fixpoint str_drop (n : nat) (s : string) : string :=
  match n, s with
  | S n', String _ s' => str_drop n' s'
  | O, _ => s
  | S _, EmptyString => EmptyString
  end.

(** The last index of [c] in [s]. *)
Fixpoint rfind_opt (c : ascii) (s : string) : option nat :=
  match s with
  | EmptyString => None
  | String a s' =>
      match rfind_opt c s' with
      | Some i => Some (S i)
      | None => if Ascii.eqb a c then Some 0%nat else None
      end
  end.

(** [s.rfind(c)]: [-1] when [c] does not occur. *)
Definition rfind (c : ascii) (s : string) : Z :=
  match rfind_opt c s with Some i => Z.of_nat i | None => (-1)%Z end.

Fixpoint str_forallb (f : ascii -> bool) (s : string) : bool :=
  match s with
  | EmptyString => true
  | String c s' => f c && str_forallb f s'
  end.

Fixpoint str_existsb (f : ascii -> bool) (s : string) : bool :=
  match s with
  | EmptyString => false
  | String c s' => f c || str_existsb f s'
  end.

(** [s.startswith("/")] and [s.endswith("/")]. *)
Definition starts_with_sep (s : string) : bool :=
  match s with String c _ => Ascii.eqb c "/" | EmptyString => false end.

Fixpoint ends_with_sep (s : string) : bool :=
  match s with
  | EmptyString => false
  | String c EmptyString => Ascii.eqb c "/"
  | String _ s' => ends_with_sep s'
  end.

(** [s.rstrip("/")]. *)
Fixpoint rstrip_sep (s : string) : string :=
  match s with
  | EmptyString => EmptyString
  | String c s' =>
      let r := rstrip_sep s' in
      if (r =? EmptyString)%string && Ascii.eqb c "/" then EmptyString else String c r
  end.

(** [posixpath.join(a, b)] with one component. *)
Definition join (a b : string) : string :=
  if starts_with_sep b then b
  else if (a =? EmptyString)%string || ends_with_sep a then a ++ b
  else a ++ String "/" b.

(** [posixpath.basename(p)]: [p[p.rfind("/") + 1:]]. *)
Definition basename (p : string) : string :=
  str_drop (Z.to_nat (rfind "/" p + 1)) p.

(** [posixpath.dirname(p)]. *)
Definition dirname (p : string) : string :=
  let head := str_take (Z.to_nat (rfind "/" p + 1)) p in
  if negb (head =? EmptyString)%string && negb (str_forallb (fun c => Ascii.eqb c "/") head)
  then rstrip_sep head else head.

(** The loop [while filenameIndex < dotIndex] of [_splitext], [k]
    iterations from index [i]: whether a character other than ["."]
    precedes the last dot. *)
Fixpoint skip_dots (p : string) (i k : nat) : bool :=
  match k with
  | O => false
  | S k' =>
      (** [p[i:i+1] != "."], the empty slice past the end included *)
      let ne := match String.get i p with Some c => negb (Ascii.eqb c ".") | None => true end in
      if ne then true else skip_dots p (S i) k'
  end.

(** [posixpath.splitext(p)], i.e. [genericpath._splitext(p, "/", None, ".")]. *)
Definition splitext (p : string) : string * string :=
  let sepIndex := rfind "/" p in
  let dotIndex := rfind "." p in
  if (sepIndex <? dotIndex)%Z then
    if skip_dots p (Z.to_nat (sepIndex + 1)) (Z.to_nat (dotIndex - (sepIndex + 1)))
    then (str_take (Z.to_nat dotIndex) p, str_drop (Z.to_nat dotIndex) p)
    else (p, EmptyString)
  else (p, EmptyString).


(** ** Facts *)

Lemma str_app_assoc (a b c : string) : (a ++ b) ++ c = a ++ (b ++ c).
Proof. induction a as [|x a IH]; simpl; [reflexivity|rewrite IH; reflexivity]. Qed.

Lemma str_length_app (a b : string) : String.length (a ++ b) = (String.length a + String.length b)%nat.
Proof. induction a as [|x a IH]; simpl; [reflexivity|rewrite IH; reflexivity]. Qed.

Lemma str_take_app s t : str_take (String.length s) (s ++ t) = s.
Proof. induction s as [|c s IH]; simpl; [destruct t; reflexivity|rewrite IH; reflexivity]. Qed.

Lemma str_drop_app s t : str_drop (String.length s) (s ++ t) = t.
Proof. induction s as [|c s IH]; simpl; [destruct t; reflexivity|exact IH]. Qed.

Lemma rfind_opt_app c s t :
  rfind_opt c (s ++ t) =
  match rfind_opt c t with Some i => Some (String.length s + i)%nat | None => rfind_opt c s end.
Proof.
  induction s as [|a s IH]; simpl; [destruct (rfind_opt c t); reflexivity|].
  rewrite IH. destruct (rfind_opt c t); reflexivity.
Qed.

Lemma rfind_opt_none c s : str_forallb (fun a => negb (Ascii.eqb a c)) s = true -> rfind_opt c s = None.
Proof.
  induction s as [|a s IH]; simpl; [reflexivity|].
  intros [Ha Hs]%andb_prop. rewrite (IH Hs). apply negb_true_iff in Ha. rewrite Ha. reflexivity.
Qed.

Lemma ends_with_sep_inv s : ends_with_sep s = true -> exists q, s = q ++ String "/" EmptyString.
Proof.
  induction s as [|a s IH]; [discriminate|]. destruct s as [|b s].
  - simpl. intros Ha%Ascii.eqb_eq. subst a. exists EmptyString. reflexivity.
  - intros Hs. destruct (IH Hs) as [q Hq]. exists (String a q). simpl. rewrite <- Hq. reflexivity.
Qed.

(** [join] only prepends a directory, followed by ["/"] when there is one. *)
Lemma join_shape d name :
  starts_with_sep name = false ->
  join d name = name \/ exists q, join d name = q ++ String "/" name.
Proof.
  intros Hn. unfold join. rewrite Hn.
  destruct (d =? EmptyString)%string eqn:Hd; simpl.
  - apply String.eqb_eq in Hd. subst d. left. reflexivity.
  - destruct (ends_with_sep d) eqn:He; right.
    + destruct (ends_with_sep_inv d He) as [q ->]. exists q. rewrite str_app_assoc. reflexivity.
    + exists d. reflexivity.
Qed.

Lemma basename_no_sep name : str_forallb (fun a => negb (Ascii.eqb a "/")) name = true -> basename name = name.
Proof. intros Hn. unfold basename, rfind. rewrite (rfind_opt_none _ _ Hn). reflexivity. Qed.

Lemma basename_after_sep q name :
  str_forallb (fun a => negb (Ascii.eqb a "/")) name = true -> basename (q ++ String "/" name) = name.
Proof.
  intros Hn. unfold basename, rfind. rewrite rfind_opt_app. simpl. rewrite (rfind_opt_none _ _ Hn). simpl.
  replace (Z.to_nat (Z.of_nat (String.length q + 0) + 1)) with (String.length (q ++ String "/" EmptyString)).
  - replace (q ++ String "/" name) with ((q ++ String "/" EmptyString) ++ name)
      by (rewrite str_app_assoc; reflexivity).
    apply str_drop_app.
  - rewrite str_length_app. simpl. lia.
Qed.

Lemma skip_dots_cons a p i k : skip_dots (String a p) (S i) k = skip_dots p i k.
Proof. revert i. induction k as [|k IH]; intros i; simpl; [reflexivity|rewrite IH; reflexivity]. Qed.

Lemma skip_dots_app s t :
  skip_dots (s ++ t) 0 (String.length s) = str_existsb (fun c => negb (Ascii.eqb c ".")) s.
Proof.
  induction s as [|a s IH]; simpl; [reflexivity|].
  rewrite skip_dots_cons, IH. destruct (negb _); reflexivity.
Qed.

(** [splitext] splits off the last extension of a name whose stem has
    a character other than ["."]. *)
Lemma splitext_ext key ext :
  str_forallb (fun a => negb (Ascii.eqb a "/")) (key ++ String "." ext) = true ->
  str_forallb (fun a => negb (Ascii.eqb a ".")) ext = true ->
  str_existsb (fun c => negb (Ascii.eqb c ".")) key = true ->
  splitext (key ++ String "." ext) = (key, String "." ext).
Proof.
  intros Hs He Hk. unfold splitext, rfind.
  rewrite (rfind_opt_none _ _ Hs), rfind_opt_app. simpl. rewrite (rfind_opt_none _ _ He). simpl.
  replace (Z.to_nat (-1 + 1)) with 0%nat by reflexivity.
  replace (Z.to_nat (Z.of_nat (String.length key + 0) - (-1 + 1))) with (String.length key) by lia.
  replace (Z.to_nat (Z.of_nat (String.length key + 0))) with (String.length key) by lia.
  destruct (Z.ltb_spec (-1) (Z.of_nat (String.length key + 0))) as [_|Hf]; [|lia].
  rewrite skip_dots_app, Hk, str_take_app, str_drop_app. reflexivity.
Qed.

Lemma str_forallb_app f a b : str_forallb f (a ++ b) = str_forallb f a && str_forallb f b.
Proof. induction a as [|c a IH]; simpl; [reflexivity|rewrite IH, andb_assoc; reflexivity]. Qed.

Lemma no_sep_not_starts s : str_forallb (fun a => negb (Ascii.eqb a "/")) s = true -> starts_with_sep s = false.
Proof. destruct s as [|c s]; simpl; [reflexivity|]. intros [Hc _]%andb_prop. apply negb_true_iff, Hc. Qed.

(** [splitext(basename(join(d, key + ext)))[0]] gives [key] back, for a
    key without ["/"] that has a character other than ["."]. *)
Lemma splitext_basename_join d key ext :
  str_forallb (fun a => negb (Ascii.eqb a "/")) (key ++ String "." ext) = true ->
  str_forallb (fun a => negb (Ascii.eqb a ".")) ext = true ->
  str_existsb (fun c => negb (Ascii.eqb c ".")) key = true ->
  fst (splitext (basename (join d (key ++ String "." ext)))) = key.
Proof.
  intros Hs He Hk.
  destruct (join_shape d _ (no_sep_not_starts _ Hs)) as [->|[q ->]];
    [rewrite (basename_no_sep _ Hs)|rewrite (basename_after_sep q _ Hs)];
    rewrite (splitext_ext key ext Hs He Hk); reflexivity.
Qed.
End PyPath.
