(* ===== verification/CspSpec.v ===== *)
(** * The constraint-optimisation problem and the contract of a solver

    The data of [backtracking_csp(variables, domains, constraints,
    soft_score)] (src/Backtracking_CSP/back_CSP.py, lines 4-9) and of its
    variant in src/tests/Back_CSP.py: dicts are stdpp [gmap]s, a
    constraint is the triple [(X, Y, cons)], scores are [Z].  The file
    states what a solver promises ([optimal]) and the interface
    [CspSolver]/[CspSolverCorrect] the two engines implement. *)

From Stdlib Require Import ZArith Lia.
From stdpp Require Import base list gmap.
From S2P Require Import Prelude.

Section Problem.
Context {V : Type} `{Countable V} {W : Type}.

(** [(X, Y, cons)]: [cons(value_of_X, value_of_Y)] must hold. *)
Definition constraint : Type := (V * V * (W -> W -> bool))%type.

(** [domains.get(v, [])]; also used for lookups the search invariant
    proves present. *)
Definition dget (d : gmap V (list W)) (v : V) : list W := default [] (d !! v).

Definition satisfies (a : gmap V W) (c : constraint) : Prop :=
  let '(X, Y, p) := c in
  forall x y, a !! X = Some x -> a !! Y = Some y -> p x y = true.

Variables (variables : list V) (constraints : list constraint)
          (soft_score : V -> W -> Z).

(** The assignment covers exactly the variables. *)
Definition complete (a : gmap V W) : Prop :=
  forall v, is_Some (a !! v) <-> In v variables.

Definition within (domains : gmap V (list W)) (a : gmap V W) : Prop :=
  forall v w, a !! v = Some w -> In w (dget domains v).

Definition solution (domains : gmap V (list W)) (a : gmap V W) : Prop :=
  complete a /\ within domains a /\ Forall (satisfies a) constraints.

(** The objective: the sum of [soft_score(v, a[v])] over the variables. *)
Definition score (a : gmap V W) : Z :=
  sum_by (fun v => match a !! v with Some w => soft_score v w | None => 0%Z end) variables.

(** The documented result: an optimal solution with its score, or
    [({}, -inf)] exactly when no solution exists. *)
Definition optimal (domains : gmap V (list W)) (r : gmap V W * option Z) : Prop :=
  match r.2 with
  | Some s => solution domains r.1 /\ score r.1 = s /\
              forall a', solution domains a' -> (score a' <= s)%Z
  | None => r.1 = ∅ /\ forall a', ~ solution domains a'
  end.

(** The precondition of section 4.1 of the spec: no duplicate
    variables, every constraint between two variables, and (a
    condition the code needs, see [Scenarios]) no constraint of a
    variable with itself. *)
Definition well_formed : Prop :=
  NoDup variables /\
  Forall (fun c : constraint => let '(X, Y, _) := c in
            In X variables /\ In Y variables /\ X <> Y) constraints.

Definition well_formedb : bool :=
  bool_decide (NoDup variables) &&
  forallb (fun c : constraint => let '(X, Y, _) := c in
             bool_decide (X ∈ variables) && bool_decide (Y ∈ variables) &&
             negb (bool_decide (X = Y))) constraints.
End Problem.

Arguments constraint : clear implicits.

(** ** The interface between a solver and its clients *)

Class CspSolver (V W : Type) `{Countable V} :=
  csp_solve : list V -> gmap V (list W) -> list (constraint V W) ->
              (V -> W -> Z) -> result (gmap V W * option Z).

Class CspSolverCorrect (V W : Type) `{Countable V} `{!CspSolver V W} :=
  csp_solve_optimal :
    forall variables domains constraints soft_score,
      well_formed variables constraints ->
      exists r, csp_solve variables domains constraints soft_score = Ok r /\
                optimal variables constraints soft_score domains r.

(** ** Facts about the contract *)

Section SpecFacts.
Context {V : Type} `{Countable V} {W : Type}.
Implicit Types (variables : list V) (constraints : list (constraint V W)).

Lemma well_formedb_spec variables constraints :
  well_formedb variables constraints = true -> well_formed variables constraints.
Proof.
  unfold well_formedb, well_formed. intros [Hnd Hc]%andb_prop.
  split; [exact (bool_decide_eq_true_1 _ Hnd)|].
  apply List.Forall_forall. intros [[X Y] p] Hin.
  pose proof (proj1 (forallb_forall _ _) Hc _ Hin) as Hb. simpl in Hb.
  apply andb_prop in Hb as [[HX HY]%andb_prop Hne].
  apply bool_decide_eq_true_1 in HX, HY. apply negb_true_iff, bool_decide_eq_false_1 in Hne.
  split; [by apply list_elem_of_In|]. split; [by apply list_elem_of_In|]. exact Hne.
Qed.

(** Two results that both meet the contract report the same score. *)
Lemma optimal_same_score variables constraints soft_score domains r1 r2 :
  optimal variables constraints soft_score domains r1 ->
  optimal variables constraints soft_score domains r2 -> r1.2 = r2.2.
Proof.
  destruct r1 as [a1 [s1|]], r2 as [a2 [s2|]]; simpl.
  - intros (Hs1 & <- & Hb1) (Hs2 & <- & Hb2). f_equal.
    apply Z.le_antisymm; [apply Hb2 | apply Hb1]; assumption.
  - intros (Hs1 & _) (_ & Hno). destruct (Hno a1 Hs1).
  - intros (_ & Hno) (Hs2 & _). destruct (Hno a2 Hs2).
  - reflexivity.
Qed.
End SpecFacts.

(** ** Deciding the contract on concrete inputs *)

Section Decide.
Context {V : Type} `{Countable V} {W : Type}.

Definition satisfiesb (a : gmap V W) (c : constraint V W) : bool :=
  let '(X, Y, p) := c in
  match a !! X, a !! Y with Some x, Some y => p x y | _, _ => true end.

Lemma satisfiesb_spec a c : satisfiesb a c = true <-> satisfies a c.
Proof.
  destruct c as [[X Y] p]. simpl. split.
  - intros Hb x y Hx Hy. rewrite Hx, Hy in Hb. exact Hb.
  - intros Hs. destruct (a !! X) as [x|] eqn:Hx, (a !! Y) as [y|] eqn:Hy; auto.
Qed.

Context `{EqDecision W}.

Definition solutionb (variables : list V) (constraints : list (constraint V W))
    (domains : gmap V (list W)) (a : gmap V W) : bool :=
  forallb (fun v => bool_decide (is_Some (a !! v))) variables &&
  forallb (fun kv : V * W => bool_decide (kv.1 ∈ variables) &&
                             bool_decide (kv.2 ∈ dget domains kv.1)) (map_to_list a) &&
  forallb (satisfiesb a) constraints.

Lemma solutionb_spec variables constraints domains a :
  solutionb variables constraints domains a = true -> solution variables constraints domains a.
Proof.
  unfold solutionb. intros [[Hc Hk]%andb_prop Hs]%andb_prop.
  rewrite forallb_forall in Hc, Hk, Hs.
  assert (forall v w, a !! v = Some w -> In v variables /\ In w (dget domains v)) as Hkw.
  { intros v w Hw. apply elem_of_map_to_list, list_elem_of_In in Hw.
    apply Hk, andb_prop in Hw as [Hv Hw']. simpl in *.
    apply bool_decide_eq_true in Hv, Hw'. rewrite <- !list_elem_of_In. auto. }
  split; [|split].
  - intros v. split; [intros [w Hw]; exact (proj1 (Hkw v w Hw))|].
    intros Hv. apply (bool_decide_eq_true (is_Some _)). exact (Hc v Hv).
  - intros v w Hw. exact (proj2 (Hkw v w Hw)).
  - apply List.Forall_forall. intros c Hin. apply satisfiesb_spec, Hs, Hin.
Qed.
End Decide.
