(* ===== verification/BruteForce.v ===== *)
(** * The exhaustive reference solver of the spec

    Section 8 of the spec checks the engine against "the maximum score
    obtainable by exhaustively enumerating all consistent complete
    assignments".  [candidates] enumerates every complete assignment
    within the domains (the product of the domains over [variables]);
    [brute_force] keeps the first of the highest-scoring consistent ones.
    This solver is the spec's, not the repository's code: it is the
    reference the engine is compared with ([BackCSP] and [PlainCSP]). *)

From Stdlib Require Import ZArith Lia.
From stdpp Require Import base list gmap.
From S2P Require Import Prelude CspSpec.

Section BruteForce.
Context {V : Type} `{Countable V} {W : Type}.
Variables (variables : list V) (constraints : list (constraint V W))
          (soft_score : V -> W -> Z) (domains : gmap V (list W)).

Fixpoint candidates (vs : list V) : list (gmap V W) :=
  match vs with
  | [] => [∅]
  | v :: vs' => flat_map (fun a => map (fun w => <[v := w]> a) (dget domains v))
                         (candidates vs')
  end.

Definition bf_step (best : gmap V W * option Z) (a : gmap V W) : gmap V W * option Z :=
  if forallb (satisfiesb a) constraints then
    match best.2 with
    | Some s => if (s <? score variables soft_score a)%Z then (a, Some (score variables soft_score a)) else best
    | None => (a, Some (score variables soft_score a))
    end
  else best.

Definition brute_force : gmap V W * option Z :=
  fold_left bf_step (candidates variables) (∅, None).
End BruteForce.

Section BruteForceCorrect.
Context {V : Type} `{Countable V} {W : Type}.
Variables (variables : list V) (constraints : list (constraint V W))
          (soft_score : V -> W -> Z) (domains : gmap V (list W)).
Hypothesis Hnodup : NoDup variables.

Abbreviation solution := (solution variables constraints domains).
Abbreviation score := (score variables soft_score).

(** The candidates of [vs] are exactly the assignments with keys [vs]
    and values from the domains. *)
Lemma candidates_sound vs a :
  In a (candidates domains vs) ->
  (forall v, is_Some (a !! v) <-> In v vs) /\ within domains a.
Proof.
  revert a. induction vs as [|v vs IH]; intros a Ha; simpl in Ha.
  - destruct Ha as [<-|[]]. split; [intros v; rewrite lookup_empty; split; [intros [? ?]; discriminate|intros []]|].
    intros v w Hw. rewrite lookup_empty in Hw. discriminate.
  - apply in_flat_map in Ha as (a0 & Ha0 & Ha). apply in_map_iff in Ha as (w & <- & Hw).
    destruct (IH a0 Ha0) as [Hk Hwi]. split.
    + intros x. destruct (decide (v = x)) as [->|Hne].
      * rewrite lookup_insert_eq. split; [intros _; left; reflexivity|eauto].
      * rewrite lookup_insert_ne by exact Hne. rewrite Hk. simpl. intuition.
    + intros x y. destruct (decide (v = x)) as [->|Hne].
      * rewrite lookup_insert_eq. intros [= <-]. exact Hw.
      * rewrite lookup_insert_ne by exact Hne. apply Hwi.
Qed.

Lemma candidates_complete vs a :
  NoDup vs -> (forall v, is_Some (a !! v) <-> In v vs) -> within domains a ->
  In a (candidates domains vs).
Proof.
  intros Hnd. revert a. induction Hnd as [|v vs Hv Hnd IH]; intros a Hk Hwi; simpl.
  - left. apply map_eq. intros x. rewrite lookup_empty.
    destruct (a !! x) eqn:Hx; [|reflexivity]. exfalso. apply (proj1 (Hk x)). eauto.
  - destruct (proj2 (Hk v) (or_introl eq_refl)) as [w Hw].
    apply in_flat_map. exists (delete v a). split.
    + apply IH.
      * intros x. destruct (decide (v = x)) as [->|Hne].
        -- rewrite lookup_delete_eq. split; [intros [? ?]; discriminate|].
           intros Hx. exfalso. apply Hv, list_elem_of_In, Hx.
        -- rewrite lookup_delete_ne by exact Hne. rewrite Hk. simpl. intuition.
      * intros x y Hy. apply (Hwi x y). destruct (decide (v = x)) as [->|Hne].
        -- rewrite lookup_delete_eq in Hy. discriminate.
        -- rewrite lookup_delete_ne in Hy by exact Hne. exact Hy.
    + apply in_map_iff. exists w. split; [|exact (Hwi v w Hw)].
      rewrite insert_delete_eq. apply insert_id. exact Hw.
Qed.

Lemma solution_iff_candidate a :
  solution a <-> In a (candidates domains variables) /\ forallb (satisfiesb a) constraints = true.
Proof.
  split.
  - intros (Hc & Hwi & Hs). split; [apply candidates_complete; assumption|].
    apply forallb_forall. intros c Hin. apply satisfiesb_spec.
    exact (proj1 (List.Forall_forall _ _) Hs c Hin).
  - intros [Hin Hb]. destruct (candidates_sound _ _ Hin) as [Hk Hwi].
    split; [exact Hk|]. split; [exact Hwi|].
    apply List.Forall_forall. intros c Hc. apply satisfiesb_spec.
    exact (proj1 (forallb_forall _ _) Hb c Hc).
Qed.

(** The fold keeps the best consistent candidate seen so far. *)
Lemma bf_fold_spec (cs : list (gmap V W)) (best : gmap V W * option Z) :
  (match best.2 with
   | Some s => solution best.1 /\ score best.1 = s
   | None => best.1 = ∅ end) ->
  (forall a, In a cs -> In a (candidates domains variables)) ->
  let r := fold_left (bf_step variables constraints soft_score) cs best in
  (match r.2 with
   | Some s => solution r.1 /\ score r.1 = s
   | None => r.1 = ∅ end) /\
  (forall s, best.2 = Some s -> exists t, r.2 = Some t /\ (s <= t)%Z) /\
  (forall a, In a cs -> forallb (satisfiesb a) constraints = true ->
             exists t, r.2 = Some t /\ (score a <= t)%Z).
Proof.
  revert best. induction cs as [|a cs IH]; intros best Hbest Hcs; simpl.
  - split; [exact Hbest|]. split; [eauto with lia|]. intros ? [].
  - assert (forall b, In b cs -> In b (candidates domains variables)) as Hcs'
      by (intros b Hb; apply Hcs; right; exact Hb).
    pose proof (Hcs a (or_introl eq_refl)) as Ha.
    assert (let b1 := bf_step variables constraints soft_score best a in
            (match b1.2 with
             | Some s => solution b1.1 /\ score b1.1 = s
             | None => b1.1 = ∅ end) /\
            (forall s, best.2 = Some s -> exists t, b1.2 = Some t /\ (s <= t)%Z) /\
            (forallb (satisfiesb a) constraints = true ->
             exists t, b1.2 = Some t /\ (score a <= t)%Z)) as (Hb1 & Hmono1 & Ha1).
    { unfold bf_step. destruct (forallb (satisfiesb a) constraints) eqn:Hsat.
      - assert (solution a) as Hsol by (apply solution_iff_candidate; auto).
        destruct best as [ba [s|]]; simpl.
        + destruct (s <? score a)%Z eqn:Hlt; simpl.
          * apply Z.ltb_lt in Hlt. split; [auto|]. split; [intros ? [= <-]; eauto with lia|eauto with lia].
          * apply Z.ltb_ge in Hlt. split; [exact Hbest|]. split; [intros ? [= <-]; eauto with lia|eauto with lia].
        + split; [auto|]. split; [discriminate|eauto with lia].
      - split; [exact Hbest|]. split; [eauto with lia|discriminate]. }
    destruct (IH _ Hb1 Hcs') as (Hr & Hmono & Hall). split; [exact Hr|]. split.
    + intros s Hs. destruct (Hmono1 s Hs) as (t & Ht & Hst).
      destruct (Hmono t Ht) as (u & Hu & Htu). eauto with lia.
    + intros b [<-|Hb] Hsat; [|exact (Hall b Hb Hsat)].
      destruct (Ha1 Hsat) as (t & Ht & Hat). destruct (Hmono t Ht) as (u & Hu & Htu).
      eauto with lia.
Qed.

(** The reference solver meets the contract. *)
Lemma brute_force_optimal :
  optimal variables constraints soft_score domains
          (brute_force variables constraints soft_score domains).
Proof.
  unfold brute_force.
  destruct (bf_fold_spec (candidates domains variables) (∅, None) eq_refl (fun a H => H))
    as (Hr & _ & Hall).
  unfold optimal. destruct (fold_left _ _ _) as [ba [s|]]; simpl in *.
  - destruct Hr as [Hsol Hs]. split; [exact Hsol|]. split; [exact Hs|].
    intros a' Ha'. apply solution_iff_candidate in Ha' as [Hin Hsat].
    destruct (Hall a' Hin Hsat) as (t & [= <-] & Hle). exact Hle.
  - split; [exact Hr|]. intros a' Ha'. apply solution_iff_candidate in Ha' as [Hin Hsat].
    destruct (Hall a' Hin Hsat) as (t & Ht & _). discriminate.
Qed.
End BruteForceCorrect.
