(* ===== verification/CspCore.v ===== *)
(** * The search operations of back_CSP.py and their invariants

    The helpers [backtracking_csp] nests (src/Backtracking_CSP/back_CSP.py):
    the initial domain copy, MRV selection, forward checking, the hard
    consistency loop, the wipe-out test and the loop over candidate
    values that assigns, recurses and undoes.  src/tests/Back_CSP.py has
    the same code for all of them but the initial copy and the value
    order, so [PlainCSP] reuses them.  The lemmas state the search
    invariant [Inv] and prove that the value loop preserves it and loses
    no solution ([try_values_spec]). *)

From Stdlib Require Import ZArith Lia Permutation.
From stdpp Require Import base list gmap.
From S2P Require Import Prelude CspSpec.

Section Operations.
Context {V : Type} `{Countable V} {W : Type}.
Variables (variables : list V) (constraints : list (constraint V W))
          (soft_score : V -> W -> Z).

(** [init_domains = {v: list(domains.get(v, [])) for v in variables}] *)
Definition init_domains (domains : gmap V (list W)) : gmap V (list W) :=
  fold_left (fun m v => <[v := dget domains v]> m) variables ∅.

(** [v in assignment] *)
Definition assigned (a : gmap V W) (v : V) : bool := bool_decide (is_Some (a !! v)).

(** [[v for v in variables if v not in assignment]] *)
Definition unassigned (a : gmap V W) : list V :=
  List.filter (fun v => negb (assigned a v)) variables.

(** [mrv]: [min(unassigned, key=lambda v: len(curr_domains[v]))]. *)
Definition mrv (curr_domains : gmap V (list W)) (a : gmap V W) : result V :=
  py_min_by (fun v => length (dget curr_domains v)) (unassigned a).

(** [new_domains[k] = [w for w in new_domains[k] if f(w)]] (lines 26
    and 28): the read raises [KeyError] when [k] is not a key. *)
Definition prune_entry (nd : gmap V (list W)) (k : V) (f : W -> bool)
    : result (gmap V (list W)) :=
  match nd !! k with
  | Some dk => Ok (<[k := List.filter f dk]> nd)
  | None => Err KeyError
  end.

(** One iteration of [forward_check]'s loop over [(X, Y, cons)]. *)
Definition fc_step (var : V) (val : W) (a : gmap V W)
    (nd : gmap V (list W)) (c : constraint V W) : result (gmap V (list W)) :=
  let '(X, Y, p) := c in
  nd1 <- (if bool_decide (X = var) && negb (assigned a Y)
          then prune_entry nd Y (fun w => p val w) else Ok nd) ;;
  if bool_decide (Y = var) && negb (assigned a X)
  then prune_entry nd1 X (fun w => p w val) else Ok nd1.

Fixpoint fc_loop (var : V) (val : W) (a : gmap V W)
    (cs : list (constraint V W)) (nd : gmap V (list W)) : result (gmap V (list W)) :=
  match cs with
  | [] => Ok nd
  | c :: cs' => nd1 <- fc_step var val a nd c ;; fc_loop var val a cs' nd1
  end.

(** [forward_check(var, val, curr_domains, assignment)]: the deep copy
    is the value semantics of [gmap]. *)
Definition forward_check (var : V) (val : W) (curr_domains : gmap V (list W))
    (a : gmap V W) : result (gmap V (list W)) :=
  fc_loop var val a constraints curr_domains.

(** The loop of lines 53-58: [val] agrees with every assigned endpoint. *)
Definition consistent (var : V) (val : W) (a : gmap V W) : bool :=
  forallb (fun c : constraint V W => let '(X, Y, p) := c in
    negb (bool_decide (X = var) &&
          match a !! Y with Some y => negb (p val y) | None => false end) &&
    negb (bool_decide (Y = var) &&
          match a !! X with Some x => negb (p x val) | None => false end))
    constraints.

(** [all(pruned[w] for w in variables if w not in assignment)] *)
Definition all_nonempty (pruned : gmap V (list W)) (a : gmap V W) : bool :=
  forallb (fun w => match dget pruned w with [] => false | _ => true end) (unassigned a).

(** The mutable state shared by the recursion: the [assignment] dict
    mutated in place, and the [nonlocal] best pair. *)
Record search : Type := mk_search {
  assignment : gmap V W;
  best_assignment : gmap V W;
  best_score : option Z
}.

Definition with_assignment (st : search) (a : gmap V W) : search :=
  mk_search a (best_assignment st) (best_score st).

(** The [for val in vals] loop (back_CSP.py 51-67): [rec] is the
    recursive call [backtrack]. *)
Fixpoint try_values (rec : search -> gmap V (list W) -> Z -> result search)
    (var : V) (curr_domains : gmap V (list W)) (curr_score : Z)
    (vals : list W) (st : search) : result search :=
  match vals with
  | [] => Ok st
  | val :: rest =>
      if consistent var val (assignment st) then
        let st1 := with_assignment st (<[var := val]> (assignment st)) in
        let new_score := (curr_score + soft_score var val)%Z in
        pruned <- forward_check var val curr_domains (assignment st1) ;;
        st2 <- (if all_nonempty pruned (assignment st1)
                then rec st1 pruned new_score else Ok st1) ;;
        try_values rec var curr_domains curr_score rest
                   (with_assignment st2 (delete var (assignment st2)))
      else try_values rec var curr_domains curr_score rest st
  end.
End Operations.

(** ** Facts about the operations *)

Section Facts.
Context {V : Type} `{Countable V} {W : Type}.
Variables (variables : list V) (constraints : list (constraint V W)).
Implicit Types (a : gmap V W) (d : gmap V (list W)).

Lemma assigned_false a v : assigned a v = false <-> a !! v = None.
Proof. unfold assigned. rewrite bool_decide_eq_false. symmetry. apply eq_None_not_Some. Qed.

Lemma assigned_true a v : assigned a v = true <-> is_Some (a !! v).
Proof. unfold assigned. apply bool_decide_eq_true. Qed.

Lemma in_unassigned a v :
  In v (unassigned variables a) <-> In v variables /\ a !! v = None.
Proof. unfold unassigned. rewrite filter_In, negb_true_iff, assigned_false. reflexivity. Qed.

(** Assigning an unassigned variable shrinks the list of unassigned
    ones: the measure of the recursion. *)
Lemma unassigned_insert_lt a var val :
  In var variables -> a !! var = None ->
  length (unassigned variables (<[var:=val]> a)) < length (unassigned variables a).
Proof.
  intros Hin Hnone. unfold unassigned. apply (filter_length_lt _ _ _ var); [|exact Hin| |].
  - intros x _. rewrite !negb_true_iff, !assigned_false, lookup_insert_None. tauto.
  - rewrite negb_true_iff, assigned_false. exact Hnone.
  - rewrite negb_false_iff, assigned_true, lookup_insert_eq. eauto.
Qed.

Lemma consistent_true var val a :
  consistent constraints var val a = true ->
  forall X Y p, In (X, Y, p) constraints ->
    (X = var -> forall y, a !! Y = Some y -> p val y = true) /\
    (Y = var -> forall x, a !! X = Some x -> p x val = true).
Proof.
  unfold consistent. rewrite forallb_forall. intros Hall X Y p Hin.
  specialize (Hall _ Hin). simpl in Hall.
  apply andb_prop in Hall as [H1 H2]. apply negb_true_iff in H1, H2. split.
  - intros -> y Hy. rewrite bool_decide_true, Hy in H1 by reflexivity.
    destruct (p val y); [reflexivity|discriminate].
  - intros -> x Hx. rewrite bool_decide_true, Hx in H2 by reflexivity.
    destruct (p x val); [reflexivity|discriminate].
Qed.

(** A rejected value is in no solution extending the assignment. *)
Lemma consistent_false var val a a' :
  consistent constraints var val a = false -> a ⊆ a' -> a' !! var = Some val ->
  ~ Forall (satisfies a') constraints.
Proof.
  unfold consistent. intros Hf Hsub Hvar Hall.
  apply not_true_iff_false in Hf. apply Hf, forallb_forall.
  intros [[X Y] p] Hin. pose proof (proj1 (List.Forall_forall _ _) Hall _ Hin) as Hs.
  simpl in Hs |- *. apply andb_true_intro. split; apply negb_true_iff.
  - case_bool_decide as HX; [subst X|reflexivity]. simpl.
    destruct (a !! Y) as [y|] eqn:Ey; [|reflexivity].
    rewrite (Hs val y Hvar (lookup_weaken _ _ _ _ Ey Hsub)). reflexivity.
  - case_bool_decide as HY; [subst Y|reflexivity]. simpl.
    destruct (a !! X) as [x|] eqn:Ex; [|reflexivity].
    rewrite (Hs x val (lookup_weaken _ _ _ _ Ex Hsub) Hvar). reflexivity.
Qed.

(** An accepted value keeps the assignment consistent, provided no
    constraint relates a variable to itself. *)
Lemma consistent_insert var val a :
  Forall (fun c : constraint V W => let '(X, Y, _) := c in X <> Y) constraints ->
  Forall (satisfies a) constraints ->
  consistent constraints var val a = true ->
  Forall (satisfies (<[var:=val]> a)) constraints.
Proof.
  intros Hne Hsat Hc. apply List.Forall_forall. intros [[X Y] p] Hin x y Hx Hy.
  pose proof (proj1 (List.Forall_forall _ _) Hne _ Hin) as HXY. simpl in HXY.
  destruct (consistent_true _ _ _ Hc X Y p Hin) as [H1 H2].
  destruct (decide (X = var)) as [->|HX].
  - rewrite lookup_insert_eq in Hx. injection Hx as <-.
    rewrite lookup_insert_ne in Hy by congruence. exact (H1 eq_refl y Hy).
  - rewrite lookup_insert_ne in Hx by congruence.
    destruct (decide (Y = var)) as [->|HY].
    + rewrite lookup_insert_eq in Hy. injection Hy as <-. exact (H2 eq_refl x Hx).
    + rewrite lookup_insert_ne in Hy by congruence.
      exact (proj1 (List.Forall_forall _ _) Hsat _ Hin x y Hx Hy).
Qed.
End Facts.

(** ** Forward checking only removes values no solution uses *)

Section ForwardCheck.
Context {V : Type} `{Countable V} {W : Type}.
Implicit Types (a : gmap V W) (d : gmap V (list W)).

(** [d'] has the keys of [d] and smaller lists under them. *)
Definition shrinks d d' : Prop :=
  (forall v, is_Some (d' !! v) <-> is_Some (d !! v)) /\
  (forall v, incl (dget d' v) (dget d v)).

(** Every value a completion [a'] gives an unassigned variable survives. *)
Definition keeps a (a' : gmap V W) d d' : Prop :=
  forall v w, a !! v = None -> a' !! v = Some w -> In w (dget d v) -> In w (dget d' v).

Lemma shrinks_refl d : shrinks d d.
Proof. split; [reflexivity|intros v; apply incl_refl]. Qed.

Lemma shrinks_trans d1 d2 d3 : shrinks d1 d2 -> shrinks d2 d3 -> shrinks d1 d3.
Proof.
  intros [K1 S1] [K2 S2]. split; [intros v; rewrite K2, K1; reflexivity|].
  intros v. eapply incl_tran; [apply S2|apply S1].
Qed.

Lemma keeps_refl a a' d : keeps a a' d d.
Proof. intros v w _ _ Hw. exact Hw. Qed.

Lemma keeps_trans a a' d1 d2 d3 :
  keeps a a' d1 d2 -> keeps a a' d2 d3 -> keeps a a' d1 d3.
Proof. intros K1 K2 v w Hv Hw Hin. eauto. Qed.

Lemma prune_entry_ok d k f :
  is_Some (d !! k) -> exists d', prune_entry d k f = Ok d'.
Proof. unfold prune_entry. intros [dk ->]. eauto. Qed.

Lemma prune_entry_shrinks d k f d' : prune_entry d k f = Ok d' -> shrinks d d'.
Proof.
  unfold prune_entry. destruct (d !! k) as [dk|] eqn:Hk; [|discriminate].
  intros [= <-]. split; intros v; unfold dget; destruct (decide (k = v)) as [->|Hne].
  - rewrite lookup_insert_eq, Hk. split; eauto.
  - rewrite lookup_insert_ne by exact Hne. reflexivity.
  - rewrite lookup_insert_eq, Hk. simpl. intros w Hw. apply filter_In in Hw. tauto.
  - rewrite lookup_insert_ne by exact Hne. apply incl_refl.
Qed.

Lemma prune_entry_keeps a a' d k f d' :
  prune_entry d k f = Ok d' ->
  (forall w, a !! k = None -> a' !! k = Some w -> f w = true) ->
  keeps a a' d d'.
Proof.
  unfold prune_entry. destruct (d !! k) as [dk|] eqn:Hk; [|discriminate].
  intros [= <-] Hf v w Hv Hw Hin. unfold dget in *.
  destruct (decide (k = v)) as [->|Hne].
  - rewrite lookup_insert_eq. rewrite Hk in Hin. simpl in *.
    apply filter_In. auto.
  - rewrite lookup_insert_ne by exact Hne. exact Hin.
Qed.

Lemma fc_step_ok var val a d (c : constraint V W) :
  (let '(X, Y, _) := c in is_Some (d !! X) /\ is_Some (d !! Y)) ->
  exists d', fc_step var val a d c = Ok d'.
Proof.
  destruct c as [[X Y] p]. intros [HX HY]. simpl.
  assert (exists d1, (if bool_decide (X = var) && negb (assigned a Y)
                      then prune_entry d Y (fun w => p val w) else Ok d) = Ok d1
                     /\ shrinks d d1) as (d1 & -> & Hs).
  { destruct (bool_decide (X = var) && negb (assigned a Y)).
    - destruct (prune_entry_ok d Y (fun w => p val w) HY) as [d1 Hd1].
      exists d1. split; [exact Hd1|]. eapply prune_entry_shrinks; eauto.
    - exists d. split; [reflexivity|apply shrinks_refl]. }
  simpl. destruct (bool_decide (Y = var) && negb (assigned a X)); [|eauto].
  apply prune_entry_ok. apply (proj1 Hs). exact HX.
Qed.

Lemma fc_step_shrinks var val a d c d' : fc_step var val a d c = Ok d' -> shrinks d d'.
Proof.
  destruct c as [[X Y] p]. simpl. intros Hok.
  apply res_bind_Ok in Hok as (d1 & H1 & H2).
  assert (shrinks d d1) as S1.
  { destruct (bool_decide (X = var) && negb (assigned a Y));
      [eapply prune_entry_shrinks; eauto|injection H1 as <-; apply shrinks_refl]. }
  eapply shrinks_trans; [exact S1|].
  destruct (bool_decide (Y = var) && negb (assigned a X));
    [eapply prune_entry_shrinks; eauto|injection H2 as <-; apply shrinks_refl].
Qed.

Lemma fc_step_keeps var val a a' d c d' :
  fc_step var val a d c = Ok d' -> a !! var = Some val -> a ⊆ a' -> satisfies a' c ->
  keeps a a' d d'.
Proof.
  destruct c as [[X Y] p]. simpl. intros Hok Hvar Hsub Hsat.
  pose proof (lookup_weaken _ _ _ _ Hvar Hsub) as Hvar'.
  apply res_bind_Ok in Hok as (d1 & H1 & H2). apply keeps_trans with d1.
  - destruct (decide (X = var)) as [->|HX];
      [rewrite bool_decide_true in H1 by reflexivity
      |rewrite bool_decide_false in H1 by exact HX; injection H1 as <-; apply keeps_refl].
    destruct (negb (assigned a Y)); simpl in H1; [|injection H1 as <-; apply keeps_refl].
    eapply prune_entry_keeps; [exact H1|]. intros w _ Hw. exact (Hsat val w Hvar' Hw).
  - destruct (decide (Y = var)) as [->|HY];
      [rewrite bool_decide_true in H2 by reflexivity
      |rewrite bool_decide_false in H2 by exact HY; injection H2 as <-; apply keeps_refl].
    destruct (negb (assigned a X)); simpl in H2; [|injection H2 as <-; apply keeps_refl].
    eapply prune_entry_keeps; [exact H2|]. intros w _ Hw. exact (Hsat w val Hw Hvar').
Qed.

Lemma fc_loop_ok var val a cs d :
  Forall (fun c : constraint V W => let '(X, Y, _) := c in
            is_Some (d !! X) /\ is_Some (d !! Y)) cs ->
  exists d', fc_loop var val a cs d = Ok d'.
Proof.
  revert d. induction cs as [|c cs IH]; intros d Hcs; simpl; [eauto|].
  apply Forall_cons_iff in Hcs as [Hc Hcs].
  destruct (fc_step_ok var val a d c Hc) as [d1 Hd1]. rewrite Hd1. simpl.
  apply IH. pose proof (fc_step_shrinks _ _ _ _ _ _ Hd1) as [K _].
  eapply List.Forall_impl; [|exact Hcs]. intros [[X Y] p]. rewrite !K. tauto.
Qed.

Lemma fc_loop_shrinks var val a cs d d' : fc_loop var val a cs d = Ok d' -> shrinks d d'.
Proof.
  revert d. induction cs as [|c cs IH]; intros d Hok; simpl in Hok.
  - injection Hok as <-. apply shrinks_refl.
  - apply res_bind_Ok in Hok as (d1 & H1 & H2).
    eapply shrinks_trans; [eapply fc_step_shrinks; eauto|eauto].
Qed.

Lemma fc_loop_keeps var val a a' cs d d' :
  fc_loop var val a cs d = Ok d' -> a !! var = Some val -> a ⊆ a' ->
  Forall (satisfies a') cs -> keeps a a' d d'.
Proof.
  revert d. induction cs as [|c cs IH]; intros d Hok Hvar Hsub Hsat; simpl in Hok.
  - injection Hok as <-. apply keeps_refl.
  - apply res_bind_Ok in Hok as (d1 & H1 & H2). apply Forall_cons_iff in Hsat as [Hc Hcs].
    apply keeps_trans with d1; [eapply fc_step_keeps|apply IH]; eauto.
Qed.
End ForwardCheck.

(** ** The search invariant and the value loop *)

Section Search.
Context {V : Type} `{Countable V} {W : Type}.
Variables (variables : list V) (constraints : list (constraint V W))
          (soft_score : V -> W -> Z) (domains : gmap V (list W)).
Hypothesis Hwf : well_formed variables constraints.
Implicit Types (a : gmap V W) (d : gmap V (list W)).

Abbreviation score := (score variables soft_score).
Abbreviation solution := (solution variables constraints domains).
Abbreviation state := (@search V _ _ W).

(** What holds of [(assignment, curr_domains, curr_score)] at every
    call of the recursion. *)
Record Inv a d (cur : Z) : Prop := {
  inv_vals : forall v w, a !! v = Some w -> In v variables /\ In w (dget domains v);
  inv_sat : Forall (satisfies a) constraints;
  inv_score : cur = score a;
  inv_keys : forall v, is_Some (d !! v) <-> In v variables;
  inv_sub : forall v, incl (dget d v) (dget domains v)
}.

(** A completion [a'] of [a] takes, on each unassigned variable, a
    value of the current domain. *)
Definition fits d a (a' : gmap V W) : Prop :=
  forall v w, In v variables -> a !! v = None -> a' !! v = Some w -> In w (dget d v).

(** [s <= best] and [best <= best'] where [None] is [-inf]. *)
Definition below (s : Z) (b : option Z) : Prop :=
  match b with Some t => (s <= t)%Z | None => False end.
Definition best_le (b1 b2 : option Z) : Prop :=
  match b1, b2 with
  | None, _ => True
  | Some s, Some t => (s <= t)%Z
  | Some _, None => False
  end.

(** The recorded best is [({}, -inf)] or a solution with its score. *)
Definition best_inv (st : state) : Prop :=
  match best_score st with
  | None => best_assignment st = ∅
  | Some s => solution (best_assignment st) /\ score (best_assignment st) = s
  end.

(** Every solution the branch at [(a, d)] could reach scores at most [b]. *)
Definition covers a d (b : option Z) : Prop :=
  forall a', solution a' -> a ⊆ a' -> fits d a a' -> below (score a') b.

(** What a call on [(a, d)] guarantees from [st] to [st']. *)
Definition explored a d (st st' : state) : Prop :=
  assignment st' = a /\ best_inv st' /\ best_le (best_score st) (best_score st') /\
  covers a d (best_score st').

Lemma best_le_refl b : best_le b b.
Proof. destruct b; simpl; lia. Qed.

Lemma best_le_trans b1 b2 b3 : best_le b1 b2 -> best_le b2 b3 -> best_le b1 b3.
Proof. destruct b1, b2, b3; simpl; intuition lia. Qed.

Lemma below_mono s b b' : below s b -> best_le b b' -> below s b'.
Proof. destruct b, b'; simpl; intuition lia. Qed.

Lemma score_insert a var val :
  In var variables -> a !! var = None ->
  score (<[var:=val]> a) = (score a + soft_score var val)%Z.
Proof.
  intros Hin Hnone. unfold CspSpec.score.
  rewrite (sum_by_update (fun v => match a !! v with Some w => soft_score v w | None => 0%Z end)
             _ variables var (proj1 Hwf) Hin).
  - rewrite lookup_insert_eq, Hnone. lia.
  - intros x Hx. rewrite lookup_insert_ne by congruence. reflexivity.
Qed.

Lemma no_self_loops :
  Forall (fun c : constraint V W => let '(X, Y, _) := c in X <> Y) constraints.
Proof.
  eapply List.Forall_impl; [|exact (proj2 Hwf)]. intros [[X Y] p]. tauto.
Qed.

Lemma forward_check_ok a d cur var val a1 :
  Inv a d cur -> exists pruned, forward_check constraints var val d a1 = Ok pruned.
Proof.
  intros HI. apply fc_loop_ok. eapply List.Forall_impl; [|exact (proj2 Hwf)].
  intros [[X Y] p] (HX & HY & _). rewrite !(inv_keys _ _ _ HI). tauto.
Qed.

Lemma Inv_insert a d cur var val pruned :
  Inv a d cur -> In var variables -> a !! var = None -> In val (dget d var) ->
  consistent constraints var val a = true ->
  forward_check constraints var val d (<[var:=val]> a) = Ok pruned ->
  Inv (<[var:=val]> a) pruned (cur + soft_score var val).
Proof.
  intros HI Hin Hnone Hval Hc Hfc. destruct (fc_loop_shrinks _ _ _ _ _ _ Hfc) as [K S].
  split.
  - intros v w. destruct (decide (var = v)) as [<-|Hne].
    + rewrite lookup_insert_eq. intros [= <-]. split; [exact Hin|].
      exact (inv_sub _ _ _ HI var val Hval).
    + rewrite lookup_insert_ne by exact Hne. apply (inv_vals _ _ _ HI).
  - apply consistent_insert; [apply no_self_loops|apply (inv_sat _ _ _ HI)|exact Hc].
  - rewrite score_insert by assumption. rewrite (inv_score _ _ _ HI). reflexivity.
  - intros v. rewrite K. apply (inv_keys _ _ _ HI).
  - intros v. eapply incl_tran; [apply S|apply (inv_sub _ _ _ HI)].
Qed.

Lemma fits_insert a a' d pruned var val :
  fits d a a' -> a' !! var = Some val -> a ⊆ a' -> solution a' ->
  forward_check constraints var val d (<[var:=val]> a) = Ok pruned ->
  fits pruned (<[var:=val]> a) a'.
Proof.
  intros Hfit Hvar Hsub (_ & _ & Hsat) Hfc v w Hv Hnone Hw.
  assert (<[var:=val]> a ⊆ a') as Hsub1.
  { apply map_subseteq_spec. intros i x. destruct (decide (var = i)) as [<-|Hne].
    - rewrite lookup_insert_eq. intros [= <-]. exact Hvar.
    - rewrite lookup_insert_ne by exact Hne. intros Hi. exact (lookup_weaken _ _ _ _ Hi Hsub). }
  eapply (fc_loop_keeps _ _ _ _ _ _ _ Hfc); [apply lookup_insert_eq|exact Hsub1|exact Hsat|exact Hnone|exact Hw|].
  apply lookup_insert_None in Hnone as [Hnone _]. exact (Hfit v w Hv Hnone Hw).
Qed.

Lemma all_nonempty_false_nofit pruned a a' :
  all_nonempty variables pruned a = false -> complete variables a' -> ~ fits pruned a a'.
Proof.
  unfold all_nonempty. intros Hf Hc Hfit. apply not_true_iff_false in Hf. apply Hf.
  apply forallb_forall. intros v Hv. apply in_unassigned in Hv as [Hv Hnone].
  destruct (proj2 (Hc v) Hv) as [w Hw]. pose proof (Hfit v w Hv Hnone Hw) as Hin.
  destruct (dget pruned v); [destruct Hin|reflexivity].
Qed.

Lemma subseteq_insert_l a a' var val :
  a ⊆ a' -> a' !! var = Some val -> <[var:=val]> a ⊆ a'.
Proof.
  intros Hsub Hvar. apply map_subseteq_spec. intros i x.
  destruct (decide (var = i)) as [<-|Hne].
  - rewrite lookup_insert_eq. intros [= <-]. exact Hvar.
  - rewrite lookup_insert_ne by exact Hne. intros Hi. exact (lookup_weaken _ _ _ _ Hi Hsub).
Qed.

(** What the loop needs of the recursive call: on every strictly more
    assigned state satisfying [Inv], it finishes and explores. *)
Definition RecOk (rec : state -> gmap V (list W) -> Z -> result state) a : Prop :=
  forall a1 d1 cur1 st1, Inv a1 d1 cur1 ->
    length (unassigned variables a1) < length (unassigned variables a) ->
    assignment st1 = a1 -> best_inv st1 ->
    exists st', rec st1 d1 cur1 = Ok st' /\ explored a1 d1 st1 st'.

(** One candidate [val]: the tentative assignment, forward check and
    recursive call end in a state whose best covers every solution
    with [a'[var] = val]. *)
Lemma try_value_branch rec var a d cur val pruned st :
  Inv a d cur -> In var variables -> a !! var = None -> In val (dget d var) ->
  consistent constraints var val a = true ->
  forward_check constraints var val d (<[var:=val]> a) = Ok pruned ->
  RecOk rec a -> assignment st = a -> best_inv st ->
  exists st2,
    (if all_nonempty variables pruned (<[var:=val]> a)
     then rec (with_assignment st (<[var:=val]> a)) pruned (cur + soft_score var val)%Z
     else Ok (with_assignment st (<[var:=val]> a))) = Ok st2 /\
    assignment st2 = <[var:=val]> a /\ best_inv st2 /\
    best_le (best_score st) (best_score st2) /\
    forall a', solution a' -> a ⊆ a' -> fits d a a' -> a' !! var = Some val ->
      below (score a') (best_score st2).
Proof.
  intros HI Hin Hnone Hval Hc Hfc Hrec Hst Hbest.
  pose proof (Inv_insert _ _ _ _ _ _ HI Hin Hnone Hval Hc Hfc) as HI1.
  destruct (all_nonempty variables pruned (<[var:=val]> a)) eqn:Hne.
  - destruct (Hrec _ _ _ (with_assignment st (<[var:=val]> a)) HI1
                (unassigned_insert_lt _ _ _ _ Hin Hnone) eq_refl Hbest)
      as (st2 & Hr & Ha2 & Hb2 & Hle2 & Hcov).
    exists st2. do 4 (split; [assumption|]).
    intros a' Hsol Hsub Hfit Hvar. apply Hcov; [exact Hsol| |].
    + apply subseteq_insert_l; assumption.
    + eapply fits_insert; eassumption.
  - exists (with_assignment st (<[var:=val]> a)). do 3 (split; [first [reflexivity|exact Hbest]|]).
    split; [apply best_le_refl|].
    intros a' Hsol Hsub Hfit Hvar. exfalso.
    eapply all_nonempty_false_nofit; [exact Hne|apply Hsol|eapply fits_insert; eassumption].
Qed.

(** The loop over [vals]: it finishes, restores the assignment, keeps
    [best_inv], never lowers the best score, and covers every solution
    whose value for [var] is one of [vals]. *)
Lemma try_values_spec rec var a d cur vals st :
  Inv a d cur -> In var variables -> a !! var = None ->
  (forall val, In val vals -> In val (dget d var)) ->
  RecOk rec a -> assignment st = a -> best_inv st ->
  exists st', try_values variables constraints soft_score rec var d cur vals st = Ok st' /\
    assignment st' = a /\ best_inv st' /\ best_le (best_score st) (best_score st') /\
    forall a', solution a' -> a ⊆ a' -> fits d a a' ->
      (exists w, a' !! var = Some w /\ In w vals) -> below (score a') (best_score st').
Proof.
  intros HI Hin Hnone Hvals Hrec. revert st.
  induction vals as [|val rest IH]; intros st Hst Hbest; cbn [try_values].
  { exists st. split; [reflexivity|]. split; [exact Hst|]. split; [exact Hbest|].
    split; [apply best_le_refl|]. intros a' _ _ _ (w & _ & []). }
  specialize (IH (fun v Hv => Hvals v (or_intror Hv))).
  assert (In val (dget d var)) as Hval by (apply Hvals; left; reflexivity).
  rewrite Hst. destruct (consistent constraints var val a) eqn:Hc.
  - destruct (forward_check_ok a d cur var val (<[var:=val]> a) HI) as [pruned Hfc].
    cbn [assignment with_assignment]. rewrite Hfc. cbn [res_bind].
    destruct (try_value_branch rec var a d cur val pruned st HI Hin Hnone Hval Hc Hfc Hrec Hst Hbest)
      as (st2 & -> & Ha2 & Hb2 & Hle2 & Hcov2). cbn [res_bind].
    destruct (IH (with_assignment st2 (delete var (assignment st2))))
      as (st' & Hr & Ha' & Hb' & Hle' & Hcov').
    { cbn [assignment with_assignment]. rewrite Ha2. apply delete_insert_id. exact Hnone. }
    { exact Hb2. }
    exists st'. split; [exact Hr|]. split; [exact Ha'|]. split; [exact Hb'|].
    split; [eapply best_le_trans; eassumption|].
    intros a' Hsol Hsub Hfit (w & Hw & [<-|Hwin]).
    + eapply below_mono; [apply Hcov2; assumption|exact Hle'].
    + apply Hcov'; eauto.
  - destruct (IH st Hst Hbest) as (st' & Hr & Ha' & Hb' & Hle' & Hcov').
    exists st'. do 4 (split; [assumption|]).
    intros a' Hsol Hsub Hfit (w & Hw & [<-|Hwin]).
    + exfalso. eapply consistent_false; [exact Hc|exact Hsub|exact Hw|apply Hsol].
    + apply Hcov'; eauto.
Qed.
End Search.

(** ** The initial state *)

Section Init.
Context {V : Type} `{Countable V} {W : Type}.
Variables (variables : list V) (constraints : list (constraint V W))
          (soft_score : V -> W -> Z) (domains : gmap V (list W)).

Lemma fold_insert_notin (g : V -> list W) l (m : gmap V (list W)) k :
  ~ In k l -> fold_left (fun m v => <[v := g v]> m) l m !! k = m !! k.
Proof.
  revert m. induction l as [|v l IH]; intros m Hk; simpl; [reflexivity|].
  rewrite IH by (intros Hl; apply Hk; right; exact Hl). apply lookup_insert_ne. intros ->. apply Hk. left. reflexivity.
Qed.

Lemma fold_insert_in (g : V -> list W) l (m : gmap V (list W)) k :
  In k l -> fold_left (fun m v => <[v := g v]> m) l m !! k = Some (g k).
Proof.
  revert m. induction l as [|v l IH]; intros m Hk; simpl; [destruct Hk|].
  destruct (decide (k ∈ l)) as [Hl|Hl]; [apply IH; apply list_elem_of_In; exact Hl|].
  rewrite list_elem_of_In in Hl. destruct Hk as [->|Hk]; [|contradiction].
  rewrite fold_insert_notin by exact Hl. apply lookup_insert_eq.
Qed.

Lemma init_domains_in v :
  In v variables -> init_domains variables domains !! v = Some (dget domains v).
Proof. apply fold_insert_in. Qed.

Lemma init_domains_notin v : ~ In v variables -> init_domains variables domains !! v = None.
Proof. intros Hv. unfold init_domains. rewrite fold_insert_notin by exact Hv. apply lookup_empty. Qed.

Lemma score_empty : score variables soft_score ∅ = 0%Z.
Proof. apply sum_by_zero. intros v _. rewrite lookup_empty. reflexivity. Qed.

(** The first call [backtrack({}, init_domains, 0.0)] meets [Inv]. *)
Lemma Inv_init : Inv variables constraints soft_score domains ∅ (init_domains variables domains) 0.
Proof.
  split.
  - intros v w Hv. rewrite lookup_empty in Hv. discriminate.
  - apply List.Forall_forall. intros [[X Y] p] _ x y Hx. rewrite lookup_empty in Hx. discriminate.
  - symmetry. apply score_empty.
  - intros v. destruct (decide (v ∈ variables)) as [Hv|Hv]; rewrite list_elem_of_In in Hv.
    + rewrite init_domains_in by exact Hv. split; eauto.
    + rewrite init_domains_notin by exact Hv. split; [intros [? Hs]; discriminate|contradiction].
  - intros v. unfold dget at 1. destruct (decide (v ∈ variables)) as [Hv|Hv]; rewrite list_elem_of_In in Hv.
    + rewrite init_domains_in by exact Hv. apply incl_refl.
    + rewrite init_domains_notin by exact Hv. apply incl_nil_l.
Qed.

(** Every solution fits the initial domains. *)
Lemma fits_init a' :
  solution variables constraints domains a' -> fits variables (init_domains variables domains) ∅ a'.
Proof.
  intros (_ & Hwithin & _) v w Hv _ Hw. unfold dget at 1.
  rewrite init_domains_in by exact Hv. exact (Hwithin v w Hw).
Qed.

Lemma unassigned_empty_length : length (unassigned variables (∅ : gmap V W)) <= length variables.
Proof. apply filter_length_self. Qed.
End Init.

(** ** MRV selection, forward checking, and the exceptions of the loop *)

Section Selection.
Context {V : Type} `{Countable V} {W : Type}.
Variables (variables : list V) (constraints : list (constraint V W))
          (soft_score : V -> W -> Z).
Implicit Types (a : gmap V W) (d : gmap V (list W)).

(** MRV picks an unassigned variable whose current domain is no larger
    than any other unassigned variable's, and the first such one in the
    order of [variables]: every unassigned variable before it has a
    strictly larger domain. *)
Lemma mrv_spec d a var :
  mrv variables d a = Ok var ->
  In var variables /\ a !! var = None /\
  (forall v, In v variables -> a !! v = None -> length (dget d var) <= length (dget d v)) /\
  exists pre post, unassigned variables a = pre ++ var :: post /\
    forall v, In v pre -> length (dget d var) < length (dget d v).
Proof.
  intros Hm. destruct (py_min_by_spec _ _ _ Hm) as [Hle Hfirst].
  pose proof (py_min_by_In _ _ _ Hm) as Hin. apply in_unassigned in Hin as [Hin Hnone].
  split; [exact Hin|]. split; [exact Hnone|]. split; [|exact Hfirst].
  intros v Hv Hvn. apply Hle. apply in_unassigned. auto.
Qed.

Lemma mrv_error d a e : mrv variables d a = Err e -> unassigned variables a = [] /\ e = ValueError.
Proof. unfold mrv, py_min_by. destruct (unassigned variables a); intros [=]; auto. Qed.

(** C9. Forward checking only shrinks the domains (and keeps their keys),
    and never removes a value that a consistent extension of the new
    assignment gives an unassigned variable. *)
Theorem forward_check_sound var val d a a' pruned :
  forward_check constraints var val d a = Ok pruned ->
  a !! var = Some val -> a ⊆ a' -> Forall (satisfies a') constraints ->
  shrinks d pruned /\ keeps a a' d pruned.
Proof.
  intros Hfc Hvar Hsub Hsat. split.
  - exact (fc_loop_shrinks _ _ _ _ _ _ Hfc).
  - exact (fc_loop_keeps _ _ _ _ _ _ _ Hfc Hvar Hsub Hsat).
Qed.

(** A computation that either succeeds or raises [KeyError]. *)
Definition ok_or_keyerror {A} (r : result A) (P : A -> Prop) : Prop :=
  match r with Ok x => P x | Err e => e = KeyError end.

Lemma fc_loop_keyerror var val a cs nd :
  ok_or_keyerror (fc_loop var val a cs nd) (fun _ => True).
Proof.
  revert nd. induction cs as [|[[X Y] p] cs IH]; intros nd; simpl; [exact I|].
  unfold prune_entry.
  destruct (bool_decide (X = var) && negb (assigned a Y)); [destruct (nd !! Y)|]; simpl;
    try reflexivity;
    (destruct (bool_decide (Y = var) && negb (assigned a X));
     [match goal with |- context [?m !! X] => destruct (m !! X) end|]; simpl;
     [apply IH|reflexivity|apply IH]).
Qed.

(** Whatever the inputs, the value loop raises nothing but [KeyError]
    and, when it returns, has undone its tentative assignments, provided
    the recursive call does the same. *)
Lemma try_values_keyerror rec var a d cur vals st :
  a !! var = None -> assignment st = a ->
  (forall val st1 d1 cur1, assignment st1 = <[var:=val]> a ->
     ok_or_keyerror (rec st1 d1 cur1) (fun st2 => assignment st2 = assignment st1)) ->
  ok_or_keyerror (try_values variables constraints soft_score rec var d cur vals st)
                 (fun st' => assignment st' = a).
Proof.
  intros Hnone. revert st. induction vals as [|val rest IH]; intros st Hst Hrec; cbn [try_values].
  { exact Hst. }
  rewrite Hst. destruct (consistent constraints var val a); [|apply IH; assumption].
  cbn [assignment with_assignment].
  pose proof (fc_loop_keyerror var val (<[var:=val]> a) constraints d) as Hfc.
  unfold forward_check. destruct (fc_loop _ _ _ _ _) as [pruned|e]; [|exact Hfc]. cbn [res_bind].
  assert (ok_or_keyerror (if all_nonempty variables pruned (<[var:=val]> a)
                          then rec (with_assignment st (<[var:=val]> a)) pruned (cur + soft_score var val)%Z
                          else Ok (with_assignment st (<[var:=val]> a)))
            (fun st2 => assignment st2 = <[var:=val]> a)) as Hr.
  { destruct (all_nonempty _ _ _); [apply (Hrec val); reflexivity|reflexivity]. }
  destruct (if all_nonempty _ _ _ then _ else _) as [st2|e]; [|exact Hr]. cbn [res_bind].
  apply IH; [|exact Hrec]. cbn [assignment with_assignment]. simpl in Hr. rewrite Hr.
  apply delete_insert_id. exact Hnone.
Qed.
End Selection.

(** ** Properties of the search steps *)

(** C8. The loop over candidate values (back_CSP.py 51-67), given a
    recursive call that explores every more-assigned state, returns; it
    deletes every value it tentatively assigned, keeps the best pair a
    solution with its score, never lowers [best_score], and covers every
    solution extending the assignment whose value for [var] is one of
    the candidates. *)
Theorem try_values_invariant {V W : Type} `{Countable V}
    (variables : list V) (constraints : list (constraint V W))
    (soft_score : V -> W -> Z) (domains : gmap V (list W))
    rec var (a : gmap V W) (d : gmap V (list W)) cur (vals : list W) (st : search) :
  well_formed variables constraints ->
  Inv variables constraints soft_score domains a d cur ->
  In var variables -> a !! var = None ->
  (forall val, In val vals -> In val (dget d var)) ->
  RecOk variables constraints soft_score domains rec a ->
  assignment st = a -> best_inv variables constraints soft_score domains st ->
  exists st', try_values variables constraints soft_score rec var d cur vals st = Ok st' /\
    assignment st' = a /\ best_inv variables constraints soft_score domains st' /\
    best_le (best_score st) (best_score st') /\
    forall a', solution variables constraints domains a' -> a ⊆ a' ->
      fits variables d a a' -> (exists w, a' !! var = Some w /\ In w vals) ->
      below (score variables soft_score a') (best_score st').
Proof. intros Hwf. apply try_values_spec. exact Hwf. Qed.

(** C10. The consistency loop of lines 52-58 rejects a value only when no
    assignment extending the current one with that value satisfies every
    constraint. *)
Theorem consistent_rejects_only_non_solutions {V W : Type} `{Countable V}
    (constraints : list (constraint V W)) var val (a a' : gmap V W) :
  consistent constraints var val a = false -> a ⊆ a' -> a' !! var = Some val ->
  ~ Forall (satisfies a') constraints.
Proof. apply consistent_false. Qed.

(** One step of the search (lines 62-64) keeps [Inv]: assigning an
    unassigned variable a value of its current domain that passed the
    consistency loop, adding its soft score, and forward checking gives
    a consistent assignment within the domains whose score is exactly the
    new [curr_score], and domains with the same keys, only smaller. *)
Theorem assign_preserves_Inv {V W : Type} `{Countable V}
    (variables : list V) (constraints : list (constraint V W))
    (soft_score : V -> W -> Z) (domains : gmap V (list W))
    (a : gmap V W) (d pruned : gmap V (list W)) cur var val :
  well_formed variables constraints ->
  Inv variables constraints soft_score domains a d cur ->
  In var variables -> a !! var = None -> In val (dget d var) ->
  consistent constraints var val a = true ->
  forward_check constraints var val d (<[var:=val]> a) = Ok pruned ->
  Inv variables constraints soft_score domains (<[var:=val]> a) pruned (cur + soft_score var val).
Proof. intros Hwf. apply Inv_insert. exact Hwf. Qed.

(** The recursion measure: assigning a variable that [mrv] can
    return (one of [variables], not yet assigned) strictly shrinks the
    list of unassigned variables, which is at most [len(variables)] long. *)
Theorem assign_decreases_measure {V W : Type} `{Countable V}
    (variables : list V) (a : gmap V W) var val :
  In var variables -> a !! var = None ->
  length (unassigned variables (<[var:=val]> a)) < length (unassigned variables a) /\
  length (unassigned variables a) <= length variables.
Proof.
  intros Hin Hnone. split; [exact (unassigned_insert_lt variables a var val Hin Hnone)|].
  apply filter_length_self.
Qed.

(** ** Constraints of a variable with itself

    A constraint [(X, X, cons)] names one variable twice.  The
    consistency loop only looks at it when [X] is the variable being
    assigned and [X] is already in the assignment, and forward checking
    only when [X] is the variable just assigned and [X] is not in the
    assignment: the search never satisfies either condition, so these
    constraints are never evaluated. *)

Definition self_constraint {V W : Type} (c : constraint V W) : Prop := let '(X, Y, _) := c in X = Y.

#[export] Instance self_constraint_dec {V W : Type} `{EqDecision V} (c : constraint V W) :
  Decision (self_constraint c).
Proof. destruct c as [[X Y] p]. unfold self_constraint. apply _. Defined.

Section SelfConstraints.
Context {V : Type} `{Countable V} {W : Type}.
Variables (variables : list V) (constraints : list (constraint V W))
          (soft_score : V -> W -> Z).
Abbreviation others := (filter (fun c => ~ self_constraint c) constraints).

Lemma consistent_drop_self var val (a : gmap V W) :
  a !! var = None -> consistent constraints var val a = consistent others var val a.
Proof.
  intros Hnone. unfold consistent. induction constraints as [|[[X Y] p] cs IH]; [reflexivity|].
  rewrite filter_cons. simpl. case_decide as Hself; simpl; rewrite IH; [reflexivity|].
  unfold self_constraint in Hself. subst Y.
  case_bool_decide; subst; rewrite ?Hnone; reflexivity.
Qed.

Lemma forward_check_drop_self var val d (a : gmap V W) :
  is_Some (a !! var) -> forward_check constraints var val d a = forward_check others var val d a.
Proof.
  intros Hsome. unfold forward_check. revert d.
  induction constraints as [|[[X Y] p] cs IH]; intros d; [reflexivity|].
  rewrite filter_cons. case_decide as Hself; cbn [fc_loop].
  - destruct (fc_step var val a d (X, Y, p)); cbn [res_bind]; [apply IH|reflexivity].
  - unfold self_constraint in Hself. subst Y. unfold fc_step.
    assert (assigned a X = true \/ X <> var) as Hx.
    { destruct (decide (X = var)) as [->|Hne]; [left; apply assigned_true, Hsome|right; exact Hne]. }
    destruct Hx as [Hx|Hx]; [rewrite Hx|rewrite bool_decide_eq_false_2 by exact Hx];
      rewrite ?andb_false_r; simpl; apply IH.
Qed.

(** The value loop ignores them, for recursive calls that do. *)
Lemma try_values_drop_self rec1 rec2 var d cur vals (st : search) :
  (forall st' d' cur', rec1 st' d' cur' = rec2 st' d' cur') ->
  assignment st !! var = None ->
  try_values variables constraints soft_score rec1 var d cur vals st =
  try_values variables others soft_score rec2 var d cur vals st.
Proof.
  intros Hrec. revert st. induction vals as [|val vals IH]; intros st Hnone; [reflexivity|].
  cbn [try_values]. rewrite <- consistent_drop_self by exact Hnone.
  destruct (consistent constraints var val (assignment st)); [|apply IH, Hnone].
  cbn [assignment with_assignment].
  rewrite <- forward_check_drop_self by (rewrite lookup_insert_eq; eauto).
  destruct (forward_check constraints var val d (<[var:=val]> (assignment st))) as [pruned|e]; [|reflexivity].
  cbn [res_bind]. rewrite Hrec.
  destruct (if all_nonempty variables pruned (<[var:=val]> (assignment st))
            then rec2 _ pruned _ else _) as [st2|e]; [|reflexivity].
  cbn [res_bind]. apply IH. apply lookup_delete_eq.
Qed.
End SelfConstraints.
