(* ===== verification/BackCSP.v ===== *)
(** * The branch-and-bound engine of src/Backtracking_CSP/back_CSP.py

    [backtrack] is the recursive procedure of lines 31-67 with the shared
    search context threaded as a [search] record; [backtracking_csp] is
    the entry point of lines 4-71.  The theorems show the search finishes
    with enough fuel, restores the assignment it mutates, never lowers the
    best score, and returns an optimal solution. *)

From Stdlib Require Import ZArith Lia Permutation.
From stdpp Require Import base list gmap.
From S2P Require Import Prelude CspSpec BruteForce CspCore.

Section Engine.
Context {V : Type} `{Countable V} {W : Type}.
Variables (variables : list V) (constraints : list (constraint V W))
          (soft_score : V -> W -> Z).

(** Lines 34-38: [rem_upper], the sum over unassigned variables of the
    best score left in their current domain ([0] when it is empty). *)
Definition rem_upper (curr_domains : gmap V (list W)) (a : gmap V W) : Z :=
  sum_by (fun v => match dget curr_domains v with
                   | [] => 0%Z
                   | x :: xs => py_max (soft_score v x) (map (soft_score v) xs)
                   end) (unassigned variables a).

(** [x <= best_score] and [x > best_score] with [best_score = -inf]
    as [None]. *)
Definition le_best (x : Z) (b : option Z) : bool :=
  match b with Some s => (x <=? s)%Z | None => false end.
Definition gt_best (x : Z) (b : option Z) : bool :=
  match b with Some s => (s <? x)%Z | None => true end.

(** [backtrack(assignment, curr_domains, curr_score)], lines 31-67. *)
Fixpoint backtrack (fuel : nat) (st : search) (curr_domains : gmap V (list W))
    (curr_score : Z) : result search :=
  match fuel with
  | O => Err OutOfFuel
  | S fuel' =>
      if le_best (curr_score + rem_upper curr_domains (assignment st))%Z (best_score st)
      then Ok st
      else
        match unassigned variables (assignment st) with
        | [] =>
            if gt_best curr_score (best_score st)
            then Ok {| assignment := assignment st;
                       best_assignment := assignment st;
                       best_score := Some curr_score |}
            else Ok st
        | _ :: _ =>
            var <- mrv variables curr_domains (assignment st) ;;
            let vals := sort_desc (soft_score var) (dget curr_domains var) in
            try_values variables constraints soft_score (backtrack fuel')
                       var curr_domains curr_score vals st
        end
  end.

(** [backtracking_csp(variables, domains, constraints, soft_score)]:
    the recursion depth is at most [len(variables)], so one more unit
    of fuel than that is enough ([backtracking_csp_ok]). *)
Definition backtracking_csp (domains : gmap V (list W)) : result (gmap V W * option Z) :=
  st <- backtrack (S (length variables))
                  {| assignment := ∅; best_assignment := ∅; best_score := None |}
                  (init_domains variables domains) 0%Z ;;
  Ok (best_assignment st, best_score st).
End Engine.

(** ** Correctness of the search *)

Section Correctness.
Context {V : Type} `{Countable V} {W : Type}.
Variables (variables : list V) (constraints : list (constraint V W))
          (soft_score : V -> W -> Z) (domains : gmap V (list W)).
Hypothesis Hwf : well_formed variables constraints.
Implicit Types (a : gmap V W) (d : gmap V (list W)).

Abbreviation score := (score variables soft_score).
Abbreviation solution := (solution variables constraints domains).
Abbreviation Inv := (Inv variables constraints soft_score domains).
Abbreviation fits := (fits variables).
Abbreviation explored := (explored variables constraints soft_score domains).

(** The score of a completion splits into the assigned part (the
    current score) and the unassigned part. *)
Lemma score_split a a' :
  a ⊆ a' ->
  score a' = (score a + sum_by (fun v => match a' !! v with
                                        | Some w => soft_score v w | None => 0%Z end)
                               (unassigned variables a))%Z.
Proof.
  intros Hsub. unfold CspSpec.score, unassigned.
  rewrite (sum_by_filter (assigned a)). f_equal.
  rewrite <- sum_by_if. apply sum_by_ext. intros v _.
  destruct (a !! v) as [w|] eqn:Hv.
  - rewrite (proj2 (assigned_true a v)) by eauto. rewrite (lookup_weaken _ _ _ _ Hv Hsub). reflexivity.
  - rewrite (proj2 (assigned_false a v)) by exact Hv. reflexivity.
Qed.

(** The bound of lines 34-38 is admissible: no completion that fits the
    current domains scores above [curr_score + rem_upper]. *)
Lemma rem_upper_bound a d cur a' :
  Inv a d cur -> a ⊆ a' -> complete variables a' -> fits d a a' ->
  (score a' <= cur + rem_upper variables soft_score d a)%Z.
Proof.
  intros HI Hsub Hc Hfit. rewrite (score_split a a' Hsub), <- (inv_score _ _ _ _ _ _ _ HI).
  apply Z.add_le_mono_l. unfold rem_upper. apply sum_by_le. intros v Hv.
  apply in_unassigned in Hv as [Hv Hnone].
  destruct (proj2 (Hc v) Hv) as [w Hw]. rewrite Hw.
  pose proof (Hfit v w Hv Hnone Hw) as Hin. destruct (dget d v) as [|x xs]; [destruct Hin|].
  apply py_max_ge. change (soft_score v x :: map (soft_score v) xs) with (map (soft_score v) (x :: xs)).
  apply in_map. exact Hin.
Qed.

(** With no variable left, the assignment is a solution scored [cur],
    and the only solution extending it. *)
Lemma complete_solution a d cur :
  Inv a d cur -> unassigned variables a = [] -> solution a.
Proof.
  intros HI Hun. split; [|split].
  - intros v. split; [intros [w Hw]; exact (proj1 (inv_vals _ _ _ _ _ _ _ HI v w Hw))|].
    intros Hv. destruct (a !! v) as [w|] eqn:Hnone; [eauto|].
    assert (In v (unassigned variables a)) as Hin by (apply in_unassigned; auto).
    rewrite Hun in Hin. destruct Hin.
  - intros v w Hw. exact (proj2 (inv_vals _ _ _ _ _ _ _ HI v w Hw)).
  - exact (inv_sat _ _ _ _ _ _ _ HI).
Qed.

Lemma complete_extension a a' :
  complete variables a -> complete variables a' -> a ⊆ a' -> a' = a.
Proof.
  intros Hc Hc' Hsub. apply map_eq. intros v.
  destruct (a !! v) as [w|] eqn:Hv; [exact (lookup_weaken _ _ _ _ Hv Hsub)|].
  destruct (a' !! v) as [w'|] eqn:Hv'; [|reflexivity].
  assert (is_Some (a !! v)) as [? Hs] by (apply Hc, Hc'; eauto). congruence.
Qed.

(** The completion step (back_CSP.py 42-46, Back_CSP.py 60-64): record
    the full assignment when it beats the best. *)
Lemma complete_branch a d cur st :
  Inv a d cur -> unassigned variables a = [] -> assignment st = a ->
  best_inv variables constraints soft_score domains st ->
  explored a d st (if gt_best cur (best_score st)
                   then {| assignment := a; best_assignment := a; best_score := Some cur |}
                   else st).
Proof.
  intros HI Hun Hst Hbest. pose proof (complete_solution a d cur HI Hun) as Hsol.
  pose proof (inv_score _ _ _ _ _ _ _ HI) as Hcur.
  assert (forall a', solution a' -> a ⊆ a' -> score a' = cur) as Honly
    by (intros a' Hsol' Hsub; rewrite (complete_extension a a' (proj1 Hsol) (proj1 Hsol') Hsub), Hcur; reflexivity).
  destruct (gt_best cur (best_score st)) eqn:Hgt.
  - split; [reflexivity|]. split; [split; [exact Hsol|symmetry; exact Hcur]|]. split.
    + destruct (best_score st); simpl in *; [apply Z.ltb_lt in Hgt; lia|exact I].
    + intros a' Hsol' Hsub _. simpl. rewrite (Honly a' Hsol' Hsub). lia.
  - split; [exact Hst|]. split; [exact Hbest|]. split; [apply best_le_refl|].
    intros a' Hsol' Hsub _. rewrite (Honly a' Hsol' Hsub).
    destruct (best_score st); simpl in *; [apply Z.ltb_ge in Hgt; lia|discriminate].
Qed.

(** The branching step: the MRV variable, any ordering [vals] of its
    current domain, and the value loop explore the state. *)
Lemma mrv_branch rec a d cur st var vals :
  Inv a d cur -> mrv variables d a = Ok var ->
  (forall w, In w (dget d var) <-> In w vals) ->
  RecOk variables constraints soft_score domains rec a ->
  assignment st = a -> best_inv variables constraints soft_score domains st ->
  exists st', try_values variables constraints soft_score rec var d cur vals st = Ok st' /\
              explored a d st st'.
Proof.
  intros HI Hvar Hvals Hrec Hst Hbest.
  assert (In var (unassigned variables a)) as Hin by (eapply py_min_by_In; exact Hvar).
  apply in_unassigned in Hin as [Hin Hnone].
  destruct (try_values_spec variables constraints soft_score domains Hwf rec var a d cur vals st
              HI Hin Hnone (fun w Hw => proj2 (Hvals w) Hw) Hrec Hst Hbest)
    as (st' & Hr & Ha' & Hb' & Hle' & Hcov).
  exists st'. split; [exact Hr|]. do 3 (split; [assumption|]).
  intros a' Hsol Hsub Hfit. apply Hcov; try assumption.
  destruct (proj2 (proj1 Hsol var) Hin) as [w Hw]. exists w. split; [exact Hw|].
  apply Hvals. exact (Hfit var w Hin Hnone Hw).
Qed.

Lemma mrv_nonempty d a v vs :
  unassigned variables a = v :: vs -> exists var, mrv variables d a = Ok var.
Proof. unfold mrv. intros ->. apply py_min_by_nonempty. Qed.

(** [backtrack] with more fuel than unassigned variables finishes and
    explores: it restores the assignment it was given, keeps the best
    pair a scored solution, never lowers [best_score], and afterwards
    [best_score] is at least the score of every solution that extends
    the assignment within the current domains. *)
Theorem backtrack_explores fuel a d cur st :
  length (unassigned variables a) < fuel -> Inv a d cur ->
  assignment st = a -> best_inv variables constraints soft_score domains st ->
  exists st', backtrack variables constraints soft_score fuel st d cur = Ok st' /\
              explored a d st st'.
Proof.
  revert a d cur st. induction fuel as [|fuel IH]; intros a d cur st Hfuel HI Hst Hbest; [lia|].
  cbn [backtrack]. rewrite Hst.
  destruct (le_best (cur + rem_upper variables soft_score d a) (best_score st)) eqn:Hprune.
  { (* the bound prunes the branch *)
    exists st. split; [reflexivity|]. split; [exact Hst|]. split; [exact Hbest|].
    split; [apply best_le_refl|]. intros a' Hsol Hsub Hfit.
    pose proof (rem_upper_bound a d cur a' HI Hsub (proj1 Hsol) Hfit).
    destruct (best_score st); simpl in *; [apply Z.leb_le in Hprune; lia|discriminate]. }
  destruct (unassigned variables a) as [|v vs] eqn:Hun.
  - eexists. split; [|apply complete_branch; eassumption].
    destruct (gt_best cur (best_score st)); reflexivity.
  - destruct (mrv_nonempty d a v vs Hun) as [var Hvar]. rewrite Hvar. cbn [res_bind].
    apply mrv_branch; try assumption.
    + intros w. split; apply Permutation_in; [symmetry|]; apply sort_desc_perm.
    + intros a1 d1 cur1 st1 HI1 Hlt Hst1 Hbest1. apply IH; try assumption.
      rewrite Hun in Hlt. simpl in *. lia.
Qed.
End Correctness.

(** ** The entry point meets the contract *)

Section EntryPoint.
Context {V : Type} `{Countable V} {W : Type}.
Variables (variables : list V) (constraints : list (constraint V W))
          (soft_score : V -> W -> Z).

(** From the result of [backtrack] on the initial state to [optimal]. *)
Lemma optimal_of_explored domains st' :
  explored variables constraints soft_score domains ∅ (init_domains variables domains)
    {| assignment := ∅; best_assignment := ∅; best_score := None |} st' ->
  optimal variables constraints soft_score domains (best_assignment st', best_score st').
Proof.
  intros (_ & Hb & _ & Hcov). unfold optimal, best_inv in *. simpl.
  destruct (best_score st') as [s|].
  - destruct Hb as [Hsol Hs]. split; [exact Hsol|]. split; [exact Hs|].
    intros a' Hsol'. exact (Hcov a' Hsol' (map_empty_subseteq _) (fits_init _ _ _ _ Hsol')).
  - split; [exact Hb|]. intros a' Hsol'.
    exact (Hcov a' Hsol' (map_empty_subseteq _) (fits_init _ _ _ _ Hsol')).
Qed.
End EntryPoint.

Section MainTheorem.
Context {V : Type} `{Countable V} {W : Type}.
Variables (variables : list V) (constraints : list (constraint V W))
          (soft_score : V -> W -> Z).

(** On a well-formed problem, [backtracking_csp] returns (never
    raising, never exhausting its recursion bound) an optimal solution
    with its score, or [({}, -inf)] exactly when there is no solution. *)
Theorem backtracking_csp_contract (domains : gmap V (list W)) :
  well_formed variables constraints ->
  exists r, backtracking_csp variables constraints soft_score domains = Ok r /\
            optimal variables constraints soft_score domains r.
Proof.
  intros Hwf.
  destruct (backtrack_explores variables constraints soft_score domains Hwf
              (S (length variables)) ∅ (init_domains variables domains) 0%Z
              {| assignment := ∅; best_assignment := ∅; best_score := None |})
    as (st' & Hr & Hexp).
  - pose proof (unassigned_empty_length variables (W:=W)). lia.
  - apply Inv_init.
  - reflexivity.
  - reflexivity.
  - unfold backtracking_csp. rewrite Hr. eexists. split; [reflexivity|].
    apply optimal_of_explored. exact Hexp.
Qed.
End MainTheorem.

(** The engine as an implementation of the solver interface. *)
Definition back_csp_solver {V W : Type} `{Countable V} : CspSolver V W :=
  fun variables domains constraints soft_score =>
    backtracking_csp variables constraints soft_score domains.

Lemma back_csp_solver_correct {V W : Type} `{Countable V} :
  @CspSolverCorrect V W _ _ back_csp_solver.
Proof. intros variables domains constraints soft_score. apply backtracking_csp_contract. Qed.

(** C2. Optimality against brute force: on a well-formed problem the
    score [backtracking_csp] returns equals the best score over an
    exhaustive enumeration of all consistent complete assignments. *)
Theorem backtracking_csp_matches_brute_force {V W : Type} `{Countable V}
    (variables : list V) (constraints : list (constraint V W))
    (soft_score : V -> W -> Z) (domains : gmap V (list W)) :
  well_formed variables constraints ->
  exists r, backtracking_csp variables constraints soft_score domains = Ok r /\
            r.2 = (brute_force variables constraints soft_score domains).2.
Proof.
  intros Hwf. destruct (backtracking_csp_contract variables constraints soft_score domains Hwf)
    as (r & Hr & Hopt).
  exists r. split; [exact Hr|]. eapply optimal_same_score; [exact Hopt|].
  apply brute_force_optimal. exact (proj1 Hwf).
Qed.

(** ** Termination and exceptions on every input *)

Section Totality.
Context {V : Type} `{Countable V} {W : Type}.
Variables (variables : list V) (constraints : list (constraint V W))
          (soft_score : V -> W -> Z).

Lemma backtrack_keyerror fuel st d cur :
  length (unassigned variables (assignment st)) < fuel ->
  ok_or_keyerror (backtrack variables constraints soft_score fuel st d cur)
                 (fun st' => assignment st' = assignment st).
Proof.
  revert st d cur. induction fuel as [|fuel IH]; intros st d cur Hfuel; [lia|].
  cbn [backtrack]. destruct (le_best _ _); [reflexivity|].
  destruct (unassigned variables (assignment st)) as [|v vs] eqn:Hun.
  - destruct (gt_best _ _); reflexivity.
  - destruct (mrv_nonempty variables d (assignment st) v vs Hun) as [var Hvar].
    rewrite Hvar. cbn [res_bind].
    pose proof (py_min_by_In _ _ _ Hvar) as Hin. apply in_unassigned in Hin as [Hin Hnone].
    apply try_values_keyerror; [exact Hnone|reflexivity|].
    intros val st1 d1 cur1 Hst1. apply IH. rewrite Hst1.
    pose proof (unassigned_insert_lt variables (assignment st) var val Hin Hnone) as Hlt.
    rewrite Hun in Hlt. simpl in *. lia.
Qed.

(** C6. On every input, well-formed or not, [backtracking_csp] runs to
    completion: its recursion never exceeds [len(variables)] levels and
    the only exception it can raise is [KeyError] (never [ValueError]
    from [min()] on an empty sequence). *)
Theorem backtracking_csp_only_keyerror (domains : gmap V (list W)) e :
  backtracking_csp variables constraints soft_score domains = Err e -> e = KeyError.
Proof.
  unfold backtracking_csp.
  pose proof (backtrack_keyerror (S (length variables))
                {| assignment := ∅; best_assignment := ∅; best_score := None |}
                (init_domains variables domains) 0%Z) as Hb.
  destruct (backtrack _ _ _ _ _ _ _) as [st|e']; cbn [res_bind]; [discriminate|].
  intros [= <-]. apply Hb. pose proof (unassigned_empty_length variables (W:=W)). simpl. lia.
Qed.

(** The recursion never evaluates a constraint [(X, X, cons)]. *)
Lemma backtrack_drop_self fuel st d cur :
  backtrack variables constraints soft_score fuel st d cur =
  backtrack variables (filter (fun c => ~ self_constraint c) constraints) soft_score fuel st d cur.
Proof.
  revert st d cur. induction fuel as [|fuel IH]; intros st d cur; [reflexivity|].
  cbn [backtrack]. destruct (le_best _ _); [reflexivity|].
  destruct (unassigned variables (assignment st)) as [|v vs]; [reflexivity|].
  destruct (mrv variables d (assignment st)) as [var|e] eqn:Hvar; cbn [res_bind]; [|reflexivity].
  apply try_values_drop_self; [exact IH|].
  exact (proj1 (proj2 (mrv_spec variables d (assignment st) var Hvar))).
Qed.
End Totality.

(** ** Properties of the engine *)

(** C1. Refinement of the solver contract: on a well-formed problem
    [backtracking_csp] returns, without raising, an optimal solution with
    its score, or the empty assignment with [-inf] exactly when no
    complete assignment within the domains satisfies every constraint. *)
Theorem backtracking_csp_optimal {V W : Type} `{Countable V}
    (variables : list V) (constraints : list (constraint V W))
    (soft_score : V -> W -> Z) (domains : gmap V (list W)) :
  well_formed variables constraints ->
  exists r, backtracking_csp variables constraints soft_score domains = Ok r /\
            optimal variables constraints soft_score domains r.
Proof. apply backtracking_csp_contract. Qed.

(** C13. Constraints of a variable with itself are never checked: on
    every input, [backtracking_csp] returns exactly what it returns once
    every constraint [(X, X, cons)] is removed, so its answer can
    violate such a constraint (the spec requires every hard constraint
    to hold). *)
Theorem backtracking_csp_ignores_self_constraints {V W : Type} `{Countable V}
    (variables : list V) (constraints : list (constraint V W))
    (soft_score : V -> W -> Z) (domains : gmap V (list W)) :
  backtracking_csp variables constraints soft_score domains =
  backtracking_csp variables (filter (fun c => ~ self_constraint c) constraints) soft_score domains.
Proof. unfold backtracking_csp. rewrite backtrack_drop_self. reflexivity. Qed.

(** C5. The invariant of the recursion: a call of [backtrack] with more
    fuel than unassigned variables, on a state meeting [Inv], returns; it
    leaves the shared assignment as it found it (every tentative
    [assignment[var] = val] is deleted again), keeps the best pair a
    solution with its score, never lowers [best_score], and ends with
    [best_score] at least the score of every solution that extends the
    assignment within the current domains. *)
Theorem backtrack_invariant {V W : Type} `{Countable V}
    (variables : list V) (constraints : list (constraint V W))
    (soft_score : V -> W -> Z) (domains : gmap V (list W))
    fuel (a : gmap V W) (d : gmap V (list W)) cur (st : search) :
  well_formed variables constraints ->
  length (unassigned variables a) < fuel ->
  Inv variables constraints soft_score domains a d cur ->
  assignment st = a -> best_inv variables constraints soft_score domains st ->
  exists st', backtrack variables constraints soft_score fuel st d cur = Ok st' /\
    assignment st' = a /\ best_inv variables constraints soft_score domains st' /\
    best_le (best_score st) (best_score st') /\
    covers variables constraints soft_score domains a d (best_score st').
Proof. intros Hwf. apply backtrack_explores. exact Hwf. Qed.

(** C7. The optimistic bound of lines 34-38 is admissible: every
    complete assignment that extends the current one and takes its
    remaining values from the current domains scores at most
    [curr_score + rem_upper]. *)
Theorem rem_upper_admissible {V W : Type} `{Countable V}
    (variables : list V) (constraints : list (constraint V W))
    (soft_score : V -> W -> Z) (domains : gmap V (list W))
    (a a' : gmap V W) (d : gmap V (list W)) cur :
  Inv variables constraints soft_score domains a d cur ->
  a ⊆ a' -> complete variables a' -> fits variables d a a' ->
  (score variables soft_score a' <= cur + rem_upper variables soft_score d a)%Z.
Proof. apply rem_upper_bound. Qed.
