(* ===== verification/PlainCSP.v ===== *)
(** * The earlier engine of src/tests/Back_CSP.py

    The same search as back_CSP.py without the optimistic bound and
    without value ordering: [recurse] (lines 52-89) stops on
    [len(assignment) == len(variables)], selects by MRV, and tries the
    values in domain order with the loop [try_values] shared with
    [CspCore] (lines 67-89 are the same code as back_CSP.py 51-67).  The
    initial copy (line 26) reads [domains[v]] and so raises [KeyError]
    for a variable without a domain.  The theorems show it is optimal on
    well-formed inputs whose variables all have domains, and so returns
    the same score as [backtracking_csp] (pruning equivalence). *)

From Stdlib Require Import ZArith Lia.
From stdpp Require Import base list gmap.
From S2P Require Import Prelude CspSpec BruteForce CspCore BackCSP.

Section Plain.
Context {V : Type} `{Countable V} {W : Type}.
Variables (variables : list V) (constraints : list (constraint V W))
          (soft_score : V -> W -> Z).

(** [init_domains = {v: list(domains[v]) for v in variables}] *)
Fixpoint copy_domains (domains : gmap V (list W)) (vs : list V)
    (acc : gmap V (list W)) : result (gmap V (list W)) :=
  match vs with
  | [] => Ok acc
  | v :: vs' =>
      match domains !! v with
      | Some dv => copy_domains domains vs' (<[v := dv]> acc)
      | None => Err KeyError
      end
  end.

(** [recurse(assignment, current_domains, curr_score)], lines 52-89. *)
Fixpoint recurse (fuel : nat) (st : search) (current_domains : gmap V (list W))
    (curr_score : Z) : result search :=
  match fuel with
  | O => Err OutOfFuel
  | S fuel' =>
      if Nat.eqb (size (assignment st)) (length variables) then
        if gt_best curr_score (best_score st)
        then Ok {| assignment := assignment st;
                   best_assignment := assignment st;
                   best_score := Some curr_score |}
        else Ok st
      else
        var <- mrv variables current_domains (assignment st) ;;
        try_values variables constraints soft_score (recurse fuel')
                   var current_domains curr_score (dget current_domains var) st
  end.

(** [backtracking_csp] of src/tests/Back_CSP.py, lines 5-93. *)
Definition backtracking_csp_plain (domains : gmap V (list W))
    : result (gmap V W * option Z) :=
  init <- copy_domains domains variables ∅ ;;
  st <- recurse (S (length variables))
                {| assignment := ∅; best_assignment := ∅; best_score := None |}
                init 0%Z ;;
  Ok (best_assignment st, best_score st).
End Plain.

(** ** Correctness *)

Section PlainCorrect.
Context {V : Type} `{Countable V} {W : Type}.
Variables (variables : list V) (constraints : list (constraint V W))
          (soft_score : V -> W -> Z) (domains : gmap V (list W)).
Hypothesis Hwf : well_formed variables constraints.
Implicit Types (a : gmap V W) (d : gmap V (list W)).

Abbreviation Inv := (Inv variables constraints soft_score domains).
Abbreviation explored := (explored variables constraints soft_score domains).

Lemma size_assigned vs a :
  NoDup vs -> (forall v w, a !! v = Some w -> In v vs) ->
  size a = length (List.filter (assigned a) vs).
Proof.
  intros Hnd. revert a. induction Hnd as [|v vs Hv Hnd IH]; intros a Hk.
  - replace a with (∅ : gmap V W); [apply map_size_empty|].
    apply map_eq. intros x. rewrite lookup_empty.
    destruct (a !! x) as [w|] eqn:Hx; [destruct (Hk x w Hx)|reflexivity].
  - assert (forall x, In x vs -> assigned (delete v a) x = assigned a x) as Hsame.
    { intros x Hx. unfold assigned. rewrite lookup_delete_ne; [reflexivity|].
      intros ->. apply Hv, list_elem_of_In, Hx. }
    assert (forall x w, delete v a !! x = Some w -> In x vs) as Hk'.
    { intros x w Hx. apply lookup_delete_Some in Hx as [Hne Hx].
      destruct (Hk x w Hx) as [->|Hin]; [contradiction|exact Hin]. }
    simpl. destruct (a !! v) as [w|] eqn:Hav.
    + rewrite (proj2 (assigned_true a v)) by eauto. simpl.
      rewrite <- (insert_delete_id a v w Hav) at 1.
      rewrite map_size_insert_None by apply lookup_delete_eq. f_equal.
      rewrite (IH _ Hk'). f_equal. apply List.filter_ext_in. exact Hsame.
    + rewrite (proj2 (assigned_false a v) Hav).
      rewrite <- (delete_id a v Hav) at 1. rewrite (IH _ Hk').
      f_equal. apply List.filter_ext_in. exact Hsame.
Qed.

(** Under [Inv], Back_CSP.py's test [len(assignment) == len(variables)]
    is back_CSP.py's test [not unassigned]. *)
Lemma size_check_iff a d cur :
  Inv a d cur ->
  Nat.eqb (size a) (length variables) = true <-> unassigned variables a = [].
Proof.
  intros HI. rewrite Nat.eqb_eq.
  rewrite (size_assigned variables a (proj1 Hwf) (fun v w Hw => proj1 (inv_vals _ _ _ _ _ _ _ HI v w Hw))).
  pose proof (filter_length_partition (assigned a) variables) as Hp.
  unfold unassigned. split.
  - intros Heq. apply length_zero_iff_nil. lia.
  - intros Hnil. rewrite Hnil in Hp. simpl in Hp. lia.
Qed.

Lemma copy_domains_ok vs acc :
  (forall v, In v vs -> is_Some (domains !! v)) ->
  copy_domains domains vs acc = Ok (fold_left (fun m v => <[v := dget domains v]> m) vs acc).
Proof.
  revert acc. induction vs as [|v vs IH]; intros acc Hdom; simpl; [reflexivity|].
  destruct (Hdom v (or_introl eq_refl)) as [dv Hdv]. rewrite Hdv.
  replace dv with (dget domains v) by (unfold dget; rewrite Hdv; reflexivity).
  apply IH. intros x Hx. apply Hdom. right. exact Hx.
Qed.

Theorem recurse_explores fuel a d cur st :
  length (unassigned variables a) < fuel -> Inv a d cur ->
  assignment st = a -> best_inv variables constraints soft_score domains st ->
  exists st', recurse variables constraints soft_score fuel st d cur = Ok st' /\
              explored a d st st'.
Proof.
  revert a d cur st. induction fuel as [|fuel IH]; intros a d cur st Hfuel HI Hst Hbest; [lia|].
  cbn [recurse]. rewrite Hst.
  destruct (Nat.eqb (size a) (length variables)) eqn:Hsize.
  - apply (size_check_iff a d cur HI) in Hsize.
    eexists. split; [|apply complete_branch; eassumption].
    destruct (gt_best cur (best_score st)); reflexivity.
  - destruct (unassigned variables a) as [|v vs] eqn:Hun.
    { apply (size_check_iff a d cur HI) in Hun. congruence. }
    destruct (mrv_nonempty variables d a v vs Hun) as [var Hvar]. rewrite Hvar. cbn [res_bind].
    apply mrv_branch; try assumption.
    + intros w. reflexivity.
    + intros a1 d1 cur1 st1 HI1 Hlt Hst1 Hbest1. apply IH; try assumption.
      rewrite Hun in Hlt. simpl in *. lia.
Qed.

(** On a well-formed problem whose variables all have a domain, the
    plain engine returns an optimal solution. *)
Theorem backtracking_csp_plain_contract :
  (forall v, In v variables -> is_Some (domains !! v)) ->
  exists r, backtracking_csp_plain variables constraints soft_score domains = Ok r /\
            optimal variables constraints soft_score domains r.
Proof.
  intros Hdom.
  destruct (recurse_explores (S (length variables)) ∅ (init_domains variables domains) 0%Z
              {| assignment := ∅; best_assignment := ∅; best_score := None |})
    as (st' & Hr & Hexp).
  - pose proof (unassigned_empty_length variables (W:=W)). lia.
  - apply Inv_init.
  - reflexivity.
  - reflexivity.
  - unfold backtracking_csp_plain. rewrite copy_domains_ok by exact Hdom.
    cbn [res_bind]. unfold init_domains in Hr. rewrite Hr. eexists. split; [reflexivity|].
    apply optimal_of_explored. exact Hexp.
Qed.
End PlainCorrect.

(** C3. Pruning equivalence: removing the optimistic bound and the value
    ordering does not change the returned score; on every well-formed
    problem whose variables have domains, back_CSP.py and Back_CSP.py
    both return and report the same score. *)
Theorem pruning_equivalence {V W : Type} `{Countable V}
    (variables : list V) (constraints : list (constraint V W))
    (soft_score : V -> W -> Z) (domains : gmap V (list W)) :
  well_formed variables constraints ->
  (forall v, In v variables -> is_Some (domains !! v)) ->
  exists r1 r2,
    backtracking_csp variables constraints soft_score domains = Ok r1 /\
    backtracking_csp_plain variables constraints soft_score domains = Ok r2 /\
    r1.2 = r2.2.
Proof.
  intros Hwf Hdom.
  destruct (backtracking_csp_contract variables constraints soft_score domains Hwf) as (r1 & H1 & O1).
  destruct (backtracking_csp_plain_contract variables constraints soft_score domains Hwf Hdom)
    as (r2 & H2 & O2).
  exists r1, r2. split; [exact H1|]. split; [exact H2|]. eapply optimal_same_score; eassumption.
Qed.

(** C14. Refinement for the plain engine: on a well-formed problem
    whose variables all have an entry in [domains], [backtracking_csp]
    of Back_CSP.py returns an optimal solution with its score, or the
    empty assignment with [-inf] exactly when there is no solution. *)
Theorem backtracking_csp_plain_optimal {V W : Type} `{Countable V}
    (variables : list V) (constraints : list (constraint V W))
    (soft_score : V -> W -> Z) (domains : gmap V (list W)) :
  well_formed variables constraints ->
  (forall v, In v variables -> is_Some (domains !! v)) ->
  exists r, backtracking_csp_plain variables constraints soft_score domains = Ok r /\
            optimal variables constraints soft_score domains r.
Proof. apply backtracking_csp_plain_contract. Qed.
