(* ===== verification/Scenarios.v ===== *)
(** * Concrete instances of the engines

    The example at the end of src/tests/Back_CSP.py (three variables
    A, B, C, pairwise "not equal", a soft-score table), the instances of
    section 8 of the spec, and inputs on which the code departs from the
    spec, evaluated by [vm_compute] on the models of the two
    [backtracking_csp] functions; then the general theorems applied to
    the example.  These evaluations illustrate; the general statements
    are in BackCSP.v and PlainCSP.v. *)

From Stdlib Require Import ZArith String Lia.
From stdpp Require Import base list gmap strings.
From S2P Require Import Prelude CspSpec BruteForce CspCore BackCSP PlainCSP.

Open Scope Z_scope.

Module BackCspExample.
(** [vars = ['A','B','C']] *)
Definition vars : list string := ["A"; "B"; "C"]%string.

(** [doms]; the spec's corrected scenario replaces C's list by [1,2,4]. *)
Definition doms_with (c_dom : list Z) : gmap string (list Z) :=
  list_to_map [("A", [1; 2; 3]); ("B", [1; 2; 3]); ("C", c_dom)]%string.
Definition doms : gmap string (list Z) := doms_with [1; 2].

(** [lambda x,y: x!=y] *)
Definition neq (x y : Z) : bool := negb (x =? y).

(** [hard_cons]: all three pairs different. *)
Definition hard_cons : list (constraint string Z) :=
  [("A", "B", neq); ("A", "C", neq); ("B", "C", neq)]%string.

(** [soft = lambda var,val: {...}.get((var,val), 0)] *)
Definition soft_table : gmap (string * Z) Z :=
  list_to_map [(("A", 1), 10); (("A", 2), 5); (("A", 3), 1);
               (("B", 1), 2); (("B", 2), 8); (("B", 3), 4);
               (("C", 1), 3); (("C", 2), 6)]%string.
Definition soft (var : string) (val : Z) : Z := default 0 (soft_table !! (var, val)).

(** [best_assign, best_sc = backtracking_csp(vars, doms, hard_cons,
    soft)], the call the script runs and prints (lines 120-121), with
    the [backtracking_csp] of the same file. *)
Definition example_run : result (gmap string Z * option Z) :=
  backtracking_csp_plain vars hard_cons soft doms.
End BackCspExample.

Import BackCspExample.

(** An assignment written as the dict the code prints. *)
Definition asg (l : list (string * Z)) : gmap string Z := list_to_map l.

(** The identity score [soft_score(var, val) = val] of the spec's
    reuse scenario. *)
Definition by_value (_ : string) (x : Z) : Z := x.

(** ** Evaluations *)

(** The repository's own example is feasible: [backtracking_csp]
    returns A=1, B=3, C=2 with score 20 (the spec's scenario calls it
    infeasible). *)
Example back_csp_example_result :
  backtracking_csp vars hard_cons soft doms =
  Ok (asg [("A", 1); ("B", 3); ("C", 2)]%string, Some 20).
Proof. vm_compute. reflexivity. Qed.

(** The script tests/Back_CSP.py prints A=1, B=3, C=2 with score 20:
    its own engine agrees with back_CSP.py on its example. *)
Example example_run_result :
  example_run = Ok (asg [("A", 1); ("B", 3); ("C", 2)]%string, Some 20).
Proof. vm_compute. reflexivity. Qed.

(** A constraint naming a variable outside [variables] raises
    [KeyError] in [forward_check] as soon as its other endpoint is
    assigned (the spec says such constraints must not raise, and that
    malformed input fails before the search begins). *)
Example foreign_endpoint_raises :
  backtracking_csp ["X"]%string [("X", "Z", neq)]%string by_value
    (list_to_map [("X", [1])]%string) = Err KeyError.
Proof. vm_compute. reflexivity. Qed.

(** The spec's infeasibility signal: [X != Y] over the singleton
    domains [{1}] gives the empty assignment and [-inf], from both
    engines. *)
Example infeasible_signal :
  backtracking_csp ["X"; "Y"]%string [("X", "Y", neq)]%string by_value
    (list_to_map [("X", [1]); ("Y", [1])]%string) = Ok (∅, None) /\
  backtracking_csp_plain ["X"; "Y"]%string [("X", "Y", neq)]%string by_value
    (list_to_map [("X", [1]); ("Y", [1])]%string) = Ok (∅, None).
Proof. split; vm_compute; reflexivity. Qed.

(** With no constraints a value may be reused: each variable takes
    its best value independently (A=2, B=2, score 4). *)
Example reuse_permitted :
  backtracking_csp ["A"; "B"]%string [] by_value
    (list_to_map [("A", [1; 2]); ("B", [1; 2])]%string) =
  Ok (asg [("A", 2); ("B", 2)]%string, Some 4).
Proof. vm_compute. reflexivity. Qed.

(** No variables: the empty assignment, vacuously optimal, with
    score 0, from both engines. *)
Example empty_variables :
  backtracking_csp [] [] by_value ∅ = Ok (∅, Some 0) /\
  backtracking_csp_plain [] [] by_value ∅ = Ok (∅, Some 0).
Proof. split; vm_compute; reflexivity. Qed.

(** A variable missing from [domains]: back_CSP.py treats its
    domain as empty and reports infeasibility, as the spec asks;
    Back_CSP.py reads [domains[v]] and raises [KeyError]. *)
Example plain_missing_domain_raises :
  backtracking_csp ["X"; "Y"]%string [] by_value (list_to_map [("X", [1])]%string) =
  Ok (∅, None) /\
  backtracking_csp_plain ["X"; "Y"]%string [] by_value (list_to_map [("X", [1])]%string) =
  Err KeyError.
Proof. split; vm_compute; reflexivity. Qed.

(** Duplicate variables, which the spec says fail fast with a
    structural error: back_CSP.py silently returns an assignment, while
    Back_CSP.py never reaches [len(assignment) == len(variables)] and
    raises [ValueError] from [min()] of an empty sequence. *)
Example duplicate_variables :
  backtracking_csp ["X"; "X"]%string [] by_value (list_to_map [("X", [1; 2])]%string) =
  Ok (asg [("X", 2)]%string, Some 2) /\
  backtracking_csp_plain ["X"; "X"]%string [] by_value (list_to_map [("X", [1; 2])]%string) =
  Err ValueError.
Proof. split; vm_compute; reflexivity. Qed.

(** ** The general theorems on the example *)

Lemma example_well_formed : well_formed vars hard_cons.
Proof. apply well_formedb_spec. vm_compute. reflexivity. Qed.

Lemma example_domains : forall v, In v vars -> is_Some (doms !! v).
Proof. intros v [<-|[<-|[<-|[]]]]; vm_compute; eexists; reflexivity. Qed.

Definition example_best : gmap string Z := asg [("A", 1); ("B", 3); ("C", 2)]%string.

Lemma example_best_solution : solution vars hard_cons doms example_best.
Proof. apply solutionb_spec. vm_compute. reflexivity. Qed.

Definition start : @search string _ _ Z := {| assignment := ∅; best_assignment := ∅; best_score := None |}.

Lemma backtracking_csp_optimal_witness :
  exists r, backtracking_csp vars hard_cons soft doms = Ok r /\ optimal vars hard_cons soft doms r.
Proof. apply backtracking_csp_optimal. exact example_well_formed. Defined.

Lemma backtracking_csp_matches_brute_force_witness :
  exists r, backtracking_csp vars hard_cons soft doms = Ok r /\
            r.2 = (brute_force vars hard_cons soft doms).2.
Proof. apply backtracking_csp_matches_brute_force. exact example_well_formed. Defined.

Lemma pruning_equivalence_witness :
  exists r1 r2, backtracking_csp vars hard_cons soft doms = Ok r1 /\
                backtracking_csp_plain vars hard_cons soft doms = Ok r2 /\ r1.2 = r2.2.
Proof. apply pruning_equivalence; [exact example_well_formed|exact example_domains]. Defined.

Lemma backtrack_invariant_witness :
  exists st', backtrack vars hard_cons soft 4 start (init_domains vars doms) 0 = Ok st' /\
    assignment st' = ∅ /\ best_inv vars hard_cons soft doms st' /\
    best_le None (best_score st') /\
    covers vars hard_cons soft doms ∅ (init_domains vars doms) (best_score st').
Proof.
  apply (backtrack_invariant vars hard_cons soft doms 4 ∅ (init_domains vars doms) 0 start).
  - exact example_well_formed.
  - vm_compute. lia.
  - apply Inv_init.
  - reflexivity.
  - reflexivity.
Defined.

Lemma backtracking_csp_only_keyerror_witness :
  backtracking_csp ["X"]%string [("X", "Z", neq)]%string by_value
    (list_to_map [("X", [1])]%string) = Err KeyError /\ KeyError = KeyError.
Proof.
  split; [vm_compute; reflexivity|].
  apply (backtracking_csp_only_keyerror ["X"]%string [("X", "Z", neq)]%string by_value
           (list_to_map [("X", [1])]%string)).
  vm_compute. reflexivity.
Defined.

Lemma rem_upper_admissible_witness :
  (score vars soft example_best <= 0 + rem_upper vars soft (init_domains vars doms) ∅)%Z.
Proof.
  apply (rem_upper_admissible vars hard_cons soft doms ∅ example_best (init_domains vars doms) 0).
  - apply Inv_init.
  - apply map_empty_subseteq.
  - exact (proj1 example_best_solution).
  - exact (fits_init vars hard_cons doms example_best example_best_solution).
Defined.

Lemma try_values_invariant_witness :
  exists st', try_values vars hard_cons soft (backtrack vars hard_cons soft 3) "A"%string
                (init_domains vars doms) 0 (dget (init_domains vars doms) "A"%string) start = Ok st' /\
    assignment st' = ∅ /\ best_inv vars hard_cons soft doms st' /\
    best_le None (best_score st') /\
    forall a', solution vars hard_cons doms a' -> ∅ ⊆ a' ->
      fits vars (init_domains vars doms) ∅ a' ->
      (exists w, a' !! "A"%string = Some w /\ In w (dget (init_domains vars doms) "A"%string)) ->
      below (score vars soft a') (best_score st').
Proof.
  apply (try_values_invariant vars hard_cons soft doms).
  - exact example_well_formed.
  - apply Inv_init.
  - simpl. tauto.
  - reflexivity.
  - tauto.
  - intros a1 d1 cur1 st1 HI1 Hlt Hst1 Hb1.
    apply (backtrack_explores vars hard_cons soft doms example_well_formed); assumption.
  - reflexivity.
  - reflexivity.
Defined.

Lemma forward_check_sound_witness :
  exists pruned,
    forward_check hard_cons "A"%string 1 (init_domains vars doms) (asg [("A", 1)]%string) = Ok pruned /\
    shrinks (init_domains vars doms) pruned /\
    keeps (asg [("A", 1)]%string) example_best (init_domains vars doms) pruned.
Proof.
  eexists. split; [vm_compute; reflexivity|].
  apply (forward_check_sound hard_cons "A"%string 1).
  - vm_compute. reflexivity.
  - reflexivity.
  - apply (bool_decide_eq_true_1 _). vm_compute. reflexivity.
  - exact (proj2 (proj2 example_best_solution)).
Defined.

Lemma consistent_rejects_only_non_solutions_witness :
  consistent hard_cons "B"%string 1 (asg [("A", 1)]%string) = false /\
  ~ Forall (satisfies (asg [("A", 1); ("B", 1)]%string)) hard_cons.
Proof.
  split; [vm_compute; reflexivity|].
  apply (consistent_rejects_only_non_solutions hard_cons "B"%string 1 (asg [("A", 1)]%string)).
  - vm_compute. reflexivity.
  - apply (bool_decide_eq_true_1 _). vm_compute. reflexivity.
  - reflexivity.
Defined.

Lemma assign_preserves_Inv_witness :
  exists pruned,
    forward_check hard_cons "A"%string 1 (init_domains vars doms) (<["A"%string := 1]> ∅) = Ok pruned /\
    Inv vars hard_cons soft doms (<["A"%string := 1]> ∅) pruned (0 + soft "A"%string 1).
Proof.
  eexists. split; [vm_compute; reflexivity|].
  apply (assign_preserves_Inv vars hard_cons soft doms ∅ (init_domains vars doms)).
  - exact example_well_formed.
  - apply Inv_init.
  - simpl. tauto.
  - reflexivity.
  - vm_compute. tauto.
  - vm_compute. reflexivity.
  - vm_compute. reflexivity.
Defined.

Lemma mrv_spec_witness :
  mrv vars (init_domains vars doms) ∅ = Ok "C"%string /\
  (forall v, In v vars -> (∅ : gmap string Z) !! v = None ->
     length (dget (init_domains vars doms) "C"%string) <= length (dget (init_domains vars doms) v))%nat.
Proof.
  assert (mrv vars (init_domains vars doms) ∅ = Ok "C"%string) as Hm by (vm_compute; reflexivity).
  split; [exact Hm|]. apply (mrv_spec vars (init_domains vars doms) ∅ "C"%string Hm).
Defined.

Lemma backtracking_csp_plain_optimal_witness :
  exists r, backtracking_csp_plain vars hard_cons soft doms = Ok r /\ optimal vars hard_cons soft doms r.
Proof. apply backtracking_csp_plain_optimal; [exact example_well_formed|exact example_domains]. Defined.

Lemma assign_decreases_measure_witness :
  (length (unassigned vars (<["A"%string := 1%Z]> (∅ : gmap string Z))) <
   length (unassigned vars (∅ : gmap string Z)) /\
   length (unassigned vars (∅ : gmap string Z)) <= length vars)%nat.
Proof. apply assign_decreases_measure; [simpl; tauto|reflexivity]. Defined.
