(* ===== verification/Fitness.v ===== *)
(** * The fitness of a student/tutor matching

    src/Backtracking_CSP/fitness.py (the same code as
    src/Genetic_Algorithm_Tutas/src/ga/fitness.py and
    src/simulated_annealing/src/fitness.py): [time_score], [score_pair]
    (the weighted score and the number of the five criteria a pair meets)
    and [compute_fitness] (total score and average share of criteria met
    over a chromosome).  A pandas row is a record of the columns read;
    the weights dict is a [gmap string Q] whose missing keys raise
    [KeyError]; a float is a rational, so rounding is not modelled.  The
    theorems bound both results and show that an extra key in [weights]
    lowers [pct_satisfied] below 100% for a pair that meets every
    criterion. *)

From Stdlib Require Import QArith Lqa String Lia.
From stdpp Require Import base list gmap strings.
From S2P Require Import Prelude.

Open Scope Q_scope.

(** The columns of a row of [df_students] or [df_tutors] that
    [score_pair] reads; [fleksibilitas_waktu] may be absent
    ([s.get('fleksibilitas_waktu', False)]). *)
Record row : Type := mk_row {
  mata_kuliah : string;
  subbab : string;
  gaya_belajar : string;
  mode : string;
  waktu : string;
  fleksibilitas_waktu : option bool
}.

(** The result dict [{'total_score': ..., 'pct_satisfied': ...}]. *)
Record fitness : Type := mk_fitness {
  total_score : Q;
  pct_satisfied : Q
}.

(** [r0['best_fitness'] == r1['best_fitness']] in the drivers' checks
    of determinism: dicts of floats compare by value. *)
Definition fitness_eqb (f g : fitness) : bool :=
  Qeq_bool (total_score f) (total_score g) && Qeq_bool (pct_satisfied f) (pct_satisfied g).

(** A Python [int] used as a float. *)
Definition qnat (n : nat) : Q := inject_Z (Z.of_nat n).

(** [1 if cond else 0] *)
Definition match_bit (b : bool) : nat := if b then 1%nat else 0%nat.

(** [time_score(student_time, tutor_time, fleksibel)], lines 6-12. *)
Definition time_score (student_time tutor_time : string) (fleksibel : bool) : Q :=
  if String.eqb student_time tutor_time || fleksibel then 1 else 0.

(** [weights[k]] *)
Definition weight (weights : gmap string Q) (k : string) : result Q :=
  match weights !! k with Some w => Ok w | None => Err KeyError end.

(** [score_pair(s, t, weights)], lines 15-45: the weighted total and the
    count of satisfied criteria. *)
Definition score_pair (s t : row) (weights : gmap string Q) : result (Q * nat) :=
  let subj_match := match_bit (String.eqb (mata_kuliah s) (mata_kuliah t)) in
  let topic_match := match_bit (String.eqb (subbab s) (subbab t)) in
  let style_match := match_bit (String.eqb (gaya_belajar s) (gaya_belajar t)) in
  let mode_match := match_bit (String.eqb (mode s) (mode t)) in
  let fleks := default false (fleksibilitas_waktu s) in
  let time_match := match_bit (String.eqb (waktu s) (waktu t) || fleks) in
  w_subj <- weight weights "mata_kuliah" ;;
  w_topic <- weight weights "subbab" ;;
  w_style <- weight weights "gaya_belajar" ;;
  w_mode <- weight weights "mode" ;;
  w_time <- weight weights "waktu" ;;
  Ok (w_subj * qnat subj_match + w_topic * qnat topic_match +
      w_style * qnat style_match + w_mode * qnat mode_match +
      w_time * qnat time_match,
      (subj_match + topic_match + style_match + mode_match + time_match)%nat).

(** [df.loc[i]] on a frame indexed [0..n-1]. *)
Definition loc (df : list row) (i : nat) : result row :=
  match nth_error df i with Some r => Ok r | None => Err KeyError end.

(** [x / n] for an [int] [n]. *)
Definition py_div (x : Q) (n : nat) : result Q :=
  if Nat.eqb n 0 then Err ZeroDivisionError else Ok (x / qnat n).

(** The loop of lines 64-70 over [enumerate(chromosome)], with the
    running [total_score] and [total_pct]. *)
Fixpoint fitness_loop (df_students df_tutors : list row) (weights : gmap string Q)
    (num_constraints : nat) (stu_id : nat) (chromosome : list nat)
    (total_score total_pct : Q) : result (Q * Q) :=
  match chromosome with
  | [] => Ok (total_score, total_pct)
  | tut_id :: rest =>
      s <- loc df_students stu_id ;;
      t <- loc df_tutors tut_id ;;
      sc <- score_pair s t weights ;;
      pct <- py_div (qnat sc.2) num_constraints ;;
      fitness_loop df_students df_tutors weights num_constraints (S stu_id) rest
                   (total_score + sc.1) (total_pct + pct)
  end.

(** [compute_fitness(chromosome, df_students, df_tutors, weights)],
    lines 48-78. *)
Definition compute_fitness (chromosome : list nat) (df_students df_tutors : list row)
    (weights : gmap string Q) : result fitness :=
  let num_constraints := size weights in
  let n := length chromosome in
  acc <- fitness_loop df_students df_tutors weights num_constraints 0 chromosome 0 0 ;;
  Ok {| total_score := acc.1;
        pct_satisfied := if Nat.ltb 0 n then acc.2 / qnat n else 0 |}.

(** The copy of the fitness module in src/simulated_annealing/src/fitness.py: the
    same code, which the solver of that directory imports. *)
Module SaFitness.

(** [time_score], lines 5-11. *)
Definition time_score (student_time tutor_time : string) (fleksibel : bool) : Q :=
  if String.eqb student_time tutor_time || fleksibel then 1 else 0.

(** [score_pair(s, t, weights)], lines 13-39. *)
Definition score_pair (s t : row) (weights : gmap string Q) : result (Q * nat) :=
  let subj_match := match_bit (String.eqb (mata_kuliah s) (mata_kuliah t)) in
  let topic_match := match_bit (String.eqb (subbab s) (subbab t)) in
  let style_match := match_bit (String.eqb (gaya_belajar s) (gaya_belajar t)) in
  let mode_match := match_bit (String.eqb (mode s) (mode t)) in
  let fleks := default false (fleksibilitas_waktu s) in
  let time_match := match_bit (String.eqb (waktu s) (waktu t) || fleks) in
  w_subj <- weight weights "mata_kuliah" ;;
  w_topic <- weight weights "subbab" ;;
  w_style <- weight weights "gaya_belajar" ;;
  w_mode <- weight weights "mode" ;;
  w_time <- weight weights "waktu" ;;
  Ok (w_subj * qnat subj_match + w_topic * qnat topic_match +
      w_style * qnat style_match + w_mode * qnat mode_match +
      w_time * qnat time_match,
      (subj_match + topic_match + style_match + mode_match + time_match)%nat).

(** The loop over [enumerate(chromosome)], lines 51-61. *)
Fixpoint fitness_loop (df_students df_tutors : list row) (weights : gmap string Q)
    (num_constraints : nat) (stu_id : nat) (chromosome : list nat)
    (total_score total_pct : Q) : result (Q * Q) :=
  match chromosome with
  | [] => Ok (total_score, total_pct)
  | tut_id :: rest =>
      s <- loc df_students stu_id ;;
      t <- loc df_tutors tut_id ;;
      sc <- score_pair s t weights ;;
      pct <- py_div (qnat sc.2) num_constraints ;;
      fitness_loop df_students df_tutors weights num_constraints (S stu_id) rest
                   (total_score + sc.1) (total_pct + pct)
  end.

(** [compute_fitness(chromosome, df_students, df_tutors, weights)],
    lines 41-67. *)
Definition compute_fitness (chromosome : list nat) (df_students df_tutors : list row)
    (weights : gmap string Q) : result fitness :=
  let num_constraints := size weights in
  let n := length chromosome in
  acc <- fitness_loop df_students df_tutors weights num_constraints 0 chromosome 0 0 ;;
  Ok {| total_score := acc.1;
        pct_satisfied := if Nat.ltb 0 n then acc.2 / qnat n else 0 |}.

(** The copy computes what the Backtracking_CSP module computes. *)
Lemma sa_compute_fitness_same chromosome df_students df_tutors weights :
  compute_fitness chromosome df_students df_tutors weights =
  Fitness.compute_fitness chromosome df_students df_tutors weights.
Proof. reflexivity. Qed.
End SaFitness.

(** The copy of the fitness module in src/Genetic_Algorithm_Tutas/src/ga/fitness.py: the
    same code, which the solver of that directory imports. *)
Module GaFitness.

(** [time_score], lines 5-11. *)
Definition time_score (student_time tutor_time : string) (fleksibel : bool) : Q :=
  if String.eqb student_time tutor_time || fleksibel then 1 else 0.

(** [score_pair(s, t, weights)], lines 14-45. *)
Definition score_pair (s t : row) (weights : gmap string Q) : result (Q * nat) :=
  let subj_match := match_bit (String.eqb (mata_kuliah s) (mata_kuliah t)) in
  let topic_match := match_bit (String.eqb (subbab s) (subbab t)) in
  let style_match := match_bit (String.eqb (gaya_belajar s) (gaya_belajar t)) in
  let mode_match := match_bit (String.eqb (mode s) (mode t)) in
  let fleks := default false (fleksibilitas_waktu s) in
  let time_match := match_bit (String.eqb (waktu s) (waktu t) || fleks) in
  w_subj <- weight weights "mata_kuliah" ;;
  w_topic <- weight weights "subbab" ;;
  w_style <- weight weights "gaya_belajar" ;;
  w_mode <- weight weights "mode" ;;
  w_time <- weight weights "waktu" ;;
  Ok (w_subj * qnat subj_match + w_topic * qnat topic_match +
      w_style * qnat style_match + w_mode * qnat mode_match +
      w_time * qnat time_match,
      (subj_match + topic_match + style_match + mode_match + time_match)%nat).

(** The loop over [enumerate(chromosome)], lines 59-68. *)
Fixpoint fitness_loop (df_students df_tutors : list row) (weights : gmap string Q)
    (num_constraints : nat) (stu_id : nat) (chromosome : list nat)
    (total_score total_pct : Q) : result (Q * Q) :=
  match chromosome with
  | [] => Ok (total_score, total_pct)
  | tut_id :: rest =>
      s <- loc df_students stu_id ;;
      t <- loc df_tutors tut_id ;;
      sc <- score_pair s t weights ;;
      pct <- py_div (qnat sc.2) num_constraints ;;
      fitness_loop df_students df_tutors weights num_constraints (S stu_id) rest
                   (total_score + sc.1) (total_pct + pct)
  end.

(** [compute_fitness(chromosome, df_students, df_tutors, weights)],
    lines 48-77. *)
Definition compute_fitness (chromosome : list nat) (df_students df_tutors : list row)
    (weights : gmap string Q) : result fitness :=
  let num_constraints := size weights in
  let n := length chromosome in
  acc <- fitness_loop df_students df_tutors weights num_constraints 0 chromosome 0 0 ;;
  Ok {| total_score := acc.1;
        pct_satisfied := if Nat.ltb 0 n then acc.2 / qnat n else 0 |}.

(** The copy computes what the Backtracking_CSP module computes. *)
Lemma ga_compute_fitness_same chromosome df_students df_tutors weights :
  compute_fitness chromosome df_students df_tutors weights =
  Fitness.compute_fitness chromosome df_students df_tutors weights.
Proof. reflexivity. Qed.
End GaFitness.

(** ** Facts *)

(** The five criteria and their weights. *)
Definition criteria : list string := ["mata_kuliah"; "subbab"; "gaya_belajar"; "mode"; "waktu"]%string.

Definition weights_sum (weights : gmap string Q) : Q :=
  fold_right (fun k acc => default 0 (weights !! k) + acc) 0 criteria.

(** Every criterion has a non-negative weight. *)
Definition weights_ok (weights : gmap string Q) : Prop :=
  forall k, In k criteria -> exists w, weights !! k = Some w /\ 0 <= w.

Lemma qnat_bit b : qnat (match_bit b) = if b then 1 else 0.
Proof. destruct b; reflexivity. Qed.

Lemma weighted_bit_bounds w b : 0 <= w -> 0 <= w * qnat (match_bit b) <= w.
Proof. intros Hw. rewrite qnat_bit. destruct b; split; lra. Qed.

Lemma match_bit_le b : (match_bit b <= 1)%nat.
Proof. destruct b; simpl; lia. Qed.

Lemma weights_ok_lookup weights :
  weights_ok weights ->
  exists w1 w2 w3 w4 w5,
    weights !! "mata_kuliah"%string = Some w1 /\ weights !! "subbab"%string = Some w2 /\
    weights !! "gaya_belajar"%string = Some w3 /\ weights !! "mode"%string = Some w4 /\
    weights !! "waktu"%string = Some w5 /\
    0 <= w1 /\ 0 <= w2 /\ 0 <= w3 /\ 0 <= w4 /\ 0 <= w5 /\
    weights_sum weights == w1 + (w2 + (w3 + (w4 + (w5 + 0)))).
Proof.
  intros Hw.
  destruct (Hw "mata_kuliah"%string) as (w1 & H1 & P1); [simpl; tauto|].
  destruct (Hw "subbab"%string) as (w2 & H2 & P2); [simpl; tauto|].
  destruct (Hw "gaya_belajar"%string) as (w3 & H3 & P3); [simpl; tauto|].
  destruct (Hw "mode"%string) as (w4 & H4 & P4); [simpl; tauto|].
  destruct (Hw "waktu"%string) as (w5 & H5 & P5); [simpl; tauto|].
  exists w1, w2, w3, w4, w5. unfold weights_sum. simpl. rewrite H1, H2, H3, H4, H5.
  simpl. repeat split; try assumption; try reflexivity.
Qed.

(** The bounds of one pair: at most five criteria and a total between
    [0] and the sum of the weights. *)
Lemma score_pair_bounds_gen s t weights :
  weights_ok weights ->
  exists total cnt, score_pair s t weights = Ok (total, cnt) /\ (cnt <= 5)%nat /\
    0 <= total <= weights_sum weights.
Proof.
  intros Hw. destruct (weights_ok_lookup weights Hw)
    as (w1 & w2 & w3 & w4 & w5 & H1 & H2 & H3 & H4 & H5 & P1 & P2 & P3 & P4 & P5 & Hsum).
  unfold score_pair, weight. rewrite H1, H2, H3, H4, H5. simpl.
  eexists _, _. split; [reflexivity|]. split.
  - pose proof (match_bit_le (String.eqb (mata_kuliah s) (mata_kuliah t))).
    pose proof (match_bit_le (String.eqb (subbab s) (subbab t))).
    pose proof (match_bit_le (String.eqb (gaya_belajar s) (gaya_belajar t))).
    pose proof (match_bit_le (String.eqb (mode s) (mode t))).
    pose proof (match_bit_le (String.eqb (waktu s) (waktu t) || default false (fleksibilitas_waktu s))).
    lia.
  - rewrite Hsum.
    pose proof (weighted_bit_bounds w1 (String.eqb (mata_kuliah s) (mata_kuliah t)) P1).
    pose proof (weighted_bit_bounds w2 (String.eqb (subbab s) (subbab t)) P2).
    pose proof (weighted_bit_bounds w3 (String.eqb (gaya_belajar s) (gaya_belajar t)) P3).
    pose proof (weighted_bit_bounds w4 (String.eqb (mode s) (mode t)) P4).
    pose proof (weighted_bit_bounds w5 (String.eqb (waktu s) (waktu t) ||
                                        default false (fleksibilitas_waktu s)) P5).
    lra.
Qed.

Lemma qnat_le a b : (a <= b)%nat -> qnat a <= qnat b.
Proof. intros H. unfold qnat, Qle. simpl. lia. Qed.

Lemma qnat_succ n : qnat (S n) == qnat n + 1.
Proof. unfold qnat. rewrite Nat2Z.inj_succ, <- Z.add_1_r, inject_Z_plus. reflexivity. Qed.

(** The five criteria are keys, so [len(weights)] is at least five. *)
Lemma weights_ok_size weights : weights_ok weights -> (5 <= size weights)%nat.
Proof.
  intros Hw. rewrite <- size_dom.
  assert (list_to_set criteria ⊆ dom weights) as Hsub.
  { intros k Hk. apply elem_of_list_to_set, list_elem_of_In in Hk.
    destruct (Hw k Hk) as (w & Hk' & _). apply elem_of_dom. eauto. }
  apply subseteq_size in Hsub. rewrite size_list_to_set in Hsub; [exact Hsub|].
  apply (bool_decide_eq_true_1 _). vm_compute. reflexivity.
Qed.

(** The share of one pair, [count_sat / num_constraints], is in [0, 1]. *)
Lemma pct_bounds cnt nc : (cnt <= 5)%nat -> (5 <= nc)%nat ->
  exists pct, py_div (qnat cnt) nc = Ok pct /\ 0 <= pct <= 1.
Proof.
  intros Hc Hn. unfold py_div. destruct (Nat.eqb_spec nc 0) as [->|Hnz]; [lia|].
  eexists. split; [reflexivity|].
  assert (0 < qnat nc) as Hpos by (unfold qnat, Qlt; simpl; lia).
  pose proof (qnat_le cnt nc ltac:(lia)). pose proof (qnat_le 0 cnt ltac:(lia)).
  split.
  - apply Qle_shift_div_l; [exact Hpos|]. change (qnat 0) with 0 in *. lra.
  - apply Qle_shift_div_r; [exact Hpos|]. lra.
Qed.

Lemma fitness_loop_bounds df_s df_t weights stu_id chromosome ts tp :
  weights_ok weights ->
  (stu_id + length chromosome <= length df_s)%nat ->
  (forall t, In t chromosome -> (t < length df_t)%nat) ->
  exists ts' tp',
    fitness_loop df_s df_t weights (size weights) stu_id chromosome ts tp = Ok (ts', tp') /\
    ts <= ts' <= ts + qnat (length chromosome) * weights_sum weights /\
    tp <= tp' <= tp + qnat (length chromosome).
Proof.
  intros Hw. pose proof (weights_ok_size weights Hw) as Hsize.
  assert (0 <= weights_sum weights) as HW0.
  { destruct (weights_ok_lookup weights Hw) as (w1 & w2 & w3 & w4 & w5 & _ & _ & _ & _ & _
      & P1 & P2 & P3 & P4 & P5 & ->). lra. }
  revert stu_id ts tp. induction chromosome as [|t rest IH]; intros stu_id ts tp Hlen Ht; simpl.
  { exists ts, tp. split; [reflexivity|]. change (qnat 0) with 0. split; split; lra. }
  unfold loc. destruct (nth_error df_s stu_id) as [s|] eqn:Hs;
    [|apply nth_error_None in Hs; simpl in Hlen; lia].
  destruct (nth_error df_t t) as [tr|] eqn:Htr;
    [|apply nth_error_None in Htr; specialize (Ht t (or_introl eq_refl)); lia].
  cbn [res_bind].
  destruct (score_pair_bounds_gen s tr weights Hw) as (total & cnt & -> & Hcnt & Htot).
  cbn [res_bind fst snd].
  destruct (pct_bounds cnt (size weights) Hcnt Hsize) as (pct & -> & Hpct). cbn [res_bind].
  destruct (IH (S stu_id) (ts + total) (tp + pct)) as (ts' & tp' & Hr & Hts & Htp);
    [simpl in Hlen; lia|intros x Hx; apply Ht; right; exact Hx|].
  exists ts', tp'. split; [exact Hr|].
  assert (qnat (S (length rest)) * weights_sum weights ==
          qnat (length rest) * weights_sum weights + weights_sum weights) as Hm
    by (rewrite qnat_succ; ring).
  pose proof (qnat_succ (length rest)). split; split; lra.
Qed.

(** ** The properties of [score_pair] and [compute_fitness] *)

(** C15. With a non-negative weight for each of the five criteria,
    [score_pair] returns a count of five exactly when the pair agrees on
    subject, topic, style and mode and on the time slot or the student is
    flexible, and then the total is the sum of the five weights. *)
Theorem score_pair_full s t weights :
  weights_ok weights ->
  exists total cnt, score_pair s t weights = Ok (total, cnt) /\
    ((cnt = 5)%nat <-> mata_kuliah s = mata_kuliah t /\ subbab s = subbab t /\
       gaya_belajar s = gaya_belajar t /\ mode s = mode t /\
       (waktu s = waktu t \/ fleksibilitas_waktu s = Some true)) /\
    ((cnt = 5)%nat -> total == weights_sum weights).
Proof.
  intros Hw. destruct (weights_ok_lookup weights Hw)
    as (w1 & w2 & w3 & w4 & w5 & H1 & H2 & H3 & H4 & H5 & _ & _ & _ & _ & _ & Hsum).
  unfold score_pair, weight. rewrite H1, H2, H3, H4, H5. simpl.
  eexists _, _. split; [reflexivity|].
  destruct (String.eqb_spec (mata_kuliah s) (mata_kuliah t));
  destruct (String.eqb_spec (subbab s) (subbab t));
  destruct (String.eqb_spec (gaya_belajar s) (gaya_belajar t));
  destruct (String.eqb_spec (mode s) (mode t));
  destruct (String.eqb_spec (waktu s) (waktu t));
  destruct (fleksibilitas_waktu s) as [[|]|]; simpl;
  (split; [|intros Hc; try lia; change (qnat 1) with 1; lra]);
  split; intros Hc; try lia; try tauto; try discriminate;
  destruct Hc as (? & ? & ? & ? & [?|?]); congruence.
Qed.

Lemma score_pair_size s t weights r :
  score_pair s t weights = Ok r -> size weights <> 0%nat.
Proof.
  unfold score_pair, weight. intros Hr Hs. apply map_size_empty_iff in Hs. subst weights.
  rewrite lookup_empty in Hr. discriminate.
Qed.

Lemma fitness_loop_keyerror df_s df_t weights stu_id chromosome ts tp e :
  fitness_loop df_s df_t weights (size weights) stu_id chromosome ts tp = Err e -> e = KeyError.
Proof.
  revert stu_id ts tp. induction chromosome as [|t rest IH]; intros stu_id ts tp; simpl;
    [discriminate|].
  unfold loc. destruct (nth_error df_s stu_id); [|intros [= <-]; reflexivity].
  destruct (nth_error df_t t); [|intros [= <-]; reflexivity]. cbn [res_bind].
  destruct (score_pair _ _ weights) as [sc|e'] eqn:Hsc; cbn [res_bind].
  - unfold py_div. destruct (Nat.eqb_spec (size weights) 0) as [Hz|_];
      [exfalso; exact (score_pair_size _ _ _ _ Hsc Hz)|]. apply IH.
  - unfold score_pair, weight in Hsc.
    repeat match type of Hsc with context [weights !! ?k] => destruct (weights !! k) end;
      simpl in Hsc; congruence.
Qed.

(** The frame lookups succeed, so [compute_fitness] returns. *)
Lemma compute_fitness_exists chromosome df_s df_t weights :
  weights_ok weights -> (length chromosome <= length df_s)%nat ->
  Forall (fun t => (t < length df_t)%nat) chromosome ->
  exists f, compute_fitness chromosome df_s df_t weights = Ok f.
Proof.
  intros Hw Hlen Ht. rewrite List.Forall_forall in Ht. unfold compute_fitness.
  destruct (fitness_loop_bounds df_s df_t weights 0 chromosome 0 0 Hw Hlen Ht)
    as (ts & tp & -> & _). eexists. reflexivity.
Qed.

(** C16. Given a non-negative weight for each criterion, a student frame
    with a row for each position of the chromosome and tutor indices in
    range, [compute_fitness] returns, and [pct_satisfied] is between 0 and
    1 and [total_score] between 0 and [n] times the sum of the weights. *)
Theorem compute_fitness_bounds chromosome df_s df_t weights :
  weights_ok weights -> (length chromosome <= length df_s)%nat ->
  (forall t, In t chromosome -> (t < length df_t)%nat) ->
  exists f, compute_fitness chromosome df_s df_t weights = Ok f /\
    0 <= pct_satisfied f <= 1 /\
    0 <= total_score f <= qnat (length chromosome) * weights_sum weights.
Proof.
  intros Hw Hlen Ht. unfold compute_fitness.
  destruct (fitness_loop_bounds df_s df_t weights 0 chromosome 0 0 Hw Hlen Ht)
    as (ts & tp & -> & Hts & Htp).
  eexists. split; [reflexivity|]. simpl. split; [|lra].
  destruct (Nat.ltb_spec 0 (length chromosome)) as [Hn|_]; [|lra].
  assert (0 < qnat (length chromosome)) as Hpos by (unfold qnat, Qlt; simpl; lia).
  split; [apply Qle_shift_div_l | apply Qle_shift_div_r]; try exact Hpos; lra.
Qed.

(** C17. [compute_fitness] raises nothing but [KeyError]: a missing
    weight key, student row or tutor row.  [ZeroDivisionError] on an
    empty [weights] cannot occur, since [score_pair] has raised first. *)
Theorem compute_fitness_only_keyerror chromosome df_s df_t weights e :
  compute_fitness chromosome df_s df_t weights = Err e -> e = KeyError.
Proof.
  unfold compute_fitness.
  destruct (fitness_loop _ _ _ _ _ _ _ _) as [acc|e'] eqn:Hl; simpl; [discriminate|].
  intros [= <-]. exact (fitness_loop_keyerror _ _ _ _ _ _ _ _ Hl).
Qed.

(** ** A concrete frame *)

Module FitnessExample.

(** The [weights] of simulated_annealing/src/main.py line 69 and
    Genetic_Algorithm_Tutas/src/main.py line 73. *)
Definition main_weights : gmap string Q :=
  list_to_map [("mata_kuliah", 3 # 10); ("subbab", 2 # 10); ("gaya_belajar", 2 # 10);
               ("mode", 1 # 10); ("waktu", 2 # 10)]%string.

(** The same dict with one key more. *)
Definition extra_weights : gmap string Q :=
  <["bonus" := 0]> main_weights.

Definition stu0 : row := mk_row "Kalkulus" "Limit" "Visual" "Online" "Senin" (Some false).
Definition stu1 : row := mk_row "Fisika" "Gerak" "Auditori" "Offline" "Selasa" (Some true).
Definition tut0 : row := mk_row "Kalkulus" "Limit" "Visual" "Online" "Senin" None.
Definition tut1 : row := mk_row "Fisika" "Energi" "Auditori" "Online" "Rabu" None.

Lemma main_weights_ok : weights_ok main_weights.
Proof.
  intros k Hk. simpl in Hk.
  destruct Hk as [<-|[<-|[<-|[<-|[<-|[]]]]]]; eexists; (split; [reflexivity|]);
    unfold Qle; simpl; lia.
Qed.

End FitnessExample.

(** [num_constraints = len(weights)] counts every key of the dict,
    so a [weights] with a sixth key gives a pair meeting all five
    criteria 5/6 as its share of constraints met, not the 100% the
    docstring promises. *)
Example extra_weight_dilutes_pct :
  exists f, compute_fitness [0%nat] [FitnessExample.stu0] [FitnessExample.tut0]
                            FitnessExample.extra_weights = Ok f /\
            pct_satisfied f == 5 # 6 /\ total_score f == 1.
Proof. vm_compute. eexists. split; [reflexivity|]. split; reflexivity. Qed.

(** The five criteria of [stu0]/[tut0] all hold: the full sum of the
    weights. *)
Lemma score_pair_full_witness :
  weights_ok FitnessExample.main_weights /\
  exists total cnt, score_pair FitnessExample.stu0 FitnessExample.tut0 FitnessExample.main_weights
                      = Ok (total, cnt) /\
    ((cnt = 5)%nat <-> mata_kuliah FitnessExample.stu0 = mata_kuliah FitnessExample.tut0 /\
       subbab FitnessExample.stu0 = subbab FitnessExample.tut0 /\
       gaya_belajar FitnessExample.stu0 = gaya_belajar FitnessExample.tut0 /\
       mode FitnessExample.stu0 = mode FitnessExample.tut0 /\
       (waktu FitnessExample.stu0 = waktu FitnessExample.tut0 \/
        fleksibilitas_waktu FitnessExample.stu0 = Some true)) /\
    ((cnt = 5)%nat -> total == weights_sum FitnessExample.main_weights).
Proof.
  split; [exact FitnessExample.main_weights_ok|].
  exact (score_pair_full _ _ _ FitnessExample.main_weights_ok).
Defined.

Lemma compute_fitness_bounds_witness :
  exists f, compute_fitness [0; 1]%nat [FitnessExample.stu0; FitnessExample.stu1]
                            [FitnessExample.tut0; FitnessExample.tut1]
                            FitnessExample.main_weights = Ok f /\
    0 <= pct_satisfied f <= 1 /\
    0 <= total_score f <= qnat 2 * weights_sum FitnessExample.main_weights.
Proof.
  apply (compute_fitness_bounds [0; 1]%nat); [exact FitnessExample.main_weights_ok|simpl; lia|].
  intros t Ht. simpl in Ht. simpl. lia.
Defined.

(** An empty [weights] dict: [score_pair] raises at [weights['mata_kuliah']]. *)
Lemma compute_fitness_only_keyerror_witness :
  exists e, compute_fitness [0%nat] [FitnessExample.stu0] [FitnessExample.tut0] ∅ = Err e /\
            e = KeyError.
Proof.
  eexists. split; [reflexivity|].
  apply (compute_fitness_only_keyerror [0%nat] [FitnessExample.stu0] [FitnessExample.tut0] ∅).
  reflexivity.
Defined.
