(* ===== verification/Random.v ===== *)
(** * Python's [random] module, as an interface

    The stochastic solvers (src/simulated_annealing/src/sa.py and
    src/Genetic_Algorithm_Tutas/src/ga/ga.py) draw from the global state
    of [random].  [PyRandom] is that state threaded through the code:
    [randrange], [random] and [sample] over [range(n)] (a [sample] of a
    list draws distinct positions of it).  [PyRandomLaws] states what the
    solvers rely on: [ValueError] on an empty [randrange] or a sample
    larger than its population, values in range otherwise, and distinct
    positions in a sample.  [Lcg] is a concrete instance, a linear
    congruential generator standing for Mersenne Twister, on which the
    examples run. *)

From Stdlib Require Import QArith Lqa ZArith Lia.
From stdpp Require Import base list.
From S2P Require Import Prelude.

Open Scope Q_scope.

Class PyRandom (R : Type) := {
  randrange : R -> nat -> result (nat * R);        (** [random.randrange(m)] *)
  random : R -> Q * R;                              (** [random.random()] *)
  sample : R -> nat -> nat -> result (list nat * R) (** [random.sample(range(n), k)] *)
}.

Class PyRandomLaws (R : Type) `{PyRandom R} := {
  randrange_zero r : randrange r 0 = Err ValueError;
  randrange_ok r m : (0 < m)%nat -> exists k r', randrange r m = Ok (k, r') /\ (k < m)%nat;
  sample_too_many r n k : (n < k)%nat -> sample r n k = Err ValueError;
  sample_ok r n k : (k <= n)%nat ->
    exists idx r', sample r n k = Ok (idx, r') /\ length idx = k /\ NoDup idx /\
                   Forall (fun i => (i < n)%nat) idx
}.

(** [a < b] on floats. *)
Definition qltb (a b : Q) : bool := negb (Qle_bool b a).

Lemma qltb_spec a b : qltb a b = true <-> a < b.
Proof.
  unfold qltb. rewrite negb_true_iff. split.
  - intros H. apply Qnot_le_lt. intros Hle. apply Qle_bool_iff in Hle. congruence.
  - intros H. destruct (Qle_bool b a) eqn:E; [|reflexivity].
    apply Qle_bool_iff in E. lra.
Qed.

Lemma qltb_false a b : qltb a b = false <-> b <= a.
Proof.
  rewrite <- not_true_iff_false, qltb_spec. split; [apply Qnot_lt_le|].
  intros H1 H2. lra.
Qed.

(** [random.choice(seq)] and [random.randint(a, b)] as CPython writes
    them: [seq[self._randbelow(len(seq))]], [IndexError] on an empty
    sequence, and [randrange(a, b + 1)], i.e. [a + _randbelow(b + 1 - a)],
    [ValueError] on an empty range.  [_randbelow(n)] is [randrange(n)]. *)
Definition py_choice {R A} `{PyRandom R} (r : R) (xs : list A) : result (A * R) :=
  match xs with
  | [] => Err IndexError
  | _ =>
      p <- randrange r (length xs) ;;
      match xs !! p.1 with Some x => Ok (x, p.2) | None => Err IndexError end
  end.

Definition py_randint {R} `{PyRandom R} (r : R) (a b : Z) : result (Z * R) :=
  if (b + 1 - a <=? 0)%Z then Err ValueError
  else p <- randrange r (Z.to_nat (b + 1 - a)) ;; Ok ((a + Z.of_nat p.1)%Z, p.2).

Section RandomFacts.
Context {R : Type} `{PyRandomLaws R}.

Lemma py_choice_ok {A} (r : R) (xs : list A) :
  xs <> [] -> exists x r', py_choice r xs = Ok (x, r') /\ In x xs.
Proof.
  intros Hne. destruct (randrange_ok r (length xs) ltac:(destruct xs; [congruence|simpl; lia]))
    as (k & r' & Hr & Hk).
  destruct (lookup_lt_is_Some_2 xs k Hk) as [x Hx].
  assert (Hin : In x xs) by (apply list_elem_of_In, list_elem_of_lookup_2 with k, Hx).
  exists x, r'. split; [|exact Hin]. unfold py_choice.
  destruct xs; [congruence|]. rewrite Hr. simpl. simpl in Hx. rewrite Hx. reflexivity.
Qed.

Lemma py_randint_ok (r : R) a b :
  (a <= b)%Z -> exists k r', py_randint r a b = Ok (k, r') /\ (a <= k <= b)%Z.
Proof.
  intros Hab. unfold py_randint. destruct (Z.leb_spec (b + 1 - a) 0); [lia|].
  destruct (randrange_ok r (Z.to_nat (b + 1 - a)) ltac:(lia)) as (k & r' & -> & Hk).
  eexists _, _. split; [reflexivity|]. simpl. lia.
Qed.
End RandomFacts.

Module Lcg.

Record lcg : Type := mk_lcg { seed : Z }.

Definition lcg_next (r : lcg) : lcg :=
  mk_lcg ((1103515245 * seed r + 12345) mod 2147483648)%Z.

Definition lcg_below (r : lcg) (k : nat) : nat := Z.to_nat (seed r mod Z.of_nat k).

(** Draw [k] elements of [pool] without replacement. *)
Fixpoint lcg_sample_from (pool : list nat) (k : nat) (r : lcg) : list nat * lcg :=
  match k with
  | O => ([], r)
  | S k' =>
      let j := lcg_below r (length pool) in
      match pool !! j with
      | Some x => let (rest, r') := lcg_sample_from (delete j pool) k' (lcg_next r) in (x :: rest, r')
      | None => ([], r)
      end
  end.

#[export] Instance lcg_random : PyRandom lcg := {
  randrange r k := if Nat.eqb k 0 then Err ValueError else Ok (lcg_below r k, lcg_next r);
  random r := ((seed r mod 1000) # 1000, lcg_next r);
  sample r n k := if Nat.ltb n k then Err ValueError else Ok (lcg_sample_from (seq 0 n) k r)
}.

Lemma lcg_below_lt r k : (0 < k)%nat -> (lcg_below r k < k)%nat.
Proof.
  intros Hk. unfold lcg_below.
  pose proof (Z.mod_pos_bound (seed r) (Z.of_nat k) ltac:(lia)). lia.
Qed.

Lemma lcg_sample_from_spec pool k r :
  NoDup pool -> (k <= length pool)%nat ->
  length (lcg_sample_from pool k r).1 = k /\ NoDup (lcg_sample_from pool k r).1 /\
  Forall (fun i => In i pool) (lcg_sample_from pool k r).1.
Proof.
  revert pool r. induction k as [|k IH]; intros pool r Hnd Hk; simpl; [split; [reflexivity|split; constructor]|].
  destruct (lookup_lt_is_Some_2 pool (lcg_below r (length pool)) (lcg_below_lt r (length pool) ltac:(lia)))
    as (x & Hx).
  rewrite Hx.
  pose proof (delete_Permutation pool _ x Hx) as Hp.
  assert (NoDup (x :: delete (lcg_below r (length pool)) pool)) as Hnd' by (rewrite <- Hp; exact Hnd).
  apply NoDup_cons in Hnd' as [Hxn Hnd'].
  pose proof (Permutation_length Hp) as Hl. simpl in Hl.
  destruct (IH (delete (lcg_below r (length pool)) pool) (lcg_next r) Hnd' ltac:(lia))
    as (Hlen & Hnd2 & Hin).
  destruct (lcg_sample_from _ k (lcg_next r)) as [rest r'] eqn:E. simpl in *.
  split; [lia|]. split.
  - constructor; [|exact Hnd2]. intros Hx'. rewrite list_elem_of_In in Hx'.
    rewrite List.Forall_forall in Hin. apply Hxn, list_elem_of_In, Hin, Hx'.
  - constructor.
    + apply list_elem_of_In, list_elem_of_lookup_2 with (lcg_below r (length pool)), Hx.
    + rewrite List.Forall_forall in Hin |- *. intros i Hi.
      apply list_elem_of_In, (list_elem_of_delete_inv _ (lcg_below r (length pool))),
        list_elem_of_In, Hin, Hi.
Qed.

#[export] Instance lcg_random_laws : PyRandomLaws lcg.
Proof.
  split.
  - reflexivity.
  - intros r k Hk. simpl. destruct (Nat.eqb_spec k 0) as [->|_]; [lia|].
    eexists _, _. split; [reflexivity|]. apply lcg_below_lt. lia.
  - intros r n k Hk. simpl. destruct (Nat.ltb_spec n k); [reflexivity|lia].
  - intros r n k Hk. simpl. destruct (Nat.ltb_spec n k); [lia|].
    destruct (lcg_sample_from_spec (seq 0 n) k r (NoDup_seq 0 n) ltac:(rewrite length_seq; lia))
      as (Hlen & Hnd & Hin).
    exists (lcg_sample_from (seq 0 n) k r).1, (lcg_sample_from (seq 0 n) k r).2.
    rewrite <- surjective_pairing. split; [reflexivity|]. split; [exact Hlen|]. split; [exact Hnd|].
    rewrite List.Forall_forall in Hin |- *. intros i Hi. apply Hin, in_seq in Hi. lia.
Qed.

End Lcg.
