(* ===== verification/Annealing.v ===== *)
(** * Simulated annealing over tutor assignments

    src/simulated_annealing/src/sa.py, [run_sa] (lines 8-66), and
    [run_scenario_sa] of its main.py.  Python's global [random] module is
    the state of a [PyRandom] instance (file Random.v) threaded through
    the run: [randrange] (raising [ValueError] on an empty range) and
    [random].  [np.exp] is a parameter [exp] of the section, since the
    theorems do not depend on it.  Floats are rationals and the
    temperature [T] is exact.  The theorems assume [cooling > 1/2]: then
    the float [T *= cooling] never reaches [0.0] (from the smallest
    subnormal [2^-1074] the product [c * 2^-1074] rounds back to
    [2^-1074]), so [delta / T] on line 51 never divides by zero, as in
    the model.  With [cooling <= 1/2] the float [T] becomes [0.0] after
    about 1075 steps and line 51 raises [ZeroDivisionError] (with one
    tutor, on every run); the exact [T] of the model cannot reach that
    error, so no theorem covers that range.  The wall-clock [exec_time]
    is not modelled; the constant [deterministic = False] is. *)

From Stdlib Require Import QArith Lqa String Lia ZArith.
From stdpp Require Import base list gmap strings.
From S2P Require Import Prelude Fitness Random.

Open Scope Q_scope.

(** [x / y] on floats: [ZeroDivisionError] for [y == 0.0]. *)
Definition py_fdiv (x y : Q) : result Q :=
  if Qeq_bool y 0 then Err ZeroDivisionError else Ok (x / y).

(** The state of the loop of lines 42-58. *)
Record sa_state (R : Type) : Type := mk_sa {
  curr : list nat;
  fit_curr : fitness;
  best : list nat;
  best_fit : fitness;
  temp : Q;          (** [T] *)
  rng : R
}.
Arguments mk_sa {R}.
Arguments curr {R}. Arguments fit_curr {R}. Arguments best {R}.
Arguments best_fit {R}. Arguments temp {R}. Arguments rng {R}.

(** The dict returned at lines 61-66, without [exec_time]. *)
Record sa_result : Type := mk_sa_result {
  best_assignment : list nat;
  best_fitness : fitness;
  deterministic : bool
}.

Section Annealing.
Context {R : Type} `{PyRandom R}.
Variable exp : Q -> Q.
Variables (df_students df_tutors : list row) (weights : gmap string Q).

(** [[random.randrange(m) for _ in range(k)]], line 35. *)
Fixpoint init_curr (k m : nat) (r : R) : result (list nat * R) :=
  match k with
  | O => Ok ([], r)
  | S k' =>
      p <- randrange r m ;;
      q <- init_curr k' m p.2 ;;
      Ok (p.1 :: q.1, q.2)
  end.

(** The Metropolis test of line 51: [delta > 0] short-circuits before
    [random.random()] is drawn and [delta / T] is computed. *)
Definition metropolis (delta T : Q) (r : R) : result (bool * R) :=
  if qltb 0 delta then Ok (true, r)
  else
    let (u, r') := random r in
    d <- py_fdiv delta T ;;
    Ok (qltb u (exp d), r').

(** One iteration of the loop, lines 43-58. *)
Definition sa_step (cooling : Q) (st : sa_state R) : result (sa_state R) :=
  let n := length df_students in
  let m := length df_tutors in
  p <- randrange (rng st) n ;;
  let (i, r1) := p in
  q <- randrange r1 m ;;
  let (v, r2) := q in
  child <- list_setitem (curr st) i v ;;
  fit_child <- SaFitness.compute_fitness child df_students df_tutors weights ;;
  let delta := total_score fit_child - total_score (fit_curr st) in
  a <- metropolis delta (temp st) r2 ;;
  let (accepted, r3) := a in
  let st1 :=
    if accepted then
      if qltb (total_score (best_fit st)) (total_score fit_child)
      then mk_sa child fit_child child fit_child (temp st) r3
      else mk_sa child fit_child (best st) (best_fit st) (temp st) r3
    else mk_sa (curr st) (fit_curr st) (best st) (best_fit st) (temp st) r3 in
  Ok (mk_sa (curr st1) (fit_curr st1) (best st1) (best_fit st1) (temp st1 * cooling) r3).

(** [for _ in range(steps)] *)
Fixpoint sa_loop (cooling : Q) (k : nat) (st : sa_state R) : result (sa_state R) :=
  match k with
  | O => Ok st
  | S k' => st' <- sa_step cooling st ;; sa_loop cooling k' st'
  end.

(** [run_sa(df_students, df_tutors, weights, T0, cooling, steps)],
    returning the state of [random] after the run. *)
Definition run_sa (T0 cooling : Q) (steps : Z) (r : R) : result (sa_result * R) :=
  let n := length df_students in
  let m := length df_tutors in
  p <- init_curr n m r ;;
  let (c, r1) := p in
  fit_curr <- SaFitness.compute_fitness c df_students df_tutors weights ;;
  st <- sa_loop cooling (Z.to_nat steps) (mk_sa c fit_curr c fit_curr T0 r1) ;;
  Ok (mk_sa_result (best st) (best_fit st) false, rng st).

(** [run_scenario_sa] of simulated_annealing/src/main.py, lines 42-58,
    on the frames [load_preferences] has read: three runs drawing from
    the one [random] state, the first run reported, and [deterministic]
    the chained comparison of lines 47-50. *)
Definition run_scenario_sa (T0 cooling : Q) (steps : Z) (r : R) : result (sa_result * R) :=
  p0 <- run_sa T0 cooling steps r ;;
  let (res0, r0) := p0 in
  p1 <- run_sa T0 cooling steps r0 ;;
  let (res1, r1) := p1 in
  p2 <- run_sa T0 cooling steps r1 ;;
  let (res2, r2) := p2 in
  let det :=
    (bool_decide (best_assignment res0 = best_assignment res1) &&
     bool_decide (best_assignment res1 = best_assignment res2)) &&
    (fitness_eqb (best_fitness res0) (best_fitness res1) &&
     fitness_eqb (best_fitness res1) (best_fitness res2)) in
  Ok (mk_sa_result (best_assignment res0) (best_fitness res0) det, r2).
End Annealing.

(** ** The invariant of the loop *)

Section AnnealingCorrect.
Context {R : Type} `{PyRandomLaws R}.
Variable exp : Q -> Q.
Variables (df_students df_tutors : list row) (weights : gmap string Q) (cooling : Q).
Hypothesis Hw : weights_ok weights.
(** The range of [cooling] on which the float temperature stays
    positive (see the header). *)
Hypothesis Hcool : 1 # 2 < cooling.

Lemma cooling_pos : 0 < cooling.
Proof. apply (Qlt_trans _ (1 # 2)); [reflexivity|exact Hcool]. Qed.

Abbreviation n := (length df_students).
Abbreviation m := (length df_tutors).
Abbreviation fit c := (SaFitness.compute_fitness c df_students df_tutors weights).

(** A tutor index for every student. *)
Definition in_range (c : list nat) : Prop :=
  length c = n /\ Forall (fun t => (t < m)%nat) c.

(** [fit_curr] and [best_fit] are the fitness of [curr] and [best], both
    assignments are in range, [best_fit] is at least [fit_curr] and [T]
    is positive. *)
Record sa_inv (st : sa_state R) : Prop := {
  sa_curr_range : in_range (curr st);
  sa_best_range : in_range (best st);
  sa_curr_fit : fit (curr st) = Ok (fit_curr st);
  sa_best_fit : fit (best st) = Ok (best_fit st);
  sa_best_ge : total_score (fit_curr st) <= total_score (best_fit st);
  sa_temp : 0 < temp st
}.

Lemma in_range_fit c : in_range c -> exists f, fit c = Ok f.
Proof.
  intros [Hl Hf]. rewrite SaFitness.sa_compute_fitness_same.
  apply compute_fitness_exists; [exact Hw|lia|exact Hf].
Qed.

Lemma in_range_insert c i v :
  in_range c -> (v < m)%nat -> in_range (<[i := v]> c).
Proof.
  intros [Hl Hf] Hv. split; [rewrite length_insert; exact Hl|].
  apply Forall_insert; assumption.
Qed.

Lemma metropolis_ok delta T r :
  0 < T -> exists b r', metropolis exp delta T r = Ok (b, r').
Proof.
  intros HT. unfold metropolis. destruct (qltb 0 delta); [eauto|].
  destruct (random r) as [u r']. unfold py_fdiv.
  destruct (Qeq_bool T 0) eqn:E; [apply Qeq_bool_iff in E; lra|]. simpl. eauto.
Qed.

Lemma init_curr_ok k r :
  (0 < m)%nat ->
  exists c r', init_curr k m r = Ok (c, r') /\ length c = k /\ Forall (fun t => (t < m)%nat) c.
Proof.
  intros Hm. revert r. induction k as [|k IH]; intros r; simpl; [eauto|].
  destruct (randrange_ok r m Hm) as (t & r1 & -> & Ht). simpl.
  destruct (IH r1) as (c & r' & -> & Hl & Hf). simpl.
  eexists _, _. split; [reflexivity|]. simpl. split; [lia|constructor; assumption].
Qed.

(** One iteration keeps the invariant and never lowers [best_fit]. *)
Lemma sa_step_inv st :
  (0 < n)%nat -> (0 < m)%nat -> sa_inv st ->
  exists st', sa_step exp df_students df_tutors weights cooling st = Ok st' /\ sa_inv st' /\
    total_score (best_fit st) <= total_score (best_fit st').
Proof.
  intros Hn Hm Hinv. unfold sa_step.
  destruct (randrange_ok (rng st) n Hn) as (i & r1 & -> & Hi). simpl.
  destruct (randrange_ok r1 m Hm) as (v & r2 & -> & Hv). simpl.
  pose proof (sa_curr_range _ Hinv) as Hc.
  rewrite list_setitem_ok by (destruct Hc; lia). simpl.
  pose proof (in_range_insert _ i _ Hc Hv) as Hc'.
  destruct (in_range_fit _ Hc') as (fc & Hfc). rewrite Hfc. simpl.
  destruct (metropolis_ok (total_score fc - total_score (fit_curr st)) (temp st) r2
              (sa_temp _ Hinv)) as (b & r3 & ->). simpl.
  eexists. split; [reflexivity|].
  assert (0 < temp st * cooling) as HT
    by (apply Qmult_lt_0_compat; [exact (sa_temp _ Hinv)|exact cooling_pos]).
  destruct Hinv as [? ? ? ? ? ?].
  destruct b; [destruct (qltb (total_score (best_fit st)) (total_score fc)) eqn:Hlt|];
    simpl; (split; [split; simpl; try assumption|]); try lra;
    (apply qltb_spec in Hlt || apply not_true_iff_false in Hlt);
    try lra; rewrite qltb_spec in Hlt; lra.
Qed.

Lemma sa_loop_inv k st :
  (0 < n)%nat -> (0 < m)%nat -> sa_inv st ->
  exists st', sa_loop exp df_students df_tutors weights cooling k st = Ok st' /\ sa_inv st' /\
    total_score (best_fit st) <= total_score (best_fit st').
Proof.
  intros Hn Hm. revert st. induction k as [|k IH]; intros st Hinv; simpl.
  - exists st. split; [reflexivity|]. split; [exact Hinv|lra].
  - destruct (sa_step_inv st Hn Hm Hinv) as (st1 & -> & Hinv1 & Hle1). simpl.
    destruct (IH st1 Hinv1) as (st2 & -> & Hinv2 & Hle2).
    exists st2. split; [reflexivity|]. split; [exact Hinv2|lra].
Qed.

Lemma run_sa_ok T0 steps r :
  (0 < n)%nat -> (0 < m)%nat -> 0 < T0 ->
  exists res r', run_sa exp df_students df_tutors weights T0 cooling steps r = Ok (res, r') /\
    in_range (best_assignment res) /\ fit (best_assignment res) = Ok (best_fitness res).
Proof.
  intros Hn Hm HT. unfold run_sa.
  destruct (init_curr_ok n r Hm) as (c & r1 & -> & Hl & Hf). simpl.
  assert (in_range c) as Hc by (split; assumption).
  destruct (in_range_fit c Hc) as (f0 & Hf0). rewrite Hf0. simpl.
  assert (sa_inv (mk_sa c f0 c f0 T0 r1)) as Hinv0 by (split; simpl; try assumption; lra).
  destruct (sa_loop_inv (Z.to_nat steps) _ Hn Hm Hinv0) as (st & -> & Hinv & _).
  eexists _, _. split; [reflexivity|]. split; [exact (sa_best_range _ Hinv)|exact (sa_best_fit _ Hinv)].
Qed.

(** C18. With students and tutors, a non-negative weight for each
    criterion, [T0 > 0] and [cooling > 1/2], [run_sa] returns for every
    state of [random]: its [best_assignment] gives every student a tutor
    index in range, its [best_fitness] is the fitness of that assignment,
    and it is at least the fitness of the random initial assignment. *)
Theorem run_sa_sound T0 steps r :
  (0 < n)%nat -> (0 < m)%nat -> 0 < T0 ->
  exists res r', run_sa exp df_students df_tutors weights T0 cooling steps r = Ok (res, r') /\
    in_range (best_assignment res) /\
    fit (best_assignment res) = Ok (best_fitness res) /\
    deterministic res = false /\
    (forall c r1 f0, init_curr n m r = Ok (c, r1) -> fit c = Ok f0 ->
       total_score f0 <= total_score (best_fitness res)).
Proof.
  intros Hn Hm HT. unfold run_sa.
  destruct (init_curr_ok n r Hm) as (c & r1 & Hinit & Hl & Hf). rewrite Hinit. simpl.
  assert (in_range c) as Hc by (split; assumption).
  destruct (in_range_fit c Hc) as (f0 & Hf0). rewrite Hf0. simpl.
  assert (sa_inv (mk_sa c f0 c f0 T0 r1)) as Hinv0
    by (split; simpl; try assumption; lra).
  destruct (sa_loop_inv (Z.to_nat steps) _ Hn Hm Hinv0) as (st & -> & Hinv & Hle). simpl.
  eexists _, _. split; [reflexivity|]. simpl.
  split; [exact (sa_best_range _ Hinv)|]. split; [exact (sa_best_fit _ Hinv)|].
  split; [reflexivity|].
  intros c' r1' f0' Hi Hf0'. injection Hi as <- <-.
  rewrite Hf0 in Hf0'. injection Hf0' as <-. exact Hle.
Qed.

(** However many iterations run, the loop keeps [best_fit] the
    fitness of [best] and at least the fitness of the current assignment,
    never lowers it, and keeps both assignments in range. *)
Theorem sa_loop_keeps_best k st :
  (0 < n)%nat -> (0 < m)%nat -> sa_inv st ->
  exists st', sa_loop exp df_students df_tutors weights cooling k st = Ok st' /\
    fit (best st') = Ok (best_fit st') /\ in_range (best st') /\ in_range (curr st') /\
    total_score (fit_curr st') <= total_score (best_fit st') /\
    total_score (best_fit st) <= total_score (best_fit st').
Proof.
  intros Hn Hm Hinv. destruct (sa_loop_inv k st Hn Hm Hinv) as (st' & Hr & Hinv' & Hle).
  exists st'. split; [exact Hr|]. destruct Hinv' as [? ? ? ? ? ?]. tauto.
Qed.

(** [run_scenario_sa] returns under the hypotheses of [run_sa], and
    reports an assignment in range together with its fitness. *)
Theorem run_scenario_sa_sound T0 steps r :
  (0 < n)%nat -> (0 < m)%nat -> 0 < T0 ->
  exists res r', run_scenario_sa exp df_students df_tutors weights T0 cooling steps r = Ok (res, r') /\
    in_range (best_assignment res) /\ fit (best_assignment res) = Ok (best_fitness res).
Proof.
  intros Hn Hm HT. unfold run_scenario_sa.
  destruct (run_sa_ok T0 steps r Hn Hm HT) as (res0 & r0 & -> & Hr0 & Hf0). simpl.
  destruct (run_sa_ok T0 steps r0 Hn Hm HT) as (res1 & r1 & -> & _). simpl.
  destruct (run_sa_ok T0 steps r1 Hn Hm HT) as (res2 & r2 & -> & _). simpl.
  eexists _, _. split; [reflexivity|]. simpl. split; assumption.
Qed.

Lemma insert_single_tutor c i v :
  m = 1%nat -> in_range c -> (i < length c)%nat -> (v < m)%nat -> <[i := v]> c = c.
Proof.
  intros Hm1 [_ Hf] Hi Hv. apply list_insert_id.
  destruct (lookup_lt_is_Some_2 c i Hi) as (t & Ht). rewrite Ht.
  rewrite Forall_lookup in Hf. specialize (Hf i t Ht). f_equal. lia.
Qed.

(** C34. With a single tutor every proposal leaves the fitness
    unchanged, so [delta = 0] is not [> 0] and line 51 computes
    [delta / T]: with [T0 = 0.0] the first iteration raises
    [ZeroDivisionError], whatever the state of [random].  (A float [T]
    that underflows to [0.0], as it does for [cooling <= 1/2], raises the
    same way.) *)
Theorem run_sa_zero_temperature T0 steps r :
  m = 1%nat -> (0 < n)%nat -> (0 < steps)%Z -> T0 == 0 ->
  run_sa exp df_students df_tutors weights T0 cooling steps r = Err ZeroDivisionError.
Proof.
  intros Hm1 Hn Hs HT. assert (0 < m)%nat as Hm by lia. unfold run_sa.
  destruct (init_curr_ok n r Hm) as (c & r1 & -> & Hl & Hf). simpl.
  assert (in_range c) as Hc by (split; assumption).
  destruct (in_range_fit c Hc) as (f0 & Hf0). rewrite Hf0. simpl.
  destruct (Z.to_nat steps) as [|k] eqn:E; [lia|]. simpl. unfold sa_step. simpl.
  destruct (randrange_ok r1 n Hn) as (i & r2 & -> & Hi). simpl.
  destruct (randrange_ok r2 m Hm) as (v & r3 & -> & Hv). simpl.
  rewrite list_setitem_ok by lia. simpl.
  rewrite (insert_single_tutor c i v Hm1 Hc ltac:(lia) Hv), Hf0. simpl.
  unfold metropolis. replace (qltb 0 (total_score f0 - total_score f0)) with false
    by (symmetry; apply not_true_iff_false; rewrite qltb_spec; lra).
  destruct (random r3) as [u r4]. unfold py_fdiv.
  replace (Qeq_bool T0 0) with true by (symmetry; apply Qeq_bool_iff; exact HT).
  reflexivity.
Qed.
End AnnealingCorrect.

(** [run_sa] raises [ValueError] from [random.randrange(0)]: with no
    students as soon as one iteration runs (line 43), and with no tutors
    as soon as there is a student to initialise (line 35). *)
Theorem run_sa_valueerror {R} `{PyRandomLaws R} exp df_s df_t weights T0 cooling steps r :
  (length df_s = 0%nat /\ (0 < steps)%Z) \/ (length df_t = 0%nat /\ (0 < length df_s)%nat) ->
  run_sa exp df_s df_t weights T0 cooling steps r = Err ValueError.
Proof.
  intros [[Hn Hs]|[Hm Hn]]; unfold run_sa.
  - rewrite Hn. simpl. destruct (Z.to_nat steps) eqn:E; [lia|]. simpl.
    unfold sa_step. rewrite Hn, randrange_zero. reflexivity.
  - destruct (length df_s) as [|k]; [lia|]. simpl. rewrite Hm, randrange_zero. reflexivity.
Qed.

(** ** A concrete [random] *)

Module SaExample.
Import FitnessExample.
Export Lcg.

(** A stand-in for [np.exp] that is 1 at 0 and decreases below it. *)
Definition exp_approx (x : Q) : Q := if Qle_bool 0 x then 1 else 1 / (1 - x).

Definition sa_students : list row := [stu0; stu1].
Definition sa_tutors : list row := [tut0; tut1].
End SaExample.

(** ** Witnesses *)

Import SaExample.

Section SaWitnesses.
Import FitnessExample.

Definition sa_cooling : Q := 995 # 1000.

Lemma sa_cooling_pos : 1 # 2 < sa_cooling.
Proof. unfold sa_cooling, Qlt. simpl. lia. Qed.

(** The state after initialisation from seed 7. *)
Definition sa_start : sa_state lcg :=
  match init_curr 2 2 (mk_lcg 7) with
  | Ok (c, r) =>
      match SaFitness.compute_fitness c sa_students sa_tutors main_weights with
      | Ok f => mk_sa c f c f 1 r
      | Err _ => mk_sa [] (mk_fitness 0 0) [] (mk_fitness 0 0) 1 r
      end
  | Err _ => mk_sa [] (mk_fitness 0 0) [] (mk_fitness 0 0) 1 (mk_lcg 7)
  end.

Lemma sa_start_inv : sa_inv sa_students sa_tutors main_weights sa_start.
Proof.
  vm_compute. split; simpl.
  - split; [reflexivity|repeat constructor].
  - split; [reflexivity|repeat constructor].
  - reflexivity.
  - reflexivity.
  - apply Qle_refl.
  - reflexivity.
Qed.
End SaWitnesses.

Lemma run_sa_sound_witness :
  exists res r', run_sa SaExample.exp_approx SaExample.sa_students SaExample.sa_tutors
                        FitnessExample.main_weights 1 sa_cooling 1000 (Lcg.mk_lcg 42)
                 = Ok (res, r') /\
    in_range SaExample.sa_students SaExample.sa_tutors (best_assignment res) /\
    SaFitness.compute_fitness (best_assignment res) SaExample.sa_students SaExample.sa_tutors
                    FitnessExample.main_weights = Ok (best_fitness res) /\
    deterministic res = false /\
    (forall c r1 f0, init_curr 2 2 (Lcg.mk_lcg 42) = Ok (c, r1) ->
       SaFitness.compute_fitness c SaExample.sa_students SaExample.sa_tutors FitnessExample.main_weights
         = Ok f0 ->
       total_score f0 <= total_score (best_fitness res)).
Proof.
  apply (run_sa_sound SaExample.exp_approx SaExample.sa_students SaExample.sa_tutors
           FitnessExample.main_weights sa_cooling FitnessExample.main_weights_ok sa_cooling_pos
           1 1000 (Lcg.mk_lcg 42)); simpl; try lia. reflexivity.
Defined.

Lemma sa_loop_keeps_best_witness :
  exists st', sa_loop SaExample.exp_approx SaExample.sa_students SaExample.sa_tutors
                      FitnessExample.main_weights sa_cooling 50 sa_start = Ok st' /\
    SaFitness.compute_fitness (best st') SaExample.sa_students SaExample.sa_tutors
                    FitnessExample.main_weights = Ok (best_fit st') /\
    in_range SaExample.sa_students SaExample.sa_tutors (best st') /\
    in_range SaExample.sa_students SaExample.sa_tutors (curr st') /\
    total_score (fit_curr st') <= total_score (best_fit st') /\
    total_score (best_fit sa_start) <= total_score (best_fit st').
Proof.
  apply (sa_loop_keeps_best SaExample.exp_approx SaExample.sa_students SaExample.sa_tutors
           FitnessExample.main_weights sa_cooling FitnessExample.main_weights_ok sa_cooling_pos
           50 sa_start); [simpl; lia|simpl; lia|exact sa_start_inv].
Defined.

Lemma run_scenario_sa_sound_witness :
  exists res r', run_scenario_sa SaExample.exp_approx SaExample.sa_students SaExample.sa_tutors
                   FitnessExample.main_weights 1 sa_cooling 1000 (Lcg.mk_lcg 42)
                 = Ok (res, r') /\
    in_range SaExample.sa_students SaExample.sa_tutors (best_assignment res) /\
    SaFitness.compute_fitness (best_assignment res) SaExample.sa_students SaExample.sa_tutors
                    FitnessExample.main_weights = Ok (best_fitness res).
Proof.
  apply (run_scenario_sa_sound SaExample.exp_approx SaExample.sa_students SaExample.sa_tutors
           FitnessExample.main_weights sa_cooling FitnessExample.main_weights_ok sa_cooling_pos
           1 1000 (Lcg.mk_lcg 42)); simpl; try lia. reflexivity.
Defined.

Lemma run_sa_valueerror_witness :
  run_sa SaExample.exp_approx [] SaExample.sa_tutors FitnessExample.main_weights
         1 sa_cooling 1000 (Lcg.mk_lcg 42) = Err ValueError.
Proof. apply run_sa_valueerror. left. split; [reflexivity|lia]. Defined.

Lemma run_sa_zero_temperature_witness :
  run_sa SaExample.exp_approx SaExample.sa_students [FitnessExample.tut1]
         FitnessExample.main_weights 0 sa_cooling 1000 (Lcg.mk_lcg 42)
  = Err ZeroDivisionError.
Proof.
  apply (run_sa_zero_temperature SaExample.exp_approx SaExample.sa_students [FitnessExample.tut1]
           FitnessExample.main_weights sa_cooling FitnessExample.main_weights_ok);
    [reflexivity|simpl; lia|lia|reflexivity].
Defined.
