(* ===== verification/Genetic.v ===== *)
(** * The genetic algorithm over tutor permutations

    src/Genetic_Algorithm_Tutas/src/ga/ga.py: [tournament_selection],
    [pmx_crossover], [swap_mutation], [init_population] and [run_ga],
    and [run_scenario] of its main.py.  Genes are Python [int]s ([Z]),
    since [pmx_crossover] fills its child with the placeholder [-1];
    [df_tutors.loc] of a negative label raises [KeyError].  The module
    [ga.chromosome] that provides [init_chromosome] is not in the
    repository: it is the section variable [init_chromosome], and the
    theorems assume it returns a permutation of [range(num_pairs)].  The
    [while gene in mapping1] loop of [pmx_crossover] runs on fuel
    [len(parent1) + 1]; the theorems show that this fuel suffices when
    the parents are permutations of each other. *)

From Stdlib Require Import QArith Lqa ZArith Lia Permutation.
From stdpp Require Import base list gmap strings.
From S2P Require Import Prelude Fitness Random.

Open Scope Q_scope.

(** ** Python list operations *)

(** [xs[i]] for [i >= 0]. *)
Definition py_getitem {A} (xs : list A) (i : nat) : result A :=
  match xs !! i with Some x => Ok x | None => Err IndexError end.

(** [xs[a:b] = ys] for [0 <= a <= b <= len(xs)]. *)
Definition slice_assign {A} (xs : list A) (a b : nat) (ys : list A) : list A :=
  take a xs ++ ys ++ drop b xs.

(** [xs[a:b]] *)
Definition slice {A} (xs : list A) (a b : nat) : list A := take (b - a) (drop a xs).

(** [[f(x) for x in xs]] with [f] that may raise. *)
Fixpoint res_map {A B} (f : A -> result B) (xs : list A) : result (list B) :=
  match xs with
  | [] => Ok []
  | x :: rest => y <- f x ;; ys <- res_map f rest ;; Ok (y :: ys)
  end.

(** [max(xs, key=f)]: the first element of greatest key. *)
Definition py_max_by {A} (f : A -> Q) (xs : list A) : result A :=
  match xs with
  | [] => Err ValueError
  | x :: rest => Ok (fold_left (fun b y => if qltb (f b) (f y) then y else b) rest x)
  end.

(** [compute_fitness(ch, ...)] on a chromosome of [int]s. *)
Definition fitness_of (df_students df_tutors : list row) (weights : gmap string Q)
    (ch : list Z) : result fitness :=
  if forallb (fun g => (0 <=? g)%Z) ch
  then GaFitness.compute_fitness (map Z.to_nat ch) df_students df_tutors weights
  else Err KeyError.

Section Genetic.
Context {R : Type} `{PyRandom R}.

(** [tournament_selection(pop, fitnesses, k)], lines 14-18. *)
Definition tournament_selection (pop : list (list Z)) (fitnesses : list fitness) (k : nat)
    (r : R) : result (list Z * R) :=
  let pairs := zip pop fitnesses in
  s <- sample r (length pairs) k ;;
  let (idx, r1) := s in
  selected <- res_map (py_getitem pairs) idx ;;
  parent <- py_max_by (fun p => total_score p.2) selected ;;
  Ok (parent.1, r1).

(** One entry [c1[i]: c2[i]] of the comprehension of line 25. *)
Definition pmx_mapping_step (c1 c2 : list Z) (acc : result (gmap Z Z)) (i : nat)
    : result (gmap Z Z) :=
  mp <- acc ;;
  k <- py_getitem c1 i ;;
  v <- py_getitem c2 i ;;
  Ok (<[k := v]> mp).

(** [mapping1 = {c1[i]: c2[i] for i in range(a, b+1)}], line 25. *)
Definition pmx_mapping (c1 c2 : list Z) (a b : nat) : result (gmap Z Z) :=
  fold_left (pmx_mapping_step c1 c2) (seq a (S b - a)) (Ok ∅).

(** [while gene in mapping1: gene = mapping1[gene]], lines 30-31. *)
Fixpoint pmx_chase (mapping1 : gmap Z Z) (fuel : nat) (gene : Z) : result Z :=
  match fuel with
  | O => Err OutOfFuel
  | S fuel' =>
      match mapping1 !! gene with
      | Some g => pmx_chase mapping1 fuel' g
      | None => Ok gene
      end
  end.

(** The loop of lines 28-32 over the positions outside [a..b]. *)
Fixpoint pmx_fill (c2 : list Z) (mapping1 : gmap Z Z) (fuel : nat) (positions : list nat)
    (child : list Z) : result (list Z) :=
  match positions with
  | [] => Ok child
  | i :: rest =>
      gene <- py_getitem c2 i ;;
      g <- pmx_chase mapping1 fuel gene ;;
      child' <- list_setitem child i g ;;
      pmx_fill c2 mapping1 fuel rest child'
  end.

(** [pmx_crossover(parent1, parent2)], lines 20-33. *)
Definition pmx_crossover (parent1 parent2 : list Z) (r : R) : result (list Z * R) :=
  let size := length parent1 in
  let c1 := parent1 in
  let c2 := parent2 in
  s <- sample r size 2 ;;
  let (idx, r1) := s in
  match idx with
  | [x; y] =>
      let a := Nat.min x y in
      let b := Nat.max x y in
      mapping1 <- pmx_mapping c1 c2 a b ;;
      let child := slice_assign (repeat (-1)%Z size) a (S b) (slice c1 a (S b)) in
      child <- pmx_fill c2 mapping1 (S size) (seq 0 a ++ seq (S b) (size - S b)) child ;;
      Ok (child, r1)
  | _ => Err ValueError
  end.

(** [swap_mutation(chrom, mutation_rate)], lines 35-41: the right-hand
    side [child[j], child[i]] is read before [child[i]] is written. *)
Definition swap_mutation (chrom : list Z) (mutation_rate : Q) (r : R) : result (list Z * R) :=
  let child := chrom in
  let (u, r1) := random r in
  if qltb u mutation_rate then
    s <- sample r1 (length child) 2 ;;
    let (idx, r2) := s in
    match idx with
    | [i; j] =>
        cj <- py_getitem child j ;;
        ci <- py_getitem child i ;;
        child1 <- list_setitem child i cj ;;
        child2 <- list_setitem child1 j ci ;;
        Ok (child2, r2)
    | _ => Err ValueError
    end
  else Ok (child, r1).

Variable init_chromosome : R -> nat -> list Z * R.
Variables (df_students df_tutors : list row) (weights : gmap string Q).

(** [init_population(pop_size, num_pairs)], lines 10-12. *)
Fixpoint init_population (pop_size num_pairs : nat) (r : R) : list (list Z) * R :=
  match pop_size with
  | O => ([], r)
  | S k =>
      let (ch, r1) := init_chromosome r num_pairs in
      let (rest, r2) := init_population k num_pairs r1 in
      (ch :: rest, r2)
  end.

(** [[compute_fitness(ch, ...) for ch in population]], lines 55 and 72. *)
Definition fitnesses_of (population : list (list Z)) : result (list fitness) :=
  res_map (fitness_of df_students df_tutors weights) population.

(** [max(zip(population, fitnesses), key=lambda p: p[1]['total_score'])] *)
Definition best_of (population : list (list Z)) (fitnesses : list fitness)
    : result (list Z * fitness) :=
  py_max_by (fun p => total_score p.2) (zip population fitnesses).

(** The [while len(new_pop) < pop_size] loop of lines 62-70; each
    iteration appends one child, so it runs [k = pop_size - len(new_pop)]
    times. *)
Fixpoint breed (k : nat) (population : list (list Z)) (fitnesses : list fitness)
    (crossover_rate mutation_rate : Q) (new_pop : list (list Z)) (r : R)
    : result (list (list Z) * R) :=
  match k with
  | O => Ok (new_pop, r)
  | S k' =>
      p1 <- tournament_selection population fitnesses 3 r ;;
      let (parent1, r1) := p1 in
      p2 <- tournament_selection population fitnesses 3 r1 ;;
      let (parent2, r2) := p2 in
      let (u, r3) := random r2 in
      c <- (if qltb u crossover_rate then pmx_crossover parent1 parent2 r3
            else Ok (parent1, r3)) ;;
      let (child, r4) := c in
      mc <- swap_mutation child mutation_rate r4 ;;
      let (child', r5) := mc in
      breed k' population fitnesses crossover_rate mutation_rate (new_pop ++ [child']) r5
  end.

Record ga_state : Type := mk_ga {
  population : list (list Z);
  fitnesses : list fitness;
  best : list Z * fitness;
  rng : R
}.

(** One generation, lines 59-75. *)
Definition ga_generation (pop_size : Z) (crossover_rate mutation_rate : Q) (st : ga_state)
    : result ga_state :=
  np <- breed (Z.to_nat (pop_size - 1)) (population st) (fitnesses st)
              crossover_rate mutation_rate [(best st).1] (rng st) ;;
  let (new_pop, r1) := np in
  fits <- fitnesses_of new_pop ;;
  current_best <- best_of new_pop fits ;;
  let best' := if qltb (total_score (best st).2) (total_score current_best.2)
               then current_best else best st in
  Ok (mk_ga new_pop fits best' r1).

(** [for gen in range(generations)] *)
Fixpoint ga_loop (k : nat) (pop_size : Z) (crossover_rate mutation_rate : Q) (st : ga_state)
    : result ga_state :=
  match k with
  | O => Ok st
  | S k' => st' <- ga_generation pop_size crossover_rate mutation_rate st ;;
            ga_loop k' pop_size crossover_rate mutation_rate st'
  end.

Record ga_result : Type := mk_ga_result {
  best_chromosome : list Z;
  best_fitness : fitness
}.

(** [run_ga(df_students, df_tutors, weights, pop_size, generations,
    crossover_rate, mutation_rate)], lines 43-77, returning the state of
    [random] after the run. *)
Definition run_ga (pop_size generations : Z) (crossover_rate mutation_rate : Q) (r : R)
    : result (ga_result * R) :=
  let num_pairs := length df_students in
  let (pop, r1) := init_population (Z.to_nat pop_size) num_pairs r in
  fits <- fitnesses_of pop ;;
  b <- best_of pop fits ;;
  st <- ga_loop (Z.to_nat generations) pop_size crossover_rate mutation_rate (mk_ga pop fits b r1) ;;
  Ok (mk_ga_result (best st).1 (best st).2, rng st).

(** [run_scenario] of Genetic_Algorithm_Tutas/src/main.py, lines 45-60,
    on the frames [load_preferences] has read: three runs drawing from
    the one [random] state, the first reported with the chained
    comparison of lines 51-52 as [deterministic]. *)
Definition run_scenario_ga (pop_size generations : Z) (crossover_rate mutation_rate : Q) (r : R)
    : result (ga_result * bool * R) :=
  p0 <- run_ga pop_size generations crossover_rate mutation_rate r ;;
  let (r0, s0) := p0 in
  p1 <- run_ga pop_size generations crossover_rate mutation_rate s0 ;;
  let (r1, s1) := p1 in
  p2 <- run_ga pop_size generations crossover_rate mutation_rate s1 ;;
  let (r2, s2) := p2 in
  let deterministic :=
    (bool_decide (best_chromosome r0 = best_chromosome r1) &&
     bool_decide (best_chromosome r1 = best_chromosome r2)) &&
    (fitness_eqb (best_fitness r0) (best_fitness r1) &&
     fitness_eqb (best_fitness r1) (best_fitness r2)) in
  Ok (r0, deterministic, s2).
End Genetic.

(** ** Termination of the chase in [pmx_crossover]

    For an injective [mapping1], the genes the [while] loop visits from a
    gene outside the image of the mapping are pairwise distinct
    ([rchain_nodup]), so the loop exits after at most [len(mapping1)]
    lookups and two distinct start genes end at distinct genes
    ([rchain_last_unique]). *)

(** Distinct elements all keys of [mp] are at most [len(mp)] many. *)
Lemma nodup_keys_length {V} (mp : gmap Z V) (l : list Z) :
  NoDup l -> Forall (fun k => is_Some (mp !! k)) l -> (length l <= size mp)%nat.
Proof.
  intros Hnd Hk. rewrite <- size_dom, <- (size_list_to_set (C:=gset Z) l Hnd).
  apply subseteq_size. intros k Hin. apply elem_of_list_to_set in Hin.
  apply elem_of_dom. rewrite Forall_forall in Hk. exact (Hk k Hin).
Qed.

Section Chase.
Variable mp : gmap Z Z.
Hypothesis Hinj : forall x y z, mp !! x = Some z -> mp !! y = Some z -> x = y.

(** A trace of the loop, newest gene first, from a gene outside the
    image of [mp]. *)
Inductive rchain : list Z -> Prop :=
  | rchain_base g : (forall x, mp !! x <> Some g) -> rchain [g]
  | rchain_step x y tl : rchain (x :: tl) -> mp !! x = Some y -> rchain (y :: x :: tl).

Lemma rchain_pred l e d0 :
  rchain l -> In e l -> mp !! d0 = Some e -> exists d, In d (tail l) /\ mp !! d = Some e.
Proof.
  induction 1 as [g Hg|x y tl Hc IH Hxy]; intros Hin Hd0.
  - destruct Hin as [<-|[]]. exfalso. exact (Hg d0 Hd0).
  - destruct Hin as [<-|Hin].
    + exists x. split; [left; reflexivity|exact Hxy].
    + destruct (IH Hin Hd0) as (d & Hd & Hde). exists d. split; [right; exact Hd|exact Hde].
Qed.

Lemma rchain_nodup l : rchain l -> NoDup l.
Proof.
  induction 1 as [g _|x y tl Hc IH Hxy]; [constructor; [set_solver|constructor]|].
  constructor; [|exact IH]. intros Hin%list_elem_of_In.
  destruct (rchain_pred _ _ _ Hc Hin Hxy) as (d & Hd & Hde).
  rewrite (Hinj d x y Hde Hxy) in Hd. apply NoDup_cons in IH as [Hx _].
  apply Hx, list_elem_of_In, Hd.
Qed.

Lemma rchain_keys g tl : rchain (g :: tl) -> Forall (fun k => is_Some (mp !! k)) tl.
Proof.
  remember (g :: tl) as l eqn:El. intros Hc. revert g tl El.
  induction Hc as [g' _|x y tl' Hc IH Hxy]; intros g tl El; injection El as <- <-;
    [constructor|]. constructor; [eexists; exact Hxy|exact (IH x tl' eq_refl)].
Qed.

Lemma rchain_last_unique l1 l2 :
  rchain l1 -> rchain l2 -> head l1 = head l2 -> last l1 = last l2.
Proof.
  intros Hc1. revert l2. induction Hc1 as [g Hg|x y tl Hc IH Hxy]; intros l2 Hc2 Hh.
  - destruct Hc2 as [g' _|x' y' tl' _ Hxy']; simpl in Hh; injection Hh as <-; [reflexivity|].
    exfalso. exact (Hg x' Hxy').
  - destruct Hc2 as [g' Hg'|x' y' tl' Hc' Hxy']; simpl in Hh; injection Hh as <-.
    + exfalso. exact (Hg' x Hxy).
    + assert (x' = x) as -> by exact (Hinj x' x y Hxy' Hxy).
      rewrite !last_cons_cons. apply IH; [exact Hc'|reflexivity].
Qed.

Lemma rchain_in l e : rchain l -> In e l -> last l = Some e \/ exists x, mp !! x = Some e.
Proof.
  induction 1 as [g _|x y tl Hc IH Hxy]; intros Hin.
  - destruct Hin as [<-|[]]. left. reflexivity.
  - destruct Hin as [<-|Hin]; [right; exists x; exact Hxy|].
    rewrite last_cons_cons. exact (IH Hin).
Qed.

(** With fuel beyond [len(mp)] the loop exits at a gene that is not a
    key, on a trace that extends the one it started with. *)
Lemma pmx_chase_ok fuel g tl :
  rchain (g :: tl) -> (size mp + 2 <= length (g :: tl) + fuel)%nat ->
  exists z tr, pmx_chase mp fuel g = Ok z /\ mp !! z = None /\ rchain (z :: tr) /\
               last (z :: tr) = last (g :: tl).
Proof.
  revert g tl. induction fuel as [|fuel IH]; intros g tl Hc Hlen.
  - exfalso. pose proof (rchain_nodup _ Hc) as Hnd. apply NoDup_cons in Hnd as [_ Hnd].
    pose proof (nodup_keys_length mp tl Hnd (rchain_keys _ _ Hc)). simpl in Hlen. lia.
  - simpl. destruct (mp !! g) as [h|] eqn:Hg.
    + destruct (IH h (g :: tl) (rchain_step _ _ _ Hc Hg) ltac:(simpl in *; lia))
        as (z & tr & Hz & Hnone & Hc' & Hlast).
      exists z, tr. rewrite last_cons_cons in Hlast. auto.
    + exists g, tl. auto.
Qed.
End Chase.

(** ** The parts of [pmx_crossover] *)

Lemma py_getitem_ok {A} (xs : list A) i : (i < length xs)%nat -> exists x, py_getitem xs i = Ok x /\ xs !! i = Some x.
Proof.
  intros Hi. unfold py_getitem. destruct (lookup_lt_is_Some_2 xs i Hi) as (x & ->). eauto.
Qed.

(** The dict comprehension: every entry comes from a position of the
    range, every key [c1[i]] of the range is present, and there are at
    most as many keys as positions. *)
Lemma pmx_mapping_fold c1 c2 l mp0 :
  Forall (fun i => i < length c1 /\ i < length c2)%nat l ->
  exists mp, fold_left (pmx_mapping_step c1 c2) l (Ok mp0) = Ok mp /\
    (forall g h, mp !! g = Some h ->
       mp0 !! g = Some h \/ exists i, In i l /\ c1 !! i = Some g /\ c2 !! i = Some h) /\
    (forall g, is_Some (mp0 !! g) -> is_Some (mp !! g)) /\
    (forall i g, In i l -> c1 !! i = Some g -> is_Some (mp !! g)) /\
    (size mp <= size mp0 + length l)%nat.
Proof.
  revert mp0. induction l as [|i l IH]; intros mp0 Hl; cbn [fold_left].
  { exists mp0. split; [reflexivity|]. split; [auto|]. split; [auto|]. split; [intros ? ? []|lia]. }
  apply Forall_cons in Hl as [[Hi1 Hi2] Hl].
  destruct (py_getitem_ok c1 i Hi1) as (k & Hk & Hk').
  destruct (py_getitem_ok c2 i Hi2) as (v & Hv & Hv').
  replace (pmx_mapping_step c1 c2 (Ok mp0) i) with (Ok (A:=gmap Z Z) (<[k := v]> mp0))
    by (unfold pmx_mapping_step; simpl; rewrite Hk, Hv; reflexivity).
  destruct (IH (<[k := v]> mp0) Hl) as (mp & -> & H1 & H2 & H3 & H4).
  exists mp. split; [reflexivity|]. split; [|split; [|split]].
  - intros g h Hg. destruct (H1 g h Hg) as [Hg'|(j & Hj & Hj1 & Hj2)];
      [|right; exists j; split; [right; exact Hj|split; assumption]].
    destruct (decide (k = g)) as [<-|Hne].
    + rewrite lookup_insert_eq in Hg'. injection Hg' as <-.
      right. exists i. split; [left; reflexivity|split; assumption].
    + rewrite lookup_insert_ne in Hg' by exact Hne. left; exact Hg'.
  - intros g Hg. apply H2. destruct (decide (k = g)) as [<-|Hne].
    + rewrite lookup_insert_eq. eauto.
    + rewrite lookup_insert_ne by exact Hne. exact Hg.
  - intros j g [<-|Hj] Hg; [|exact (H3 j g Hj Hg)].
    rewrite Hk' in Hg. injection Hg as <-. apply H2. rewrite lookup_insert_eq. eauto.
  - rewrite map_size_insert in H4. destruct (mp0 !! k); simpl in *; lia.
Qed.

Lemma pmx_mapping_spec c1 c2 a b :
  (a <= b)%nat -> (b < length c1)%nat -> (b < length c2)%nat ->
  exists mp, pmx_mapping c1 c2 a b = Ok mp /\
    (forall g h, mp !! g = Some h ->
       exists i, (a <= i <= b)%nat /\ c1 !! i = Some g /\ c2 !! i = Some h) /\
    (forall i g, (a <= i <= b)%nat -> c1 !! i = Some g -> is_Some (mp !! g)) /\
    (size mp <= S b - a)%nat.
Proof.
  intros Hab Hb1 Hb2. unfold pmx_mapping.
  destruct (pmx_mapping_fold c1 c2 (seq a (S b - a)) ∅) as (mp & -> & H1 & _ & H3 & H4).
  { apply List.Forall_forall. intros i Hi%in_seq. lia. }
  exists mp. split; [reflexivity|]. split; [|split].
  - intros g h Hg. destruct (H1 g h Hg) as [Hg'|(i & Hi%in_seq & ?)];
      [rewrite lookup_empty in Hg'; discriminate|].
    exists i. split; [lia|assumption].
  - intros i g Hi Hg. apply (H3 i g); [apply in_seq; lia|exact Hg].
  - rewrite map_size_empty, length_seq in H4. lia.
Qed.

(** The loop of lines 28-32 writes [chase(c2[j])] at every position [j]
    of the list and leaves the others alone. *)
Lemma pmx_fill_spec c2 mp fuel positions child :
  NoDup positions ->
  (forall i, In i positions -> (i < length child)%nat /\
     exists g z, c2 !! i = Some g /\ pmx_chase mp fuel g = Ok z) ->
  exists child', pmx_fill c2 mp fuel positions child = Ok child' /\
    length child' = length child /\
    (forall j, ~ In j positions -> child' !! j = child !! j) /\
    (forall j, In j positions -> exists g z, c2 !! j = Some g /\ pmx_chase mp fuel g = Ok z /\
                                          child' !! j = Some z).
Proof.
  revert child. induction positions as [|i rest IH]; intros child Hnd Hok; simpl.
  { exists child. split; [reflexivity|]. split; [reflexivity|]. split; [auto|intros ? []]. }
  apply NoDup_cons in Hnd as [Hi Hnd].
  destruct (Hok i (or_introl eq_refl)) as (Hlen & g & z & Hg & Hz).
  unfold py_getitem at 1. rewrite Hg. simpl. rewrite Hz. simpl.
  rewrite list_setitem_ok by exact Hlen. simpl.
  destruct (IH (<[i := z]> child) Hnd) as (child' & -> & Hl & Hout & Hin).
  { intros j Hj. rewrite length_insert. apply Hok. right. exact Hj. }
  exists child'. split; [reflexivity|]. rewrite length_insert in Hl. split; [exact Hl|]. split.
  - intros j Hj. rewrite Hout by (intros Hj'; apply Hj; right; exact Hj').
    apply list_lookup_insert_ne. intros ->. apply Hj. left. reflexivity.
  - intros j [<-|Hj]; [|exact (Hin j Hj)].
    exists g, z. split; [exact Hg|]. split; [exact Hz|].
    rewrite Hout by (intros Hi'; apply Hi, list_elem_of_In, Hi').
    rewrite list_lookup_insert. destruct (decide _) as [_|Hn]; [reflexivity|exfalso; apply Hn; auto].
Qed.

(** [child = [-1]*size; child[a:b+1] = c1[a:b+1]] *)
Lemma pmx_child0_length (c1 : list Z) a b :
  (a <= b)%nat -> (b < length c1)%nat ->
  length (slice_assign (repeat (-1)%Z (length c1)) a (S b) (slice c1 a (S b))) = length c1.
Proof.
  intros Hab Hb. unfold slice_assign, slice.
  rewrite !length_app, length_take, length_drop, length_take, length_drop, repeat_length. lia.
Qed.

Lemma pmx_child0_lookup (c1 : list Z) a b j :
  (a <= j <= b)%nat -> (b < length c1)%nat ->
  slice_assign (repeat (-1)%Z (length c1)) a (S b) (slice c1 a (S b)) !! j = c1 !! j.
Proof.
  intros Hj Hb. unfold slice_assign, slice.
  rewrite lookup_app_r by (rewrite length_take, repeat_length; lia).
  rewrite length_take, repeat_length.
  rewrite lookup_app_l by (rewrite length_take, length_drop; lia).
  rewrite lookup_take_lt by lia. rewrite lookup_drop. f_equal. lia.
Qed.

(** ** The child of [pmx_crossover] is a permutation *)

Section PmxPermutation.
Variables (c1 c2 : list Z) (mp : gmap Z Z) (a b : nat).
Hypothesis Hnd1 : NoDup c1.
Hypothesis Hperm : c2 ≡ₚ c1.
Hypothesis Hab : (a <= b)%nat.
Hypothesis Hb : (b < length c1)%nat.
Hypothesis Hentries : forall g h, mp !! g = Some h ->
  exists i, (a <= i <= b)%nat /\ c1 !! i = Some g /\ c2 !! i = Some h.
Hypothesis Hkeys : forall i g, (a <= i <= b)%nat -> c1 !! i = Some g -> is_Some (mp !! g).
Hypothesis Hsize : (size mp <= S b - a)%nat.

Lemma pmx_nodup2 : NoDup c2.
Proof. rewrite Hperm. exact Hnd1. Qed.

Lemma pmx_len2 : length c2 = length c1.
Proof. exact (Permutation_length Hperm). Qed.

Lemma pmx_in2 x : In x c2 -> In x c1.
Proof. intros Hx. exact (Permutation_in x Hperm Hx). Qed.

Lemma pmx_inj x y z : mp !! x = Some z -> mp !! y = Some z -> x = y.
Proof.
  intros Hx Hy. destruct (Hentries x z Hx) as (i & _ & Hi1 & Hi2).
  destruct (Hentries y z Hy) as (j & _ & Hj1 & Hj2).
  assert (i = j) as <- by exact (NoDup_lookup c2 i j z pmx_nodup2 Hi2 Hj2). congruence.
Qed.

(** The gene [c2[j]] at a position outside [a..b] is not a value of the
    mapping, which holds the genes [c2[a..b]]. *)
Lemma pmx_outside_not_image j g :
  ~ (a <= j <= b)%nat -> c2 !! j = Some g -> forall x, mp !! x <> Some g.
Proof.
  intros Hj Hg x Hx. destruct (Hentries x g Hx) as (i & Hi & _ & Hi2).
  assert (i = j) as -> by exact (NoDup_lookup c2 i j g pmx_nodup2 Hi2 Hg). lia.
Qed.

Lemma pmx_chase_outside j :
  (j < length c1)%nat -> ~ (a <= j <= b)%nat ->
  exists g z tr, c2 !! j = Some g /\ pmx_chase mp (S (length c1)) g = Ok z /\
    mp !! z = None /\ rchain mp (z :: tr) /\ last (z :: tr) = Some g.
Proof.
  intros Hj Hout. rewrite <- pmx_len2 in Hj.
  destruct (lookup_lt_is_Some_2 c2 j Hj) as (g & Hg).
  destruct (pmx_chase_ok mp pmx_inj (S (length c1)) g []
              (rchain_base mp g (pmx_outside_not_image j g Hout Hg)) ltac:(simpl; lia))
    as (z & tr & Hz & Hnone & Hc & Hlast).
  exists g, z, tr. auto.
Qed.

Lemma pmx_child_perm child :
  length child = length c1 ->
  (forall j, (a <= j <= b)%nat -> child !! j = c1 !! j) ->
  (forall j, (j < length c1)%nat -> ~ (a <= j <= b)%nat ->
     exists g z, c2 !! j = Some g /\ pmx_chase mp (S (length c1)) g = Ok z /\ child !! j = Some z) ->
  child ≡ₚ c1.
Proof.
  intros Hlen Hin Hout.
  assert (forall j x, child !! j = Some x ->
            ((a <= j <= b)%nat /\ c1 !! j = Some x) \/
            (~ (a <= j <= b)%nat /\ exists g tr, c2 !! j = Some g /\ mp !! x = None /\
               rchain mp (x :: tr) /\ last (x :: tr) = Some g)) as Hat.
  { intros j x Hx. pose proof (lookup_lt_Some _ _ _ Hx) as Hj. rewrite Hlen in Hj.
    destruct (decide (a <= j <= b)%nat) as [Hs|Hs]; [left; rewrite <- Hin by exact Hs; auto|right].
    destruct (Hout j Hj Hs) as (g & z & Hg & Hz & Hx').
    destruct (pmx_chase_outside j Hj Hs) as (g' & z' & tr & Hg' & Hz' & Hn & Hc & Hl).
    rewrite Hg in Hg'. injection Hg' as <-. rewrite Hz in Hz'. injection Hz' as <-.
    rewrite Hx in Hx'. injection Hx' as <-. split; [exact Hs|eauto 6]. }
  apply NoDup_Permutation_bis; [apply NoDup_ListNoDup, NoDup_alt|lia|].
  - intros i j x Hi Hj.
    destruct (Hat i x Hi) as [(Hsi & Hi1)|(Hsi & gi & tri & Hgi & Hni & Hci & Hli)];
    destruct (Hat j x Hj) as [(Hsj & Hj1)|(Hsj & gj & trj & Hgj & Hnj & Hcj & Hlj)].
    + exact (NoDup_lookup c1 i j x Hnd1 Hi1 Hj1).
    + destruct (Hkeys i x Hsi Hi1) as (? & Hk). congruence.
    + destruct (Hkeys j x Hsj Hj1) as (? & Hk). congruence.
    + pose proof (rchain_last_unique mp pmx_inj _ _ Hci Hcj eq_refl) as Hl.
      rewrite Hli, Hlj in Hl. injection Hl as <-.
      exact (NoDup_lookup c2 i j gi pmx_nodup2 Hgi Hgj).
  - intros x Hx. apply list_elem_of_In, list_elem_of_lookup in Hx as (j & Hj).
    destruct (Hat j x Hj) as [(_ & Hj1)|(_ & g & tr & Hg & _ & Hc & Hl)].
    + apply list_elem_of_In, list_elem_of_lookup. eauto.
    + apply pmx_in2. destruct (rchain_in mp _ x Hc (or_introl eq_refl)) as [Hl'|(y & Hy)].
      * rewrite Hl in Hl'. injection Hl' as ->.
        apply list_elem_of_In, list_elem_of_lookup. eauto.
      * destruct (Hentries y x Hy) as (i & _ & _ & Hi2).
        apply list_elem_of_In, list_elem_of_lookup. eauto.
Qed.
End PmxPermutation.

Section GeneticCorrect.
Context {R : Type} `{PyRandomLaws R}.

Lemma pmx_positions_nodup a b size :
  (a <= b)%nat -> NoDup (seq 0 a ++ seq (S b) (size - S b)).
Proof.
  intros Hab. apply NoDup_app. split; [apply NoDup_seq|]. split; [|apply NoDup_seq].
  intros x Hx1 Hx2. apply list_elem_of_In, in_seq in Hx1. apply list_elem_of_In, in_seq in Hx2. lia.
Qed.

Lemma pmx_positions_in a b size j :
  (a <= b < size)%nat ->
  In j (seq 0 a ++ seq (S b) (size - S b)) <-> (j < size)%nat /\ ~ (a <= j <= b)%nat.
Proof. intros Hb. rewrite in_app_iff, !in_seq. lia. Qed.

(** The draw of [a, b = sorted(random.sample(range(size), 2))]. *)
Lemma sample_two r size :
  (2 <= size)%nat ->
  exists x y r1, sample r size 2 = Ok ([x; y], r1) /\ (Nat.min x y <= Nat.max x y < size)%nat.
Proof.
  intros Hs. destruct (sample_ok r size 2 Hs) as (idx & r1 & Hr & Hl & _ & Hf).
  destruct idx as [|x [|y [|? ?]]]; simpl in Hl; try lia.
  apply Forall_cons in Hf as [Hx Hf]. apply Forall_cons in Hf as [Hy _].
  exists x, y, r1. split; [exact Hr|lia].
Qed.
Lemma pmx_crossover_perm parent1 parent2 r :
  NoDup parent1 -> parent2 ≡ₚ parent1 -> (2 <= length parent1)%nat ->
  exists child r', pmx_crossover parent1 parent2 r = Ok (child, r') /\ child ≡ₚ parent1.
Proof.
  intros Hnd Hp Hs. unfold pmx_crossover.
  destruct (sample_two r (length parent1) Hs) as (x & y & r1 & -> & Hab). cbn [res_bind].
  set (a := Nat.min x y). set (b := Nat.max x y). fold a b in Hab.
  pose proof (Permutation_length Hp) as Hl2.
  destruct (pmx_mapping_spec parent1 parent2 a b ltac:(lia) ltac:(lia) ltac:(lia))
    as (mp & -> & Hent & Hkeys & Hsize). cbn [res_bind].
  set (child0 := slice_assign _ a (S b) _).
  destruct (pmx_fill_spec parent2 mp (S (length parent1))
              (seq 0 a ++ seq (S b) (length parent1 - S b)) child0
              (pmx_positions_nodup a b (length parent1) ltac:(lia))) as (child & -> & Hlen & Hout & Hin).
  { intros i Hi%(pmx_positions_in a b (length parent1) i ltac:(lia)). unfold child0.
    rewrite pmx_child0_length by lia. split; [lia|].
    destruct (pmx_chase_outside parent1 parent2 mp a b Hnd Hp ltac:(lia) ltac:(lia) Hent Hsize i)
      as (g & z & tr & ? & ? & _); [lia|lia|]. eauto. }
  exists child, r1. split; [reflexivity|].
  unfold child0 in Hlen. rewrite pmx_child0_length in Hlen by lia.
  apply (pmx_child_perm parent1 parent2 mp a b Hnd Hp ltac:(lia) ltac:(lia) Hent Hkeys Hsize);
    [exact Hlen| |].
  - intros j Hj. rewrite Hout by (rewrite pmx_positions_in by lia; lia).
    apply pmx_child0_lookup; lia.
  - intros j Hj Hj'. apply Hin, pmx_positions_in; lia.
Qed.

(** C20. When the parents are permutations of each other without
    repeated genes and have at least two genes, [pmx_crossover] returns:
    every [while gene in mapping1] loop exits within the fuel, and the
    child is a permutation of [parent1]. *)
Theorem pmx_crossover_permutation parent1 parent2 r :
  NoDup parent1 -> parent2 ≡ₚ parent1 -> (2 <= length parent1)%nat ->
  exists child r', pmx_crossover parent1 parent2 r = Ok (child, r') /\ child ≡ₚ parent1.
Proof. exact (pmx_crossover_perm parent1 parent2 r). Qed.
End GeneticCorrect.

(** ** Mutation and selection *)

Lemma insert_cons_perm {A} (t : list A) j x y :
  t !! j = Some y -> y :: <[j := x]> t ≡ₚ x :: t.
Proof.
  revert j. induction t as [|z t IH]; intros [|j] Hj; simpl in Hj; try discriminate.
  - injection Hj as ->. simpl. apply Permutation_swap.
  - simpl. rewrite Permutation_swap, (IH j Hj). apply Permutation_swap.
Qed.

(** [child[i], child[j] = child[j], child[i]] permutes the list. *)
Lemma list_swap_perm {A} (l : list A) i j x y :
  l !! i = Some x -> l !! j = Some y -> <[j := x]> (<[i := y]> l) ≡ₚ l.
Proof.
  revert i j. induction l as [|z l IH]; intros [|i] [|j] Hi Hj; simpl in *; try discriminate.
  - injection Hi as ->. injection Hj as ->. reflexivity.
  - injection Hi as ->. apply insert_cons_perm. exact Hj.
  - injection Hj as ->. apply insert_cons_perm. exact Hi.
  - rewrite (IH i j Hi Hj). reflexivity.
Qed.

Lemma py_max_by_spec {A} (f : A -> Q) xs :
  xs <> [] -> exists m, py_max_by f xs = Ok m /\ In m xs /\ forall y, In y xs -> f y <= f m.
Proof.
  destruct xs as [|x rest]; [congruence|]. intros _. simpl. eexists. split; [reflexivity|].
  assert (forall acc, In (fold_left (fun b y => if qltb (f b) (f y) then y else b) rest acc)
                         (acc :: rest) /\
          forall y, In y (acc :: rest) ->
                    f y <= f (fold_left (fun b y => if qltb (f b) (f y) then y else b) rest acc))
    as Hgen.
  { induction rest as [|z rest IH]; intros acc; simpl.
    - split; [left; reflexivity|]. intros y [<-|[]]. apply Qle_refl.
    - destruct (qltb (f acc) (f z)) eqn:E; destruct (IH (if qltb (f acc) (f z) then z else acc))
        as [Hin Hle]; rewrite E in Hin, Hle.
      + apply qltb_spec in E. split; [simpl in Hin; tauto|].
        intros y [<-|[<-|Hy]]; [|apply Hle; left; reflexivity|apply Hle; right; exact Hy].
        pose proof (Hle z (or_introl eq_refl)). lra.
      + apply qltb_false in E. split; [simpl in Hin; tauto|].
        intros y [<-|[<-|Hy]]; [apply Hle; left; reflexivity| |apply Hle; right; exact Hy].
        pose proof (Hle acc (or_introl eq_refl)). lra. }
  exact (Hgen x).
Qed.

Lemma res_map_getitem {A} (xs : list A) idx :
  Forall (fun i => i < length xs)%nat idx ->
  exists sel, res_map (py_getitem xs) idx = Ok sel /\
    (forall p, In p sel -> exists i, In i idx /\ xs !! i = Some p) /\
    (forall i, In i idx -> exists p, In p sel /\ xs !! i = Some p) /\
    length sel = length idx.
Proof.
  induction idx as [|i idx IH]; intros Hf; simpl.
  { exists []. split; [reflexivity|]. split; [intros ? []|]. split; [intros ? []|reflexivity]. }
  apply Forall_cons in Hf as [Hi Hf].
  destruct (py_getitem_ok xs i Hi) as (p & -> & Hp). cbn [res_bind].
  destruct (IH Hf) as (sel & -> & H1 & H2 & H3). cbn [res_bind].
  exists (p :: sel). split; [reflexivity|]. split; [|split].
  - intros q [<-|Hq]; [exists i; split; [left; reflexivity|exact Hp]|].
    destruct (H1 q Hq) as (k & ? & ?). exists k. split; [right|]; assumption.
  - intros k [<-|Hk]; [exists p; split; [left; reflexivity|exact Hp]|].
    destruct (H2 k Hk) as (q & ? & ?). exists q. split; [right|]; assumption.
  - simpl. lia.
Qed.

Section GeneticOperators.
Context {R : Type} `{PyRandomLaws R}.

(** [swap_mutation] returns its chromosome, or the chromosome with the
    genes at two distinct positions exchanged. *)
Lemma swap_mutation_cases chrom rate r :
  (2 <= length chrom)%nat ->
  exists child r', swap_mutation chrom rate r = Ok (child, r') /\
    (child = chrom \/
     exists i j x y, i <> j /\ chrom !! i = Some x /\ chrom !! j = Some y /\
                     child = <[j := x]> (<[i := y]> chrom)).
Proof.
  intros Hl. unfold swap_mutation. destruct (random r) as [u r1].
  destruct (qltb u rate); [|eauto].
  destruct (sample_ok r1 (length chrom) 2 Hl) as (idx & r2 & -> & Hlen & Hnd & Hf). cbn [res_bind].
  destruct idx as [|i [|j [|? ?]]]; simpl in Hlen; try lia.
  apply Forall_cons in Hf as [Hi Hf]. apply Forall_cons in Hf as [Hj _].
  apply NoDup_cons in Hnd as [Hij _].
  destruct (py_getitem_ok chrom j Hj) as (y & -> & Hy).
  destruct (py_getitem_ok chrom i Hi) as (x & -> & Hx). cbn [res_bind].
  rewrite list_setitem_ok by exact Hi. cbn [res_bind].
  rewrite list_setitem_ok by (rewrite length_insert; exact Hj). cbn [res_bind].
  eexists _, _. split; [reflexivity|]. right. exists i, j, x, y.
  split; [intros ->; apply Hij; left; reflexivity|auto].
Qed.

Lemma swap_mutation_perm chrom rate r :
  (2 <= length chrom)%nat ->
  exists child r', swap_mutation chrom rate r = Ok (child, r') /\ child ≡ₚ chrom.
Proof.
  intros Hl. destruct (swap_mutation_cases chrom rate r Hl) as (child & r' & Hr & Hc).
  exists child, r'. split; [exact Hr|].
  destruct Hc as [->|(i & j & x & y & _ & Hx & Hy & ->)]; [reflexivity|].
  exact (list_swap_perm chrom i j x y Hx Hy).
Qed.

(** The tournament over three distinct drawn positions. *)
Lemma tournament_selection_spec pop fits r :
  length fits = length pop -> (3 <= length pop)%nat ->
  exists parent r' idx i fi,
    tournament_selection pop fits 3 r = Ok (parent, r') /\
    sample r (length pop) 3 = Ok (idx, r') /\ NoDup idx /\
    In i idx /\ pop !! i = Some parent /\ fits !! i = Some fi /\
    forall j fj, In j idx -> fits !! j = Some fj -> total_score fj <= total_score fi.
Proof.
  intros Hlf Hl. unfold tournament_selection.
  assert (length (zip pop fits) = length pop) as Hz by (rewrite length_zip_with; lia).
  rewrite Hz. destruct (sample_ok r (length pop) 3 Hl) as (idx & r1 & Hs & Hlen & Hnd & Hf).
  rewrite Hs. cbn [res_bind].
  destruct (res_map_getitem (zip pop fits) idx ltac:(rewrite Hz; exact Hf))
    as (sel & -> & Hsel1 & Hsel2 & Hsel3). cbn [res_bind].
  destruct (py_max_by_spec (fun p => total_score p.2) sel ltac:(intros ->; simpl in Hsel3; lia))
    as ((parent & fi) & -> & Hin & Hmax). cbn [res_bind].
  destruct (Hsel1 _ Hin) as (i & Hi & Hzi).
  apply lookup_zip_with_Some in Hzi as (x & y & [= <- <-] & Hpi & Hfi).
  exists parent, r1, idx, i, fi. do 6 (split; [assumption || reflexivity|]).
  intros j fj Hj Hfj. destruct (Hsel2 j Hj) as ((q1 & q2) & Hq & Hzj).
  apply lookup_zip_with_Some in Hzj as (x' & y' & [= <- <-] & _ & Hfj').
  rewrite Hfj in Hfj'. injection Hfj' as <-. exact (Hmax _ Hq).
Qed.

(** On a chromosome of at least two genes, [swap_mutation] returns
    either the chromosome itself (the draw is not below [mutation_rate])
    or the chromosome with the genes at two distinct positions
    exchanged; either way a permutation of it. *)
Theorem swap_mutation_exchanges chrom rate r :
  (2 <= length chrom)%nat ->
  exists child r', swap_mutation chrom rate r = Ok (child, r') /\
    (child = chrom \/
     exists i j x y, i <> j /\ chrom !! i = Some x /\ chrom !! j = Some y /\
                     child = <[j := x]> (<[i := y]> chrom)) /\
    child ≡ₚ chrom.
Proof.
  intros Hl. destruct (swap_mutation_cases chrom rate r Hl) as (child & r' & Hr & Hc).
  exists child, r'. split; [exact Hr|]. split; [exact Hc|].
  destruct Hc as [->|(i & j & x & y & _ & Hx & Hy & ->)]; [reflexivity|].
  exact (list_swap_perm chrom i j x y Hx Hy).
Qed.

(** C21. [tournament_selection(pop, fitnesses)] raises [ValueError] on a
    population of fewer than three; otherwise it returns the chromosome
    of highest [total_score] among three distinct drawn positions. *)
Theorem tournament_selection_contract pop fits r :
  length fits = length pop ->
  ((length pop < 3)%nat -> tournament_selection pop fits 3 r = Err ValueError) /\
  ((3 <= length pop)%nat ->
   exists parent r' idx i fi,
     tournament_selection pop fits 3 r = Ok (parent, r') /\
     sample r (length pop) 3 = Ok (idx, r') /\ NoDup idx /\
     In i idx /\ pop !! i = Some parent /\ fits !! i = Some fi /\
     forall j fj, In j idx -> fits !! j = Some fj -> total_score fj <= total_score fi).
Proof.
  intros Hlf. split; [|exact (tournament_selection_spec pop fits r Hlf)].
  intros Hl. unfold tournament_selection.
  rewrite length_zip_with, sample_too_many by lia. reflexivity.
Qed.
End GeneticOperators.

(** ** [run_ga] keeps permutations and never loses its best *)

(** The tutor indices [0..k-1] as Python [int]s: what [init_chromosome]
    is assumed to permute. *)
Definition genes (k : nat) : list Z := map Z.of_nat (seq 0 k).

Lemma genes_nodup k : NoDup (genes k).
Proof. apply NoDup_fmap_2; [intros x y; lia|apply NoDup_seq]. Qed.

Lemma genes_in k g : In g (genes k) <-> exists i, g = Z.of_nat i /\ (i < k)%nat.
Proof.
  unfold genes. rewrite in_map_iff. split.
  - intros (i & <- & Hi%in_seq). eauto with lia.
  - intros (i & -> & Hi). exists i. split; [reflexivity|apply in_seq; lia].
Qed.

Section GeneticRun.
Context {R : Type} `{PyRandomLaws R}.
Variable init_chromosome : R -> nat -> list Z * R.
Variables (df_students df_tutors : list row) (weights : gmap string Q).
Abbreviation n := (length df_students).
Hypothesis Hinit : forall r, (init_chromosome r n).1 ≡ₚ genes n.
Hypothesis Hn : (2 <= n)%nat.
Hypothesis Htutors : (n <= length df_tutors)%nat.
Hypothesis Hw : weights_ok weights.

Abbreviation fit := (fitness_of df_students df_tutors weights).

Lemma perm_fitness ch : ch ≡ₚ genes n -> exists f, fit ch = Ok f.
Proof.
  intros Hp. assert (forall g, In g ch -> exists i, g = Z.of_nat i /\ (i < n)%nat) as Hg
    by (intros g Hin; apply genes_in, (Permutation_in g Hp), Hin).
  unfold fitness_of.
  replace (forallb _ ch) with true
    by (symmetry; apply forallb_forall; intros g Hin; destruct (Hg g Hin) as (i & -> & _); apply Z.leb_le; lia).
  rewrite GaFitness.ga_compute_fitness_same. apply compute_fitness_exists; [exact Hw| |].
  - rewrite length_map, (Permutation_length Hp). unfold genes. rewrite length_map, length_seq. lia.
  - apply List.Forall_forall. intros t (g & <- & Hin)%in_map_iff.
    destruct (Hg g Hin) as (i & -> & Hi). lia.
Qed.

Lemma fitnesses_of_ok pop :
  Forall (fun ch => ch ≡ₚ genes n) pop ->
  exists fits, fitnesses_of df_students df_tutors weights pop = Ok fits /\
    length fits = length pop /\
    forall i ch f, pop !! i = Some ch -> fits !! i = Some f -> fit ch = Ok f.
Proof.
  induction pop as [|ch pop IH]; intros Hp; unfold fitnesses_of; simpl.
  { exists []. split; [reflexivity|]. split; [reflexivity|]. intros i ? ? Hi. rewrite lookup_nil in Hi. discriminate. }
  apply Forall_cons in Hp as [Hch Hp].
  destruct (perm_fitness ch Hch) as (f & Hfch). rewrite Hfch. cbn [res_bind].
  destruct (IH Hp) as (fits & Hfits & Hl & Hf). unfold fitnesses_of in Hfits. rewrite Hfits.
  cbn [res_bind]. exists (f :: fits). split; [reflexivity|]. split; [simpl; lia|].
  intros [|i] ch' f'; simpl; [intros [= <-] [= <-]; assumption|apply Hf].
Qed.

Lemma best_of_ok pop fits :
  pop <> [] -> Forall (fun ch => ch ≡ₚ genes n) pop -> length fits = length pop ->
  (forall i ch f, pop !! i = Some ch -> fits !! i = Some f -> fit ch = Ok f) ->
  exists b, best_of pop fits = Ok b /\ b.1 ≡ₚ genes n /\ fit b.1 = Ok b.2 /\
    forall i f, fits !! i = Some f -> total_score f <= total_score b.2.
Proof.
  intros Hne Hp Hl Hf. unfold best_of.
  destruct (py_max_by_spec (fun p => total_score p.2) (zip pop fits)) as (b & -> & Hin & Hmax).
  { destruct pop as [|ch pop]; [congruence|]. destruct fits; simpl in *; [lia|discriminate]. }
  apply list_elem_of_In, list_elem_of_lookup in Hin as (i & Hi).
  apply lookup_zip_with_Some in Hi as (ch & f & -> & Hch & Hfi).
  exists (ch, f). split; [reflexivity|]. split; [|split].
  - rewrite List.Forall_forall in Hp. apply Hp, list_elem_of_In, list_elem_of_lookup. eauto.
  - exact (Hf i ch f Hch Hfi).
  - intros j g Hg. destruct (lookup_lt_is_Some_2 pop j) as (chj & Hchj).
    { rewrite <- Hl. exact (lookup_lt_Some _ _ _ Hg). }
    apply (Hmax (chj, g)), list_elem_of_In, list_elem_of_lookup. exists j.
    apply lookup_zip_with_Some. eauto.
Qed.
Lemma forall_perm_lookup pop i ch :
  Forall (fun ch => ch ≡ₚ genes n) pop -> pop !! i = Some ch -> ch ≡ₚ genes n.
Proof. intros Hp Hi. rewrite Forall_lookup in Hp. exact (Hp i ch Hi). Qed.

Lemma genes_length k : length (genes k) = k.
Proof. unfold genes. rewrite length_map, length_seq. reflexivity. Qed.

(** One child of the [while] loop, lines 63-69. *)
Lemma offspring_perm (p1 p2 : list Z) cr mr u r3 :
  p1 ≡ₚ genes n -> p2 ≡ₚ genes n ->
  exists child r5,
    (c <- (if qltb u cr then pmx_crossover p1 p2 r3 else Ok (p1, r3)) ;;
     let (child, r4) := c in swap_mutation child mr r4) = Ok (child, r5) /\ child ≡ₚ genes n.
Proof.
  intros Hp1 Hp2.
  assert (2 <= length p1)%nat as Hl1 by (rewrite (Permutation_length Hp1), genes_length; exact Hn).
  assert (exists c r4, (if qltb u cr then pmx_crossover p1 p2 r3 else Ok (p1, r3)) = Ok (c, r4) /\
                       c ≡ₚ genes n) as (c & r4 & -> & Hc).
  { destruct (qltb u cr); [|eauto].
    destruct (pmx_crossover_perm p1 p2 r3) as (c & r4 & -> & Hc).
    - rewrite Hp1. apply genes_nodup.
    - rewrite Hp1. exact Hp2.
    - exact Hl1.
    - exists c, r4. split; [reflexivity|]. rewrite Hc. exact Hp1. }
  cbn [res_bind].
  destruct (swap_mutation_perm c mr r4) as (child & r5 & -> & Hch);
    [rewrite (Permutation_length Hc), genes_length; exact Hn|].
  exists child, r5. split; [reflexivity|]. rewrite Hch. exact Hc.
Qed.

Lemma breed_ok k pop fits cr mr new_pop r :
  Forall (fun ch => ch ≡ₚ genes n) pop -> length fits = length pop -> (3 <= length pop)%nat ->
  Forall (fun ch => ch ≡ₚ genes n) new_pop ->
  exists np r', breed k pop fits cr mr new_pop r = Ok (np, r') /\
    Forall (fun ch => ch ≡ₚ genes n) np /\ length np = (length new_pop + k)%nat.
Proof.
  intros Hp Hl H3. revert new_pop r. induction k as [|k IH]; intros new_pop r Hnew; simpl.
  { exists new_pop, r. split; [reflexivity|]. split; [exact Hnew|lia]. }
  destruct (tournament_selection_spec pop fits r Hl H3)
    as (p1 & r1 & _ & i1 & _ & -> & _ & _ & _ & Hi1 & _ & _). cbn [res_bind].
  destruct (tournament_selection_spec pop fits r1 Hl H3)
    as (p2 & r2 & _ & i2 & _ & -> & _ & _ & _ & Hi2 & _ & _). cbn [res_bind].
  destruct (random r2) as [u r3].
  destruct (offspring_perm p1 p2 cr mr u r3 (forall_perm_lookup _ _ _ Hp Hi1)
              (forall_perm_lookup _ _ _ Hp Hi2)) as (child & r5 & Hc & Hch).
  destruct (if qltb u cr then pmx_crossover p1 p2 r3 else Ok (p1, r3)) as [[c r4]|e];
    cbn [res_bind] in Hc |- *; [|discriminate].
  rewrite Hc. cbn [res_bind].
  destruct (IH (new_pop ++ [child]) r5) as (np & r' & -> & Hnp & Hlen).
  { apply Forall_app. split; [exact Hnew|constructor; [exact Hch|constructor]]. }
  exists np, r'. split; [reflexivity|]. split; [exact Hnp|]. rewrite length_app in Hlen. simpl in Hlen. lia.
Qed.

Lemma to_nat_pred (p : Z) : (1 <= p)%Z -> (1 + Z.to_nat (p - 1))%nat = Z.to_nat p.
Proof. intros Hp. lia. Qed.

(** The population is [pop_size] permutations with their fitness, and
    [best] a permutation with its fitness. *)
Record ga_inv (pop_size : Z) (st : @ga_state R) : Prop := {
  ga_pop_perm : Forall (fun ch => ch ≡ₚ genes n) (population st);
  ga_fits_len : length (fitnesses st) = length (population st);
  ga_fits : forall i ch f, population st !! i = Some ch -> fitnesses st !! i = Some f ->
                           fit ch = Ok f;
  ga_pop_len : length (population st) = Z.to_nat pop_size;
  ga_best_perm : (best st).1 ≡ₚ genes n;
  ga_best_fit : fit (best st).1 = Ok (best st).2
}.

Lemma ga_generation_ok pop_size cr mr st :
  (3 <= pop_size)%Z -> ga_inv pop_size st ->
  exists st', ga_generation df_students df_tutors weights pop_size cr mr st = Ok st' /\
    ga_inv pop_size st' /\ total_score (best st).2 <= total_score (best st').2.
Proof.
  intros H3 [Hp Hfl Hf Hpl Hbp Hbf]. unfold ga_generation.
  destruct (breed_ok (Z.to_nat (pop_size - 1)) (population st) (fitnesses st) cr mr
              [(best st).1] (rng st) Hp Hfl ltac:(lia) ltac:(constructor; [exact Hbp|constructor]))
    as (np & r' & -> & Hnp & Hlen). cbn [res_bind].
  destruct (fitnesses_of_ok np Hnp) as (fits & -> & Hfl' & Hf'). cbn [res_bind].
  destruct (best_of_ok np fits ltac:(intros ->; simpl in Hlen; lia) Hnp Hfl' Hf')
    as (cb & -> & Hcbp & Hcbf & _). cbn [res_bind].
  eexists. split; [reflexivity|].
  destruct (qltb (total_score (best st).2) (total_score cb.2)) eqn:E.
  - apply qltb_spec in E. split; [split; simpl; try assumption|simpl; lra].
    cbn [length] in Hlen. rewrite Hlen. apply to_nat_pred. lia.
  - split; [split; simpl; try assumption|simpl; apply Qle_refl].
    cbn [length] in Hlen. rewrite Hlen. apply to_nat_pred. lia.
Qed.

Lemma ga_loop_ok k pop_size cr mr st :
  (3 <= pop_size)%Z -> ga_inv pop_size st ->
  exists st', ga_loop df_students df_tutors weights k pop_size cr mr st = Ok st' /\
    ga_inv pop_size st' /\ total_score (best st).2 <= total_score (best st').2.
Proof.
  intros H3. revert st. induction k as [|k IH]; intros st Hinv; simpl.
  { exists st. split; [reflexivity|]. split; [exact Hinv|apply Qle_refl]. }
  destruct (ga_generation_ok pop_size cr mr st H3 Hinv) as (st1 & -> & Hinv1 & Hle1). cbn [res_bind].
  destruct (IH st1 Hinv1) as (st2 & -> & Hinv2 & Hle2).
  exists st2. split; [reflexivity|]. split; [exact Hinv2|lra].
Qed.

Lemma init_population_perm k r :
  Forall (fun ch => ch ≡ₚ genes n) (init_population init_chromosome k n r).1 /\
  length (init_population init_chromosome k n r).1 = k.
Proof.
  revert r. induction k as [|k IH]; intros r; simpl; [split; [constructor|reflexivity]|].
  pose proof (Hinit r) as Hch. destruct (init_chromosome r n) as [ch r1]. simpl in Hch.
  destruct (IH r1) as [Hp Hl].
  destruct (init_population init_chromosome k n r1) as [rest r2]. simpl in *.
  split; [constructor; assumption|lia].
Qed.

(** C19. With [pop_size >= 3], at least two students, as many tutors and
    a non-negative weight per criterion, [run_ga] returns for every
    state of [random]: [best_chromosome] is a permutation of the tutor
    indices, [best_fitness] is its fitness, and no chromosome of the
    initial population scores higher. *)
Theorem run_ga_sound pop_size generations cr mr r :
  (3 <= pop_size)%Z ->
  exists res r', run_ga init_chromosome df_students df_tutors weights pop_size generations cr mr r
                   = Ok (res, r') /\
    best_chromosome res ≡ₚ genes n /\ fit (best_chromosome res) = Ok (best_fitness res) /\
    forall ch f, In ch (init_population init_chromosome (Z.to_nat pop_size) n r).1 ->
                 fit ch = Ok f -> total_score f <= total_score (best_fitness res).
Proof.
  intros H3. unfold run_ga.
  destruct (init_population_perm (Z.to_nat pop_size) r) as [Hp Hl].
  destruct (init_population init_chromosome (Z.to_nat pop_size) n r) as [pop r1]. simpl in *.
  destruct (fitnesses_of_ok pop Hp) as (fits & -> & Hfl & Hf). cbn [res_bind].
  destruct (best_of_ok pop fits ltac:(intros ->; simpl in Hl; lia) Hp Hfl Hf)
    as (b & -> & Hbp & Hbf & Hmax). cbn [res_bind].
  destruct (ga_loop_ok (Z.to_nat generations) pop_size cr mr (mk_ga pop fits b r1) H3)
    as (st & -> & Hinv & Hle); [split; simpl; assumption|]. cbn [res_bind].
  eexists _, _. split; [reflexivity|]. simpl.
  split; [exact (ga_best_perm _ _ Hinv)|]. split; [exact (ga_best_fit _ _ Hinv)|].
  intros ch f Hin Hch. apply list_elem_of_In, list_elem_of_lookup in Hin as (i & Hi).
  destruct (lookup_lt_is_Some_2 fits i) as (f' & Hf'); [rewrite Hfl; exact (lookup_lt_Some _ _ _ Hi)|].
  rewrite (Hf i ch f' Hi Hf') in Hch. injection Hch as <-.
  pose proof (Hmax i f' Hf'). simpl in Hle. lra.
Qed.

(** [run_ga] returns a permutation with its fitness, for every state of
    [random], when [pop_size >= 3]. *)
Lemma run_ga_returns pop_size generations cr mr r :
  (3 <= pop_size)%Z ->
  exists res r', run_ga init_chromosome df_students df_tutors weights pop_size generations cr mr r
                   = Ok (res, r') /\
    best_chromosome res ≡ₚ genes n /\ fit (best_chromosome res) = Ok (best_fitness res).
Proof.
  intros H3. unfold run_ga.
  destruct (init_population_perm (Z.to_nat pop_size) r) as [Hp Hl].
  destruct (init_population init_chromosome (Z.to_nat pop_size) n r) as [pop r1]. simpl in *.
  destruct (fitnesses_of_ok pop Hp) as (fits & -> & Hfl & Hf). cbn [res_bind].
  destruct (best_of_ok pop fits ltac:(intros ->; simpl in Hl; lia) Hp Hfl Hf) as (b & -> & Hbp & Hbf & _).
  cbn [res_bind].
  destruct (ga_loop_ok (Z.to_nat generations) pop_size cr mr (mk_ga pop fits b r1) H3)
    as (st & -> & Hinv & _); [split; simpl; assumption|].
  exists (mk_ga_result (best st).1 (best st).2), (rng st).
  exact (conj eq_refl (conj (ga_best_perm _ _ Hinv) (ga_best_fit _ _ Hinv))).
Qed.

(** [run_scenario] of the GA driver returns for every state of [random]
    when [pop_size >= 3]: its three runs of [run_ga] return, and the
    chromosome it reports is a permutation with its fitness. *)
Lemma run_scenario_ga_ok pop_size generations cr mr r :
  (3 <= pop_size)%Z ->
  exists res d r', run_scenario_ga init_chromosome df_students df_tutors weights pop_size generations cr mr r
                     = Ok (res, d, r') /\
    best_chromosome res ≡ₚ genes n /\ fit (best_chromosome res) = Ok (best_fitness res).
Proof.
  intros H3. unfold run_scenario_ga.
  destruct (run_ga_returns pop_size generations cr mr r H3) as (res0 & s0 & -> & Hp & Hf). cbn [res_bind].
  destruct (run_ga_returns pop_size generations cr mr s0 H3) as (res1 & s1 & -> & _). cbn [res_bind].
  destruct (run_ga_returns pop_size generations cr mr s1 H3) as (res2 & s2 & -> & _). cbn [res_bind].
  eauto 6.
Qed.

(** However many generations run, elitism keeps [best] a
    permutation with its fitness and never lowers its score. *)
Theorem ga_loop_elitism k pop_size cr mr st :
  (3 <= pop_size)%Z -> ga_inv pop_size st ->
  exists st', ga_loop df_students df_tutors weights k pop_size cr mr st = Ok st' /\
    (best st').1 ≡ₚ genes n /\ fit (best st').1 = Ok (best st').2 /\
    length (population st') = Z.to_nat pop_size /\
    total_score (best st).2 <= total_score (best st').2.
Proof.
  intros H3 Hinv. destruct (ga_loop_ok k pop_size cr mr st H3 Hinv) as (st' & Hr & Hinv' & Hle).
  exists st'. split; [exact Hr|]. destruct Hinv' as [_ _ _ ? ? ?]. auto.
Qed.

(** C31. [run_ga] raises [ValueError] for every state of [random]:
    with [pop_size <= 0] from [max()] of the empty initial population
    (line 56), and with [pop_size = 2] as soon as a generation runs,
    from [random.sample] of three out of two in [tournament_selection]
    (line 16). *)
Theorem run_ga_valueerror pop_size generations cr mr r :
  (pop_size <= 0)%Z \/ (pop_size = 2%Z /\ (0 < generations)%Z) ->
  run_ga init_chromosome df_students df_tutors weights pop_size generations cr mr r
  = Err ValueError.
Proof.
  unfold run_ga. intros [Hle|[-> Hg]].
  { replace (Z.to_nat pop_size) with 0%nat by lia. reflexivity. }
  destruct (init_population_perm (Z.to_nat 2) r) as [Hp Hl].
  destruct (init_population init_chromosome (Z.to_nat 2) n r) as [pop r1]. simpl in Hp, Hl |- *.
  destruct (fitnesses_of_ok pop Hp) as (fits & -> & Hfl & Hf). cbn [res_bind].
  destruct (best_of_ok pop fits ltac:(intros ->; simpl in Hl; lia) Hp Hfl Hf)
    as (b & -> & _). cbn [res_bind].
  destruct (Z.to_nat generations) as [|k] eqn:E; [lia|]. simpl. unfold ga_generation.
  simpl. unfold tournament_selection.
  rewrite length_zip_with, sample_too_many by lia. reflexivity.
Qed.
End GeneticRun.

(** ** Examples *)

Module GaExample.
Import Lcg FitnessExample.

(** [random.sample(range(k), k)]: a shuffle standing for the missing
    [init_chromosome]. *)
Definition shuffle_init (r : lcg) (k : nat) : list Z * lcg :=
  let (idx, r') := lcg_sample_from (seq 0 k) k r in (map Z.of_nat idx, r').

Lemma shuffle_init_perm r k : (shuffle_init r k).1 ≡ₚ genes k.
Proof.
  unfold shuffle_init, genes.
  destruct (lcg_sample_from_spec (seq 0 k) k r (NoDup_seq 0 k) ltac:(rewrite length_seq; lia))
    as (Hl & Hnd & Hin).
  destruct (lcg_sample_from (seq 0 k) k r) as [idx r']. simpl in *.
  apply Permutation_map, NoDup_Permutation_bis;
    [apply NoDup_ListNoDup, Hnd|rewrite length_seq; lia|].
  intros i Hi. rewrite List.Forall_forall in Hin. exact (Hin i Hi).
Qed.

Definition ga_students : list row := [stu0; stu1].
Definition ga_tutors : list row := [tut0; tut1].

Lemma ga_sizes : (2 <= length ga_students)%nat /\ (length ga_students <= length ga_tutors)%nat.
Proof. split; simpl; lia. Qed.
End GaExample.

Import Lcg.

(** C32. On parents that are not permutations of each other the loop
    [while gene in mapping1] of [pmx_crossover] never exits: for
    [parent1 = [1, 2, 0]], [parent2 = [2, 1, 1]] and the segment [0..1]
    the mapping is [{1: 2, 2: 1}], and the gene [1] of position 2 runs
    around the cycle [1 -> 2 -> 1] for any fuel; the model's fuel
    [len(parent1) + 1] then runs out. *)
Theorem pmx_crossover_diverges :
  pmx_crossover [1; 2; 0]%Z [2; 1; 1]%Z (Lcg.mk_lcg 1) = Err OutOfFuel /\
  exists mp, pmx_mapping [1; 2; 0]%Z [2; 1; 1]%Z 0 1 = Ok mp /\
    forall fuel, pmx_chase mp fuel 1%Z = Err OutOfFuel.
Proof.
  split; [vm_compute; reflexivity|]. eexists. split; [reflexivity|].
  match goal with |- forall fuel, pmx_chase ?m fuel _ = _ => set (mp := m) end.
  assert (mp !! 1%Z = Some 2%Z) as H1 by (vm_compute; reflexivity).
  assert (mp !! 2%Z = Some 1%Z) as H2 by (vm_compute; reflexivity).
  intros fuel. cut (pmx_chase mp fuel 1%Z = Err OutOfFuel /\ pmx_chase mp fuel 2%Z = Err OutOfFuel);
    [tauto|].
  induction fuel as [|fuel [IH1 IH2]]; [split; reflexivity|].
  cbn [pmx_chase]. rewrite H1, H2. split; assumption.
Qed.

(** ** Witnesses *)

Section GaWitnesses.
Import FitnessExample GaExample.

Definition ga_pop0 : list (list Z) := [[0; 1]; [1; 0]; [1; 0]]%Z.

Lemma ga_pop0_perm : Forall (fun ch => ch ≡ₚ genes 2) ga_pop0.
Proof.
  repeat (apply List.Forall_cons; [apply (bool_decide_unpack _); vm_compute; exact I|]).
  apply List.Forall_nil.
Qed.

(** A population of three permutations with their fitness. *)
Definition ga_start : @ga_state lcg :=
  match fitnesses_of ga_students ga_tutors main_weights ga_pop0 with
  | Ok fits =>
      match best_of ga_pop0 fits with
      | Ok b => mk_ga ga_pop0 fits b (mk_lcg 3)
      | Err _ => mk_ga [] [] ([], mk_fitness 0 0) (mk_lcg 3)
      end
  | Err _ => mk_ga [] [] ([], mk_fitness 0 0) (mk_lcg 3)
  end.

Lemma ga_start_inv : ga_inv ga_students ga_tutors main_weights 3 ga_start.
Proof.
  destruct (fitnesses_of_ok ga_students ga_tutors main_weights (proj1 ga_sizes) (proj2 ga_sizes)
              main_weights_ok ga_pop0 ga_pop0_perm) as (fits & Hf & Hfl & Hff).
  destruct (best_of_ok ga_students ga_tutors main_weights (proj1 ga_sizes) (proj2 ga_sizes)
              ga_pop0 fits ltac:(unfold ga_pop0; discriminate) ga_pop0_perm Hfl Hff)
    as (b & Hb & Hbp & Hbf & _).
  unfold ga_start. rewrite Hf, Hb.
  split; [exact ga_pop0_perm|exact Hfl|exact Hff|reflexivity|exact Hbp|exact Hbf].
Qed.
End GaWitnesses.

Lemma pmx_crossover_permutation_witness :
  exists child r', pmx_crossover [0; 1; 2; 3]%Z [2; 0; 3; 1]%Z (mk_lcg 5) = Ok (child, r') /\
    child ≡ₚ [0; 1; 2; 3]%Z.
Proof.
  apply pmx_crossover_permutation;
    [apply (bool_decide_unpack _); vm_compute; exact I
    |apply (bool_decide_unpack _); vm_compute; exact I
    |simpl; lia].
Defined.

Lemma swap_mutation_exchanges_witness :
  exists child r', swap_mutation [0; 1; 2]%Z (1 # 2) (mk_lcg 8) = Ok (child, r') /\
    (child = [0; 1; 2]%Z \/
     exists i j x y, i <> j /\ [0; 1; 2]%Z !! i = Some x /\ [0; 1; 2]%Z !! j = Some y /\
                     child = <[j := x]> (<[i := y]> [0; 1; 2]%Z)) /\
    child ≡ₚ [0; 1; 2]%Z.
Proof. apply swap_mutation_exchanges. simpl. lia. Defined.

Lemma tournament_selection_contract_witness :
  let pop := [[0; 1]; [1; 0]; [1; 0]]%Z in
  let fits := [mk_fitness 1 1; mk_fitness (1 # 2) (1 # 2); mk_fitness 0 0] in
  ((length pop < 3)%nat -> tournament_selection pop fits 3 (mk_lcg 4) = Err ValueError) /\
  ((3 <= length pop)%nat ->
   exists parent r' idx i fi,
     tournament_selection pop fits 3 (mk_lcg 4) = Ok (parent, r') /\
     sample (mk_lcg 4) (length pop) 3 = Ok (idx, r') /\ NoDup idx /\
     In i idx /\ pop !! i = Some parent /\ fits !! i = Some fi /\
     forall j fj, In j idx -> fits !! j = Some fj -> total_score fj <= total_score fi).
Proof. intros pop fits. apply tournament_selection_contract. reflexivity. Defined.

Lemma run_ga_sound_witness :
  exists res r',
    run_ga GaExample.shuffle_init GaExample.ga_students GaExample.ga_tutors
           FitnessExample.main_weights 4 3 (4 # 5) (1 # 10) (mk_lcg 11) = Ok (res, r') /\
    best_chromosome res ≡ₚ genes 2 /\
    fitness_of GaExample.ga_students GaExample.ga_tutors FitnessExample.main_weights
               (best_chromosome res) = Ok (best_fitness res) /\
    forall ch f, In ch (init_population GaExample.shuffle_init (Z.to_nat 4) 2 (mk_lcg 11)).1 ->
      fitness_of GaExample.ga_students GaExample.ga_tutors FitnessExample.main_weights ch = Ok f ->
      total_score f <= total_score (best_fitness res).
Proof.
  apply (run_ga_sound GaExample.shuffle_init GaExample.ga_students GaExample.ga_tutors
           FitnessExample.main_weights (fun r => GaExample.shuffle_init_perm r 2)
           (proj1 GaExample.ga_sizes) (proj2 GaExample.ga_sizes) FitnessExample.main_weights_ok).
  lia.
Defined.

Lemma ga_loop_elitism_witness :
  exists st', ga_loop GaExample.ga_students GaExample.ga_tutors FitnessExample.main_weights
                      5 3 (4 # 5) (1 # 10) ga_start = Ok st' /\
    (best st').1 ≡ₚ genes 2 /\
    fitness_of GaExample.ga_students GaExample.ga_tutors FitnessExample.main_weights (best st').1
      = Ok (best st').2 /\
    length (population st') = Z.to_nat 3 /\
    total_score (best ga_start).2 <= total_score (best st').2.
Proof.
  apply (ga_loop_elitism GaExample.ga_students GaExample.ga_tutors FitnessExample.main_weights
           (proj1 GaExample.ga_sizes) (proj2 GaExample.ga_sizes) FitnessExample.main_weights_ok);
    [lia|exact ga_start_inv].
Defined.

Lemma run_ga_valueerror_witness :
  run_ga GaExample.shuffle_init GaExample.ga_students GaExample.ga_tutors
         FitnessExample.main_weights 2 1 (4 # 5) (1 # 10) (mk_lcg 11) = Err ValueError.
Proof.
  apply (run_ga_valueerror GaExample.shuffle_init GaExample.ga_students GaExample.ga_tutors
           FitnessExample.main_weights (fun r => GaExample.shuffle_init_perm r 2)
           (proj1 GaExample.ga_sizes) (proj2 GaExample.ga_sizes) FitnessExample.main_weights_ok).
  right. split; [reflexivity|lia].
Defined.
