(* ===== verification/CapacityCSP.v ===== *)
(** * The capacity-constrained CSP of src/tests/test.py

    [csp_backtrack(murid, tutor, cap_init, pref)] (lines 56-97) assigns
    each student ([murid]) a tutor, each tutor [t] taking at most
    [cap_init[t]] students, maximising the precomputed pair scores
    [score_pair[(m, t)] = sum(pref[(m, t)].values())]; [evaluate]
    (lines 169-175) rescores an assignment.  The state the recursion
    mutates in place is threaded explicitly: [assignment] (assigned
    before the call, popped after it), the capacity dict [cap] (decremented
    and incremented again) and the [best] dict of the closure.  The
    [domains] dict is an ordered association list (a Python dict keeps
    insertion order, which [mrv] depends on); the recursion passes it by
    value: the callee shrinks the lists of the caller's dict in place,
    but the caller rebinds [domains = old_domains], a copy taken before,
    without reading it in between, so no later read sees those changes.
    The recursion runs on fuel [1 + sum of the positive capacities]: every
    recursive call decrements a positive capacity that is only restored
    when the call returns ([cap_backtrack_total]).

    [mrv] ranges over every key of [domains], assigned students included,
    so the search can pick an assigned student again: it then overwrites
    the assignment, counts the student's score twice, and pops the
    student when it returns, which can lose every complete assignment
    (on two students and capacities [{0: 2, 1: 1}] it reports [12] for
    an assignment [evaluate] scores [8]).  [CapInv] is the invariant of the
    search; [csp_backtrack_sound] and [csp_backtrack_total] are its
    consequences for the top-level call. *)

From Stdlib Require Import ZArith QArith Lia.
From stdpp Require Import base list gmap.
From S2P Require Import Prelude.

(** ** Python dicts *)

(** [d[k]] on a dict: [KeyError] for a missing key. *)
Definition dict_get {K V} `{Countable K} (d : gmap K V) (k : K) : result V :=
  match d !! k with Some v => Ok v | None => Err KeyError end.

Section Assoc.
Context {K A : Type} `{EqDecision K}.

(** An insertion-ordered dict as an association list. *)
Fixpoint assoc_get (l : list (K * A)) (k : K) : option A :=
  match l with
  | [] => None
  | (k', v) :: l' => if decide (k = k') then Some v else assoc_get l' k
  end.

(** [d[k] = v]: an existing key keeps its position. *)
Fixpoint assoc_set (l : list (K * A)) (k : K) (v : A) : list (K * A) :=
  match l with
  | [] => [(k, v)]
  | (k', v') :: l' => if decide (k = k') then (k, v) :: l' else (k', v') :: assoc_set l' k v
  end.
End Assoc.

(** [xs.remove(x)]: drops the first occurrence. *)
Fixpoint list_remove {T} `{EqDecision T} (x : T) (l : list T) : list T :=
  match l with
  | [] => []
  | y :: l' => if decide (x = y) then l' else y :: list_remove x l'
  end.

(** ** The search *)

(** [assignment], the capacity dict [cap] and the closure's [best]
    dict ([best["assign"]], [best["score"]]). *)
Record cstate {M T : Type} `{Countable M} `{Countable T} : Type := mk_cstate {
  asg : gmap M T;
  cap : gmap T Z;
  best_assign : gmap M T;
  best_score : Z
}.
Arguments cstate M T {_ _ _ _}.

Section CapacityCSP.
Context {M T : Type} `{Countable M} `{Countable T}.
Variables (murid : list M) (tutor : list T) (pref : gmap (M * T) (list Z)).

(** [score_pair = {(m,t): sum(pref[(m,t)].values()) for m in murid for t in tutor}],
    line 58. *)
Definition score_table : result (gmap (M * T) Z) :=
  fold_left (fun acc m =>
    fold_left (fun acc t =>
      tbl <- acc ;;
      vs <- dict_get pref (m, t) ;;
      Ok (<[(m, t) := sum_by (fun x => x) vs]> tbl)) tutor acc) murid (Ok ∅).

(** [domains = {m: tutor[:] for m in murid}], line 95. *)
Definition domains_init : list (M * list T) :=
  fold_left (fun d m => assoc_set d m tutor) murid [].

(** [mrv(domains)], lines 61-63: the first key of least [len] among the
    keys with a non-empty list, [None] when there is none. *)
Definition cap_mrv (domains : list (M * list T)) : option M :=
  match py_min_by (fun p : M * list T => length p.2)
                  (List.filter (fun p : M * list T => negb (bool_decide (p.2 = []))) domains) with
  | Ok p => Some p.1
  | Err _ => None
  end.

(** The forward checking of lines 83-86, once [cap[t]] reached [0]. *)
Definition cap_fc (var : M) (t : T) (domains : list (M * list T)) : list (M * list T) :=
  map (fun p : M * list T =>
         if bool_decide (p.1 <> var) && bool_decide (t ∈ p.2)
         then (p.1, list_remove t p.2) else p) domains.

(** The loop [for t in list(domains[var])] of lines 77-93. *)
Fixpoint cap_loop (sp : gmap (M * T) Z) (rec : cstate M T -> list (M * list T) -> Z -> result (cstate M T))
    (var : M) (domains : list (M * list T)) (curr_score : Z) (ts : list T) (st : cstate M T)
    : result (cstate M T) :=
  match ts with
  | [] => Ok st
  | t :: rest =>
      c <- dict_get (cap st) t ;;
      if (0 <? c)%Z then
        let cap1 := <[t := (c - 1)%Z]> (cap st) in
        let domains1 := if (c - 1 =? 0)%Z then cap_fc var t domains else domains in
        let asg1 := <[var := t]> (asg st) in
        s <- dict_get sp (var, t) ;;
        st2 <- rec (mk_cstate _ _ _ _ _ _ asg1 cap1 (best_assign st) (best_score st))
                   domains1 (curr_score + s)%Z ;;
        c2 <- dict_get (cap st2) t ;;
        cap_loop sp rec var domains curr_score rest
                 (mk_cstate _ _ _ _ _ _ (delete var (asg st2)) (<[t := (c2 + 1)%Z]> (cap st2))
                            (best_assign st2) (best_score st2))
      else cap_loop sp rec var domains curr_score rest st
  end.

(** [backtrack(assignment, domains, cap, curr_score)], lines 65-93. *)
Fixpoint cap_backtrack (sp : gmap (M * T) Z) (fuel : nat) (st : cstate M T)
    (domains : list (M * list T)) (curr_score : Z) : result (cstate M T) :=
  match fuel with
  | O => Err OutOfFuel
  | S fuel' =>
      if Nat.eqb (size (asg st)) (length murid) then
        if (best_score st <? curr_score)%Z
        then Ok (mk_cstate _ _ _ _ _ _ (asg st) (cap st) (asg st) curr_score)
        else Ok st
      else
        match cap_mrv domains with
        | None => Ok st
        | Some var =>
            d <- (match assoc_get domains var with Some d => Ok d | None => Err KeyError end) ;;
            cap_loop sp (cap_backtrack sp fuel') var domains curr_score d st
        end
  end.

(** The sum of the positive capacities, which bounds the depth. *)
Definition cap_potential (cap : gmap T Z) : nat :=
  map_fold (fun _ c acc => Z.to_nat c + acc)%nat 0%nat cap.

(** [csp_backtrack(murid, tutor, cap_init, pref)], lines 56-97. *)
Definition csp_backtrack (cap_init : gmap T Z) : result (gmap M T * Z) :=
  sp <- score_table ;;
  st <- cap_backtrack sp (S (cap_potential cap_init))
                      (mk_cstate _ _ _ _ _ _ ∅ cap_init ∅ (-1)%Z) domains_init 0%Z ;;
  Ok (best_assign st, best_score st).

(** [evaluate(assign, pref, cap)], lines 169-175: the summed preference
    values of the assignment and their percentage of [4 * len(assign)]. *)
Definition evaluate (assign : gmap M T) : result (Z * Q) :=
  if bool_decide (assign = ∅) then Ok (0%Z, 0%Q)
  else
    let total_attr := (Z.of_nat (size assign) * 4)%Z in
    match_score <- fold_left (fun acc kv =>
                               s <- acc ;;
                               vs <- dict_get pref kv ;;
                               Ok (s + sum_by (fun x => x) vs)%Z) (map_to_list assign) (Ok 0%Z) ;;
    Ok (match_score, (inject_Z match_score / inject_Z total_attr * 100)%Q).
End CapacityCSP.

(** ** Capacities, usage and the termination measure *)

Section CapacityFacts.
Context {M T : Type} `{Countable M} `{Countable T}.

(** The number of students assigned to [t]. *)
Definition usage (a : gmap M T) (t : T) : nat :=
  size (filter (fun kv : M * T => kv.2 = t) a).

(** [cap[t]], [0] for a tutor without an entry. *)
Definition cap_of (c : gmap T Z) (t : T) : Z := default 0%Z (c !! t).

Lemma usage_mono a b t : a ⊆ b -> (usage a t <= usage b t)%nat.
Proof. intros Hab. apply map_subseteq_size, map_filter_subseteq_mono, Hab. Qed.

Lemma usage_insert a m t t' :
  (usage (<[m := t]> a) t' <= usage a t' + (if decide (t = t') then 1 else 0))%nat.
Proof.
  unfold usage. rewrite map_filter_insert. simpl.
  pose proof (usage_mono (delete m a) a t' (delete_subseteq a m)) as Hd. unfold usage in Hd.
  destruct (decide (t = t')) as [->|Hne]; rewrite ?decide_True, ?decide_False by auto.
  - rewrite map_size_insert. destruct (filter _ a !! m); simpl; lia.
  - lia.
Qed.

Lemma cap_of_insert (c : gmap T Z) (t t' : T) v :
  cap_of (<[t := v]> c) t' = if decide (t = t') then v else cap_of c t'.
Proof.
  unfold cap_of. destruct (decide (t = t')) as [->|Hne];
    [rewrite lookup_insert_eq|rewrite lookup_insert_ne by exact Hne]; reflexivity.
Qed.

Lemma cap_potential_delete (c : gmap T Z) (t : T) v :
  c !! t = Some v -> cap_potential c = (Z.to_nat v + cap_potential (delete t c))%nat.
Proof.
  intros Ht. unfold cap_potential.
  rewrite (map_fold_delete_L _ _ t v c); [reflexivity| |exact Ht].
  intros. lia.
Qed.

(** Taking one unit of a positive capacity lowers the measure by one. *)
Lemma cap_potential_take (c : gmap T Z) (t : T) v :
  c !! t = Some v -> (0 < v)%Z -> cap_potential c = S (cap_potential (<[t := (v - 1)%Z]> c)).
Proof.
  intros Ht Hv. rewrite (cap_potential_delete c t v Ht).
  rewrite (cap_potential_delete (<[t := (v - 1)%Z]> c) t (v - 1)) by apply lookup_insert_eq.
  rewrite delete_insert_eq. lia.
Qed.

Lemma cap_restore (c : gmap T Z) (t : T) v :
  c !! t = Some v -> <[t := (v - 1 + 1)%Z]> (<[t := (v - 1)%Z]> c) = c.
Proof.
  intros Ht. rewrite insert_insert_eq. replace (v - 1 + 1)%Z with v by lia.
  apply insert_id, Ht.
Qed.
End CapacityFacts.

(** ** Association lists and forward checking *)

Section AssocFacts.
Context {K A : Type} `{EqDecision K}.

Lemma assoc_get_In (l : list (K * A)) k v : assoc_get l k = Some v -> In (k, v) l.
Proof.
  induction l as [|[k' v'] l IH]; simpl; [discriminate|].
  destruct (decide (k = k')) as [->|_]; [intros [= ->]; left; reflexivity|].
  intros Hg. right. apply IH, Hg.
Qed.

Lemma In_assoc_get (l : list (K * A)) k v : In (k, v) l -> exists v', assoc_get l k = Some v' /\ In (k, v') l.
Proof.
  induction l as [|[k' v'] l IH]; simpl; [tauto|].
  destruct (decide (k = k')) as [->|Hne]; [intros _; eauto|].
  intros [[= -> _]|Hin]; [congruence|].
  destruct (IH Hin) as (v'' & Hg & Hi). eauto.
Qed.

Lemma assoc_set_In (l : list (K * A)) k v p : In p (assoc_set l k v) -> In p l \/ p = (k, v).
Proof.
  induction l as [|[k' v'] l IH]; simpl.
  - intros [<-|[]]. right. reflexivity.
  - destruct (decide (k = k')); simpl; [intros [<-|Hp]; tauto|].
    intros [<-|Hp]; [tauto|]. destruct (IH Hp); tauto.
Qed.
End AssocFacts.

Lemma list_remove_incl {T} `{EqDecision T} (x : T) l : incl (list_remove x l) l.
Proof.
  induction l as [|y l IH]; simpl; [apply incl_refl|].
  destruct (decide (x = y)); [apply incl_tl, incl_refl|].
  apply incl_cons; [left; reflexivity|apply incl_tl, IH].
Qed.

(** ** The invariant of the search *)

Section CapacityInvariant.
Context {M T : Type} `{Countable M} `{Countable T}.
Variables (murid : list M) (tutor : list T) (init : gmap T Z) (sp : gmap (M * T) Z).

(** A complete assignment that respects the capacities of [cap_init]. *)
Definition valid_assignment (a : gmap M T) : Prop :=
  size a = length murid /\
  (forall m t, a !! m = Some t -> In m murid /\ In t tutor) /\
  forall t, (Z.of_nat (usage a t) <= cap_of init t)%Z.

(** [best] is its initial value or records a valid assignment. *)
Definition best_ok (a : gmap M T) (s : Z) : Prop :=
  (s = (-1)%Z /\ a = ∅) \/ ((-1 < s)%Z /\ valid_assignment a).

(** Capacities stay non-negative, every tutor's students and remaining
    capacity add up to at most its initial capacity, and [best] is good. *)
Record CapInv (st : cstate M T) : Prop := {
  ci_nonneg : forall t c, cap st !! t = Some c -> (0 <= c)%Z;
  ci_usage : forall t, (Z.of_nat (usage (asg st) t) + cap_of (cap st) t <= cap_of init t)%Z;
  ci_keys : forall m t, asg st !! m = Some t -> In m murid /\ In t tutor;
  ci_best : best_ok (best_assign st) (best_score st)
}.

(** Every key of [domains] is a student and its list holds tutors. *)
Definition DomInv (D : list (M * list T)) : Prop :=
  forall p, In p D -> In p.1 murid /\ incl p.2 tutor.

(** The dict lookups of the search all succeed. *)
Definition full (c : gmap T Z) : Prop :=
  (forall m t, In m murid -> In t tutor -> is_Some (sp !! (m, t))) /\
  (forall t, In t tutor -> is_Some (c !! t)).

(** What a call of [backtrack] leaves behind: [cap] as it found it, an
    assignment that only lost entries, the invariant and a [best] score
    that did not decrease; or a [KeyError] from a missing entry. *)
Definition outcome (st : cstate M T) (r : result (cstate M T)) : Prop :=
  (exists st', r = Ok st' /\ cap st' = cap st /\ asg st' ⊆ asg st /\ CapInv st' /\
               (best_score st <= best_score st')%Z) \/
  (r = Err KeyError /\ ~ full (cap st)).

Definition RecSpec (k : nat) (rec : cstate M T -> list (M * list T) -> Z -> result (cstate M T)) : Prop :=
  forall st D cs, (cap_potential (cap st) < k)%nat -> CapInv st -> DomInv D -> outcome st (rec st D cs).

Lemma full_insert c t v : full c -> full (<[t := v]> c).
Proof.
  intros [Hs Hc]. split; [exact Hs|]. intros t' Ht'.
  destruct (decide (t = t')) as [->|Hne]; [rewrite lookup_insert_eq; eauto|].
  rewrite lookup_insert_ne by exact Hne. apply Hc, Ht'.
Qed.

Lemma outcome_refl st : CapInv st -> outcome st (Ok st).
Proof. intros Hi. left. exists st. split_and!; [reflexivity|reflexivity|reflexivity|exact Hi|lia]. Qed.

Lemma cap_fc_DomInv var t D : DomInv D -> DomInv (cap_fc var t D).
Proof.
  intros HD p Hp. unfold cap_fc in Hp. apply in_map_iff in Hp as (q & <- & Hq).
  destruct (HD q Hq) as [Hm Ht].
  destruct (_ && _); simpl; [|tauto]. split; [exact Hm|].
  eapply incl_tran; [apply list_remove_incl|exact Ht].
Qed.

Lemma cap_mrv_Some (D : list (M * list T)) (var : M) :
  cap_mrv D = Some var -> exists d, assoc_get D var = Some d /\ In (var, d) D.
Proof.
  unfold cap_mrv. destruct (py_min_by _ _) as [[m d]|] eqn:Hm; [|discriminate].
  intros [= <-]. apply py_min_by_In, filter_In in Hm as [Hin _].
  apply (In_assoc_get _ _ _ Hin).
Qed.

Lemma domains_init_DomInv : DomInv (domains_init murid tutor).
Proof.
  unfold domains_init. assert (Hgen : forall ms acc, incl ms murid -> DomInv acc ->
    DomInv (fold_left (fun d m => assoc_set d m tutor) ms acc)).
  { induction ms as [|m ms IH]; simpl; intros acc Hms Hacc; [exact Hacc|].
    apply IH; [eapply incl_cons_inv, Hms|]. intros p Hp.
    destruct (assoc_set_In _ _ _ _ Hp) as [Hp' | ->]; [apply Hacc, Hp'|].
    split; [apply Hms; left; reflexivity|apply incl_refl]. }
  apply Hgen; [apply incl_refl|]. intros p [].
Qed.

Lemma cap_of_nonneg st t : CapInv st -> (0 <= cap_of (cap st) t)%Z.
Proof.
  intros Hi. unfold cap_of. destruct (cap st !! t) eqn:Hc; simpl; [|lia].
  eapply ci_nonneg; eauto.
Qed.

Lemma best_ok_lower a s : best_ok a s -> (-1 <= s)%Z.
Proof. intros [[-> _]|[Hs _]]; lia. Qed.

Lemma delete_sub_insert (a b : gmap M T) var t : b ⊆ <[var := t]> a -> delete var b ⊆ a.
Proof.
  intros Hb. etrans; [apply (delete_mono _ _ var Hb)|].
  rewrite delete_insert_eq. apply delete_subseteq.
Qed.

(** Line 90: assigning [var := t] and taking one unit of [cap[t]]. *)
Lemma CapInv_assign st c t var :
  CapInv st -> cap st !! t = Some c -> (0 < c)%Z -> In var murid -> In t tutor ->
  CapInv {| asg := <[var := t]> (asg st); cap := <[t := (c - 1)%Z]> (cap st);
            best_assign := best_assign st; best_score := best_score st |}.
Proof.
  intros [Hn Hu Hk Hb] Hc Hpos Hv Ht. split; simpl; [| |intros m t'|exact Hb].
  - intros t' c'. destruct (decide (t = t')) as [<-|Hne];
      [rewrite lookup_insert_eq; intros [= <-]; lia|rewrite lookup_insert_ne by exact Hne; apply Hn].
  - intros t'. pose proof (usage_insert (asg st) var t t'). rewrite cap_of_insert.
    specialize (Hu t'). destruct (decide (t = t')) as [<-|Hne]; [|lia].
    unfold cap_of in Hu at 1. rewrite Hc in Hu. simpl in Hu. lia.
  - destruct (decide (var = m)) as [<-|Hne];
      [rewrite lookup_insert_eq; intros [= <-]; auto|rewrite lookup_insert_ne by exact Hne; apply Hk].
Qed.

(** Lines 91-93: popping [var] and giving the unit back. *)
Lemma CapInv_restore st st2 var t :
  CapInv st -> CapInv st2 -> asg st2 ⊆ <[var := t]> (asg st) ->
  CapInv {| asg := delete var (asg st2); cap := cap st;
            best_assign := best_assign st2; best_score := best_score st2 |}.
Proof.
  intros Hi Hi2 Hsub. pose proof (delete_sub_insert _ _ _ _ Hsub) as Hd.
  split; simpl; [apply (ci_nonneg _ Hi)| |intros m t' Hm|apply (ci_best _ Hi2)].
  - intros t'. pose proof (usage_mono _ _ t' Hd). pose proof (ci_usage _ Hi t'). lia.
  - apply (ci_keys _ Hi). eapply lookup_weaken; [exact Hm|exact Hd].
Qed.

(** Lines 67-70: a complete assignment beating [best] is recorded. *)
Lemma CapInv_record st cs :
  CapInv st -> size (asg st) = length murid -> (best_score st < cs)%Z ->
  CapInv {| asg := asg st; cap := cap st; best_assign := asg st; best_score := cs |}.
Proof.
  intros Hi Hsz Hlt. pose proof (best_ok_lower _ _ (ci_best _ Hi)).
  split; simpl; [apply (ci_nonneg _ Hi)|apply (ci_usage _ Hi)|apply (ci_keys _ Hi)|].
  right. split; [lia|]. split_and!; [exact Hsz|apply (ci_keys _ Hi)|].
  intros t. pose proof (ci_usage _ Hi t). pose proof (cap_of_nonneg st t Hi). lia.
Qed.

(** The loop over [domains[var]], given that every recursive call with
    a smaller measure behaves. *)
Lemma cap_loop_spec k rec var D cs ts st :
  RecSpec k rec -> In var murid -> incl ts tutor -> (cap_potential (cap st) <= k)%nat ->
  CapInv st -> DomInv D -> outcome st (cap_loop sp rec var D cs ts st).
Proof.
  intros Hrec Hv. revert st.
  induction ts as [|t ts IH]; intros st Hts Hpot Hi HD; simpl; [apply outcome_refl, Hi|].
  apply incl_cons_inv in Hts as [Ht Hts].
  unfold dict_get at 1. destruct (cap st !! t) as [c|] eqn:Hc; simpl.
  2: { right. split; [reflexivity|]. intros [_ Hf]. destruct (Hf t Ht); congruence. }
  destruct (Z.ltb_spec 0 c) as [Hpos|_]; [|apply IH; auto].
  unfold dict_get at 1. destruct (sp !! (var, t)) as [s|] eqn:Hs; simpl.
  2: { right. split; [reflexivity|]. intros [Hf _]. destruct (Hf var t Hv Ht); congruence. }
  pose proof (cap_potential_take _ _ _ Hc Hpos) as Hp.
  pose proof (CapInv_assign st c t var Hi Hc Hpos Hv Ht) as Hi1.
  match goal with |- context [rec ?a ?b ?e] =>
    assert (HD1 : DomInv b) by (destruct (c - 1 =? 0)%Z; [apply cap_fc_DomInv|]; exact HD);
    destruct (Hrec a b e ltac:(simpl; lia) Hi1 HD1)
      as [(st2 & Hr & Hcap2 & Hsub2 & Hi2 & Hb2)|[Hr Hnf]]; rewrite Hr; simpl
  end.
  - simpl in Hcap2, Hsub2, Hb2. rewrite Hcap2. unfold dict_get at 1. rewrite lookup_insert_eq. simpl.
    rewrite (cap_restore _ _ _ Hc).
    destruct (IH {| asg := delete var (asg st2); cap := cap st;
                    best_assign := best_assign st2; best_score := best_score st2 |}
                 Hts ltac:(simpl; lia) (CapInv_restore st st2 var t Hi Hi2 Hsub2) HD)
      as [(st3 & -> & Hc3 & Hs3 & Hi3 & Hb3)|[-> Hnf]]; simpl in *.
    + left. exists st3. split_and!; [reflexivity|exact Hc3| |exact Hi3|lia].
      etrans; [exact Hs3|apply (delete_sub_insert _ _ _ _ Hsub2)].
    + right. split; [reflexivity|exact Hnf].
  - right. split; [reflexivity|]. intros Hf. apply Hnf, full_insert, Hf.
Qed.

(** [backtrack] on fuel [k] behaves on every state of measure below [k]. *)
Lemma cap_backtrack_spec fuel : RecSpec fuel (cap_backtrack murid sp fuel).
Proof.
  induction fuel as [|f IH]; intros st D cs Hpot Hi HD; [lia|]. simpl.
  destruct (Nat.eqb_spec (size (asg st)) (length murid)) as [Hsz|_].
  - destruct (Z.ltb_spec (best_score st) cs) as [Hlt|_]; [|apply outcome_refl, Hi].
    left. eexists. split_and!; [reflexivity|reflexivity|reflexivity| |simpl; lia].
    apply CapInv_record; assumption.
  - destruct (cap_mrv D) as [var|] eqn:Hm; [|apply outcome_refl, Hi].
    destruct (cap_mrv_Some D var Hm) as (d & -> & Hin). simpl.
    destruct (HD _ Hin) as [Hv Hd]. apply (cap_loop_spec f); auto. lia.
Qed.
End CapacityInvariant.

(** ** The result of [csp_backtrack] *)

Section CapacityTheorems.
Context {M T : Type} `{Countable M} `{Countable T}.
Variables (murid : list M) (tutor : list T) (pref : gmap (M * T) (list Z)) (init : gmap T Z).

(** The inner loop of [score_pair] over the tutors of one student. *)
Lemma score_table_row (m : M) (ts : list T) (tbl : gmap (M * T) Z) :
  (forall t, In t ts -> is_Some (pref !! (m, t))) ->
  exists tbl', fold_left (fun acc t =>
      tbl <- acc ;; vs <- dict_get pref (m, t) ;;
      Ok (<[(m, t) := sum_by (fun x => x) vs]> tbl)) ts (Ok tbl) = Ok tbl' /\
    (forall t, In t ts -> is_Some (tbl' !! (m, t))) /\
    (forall k, is_Some (tbl !! k) -> is_Some (tbl' !! k)).
Proof.
  revert tbl. induction ts as [|t ts IH]; intros tbl Hp; simpl; [exists tbl; split_and!; tauto|].
  destruct (Hp t (or_introl eq_refl)) as [vs Hvs]. unfold dict_get at 2. rewrite Hvs. simpl.
  destruct (IH (<[(m, t) := sum_by (fun x => x) vs]> tbl) (fun t' Ht' => Hp t' (or_intror Ht')))
    as (tbl' & -> & Hin & Hmono).
  exists tbl'. split_and!; [reflexivity| |].
  - intros t' [<-|Ht']; [apply Hmono; rewrite lookup_insert_eq; eauto|apply Hin, Ht'].
  - intros k Hk. apply Hmono. destruct (decide ((m, t) = k)) as [<-|Hne];
      [rewrite lookup_insert_eq; eauto|rewrite lookup_insert_ne by exact Hne; exact Hk].
Qed.

(** With every preference present, [score_pair] is built and complete. *)
Lemma score_table_ok :
  (forall m t, In m murid -> In t tutor -> is_Some (pref !! (m, t))) ->
  exists sp, score_table murid tutor pref = Ok sp /\
             forall m t, In m murid -> In t tutor -> is_Some (sp !! (m, t)).
Proof.
  intros Hp. unfold score_table.
  assert (Hgen : forall (ms : list M) (tbl : gmap (M * T) Z), incl ms murid -> exists tbl',
    fold_left (fun acc m => fold_left (fun acc t =>
      tbl <- acc ;; vs <- dict_get pref (m, t) ;;
      Ok (<[(m, t) := sum_by (fun x => x) vs]> tbl)) tutor acc) ms (Ok tbl) = Ok tbl' /\
    (forall m t, In m ms -> In t tutor -> is_Some (tbl' !! (m, t))) /\
    (forall k : M * T, is_Some (tbl !! k) -> is_Some (tbl' !! k))).
  { induction ms as [|m ms IH]; intros tbl Hms; simpl; [exists tbl; split_and!; tauto|].
    apply incl_cons_inv in Hms as [Hm Hms].
    destruct (score_table_row m tutor tbl (fun t Ht => Hp m t Hm Ht)) as (tbl1 & -> & Hin1 & Hmono1).
    destruct (IH tbl1 Hms) as (tbl' & -> & Hin & Hmono).
    exists tbl'. split_and!; [reflexivity| |auto].
    intros m' t [<-|Hm'] Ht; [apply Hmono, Hin1, Ht|apply Hin; assumption]. }
  destruct (Hgen murid ∅ (incl_refl _)) as (sp & -> & Hin & _). eauto.
Qed.

Lemma CapInv_init :
  (forall t c, init !! t = Some c -> (0 <= c)%Z) ->
  CapInv murid tutor init {| asg := ∅; cap := init; best_assign := ∅; best_score := (-1)%Z |}.
Proof.
  intros Hinit. split; simpl; [exact Hinit| |intros m t Hm; rewrite lookup_empty in Hm; discriminate|].
  - intros t. unfold usage. rewrite map_filter_empty, map_size_empty. lia.
  - left. split; reflexivity.
Qed.

(** The top-level call ends with the invariant, or with a [KeyError]
    when a lookup is missing. *)
Lemma csp_backtrack_outcome sp :
  (forall t c, init !! t = Some c -> (0 <= c)%Z) ->
  score_table murid tutor pref = Ok sp ->
  (exists st, csp_backtrack murid tutor pref init = Ok (best_assign st, best_score st) /\
              CapInv murid tutor init st) \/
  (csp_backtrack murid tutor pref init = Err KeyError /\ ~ full murid tutor sp init).
Proof.
  intros Hinit Hsp. unfold csp_backtrack. rewrite Hsp. cbn [res_bind].
  match goal with |- context [cap_backtrack _ _ ?f ?st0 ?D ?cs] =>
    destruct (cap_backtrack_spec murid tutor init sp f st0 D cs ltac:(simpl; lia) (CapInv_init Hinit)
                (domains_init_DomInv murid tutor))
      as [(st & -> & _ & _ & Hi & _)|[-> Hnf]]; simpl; [left; eauto|right; auto]
  end.
Qed.
End CapacityTheorems.

Section CapacityClaims.
Context {M T : Type} `{Countable M} `{Countable T}.
Variables (murid : list M) (tutor : list T) (pref : gmap (M * T) (list Z)) (init : gmap T Z).
Hypothesis Hinit : forall t c, init !! t = Some c -> (0 <= c)%Z.

(** C11. Soundness of [csp_backtrack]: with non-negative capacities,
    whatever it returns is either the initial [({}, -1)] or a complete
    assignment of students to tutors within every tutor's capacity. *)
Theorem csp_backtrack_sound a s :
  csp_backtrack murid tutor pref init = Ok (a, s) -> best_ok murid tutor init a s.
Proof.
  intros Hr. destruct (score_table murid tutor pref) as [sp|e] eqn:Hsp;
    [|unfold csp_backtrack in Hr; rewrite Hsp in Hr; discriminate].
  destruct (csp_backtrack_outcome murid tutor pref init sp Hinit Hsp) as [(st & Hr' & Hi)|[Hr' _]];
    rewrite Hr' in Hr; [injection Hr as <- <-; eapply ci_best, Hi|discriminate].
Qed.

(** C12. Termination: when every pair has preferences and every tutor a
    capacity, [csp_backtrack] returns within its fuel, never with
    [KeyError] or out of fuel, and its result is sound. *)
Theorem csp_backtrack_total :
  (forall m t, In m murid -> In t tutor -> is_Some (pref !! (m, t))) ->
  (forall t, In t tutor -> is_Some (init !! t)) ->
  exists a s, csp_backtrack murid tutor pref init = Ok (a, s) /\ best_ok murid tutor init a s.
Proof.
  intros Hp Hc. destruct (score_table_ok murid tutor pref Hp) as (sp & Hsp & Hfull).
  destruct (csp_backtrack_outcome murid tutor pref init sp Hinit Hsp) as [(st & Hr & Hi)|[_ Hnf]].
  - exists (best_assign st), (best_score st). split; [exact Hr|eapply ci_best, Hi].
  - exfalso. apply Hnf. split; assumption.
Qed.
End CapacityClaims.

(** ** Runs of the search *)

Module CapacityExample.

(** Every pair of students [0..2] and tutors [0..1] agrees on all four
    attributes: [pref[(m,t)] = {a: 1 for a in attrs}]. *)
Definition ex_pref : gmap (nat * nat) (list Z) :=
  list_to_map ((fun mt => (mt, [1; 1; 1; 1]%Z)) <$> list_prod [0; 1; 2] [0; 1]).

Definition ex_caps : gmap nat Z := <[0 := 1%Z]> {[1 := 1%Z]}.

Lemma ex_caps_nonneg t c : ex_caps !! t = Some c -> (0 <= c)%Z.
Proof.
  apply (map_Forall_lookup_1 (fun _ c => (0 <= c)%Z)).
  apply (bool_decide_unpack _). vm_compute. reflexivity.
Qed.

Lemma csp_backtrack_sound_witness :
  best_ok [0; 1] [0; 1] ex_caps (<[0 := 0]> {[1 := 1]}) 8%Z.
Proof.
  apply (csp_backtrack_sound [0; 1] [0; 1] ex_pref ex_caps ex_caps_nonneg).
  vm_compute. reflexivity.
Defined.

Lemma csp_backtrack_total_witness :
  exists a s, csp_backtrack [0; 1; 2] [0; 1] ex_pref ex_caps = Ok (a, s) /\
              best_ok [0; 1; 2] [0; 1] ex_caps a s.
Proof.
  apply (csp_backtrack_total [0; 1; 2] [0; 1] ex_pref ex_caps ex_caps_nonneg).
  - intros m t [<-|[<-|[<-|[]]]] [<-|[<-|[]]]; vm_compute; eexists; reflexivity.
  - intros t [<-|[<-|[]]]; vm_compute; eexists; reflexivity.
Defined.
End CapacityExample.
