(* ===== verification/CapacityHeuristics.v ===== *)
(** * The capacity heuristics of src/tests: [sa_match] and [ga_match]

    [tests/test.py] compares [csp_backtrack] (CapacityCSP.v) with two
    heuristics over the same inputs: [sa_match] (lines 101-127), simulated
    annealing over an assignment dict, and [ga_match] (lines 131-165), a
    genetic algorithm over lists of tutors indexed by position.  Both
    score an assignment by its summed pair scores minus a penalty [PEN]
    (the largest pair score times the number of students) per student
    over a tutor's capacity.  [tests/sa.py] (lines 4-58) is an earlier
    [sa_match] that starts [best_fit] at the raw score of the random
    assignment, without the penalty; [tests/test_sa.py] repeats the
    [sa_match] of [tests/test.py] verbatim.

    The [random] draws go through the [PyRandom] interface of Random.v,
    [random.choice] and [random.randint] as CPython defines them, and
    [np.exp] is a parameter, as in Annealing.v; temperatures are
    rationals, and the theorems on [sa_match] assume [cooling > 1/2], the
    range in which the float temperature never underflows to [0.0] (see
    Annealing.v).  The [while] loop of [ga_match] runs on fuel
    [pop_size + 1]: every iteration adds two chromosomes.

    Theorems: both [sa_match] return for every random state with the
    penalised fitness of their answer (tests/test.py) or a [best_fit] at
    least that fitness and at least the unpenalised score of the random
    start (tests/sa.py, [sa_match_v0_best_fit]); a positive result of
    tests/test.py's [sa_match] respects the capacities; [ga_match] returns
    the best chromosome of its last population with its fitness; with a
    single student a breeding step raises [ValueError] exactly when a
    crossover is drawn ([ga_offspring_single_student]). *)

From Stdlib Require Import ZArith QArith Lia.
From stdpp Require Import base list gmap.
From S2P Require Import Prelude Random Annealing Genetic CapacityCSP.

(** [sum(f(x) for x in xs)] where [f] can raise. *)
Fixpoint sum_res {A} (f : A -> result Z) (xs : list A) : result Z :=
  match xs with
  | [] => Ok 0%Z
  | x :: xs' => a <- f x ;; b <- sum_res f xs' ;; Ok (a + b)%Z
  end.

(** [max(xs)] of a sequence: [ValueError] when it is empty. *)
Definition py_max_list (xs : list Z) : result Z :=
  match xs with [] => Err ValueError | x :: xs' => Ok (py_max x xs') end.

(** ** The penalised fitness of [sa_match] *)

Section CapFitness.
Context {M T : Type} `{Countable M} `{Countable T}.
Variables (murid : list M) (tutor : list T) (cap_init : gmap T Z).

(** [PEN = max(score_pair.values()) * len(murid)], line 103. *)
Definition penalty (sp : gmap (M * T) Z) : result Z :=
  mx <- py_max_list (snd <$> map_to_list sp) ;; Ok (mx * Z.of_nat (length murid))%Z.

(** [s = sum(score_pair[(m,assign[m])] for m in murid)], line 109. *)
Definition assign_score (sp : gmap (M * T) Z) (assign : gmap M T) : result Z :=
  sum_res (fun m => t <- dict_get assign m ;; dict_get sp (m, t)) murid.

(** [overflow = sum(max(0, sum(1 for x in assign if assign[x]==t) - cap_init[t])
    for t in tutor)], line 110. *)
Definition overflow (assign : gmap M T) : result Z :=
  sum_res (fun t => c <- dict_get cap_init t ;; Ok (Z.max 0 (Z.of_nat (usage assign t) - c))) tutor.

(** [fitness(assign)], lines 107-111. *)
Definition cap_fitness (sp : gmap (M * T) Z) (PEN : Z) (assign : gmap M T) : result Z :=
  s <- assign_score sp assign ;;
  o <- overflow assign ;;
  Ok (s - PEN * o)%Z.
End CapFitness.

(** ** [sa_match] *)

(** [curr], [best], [best_fit], [T] and the state of [random]. *)
Record csa_state (M T R : Type) `{Countable M} : Type := mk_csa {
  ccurr : gmap M T;
  cbest : gmap M T;
  cbest_fit : Z;
  ctemp : Q;
  crng : R
}.
Arguments mk_csa {M T R _ _}.
Arguments ccurr {M T R _ _}. Arguments cbest {M T R _ _}. Arguments cbest_fit {M T R _ _}.
Arguments ctemp {M T R _ _}. Arguments crng {M T R _ _}.

Section CapSA.
Context {M T : Type} `{Countable M} `{Countable T} {R : Type} `{PyRandom R}.
Variable exp : Q -> Q.
Variables (murid : list M) (tutor : list T) (cap_init : gmap T Z) (pref : gmap (M * T) (list Z)).

(** [curr = {m: random.choice(tutor) for m in murid}], line 106. *)
Fixpoint init_assign (ms : list M) (r : R) (acc : gmap M T) : result (gmap M T * R) :=
  match ms with
  | [] => Ok (acc, r)
  | m :: ms' => p <- py_choice r tutor ;; init_assign ms' p.2 (<[m := p.1]> acc)
  end.

(** One iteration of [for _ in range(steps)], lines 116-125. *)
Definition csa_step (sp : gmap (M * T) Z) (PEN : Z) (cooling : Q) (st : csa_state M T R)
    : result (csa_state M T R) :=
  p <- py_choice (crng st) murid ;;
  let (m, r1) := p in
  q <- py_choice r1 tutor ;;
  let (t, r2) := q in
  let child := <[m := t]> (ccurr st) in
  f_child <- cap_fitness murid tutor cap_init sp PEN child ;;
  f_curr <- cap_fitness murid tutor cap_init sp PEN (ccurr st) ;;
  let delta := (f_child - f_curr)%Z in
  a <- metropolis exp (inject_Z delta) (ctemp st) r2 ;;
  let (accepted, r3) := a in
  let '(c, b, bf) :=
    if accepted then
      if (cbest_fit st <? f_child)%Z then (child, child, f_child) else (child, cbest st, cbest_fit st)
    else (ccurr st, cbest st, cbest_fit st) in
  Ok (mk_csa c b bf (ctemp st * cooling) r3).

Fixpoint csa_loop (sp : gmap (M * T) Z) (PEN : Z) (cooling : Q) (k : nat) (st : csa_state M T R)
    : result (csa_state M T R) :=
  match k with
  | O => Ok st
  | S k' => st' <- csa_step sp PEN cooling st ;; csa_loop sp PEN cooling k' st'
  end.

(** [sa_match(murid, tutor, cap_init, pref, T0, cooling, steps)] of
    tests/test.py, lines 101-127, returning the state of [random]. *)
Definition sa_match (T0 cooling : Q) (steps : Z) (r : R) : result ((gmap M T * Z) * R) :=
  sp <- score_table murid tutor pref ;;
  PEN <- penalty murid sp ;;
  p <- init_assign murid r ∅ ;;
  let (curr, r1) := p in
  f <- cap_fitness murid tutor cap_init sp PEN curr ;;
  st <- csa_loop sp PEN cooling (Z.to_nat steps) (mk_csa curr curr f T0 r1) ;;
  Ok ((cbest st, cbest_fit st), crng st).

(** [sa_match] of tests/sa.py, lines 4-58: [best_fit] starts at
    [sum(score_pair[(m, curr[m])] for m in murid)], line 28. *)
Definition sa_match_v0 (T0 cooling : Q) (steps : Z) (r : R) : result ((gmap M T * Z) * R) :=
  sp <- score_table murid tutor pref ;;
  PEN <- penalty murid sp ;;
  p <- init_assign murid r ∅ ;;
  let (curr, r1) := p in
  s0 <- assign_score murid sp curr ;;
  st <- csa_loop sp PEN cooling (Z.to_nat steps) (mk_csa curr curr s0 T0 r1) ;;
  Ok ((cbest st, cbest_fit st), crng st).
End CapSA.

(** ** [ga_match] *)

Section CapGA.
Context {T : Type} `{Countable T} {R : Type} `{PyRandom R}.
Variables (murid : list nat) (tutor : list T) (cap_init : gmap T Z) (pref : gmap (nat * T) (list Z)).
Variables (pop_size gens : nat) (cross_p mut_p : Q).

(** [fitness(chromo)], lines 136-141: the pair scores are looked up
    under [(i, chromo[i])] for the position [i], not the student
    [murid[i]]. *)
Definition ga_fitness (sp : gmap (nat * T) Z) (PEN : Z) (chromo : list T) : result Z :=
  s <- sum_res (fun i => t <- py_getitem chromo i ;; dict_get sp (i, t)) (seq 0 (length murid)) ;;
  o <- sum_res (fun t => c <- dict_get cap_init t ;;
                         Ok (Z.max 0 (Z.of_nat (length (List.filter (fun a => bool_decide (a = t)) chromo)) - c)))
               tutor ;;
  Ok (s - PEN * o)%Z.

(** [[random.choice(tutor) for _ in murid]]. *)
Fixpoint rand_chromo (k : nat) (r : R) : result (list T * R) :=
  match k with
  | O => Ok ([], r)
  | S k' => p <- py_choice r tutor ;; q <- rand_chromo k' p.2 ;; Ok (p.1 :: q.1, q.2)
  end.

(** [pop = [[...] for _ in range(pop_size)]], line 144. *)
Fixpoint rand_pop (k : nat) (r : R) : result (list (list T) * R) :=
  match k with
  | O => Ok ([], r)
  | S k' => p <- rand_chromo (length murid) r ;; q <- rand_pop k' p.2 ;; Ok (p.1 :: q.1, q.2)
  end.

(** [sorted(pop, key=fitness, reverse=True)], line 146: the keys first,
    then a stable sort. *)
Definition sort_by_fitness (sp : gmap (nat * T) Z) (PEN : Z) (pop : list (list T))
    : result (list (list T)) :=
  keys <- res_map (ga_fitness sp PEN) pop ;;
  Ok (fst <$> sort_desc snd (zip pop keys)).

(** The mutation of lines 157-160 on one child. *)
Definition ga_mutate (c : list T) (r : R) : result (list T * R) :=
  let (u, r1) := random r in
  if qltb u mut_p then
    p <- randrange r1 (length murid) ;;
    q <- py_choice p.2 tutor ;;
    c' <- list_setitem c p.1 q.1 ;;
    Ok (c', q.2)
  else Ok (c, r1).

(** One iteration of [while len(new_pop) < pop_size], lines 149-161. *)
Definition ga_offspring (pop : list (list T)) (r : R) : result ((list T * list T) * R) :=
  s <- sample r (Nat.min 10 (length pop)) 2 ;;
  let (idx, r1) := s in
  p1 <- py_getitem pop (nth 0 idx 0%nat) ;;
  p2 <- py_getitem pop (nth 1 idx 0%nat) ;;
  let (u, r2) := random r1 in
  cs <- (if qltb u cross_p then
           k <- py_randint r2 1 (Z.of_nat (length murid) - 1) ;;
           let cp := Z.to_nat k.1 in
           Ok ((take cp p1 ++ drop cp p2, take cp p2 ++ drop cp p1), k.2)
         else Ok ((p1, p2), r2)) ;;
  let '((c1, c2), r3) := cs in
  m1 <- ga_mutate c1 r3 ;;
  m2 <- ga_mutate c2 m1.2 ;;
  Ok ((m1.1, m2.1), m2.2).

Fixpoint ga_breed (fuel : nat) (pop new_pop : list (list T)) (r : R) : result (list (list T) * R) :=
  match fuel with
  | O => Err OutOfFuel
  | S fuel' =>
      if Nat.ltb (length new_pop) pop_size then
        o <- ga_offspring pop r ;;
        ga_breed fuel' pop (new_pop ++ [o.1.1; o.1.2]) o.2
      else Ok (new_pop, r)
  end.

(** One generation, lines 146-162. *)
Definition ga_gen (sp : gmap (nat * T) Z) (PEN : Z) (pop : list (list T)) (r : R)
    : result (list (list T) * R) :=
  sorted <- sort_by_fitness sp PEN pop ;;
  b <- ga_breed (S pop_size) sorted (take 2 sorted) r ;;
  Ok (take pop_size b.1, b.2).

Fixpoint ga_gens (sp : gmap (nat * T) Z) (PEN : Z) (k : nat) (pop : list (list T)) (r : R)
    : result (list (list T) * R) :=
  match k with
  | O => Ok (pop, r)
  | S k' => p <- ga_gen sp PEN pop r ;; ga_gens sp PEN k' p.1 p.2
  end.

(** [{m: best[i] for i,m in enumerate(murid)}], line 165. *)
Definition ga_assignment (best : list T) : result (gmap nat T) :=
  fold_left (fun acc im => a <- acc ;; t <- py_getitem best im.1 ;; Ok (<[im.2 := t]> a))
            (zip (seq 0 (length murid)) murid) (Ok ∅).

(** [ga_match(murid, tutor, cap_init, pref, pop_size, gens, cross_p,
    mut_p)], lines 131-165, returning the state of [random]. *)
Definition ga_match (r : R) : result ((gmap nat T * Z) * R) :=
  sp <- score_table murid tutor pref ;;
  PEN <- penalty murid sp ;;
  p <- rand_pop pop_size r ;;
  q <- ga_gens sp PEN gens p.1 p.2 ;;
  let pop := q.1 in
  keys <- res_map (ga_fitness sp PEN) pop ;;
  best <- py_max_by (fun cf => inject_Z cf.2) (zip pop keys) ;;
  a <- ga_assignment best.1 ;;
  f <- ga_fitness sp PEN best.1 ;;
  Ok ((a, f), q.2).
End CapGA.

(** ** Sums that can raise *)

Section SumRes.
Context {A : Type}.
Implicit Types (f : A -> result Z) (xs : list A).

Lemma sum_res_ok f xs : (forall x, In x xs -> exists v, f x = Ok v) -> exists s, sum_res f xs = Ok s.
Proof.
  induction xs as [|x xs IH]; simpl; intros Hf; [eauto|].
  destruct (Hf x (or_introl eq_refl)) as [v ->]. simpl.
  destruct IH as [s ->]; [intros y Hy; apply Hf; right; exact Hy|]. simpl. eauto.
Qed.

(** Each item of a sum that returned. *)
Lemma sum_res_terms f xs s :
  sum_res f xs = Ok s -> forall x, In x xs -> exists v, f x = Ok v.
Proof.
  revert s. induction xs as [|x xs IH]; simpl; intros s Hs y Hy; [contradiction|].
  destruct (f x) as [v|e] eqn:Hx; [|discriminate]. simpl in Hs.
  destruct (sum_res f xs) as [s'|e] eqn:Hr; [|discriminate].
  destruct Hy as [<-|Hy]; [eauto|exact (IH s' eq_refl y Hy)].
Qed.

(** A sum of terms in [[lo, hi]] lies in [[lo * n, hi * n]]. *)
Lemma sum_res_bounds f xs s lo hi :
  sum_res f xs = Ok s -> (forall x v, In x xs -> f x = Ok v -> (lo <= v <= hi)%Z) ->
  (lo * Z.of_nat (length xs) <= s <= hi * Z.of_nat (length xs))%Z.
Proof.
  revert s. induction xs as [|x xs IH]; simpl; intros s Hs Hb; [injection Hs as <-; lia|].
  destruct (f x) as [v|e] eqn:Hx; [|discriminate]. simpl in Hs.
  destruct (sum_res f xs) as [s'|e] eqn:Hr; [|discriminate]. injection Hs as <-.
  pose proof (Hb x v (or_introl eq_refl) Hx).
  pose proof (IH s' eq_refl (fun y w Hy => Hb y w (or_intror Hy))). lia.
Qed.

Lemma sum_res_nonneg f xs s :
  sum_res f xs = Ok s -> (forall x v, In x xs -> f x = Ok v -> (0 <= v)%Z) -> (0 <= s)%Z.
Proof.
  revert s. induction xs as [|x xs IH]; simpl; intros s Hs Hb; [injection Hs as <-; lia|].
  destruct (f x) as [v|e] eqn:Hx; [|discriminate]. simpl in Hs.
  destruct (sum_res f xs) as [s'|e] eqn:Hr; [|discriminate]. injection Hs as <-.
  pose proof (Hb x v (or_introl eq_refl) Hx).
  pose proof (IH s' eq_refl (fun y w Hy => Hb y w (or_intror Hy))). lia.
Qed.

(** Non-negative terms of a sum that is at most [0] are [0]. *)
Lemma sum_res_zero f xs s :
  sum_res f xs = Ok s -> (forall x v, In x xs -> f x = Ok v -> (0 <= v)%Z) -> (s <= 0)%Z ->
  forall x v, In x xs -> f x = Ok v -> v = 0%Z.
Proof.
  revert s. induction xs as [|x xs IH]; simpl; intros s Hs Hb Hle y w Hy Hw; [contradiction|].
  destruct (f x) as [v|e] eqn:Hx; [|discriminate]. simpl in Hs.
  destruct (sum_res f xs) as [s'|e] eqn:Hr; [|discriminate]. injection Hs as <-.
  pose proof (Hb x v (or_introl eq_refl) Hx).
  pose proof (sum_res_nonneg f xs s' Hr (fun z u Hz => Hb z u (or_intror Hz))).
  destruct Hy as [<-|Hy]; [rewrite Hx in Hw; injection Hw as <-; lia|].
  apply (IH s' eq_refl (fun z u Hz => Hb z u (or_intror Hz)) ltac:(lia) y w Hy Hw).
Qed.
End SumRes.

Lemma fold_bind_inv {A B} (P : B -> Prop) (g : B -> A -> result B) xs acc b' :
  (forall b x b', P b -> g b x = Ok b' -> P b') ->
  (forall b, acc = Ok b -> P b) ->
  fold_left (fun acc x => b <- acc ;; g b x) xs acc = Ok b' -> P b'.
Proof.
  intros Hg. revert acc. induction xs as [|x xs IH]; simpl; intros acc Hacc Hf; [exact (Hacc _ Hf)|].
  apply (IH (b <- acc ;; g b x)); [|exact Hf]. intros b Hb.
  destruct acc as [b0|e]; [|discriminate Hb]. exact (Hg b0 x b (Hacc b0 eq_refl) Hb).
Qed.

(** ** The score table and the penalty *)

Section CapFitnessFacts.
Context {M T : Type} `{Countable M} `{Countable T}.
Variables (murid : list M) (tutor : list T) (cap_init : gmap T Z) (pref : gmap (M * T) (list Z)).

(** Every entry of [score_pair] sums the values of a [pref] entry. *)
Lemma score_table_entries sp :
  score_table murid tutor pref = Ok sp ->
  forall k v, sp !! k = Some v -> exists vs, pref !! k = Some vs /\ v = sum_by (fun x => x) vs.
Proof.
  set (P := fun tbl : gmap (M * T) Z => forall k v, tbl !! k = Some v ->
              exists vs, pref !! k = Some vs /\ v = sum_by (fun x => x) vs).
  assert (HP : forall tbl m t tbl', P tbl ->
            (vs <- dict_get pref (m, t) ;; Ok (<[(m, t) := sum_by (fun x => x) vs]> tbl)) = Ok tbl' -> P tbl').
  { intros tbl m t tbl' Htbl Hs. unfold dict_get in Hs.
    destruct (pref !! (m, t)) as [vs|] eqn:Hp; [|discriminate]. injection Hs as <-.
    intros k v Hk. destruct (decide ((m, t) = k)) as [<-|Hne];
      [rewrite lookup_insert_eq in Hk; injection Hk as <-; eauto|rewrite lookup_insert_ne in Hk by exact Hne; eauto]. }
  unfold score_table. intros Hst. change (P sp).
  assert (Hgen : forall ms acc, (forall b, acc = Ok b -> P b) ->
    fold_left (fun acc m => fold_left (fun acc t =>
      tbl <- acc ;; vs <- dict_get pref (m, t) ;;
      Ok (<[(m, t) := sum_by (fun x => x) vs]> tbl)) tutor acc) ms acc = Ok sp -> P sp).
  { induction ms as [|m ms IH]; simpl; intros acc Hacc Hf; [exact (Hacc _ Hf)|].
    apply (IH _ ltac:(intros b Hb; exact (fold_bind_inv P
              (fun tbl t => vs <- dict_get pref (m, t) ;; Ok (<[(m, t) := sum_by (fun x => x) vs]> tbl))
              tutor acc b (fun b0 t b1 => HP b0 m t b1) Hacc Hb)) Hf). }
  apply (Hgen murid (Ok ∅)); [|exact Hst].
  intros b [= <-] k v Hk. rewrite lookup_empty in Hk. discriminate.
Qed.

Lemma score_table_nonneg sp :
  score_table murid tutor pref = Ok sp ->
  (forall k vs, pref !! k = Some vs -> Forall (fun x => (0 <= x)%Z) vs) ->
  forall k v, sp !! k = Some v -> (0 <= v)%Z.
Proof.
  intros Hst Hp k v Hk. destruct (score_table_entries sp Hst k v Hk) as (vs & Hvs & ->).
  pose proof (Hp k vs Hvs) as Hf. rewrite List.Forall_forall in Hf.
  rewrite <- (sum_by_zero (fun _ => 0%Z) vs) by reflexivity.
  apply sum_by_le. intros x Hx. apply Hf, Hx.
Qed.

(** [PEN] is the largest pair score times [len(murid)]. *)
Lemma penalty_spec (sp : gmap (M * T) Z) PEN :
  penalty murid sp = Ok PEN -> (forall k v, sp !! k = Some v -> (0 <= v)%Z) ->
  exists mx, PEN = (mx * Z.of_nat (length murid))%Z /\ (0 <= mx)%Z /\
             forall k v, sp !! k = Some v -> (v <= mx)%Z.
Proof.
  intros Hp Hnn. unfold penalty, py_max_list in Hp.
  destruct (snd <$> map_to_list sp) as [|x xs] eqn:Hv; [discriminate|]. simpl in Hp. injection Hp as <-.
  exists (py_max x xs). split; [reflexivity|]. split.
  - assert (Hx : In x (snd <$> map_to_list sp)) by (rewrite Hv; left; reflexivity).
    pose proof (py_max_ge_acc x xs).
    apply list_elem_of_In, list_elem_of_fmap in Hx as ([k v] & Hxe & Hkv).
    apply elem_of_map_to_list in Hkv. pose proof (Hnn k v Hkv). simpl in Hxe. subst x. lia.
  - intros k v Hk. apply py_max_ge. rewrite <- Hv. apply list_elem_of_In, list_elem_of_fmap.
    exists (k, v). split; [reflexivity|]. apply elem_of_map_to_list, Hk.
Qed.

Lemma overflow_nonneg (a : gmap M T) o : overflow tutor cap_init a = Ok o -> (0 <= o)%Z.
Proof.
  intros Ho. apply (sum_res_nonneg _ _ _ Ho).
  intros x v _ Hx. unfold dict_get in Hx. destruct (cap_init !! x); [|discriminate]. injection Hx as <-. lia.
Qed.

(** A non-negative penalty only lowers the score. *)
Lemma cap_fitness_le_score sp PEN (a : gmap M T) s f :
  (0 <= PEN)%Z -> assign_score murid sp a = Ok s ->
  cap_fitness murid tutor cap_init sp PEN a = Ok f -> (f <= s)%Z.
Proof.
  intros HPEN Hs Hf. unfold cap_fitness in Hf. rewrite Hs in Hf. cbn [res_bind] in Hf.
  destruct (overflow tutor cap_init a) as [o|e] eqn:Ho; [|discriminate]. injection Hf as <-.
  pose proof (overflow_nonneg a o Ho). nia.
Qed.

(** The penalty dominates: with non-negative pair scores, an assignment
    of positive fitness keeps every tutor within its capacity. *)
Lemma cap_fitness_pos_feasible sp mx a f :
  (forall k v, sp !! k = Some v -> (0 <= v <= mx)%Z) ->
  cap_fitness murid tutor cap_init sp (mx * Z.of_nat (length murid)) a = Ok f -> (0 < f)%Z ->
  forall t, In t tutor -> (Z.of_nat (usage a t) <= cap_of cap_init t)%Z.
Proof.
  intros Hsp Hf Hpos t Ht. unfold cap_fitness in Hf.
  destruct (assign_score murid sp a) as [s|e] eqn:Hs; [|discriminate]. simpl in Hf.
  destruct (overflow tutor cap_init a) as [o|e] eqn:Ho; [|discriminate]. simpl in Hf. injection Hf as <-.
  assert (Hterm : forall x v, In x tutor ->
            (c <- dict_get cap_init x ;; Ok (Z.max 0 (Z.of_nat (usage a x) - c))) = Ok v -> (0 <= v)%Z).
  { intros x v _ Hx. unfold dict_get in Hx. destruct (cap_init !! x); [|discriminate]. injection Hx as <-. lia. }
  pose proof (sum_res_nonneg _ _ _ Ho Hterm) as Ho0.
  destruct (sum_res_bounds _ _ _ 0 mx Hs) as [Hs0 Hsmx].
  { intros m v _ Hm. destruct (dict_get a m) as [t'|]; [|discriminate]. simpl in Hm.
    unfold dict_get in Hm. destruct (sp !! (m, t')) eqn:Hk; [|discriminate]. injection Hm as <-.
    exact (Hsp _ _ Hk). }
  assert (Hmx : (0 <= mx)%Z \/ length murid = O).
  { destruct murid as [|m0 ms] eqn:Hm; [right; reflexivity|left].
    destruct (sum_res_terms _ _ _ Hs m0 (or_introl eq_refl)) as [v Hv].
    destruct (dict_get a m0) as [t'|]; [|discriminate]. simpl in Hv.
    unfold dict_get in Hv. destruct (sp !! (m0, t')) eqn:Hk; [|discriminate]. injection Hv as <-.
    pose proof (Hsp _ _ Hk). lia. }
  assert (o <= 0)%Z as Ho1.
  { destruct Hmx as [Hmx|Hl]; [|rewrite Hl in *; simpl in *; lia]. nia. }
  destruct (sum_res_terms _ _ _ Ho t Ht) as [v Hv].
  pose proof (sum_res_zero _ _ _ Ho Hterm Ho1 t v Ht Hv) as ->.
  unfold dict_get, cap_of in *. destruct (cap_init !! t); [|discriminate]. injection Hv as Hv. simpl. lia.
Qed.
End CapFitnessFacts.

(** ** [sa_match] runs to the end *)

Section CapSAProofs.
Context {M T : Type} `{Countable M} `{Countable T} {R : Type} `{PyRandomLaws R}.
Variable exp : Q -> Q.
Variables (murid : list M) (tutor : list T) (cap_init : gmap T Z).
Variables (sp : gmap (M * T) Z) (PEN : Z) (cooling : Q).
Hypothesis Hsp : forall m t, In m murid -> In t tutor -> is_Some (sp !! (m, t)).
Hypothesis Hcap : forall t, In t tutor -> is_Some (cap_init !! t).
Hypothesis Hmurid : murid <> [].
Hypothesis Htutor : tutor <> [].
Hypothesis Hcool : (0 < cooling)%Q.

(** Every student has a tutor of the list, and only students have one. *)
Definition assign_ok (a : gmap M T) : Prop :=
  (forall m, In m murid -> exists t, a !! m = Some t /\ In t tutor) /\
  (forall m t, a !! m = Some t -> In m murid).

Lemma assign_ok_insert a m t : assign_ok a -> In m murid -> In t tutor -> assign_ok (<[m := t]> a).
Proof.
  intros [Ha Hk] Hm Ht. split.
  - intros m' Hm'. destruct (decide (m = m')) as [<-|Hne];
      [rewrite lookup_insert_eq; eauto|rewrite lookup_insert_ne by exact Hne; apply Ha, Hm'].
  - intros m' t'. rewrite lookup_insert_Some. intros [[<- _]|[_ Hm']]; [exact Hm|exact (Hk m' t' Hm')].
Qed.

Lemma cap_fitness_ok a : assign_ok a -> exists f, cap_fitness murid tutor cap_init sp PEN a = Ok f.
Proof.
  intros [Ha _]. unfold cap_fitness.
  destruct (sum_res_ok (fun m => t <- dict_get a m ;; dict_get sp (m, t)) murid) as [s Hs].
  { intros m Hm. destruct (Ha m Hm) as (t & Hat & Ht). unfold dict_get at 1. rewrite Hat. simpl.
    destruct (Hsp m t Hm Ht) as [v Hv]. unfold dict_get. rewrite Hv. eauto. }
  unfold assign_score. rewrite Hs. simpl.
  destruct (sum_res_ok (fun t => c <- dict_get cap_init t ;; Ok (Z.max 0 (Z.of_nat (usage a t) - c))) tutor)
    as [o Ho].
  { intros t Ht. destruct (Hcap t Ht) as [c Hc]. unfold dict_get. rewrite Hc. simpl. eauto. }
  unfold overflow. rewrite Ho. simpl. eauto.
Qed.

Lemma init_assign_ok ms r (acc : gmap M T) :
  (forall m t, acc !! m = Some t -> In t tutor) ->
  exists a r', init_assign tutor ms r acc = Ok (a, r') /\ (forall m t, a !! m = Some t -> In t tutor) /\
    forall m, is_Some (a !! m) <-> In m ms \/ is_Some (acc !! m).
Proof.
  revert r acc. induction ms as [|m ms IH]; intros r acc Hacc; simpl.
  - exists acc, r. split_and!; [reflexivity|exact Hacc|]. intros m. split; [intros Hm; right; exact Hm|intros [[]|Hm]; exact Hm].
  - destruct (py_choice_ok r tutor Htutor) as (t & r1 & -> & Ht). simpl.
    destruct (IH r1 (<[m := t]> acc)) as (a & r' & -> & Ha & Hdom).
    { intros m' t'. destruct (decide (m = m')) as [<-|Hne];
        [rewrite lookup_insert_eq; intros [= <-]; exact Ht|rewrite lookup_insert_ne by exact Hne; apply Hacc]. }
    exists a, r'. split_and!; [reflexivity|exact Ha|]. intros m'. rewrite Hdom, lookup_insert_is_Some'. simpl. split.
    + intros [Hin|[->|Hs]]; [left; right; exact Hin|left; left; reflexivity|right; exact Hs].
    + intros [[->|Hin]|Hs]; [right; left; reflexivity|left; exact Hin|right; right; exact Hs].
Qed.

Lemma init_assign_murid r : exists a r', init_assign tutor murid r ∅ = Ok (a, r') /\ assign_ok a.
Proof.
  destruct (init_assign_ok murid r ∅) as (a & r' & Hi & Ha & Hdom); [intros m t Hm; rewrite lookup_empty in Hm; discriminate|].
  exists a, r'. split; [exact Hi|]. split.
  - intros m Hm. destruct (proj2 (Hdom m) (or_introl Hm)) as [t Ht]. exists t. split; [exact Ht|exact (Ha m t Ht)].
  - intros m t Hm. destruct (proj1 (Hdom m) (ex_intro _ t Hm)) as [Hin|[? Hin]]; [exact Hin|].
    rewrite lookup_empty in Hin. discriminate.
Qed.

(** [curr] and [best] give every student a tutor, [best_fit] is
    related by [rel] to the fitness of [best] (equal to it in tests/test.py,
    at least it in tests/sa.py), and [T] is positive. *)
Record csa_inv (rel : Z -> Z -> Prop) (st : csa_state M T R) : Prop := {
  csa_curr_ok : assign_ok (ccurr st);
  csa_best_ok : assign_ok (cbest st);
  csa_best_fit : exists f, cap_fitness murid tutor cap_init sp PEN (cbest st) = Ok f /\ rel f (cbest_fit st);
  csa_temp : (0 < ctemp st)%Q
}.

Variable rel : Z -> Z -> Prop.
Hypothesis Hrefl : forall x, rel x x.

Lemma csa_step_ok st :
  csa_inv rel st -> exists st', csa_step exp murid tutor cap_init sp PEN cooling st = Ok st' /\ csa_inv rel st' /\
    (cbest_fit st <= cbest_fit st')%Z.
Proof.
  intros Hinv. unfold csa_step.
  destruct (py_choice_ok (crng st) murid Hmurid) as (m & r1 & -> & Hm). simpl.
  destruct (py_choice_ok r1 tutor Htutor) as (t & r2 & -> & Ht). simpl.
  pose proof (assign_ok_insert _ m t (csa_curr_ok _ _ Hinv) Hm Ht) as Hchild.
  destruct (cap_fitness_ok _ Hchild) as [fc Hfc]. rewrite Hfc. simpl.
  destruct (cap_fitness_ok _ (csa_curr_ok _ _ Hinv)) as [fu Hfu]. rewrite Hfu. simpl.
  destruct (metropolis_ok exp (inject_Z (fc - fu)) (ctemp st) r2 (csa_temp _ _ Hinv)) as (b & r3 & ->). simpl.
  assert (HT : (0 < ctemp st * cooling)%Q) by (apply Qmult_lt_0_compat; [exact (csa_temp _ _ Hinv)|exact Hcool]).
  destruct Hinv as [Hc Hb Hf _].
  destruct b; [destruct (Z.ltb_spec (cbest_fit st) fc)|]; simpl;
    (eexists; split; [reflexivity|]); simpl; (split; [split; simpl; try assumption|lia]).
  exists fc. split; [exact Hfc|apply Hrefl].
Qed.

Lemma csa_loop_ok k st :
  csa_inv rel st -> exists st', csa_loop exp murid tutor cap_init sp PEN cooling k st = Ok st' /\ csa_inv rel st' /\
    (cbest_fit st <= cbest_fit st')%Z.
Proof.
  revert st. induction k as [|k IH]; intros st Hinv; simpl; [exists st; split_and!; auto; lia|].
  destruct (csa_step_ok st Hinv) as (st1 & -> & Hinv1 & Hle1). simpl.
  destruct (IH st1 Hinv1) as (st2 & -> & Hinv2 & Hle2).
  exists st2. split_and!; [reflexivity|exact Hinv2|lia].
Qed.
End CapSAProofs.

Section CapSAMatch.
Context {M T : Type} `{Countable M} `{Countable T} {R : Type} `{PyRandomLaws R}.
Variable exp : Q -> Q.
Variables (murid : list M) (tutor : list T) (cap_init : gmap T Z) (pref : gmap (M * T) (list Z)).
Hypothesis Hpref : forall m t, In m murid -> In t tutor -> is_Some (pref !! (m, t)).
Hypothesis Hcap : forall t, In t tutor -> is_Some (cap_init !! t).
Hypothesis Hmurid : murid <> [].
Hypothesis Htutor : tutor <> [].

Lemma penalty_ok (sp : gmap (M * T) Z) k v : sp !! k = Some v -> exists PEN, penalty murid sp = Ok PEN.
Proof.
  intros Hk. unfold penalty, py_max_list.
  assert (Hin : v ∈ snd <$> map_to_list sp)
    by (apply list_elem_of_fmap; exists (k, v); split; [reflexivity|apply elem_of_map_to_list, Hk]).
  destruct (snd <$> map_to_list sp); [apply elem_of_nil in Hin; contradiction|]. simpl. eauto.
Qed.

(** [sa_match] returns, with the fitness of its [best] as [best_fit]. *)
Lemma sa_match_ok T0 cooling steps r :
  (0 < T0)%Q -> (0 < cooling)%Q ->
  exists sp PEN best bf r',
    score_table murid tutor pref = Ok sp /\ penalty murid sp = Ok PEN /\
    sa_match exp murid tutor cap_init pref T0 cooling steps r = Ok ((best, bf), r') /\
    assign_ok murid tutor best /\ cap_fitness murid tutor cap_init sp PEN best = Ok bf /\
    forall a0 r1 f0, init_assign tutor murid r ∅ = Ok (a0, r1) ->
      cap_fitness murid tutor cap_init sp PEN a0 = Ok f0 -> (f0 <= bf)%Z.
Proof.
  intros HT Hcool. destruct (score_table_ok murid tutor pref Hpref) as (sp & Hsp & Hfull).
  assert (Hm0 : exists m0, In m0 murid) by (destruct murid; [congruence|eexists; left; reflexivity]).
  assert (Ht0 : exists t0, In t0 tutor) by (destruct tutor; [congruence|eexists; left; reflexivity]).
  destruct Hm0 as [m0 Hm0], Ht0 as [t0 Ht0]. destruct (Hfull m0 t0 Hm0 Ht0) as [v0 Hv0].
  destruct (penalty_ok sp _ _ Hv0) as [PEN HPEN].
  unfold sa_match. rewrite Hsp. cbn [res_bind]. rewrite HPEN. cbn [res_bind].
  destruct (init_assign_murid murid tutor Htutor r) as (a0 & r1 & Hinit & Ha0). rewrite Hinit. simpl.
  destruct (cap_fitness_ok murid tutor cap_init sp PEN Hfull Hcap a0 Ha0) as [f0 Hf0]. rewrite Hf0. simpl.
  destruct (csa_loop_ok exp murid tutor cap_init sp PEN cooling Hfull Hcap Hmurid Htutor Hcool eq (fun x => eq_refl)
              (Z.to_nat steps) (mk_csa a0 a0 f0 T0 r1) ltac:(split; simpl; eauto))
    as (st & -> & Hinv & Hle). simpl.
  destruct (csa_best_fit _ _ _ _ _ _ _ Hinv) as (fb & Hfb & Hfbe). rewrite <- Hfbe.
  exists sp, PEN, (cbest st), fb, (crng st).
  split_and!; try reflexivity; try assumption; [apply Hinv|].
  intros a0' r1' f0' Hi' Hf'. injection Hi' as <- <-. rewrite Hf0 in Hf'. injection Hf' as <-.
  simpl in Hle. lia.
Qed.
End CapSAMatch.

Section CapSAClaims.
Context {M T : Type} `{Countable M} `{Countable T} {R : Type} `{PyRandomLaws R}.
Variable exp : Q -> Q.
Variables (murid : list M) (tutor : list T) (cap_init : gmap T Z) (pref : gmap (M * T) (list Z)).
Hypothesis Hpref : forall m t, In m murid -> In t tutor -> is_Some (pref !! (m, t)).
Hypothesis Hcap : forall t, In t tutor -> is_Some (cap_init !! t).
Hypothesis Hmurid : murid <> [].
Hypothesis Htutor : tutor <> [].

(** [cooling > 1/2] keeps the float temperature of [sa_match] positive
    (see Annealing.v): below it [T] underflows to [0.0] within the
    default 2000 steps and [delta / T] raises [ZeroDivisionError], which
    the exact temperature of the model cannot reach. *)
Lemma half_cooling_pos cooling : (1 # 2 < cooling)%Q -> (0 < cooling)%Q.
Proof. intros Hc. apply (Qlt_trans _ (1 # 2)); [reflexivity|exact Hc]. Qed.

(** C22. [sa_match] of tests/test.py runs to the end: with students and
    tutors, every pair scored and every tutor given a capacity, [T0 > 0]
    and [cooling > 1/2], it returns for every state of [random] an
    assignment of every student to a listed tutor and, as [best_fit],
    that assignment's penalised fitness. *)
Theorem cap_sa_match_sound T0 cooling steps r :
  (0 < T0)%Q -> (1 # 2 < cooling)%Q ->
  exists best bf r', sa_match exp murid tutor cap_init pref T0 cooling steps r = Ok ((best, bf), r') /\
    assign_ok murid tutor best /\
    exists sp PEN, score_table murid tutor pref = Ok sp /\ penalty murid sp = Ok PEN /\
                   cap_fitness murid tutor cap_init sp PEN best = Ok bf.
Proof.
  intros HT Hc%half_cooling_pos.
  destruct (sa_match_ok exp murid tutor cap_init pref Hpref Hcap Hmurid Htutor T0 cooling steps r HT Hc)
    as (sp & PEN & best & bf & r' & Hsp & HPEN & Hr & Hok & Hf & _).
  exists best, bf, r'. split_and!; [exact Hr|exact Hok|]. eauto.
Qed.

(** C23. The penalty makes a positive result feasible: when every
    preference value is non-negative, [sa_match] returns (for [T0 > 0]
    and [cooling > 1/2], every state of [random]), and the assignment it returns
    with a positive [best_fit] gives no tutor more students than its
    capacity. *)
Theorem cap_sa_match_feasible T0 cooling steps r :
  (0 < T0)%Q -> (1 # 2 < cooling)%Q ->
  (forall k vs, pref !! k = Some vs -> Forall (fun x => (0 <= x)%Z) vs) ->
  exists best bf r', sa_match exp murid tutor cap_init pref T0 cooling steps r = Ok ((best, bf), r') /\
    ((0 < bf)%Z -> forall t, In t tutor -> (Z.of_nat (usage best t) <= cap_of cap_init t)%Z).
Proof.
  intros HT Hc%half_cooling_pos Hnn.
  destruct (sa_match_ok exp murid tutor cap_init pref Hpref Hcap Hmurid Htutor T0 cooling steps r HT Hc)
    as (sp & PEN & best & bf & r' & Hsp & HPEN & Hr & _ & Hf & _).
  exists best, bf, r'. split; [exact Hr|]. intros Hpos.
  pose proof (score_table_nonneg murid tutor pref sp Hsp Hnn) as Hsp0.
  destruct (penalty_spec murid sp PEN HPEN Hsp0) as (mx & -> & _ & Hmx).
  apply (cap_fitness_pos_feasible murid tutor cap_init sp mx best bf); [|exact Hf|exact Hpos].
  intros k v Hk. split; [exact (Hsp0 k v Hk)|exact (Hmx k v Hk)].
Qed.

(** C33. The [sa_match] of tests/sa.py starts [best_fit] at the
    unpenalised score [sum(score_pair[(m, curr[m])] for m in murid)] of
    its random initial assignment (line 28), where its docstring and the
    [sa_match] of tests/test.py use the penalised fitness.  With
    non-negative preference values, [T0 > 0] and [cooling > 1/2] it
    returns for every state of [random] an assignment of every student
    to a listed tutor whose penalised fitness is at most the [best_fit]
    it reports, and that [best_fit] is at least the unpenalised score of
    the initial assignment: an over-capacity start that no accepted
    child beats is reported with its unpenalised score. *)
Theorem sa_match_v0_best_fit T0 cooling steps r :
  (0 < T0)%Q -> (1 # 2 < cooling)%Q ->
  (forall k vs, pref !! k = Some vs -> Forall (fun x => (0 <= x)%Z) vs) ->
  exists sp PEN a0 r1 s0 best bf r',
    score_table murid tutor pref = Ok sp /\ penalty murid sp = Ok PEN /\
    init_assign tutor murid r ∅ = Ok (a0, r1) /\ assign_score murid sp a0 = Ok s0 /\
    sa_match_v0 exp murid tutor cap_init pref T0 cooling steps r = Ok ((best, bf), r') /\
    assign_ok murid tutor best /\
    (exists f, cap_fitness murid tutor cap_init sp PEN best = Ok f /\ (f <= bf)%Z) /\
    (s0 <= bf)%Z.
Proof.
  intros HT Hc%half_cooling_pos Hnn. destruct (score_table_ok murid tutor pref Hpref) as (sp & Hsp & Hfull).
  assert (Hm0 : exists m0, In m0 murid) by (destruct murid; [congruence|eexists; left; reflexivity]).
  assert (Ht0 : exists t0, In t0 tutor) by (destruct tutor; [congruence|eexists; left; reflexivity]).
  destruct Hm0 as [m0 Hm0], Ht0 as [t0 Ht0]. destruct (Hfull m0 t0 Hm0 Ht0) as [v0 Hv0].
  destruct (penalty_ok murid sp _ _ Hv0) as [PEN HPEN].
  pose proof (score_table_nonneg murid tutor pref sp Hsp Hnn) as Hsp0.
  assert (HPEN0 : (0 <= PEN)%Z) by (destruct (penalty_spec murid sp PEN HPEN Hsp0) as (mx & -> & Hmx & _); lia).
  destruct (init_assign_murid murid tutor Htutor r) as (a0 & r1 & Hinit & Ha0).
  destruct (cap_fitness_ok murid tutor cap_init sp PEN Hfull Hcap a0 Ha0) as [f0 Hf0].
  destruct (assign_score murid sp a0) as [s0|e] eqn:Hs0;
    [|unfold cap_fitness in Hf0; rewrite Hs0 in Hf0; discriminate].
  destruct (csa_loop_ok exp murid tutor cap_init sp PEN cooling Hfull Hcap Hmurid Htutor Hc Z.le Z.le_refl
              (Z.to_nat steps) (mk_csa a0 a0 s0 T0 r1))
    as (st & Hloop & Hinv & Hle).
  { split; simpl; try assumption. exists f0. split; [exact Hf0|].
    exact (cap_fitness_le_score murid tutor cap_init sp PEN a0 s0 f0 HPEN0 Hs0 Hf0). }
  destruct Hinv as [_ Hbest Hbf _]. simpl in Hle.
  exists sp, PEN, a0, r1, s0, (cbest st), (cbest_fit st), (crng st).
  split_and!; try assumption.
  unfold sa_match_v0. rewrite Hsp. cbn [res_bind]. rewrite HPEN. cbn [res_bind]. rewrite Hinit.
  cbn [res_bind]. rewrite Hs0. cbn [res_bind]. rewrite Hloop. reflexivity.
Qed.
End CapSAClaims.

(** ** [ga_match] runs to the end *)

Lemma res_map_ok {A B} (f : A -> result B) xs :
  (forall x, In x xs -> exists y, f x = Ok y) -> exists ys, res_map f xs = Ok ys /\ length ys = length xs.
Proof.
  induction xs as [|x xs IH]; simpl; intros Hf; [eauto|].
  destruct (Hf x (or_introl eq_refl)) as [y ->]. simpl.
  destruct IH as (ys & -> & Hl); [intros z Hz; apply Hf; right; exact Hz|]. simpl. eexists. split; [reflexivity|simpl; lia].
Qed.

(** What [res_map] returns is [f] of each element, in order. *)
Lemma res_map_Forall2 {A B} (f : A -> result B) xs ys :
  res_map f xs = Ok ys -> Forall2 (fun x y => f x = Ok y) xs ys.
Proof.
  revert ys. induction xs as [|x xs IH]; intros ys Hr; simpl in Hr; [injection Hr as <-; constructor|].
  destruct (f x) as [y|e] eqn:Hx; [|discriminate]. cbn [res_bind] in Hr.
  destruct (res_map f xs) as [ys'|e] eqn:Hxs; [|discriminate]. injection Hr as <-.
  constructor; [exact Hx|exact (IH ys' eq_refl)].
Qed.

(** A pair of [zip xs ys] relates like the lists do. *)
Lemma Forall2_zip_In {A B} (P : A -> B -> Prop) xs ys x y :
  Forall2 P xs ys -> In (x, y) (zip xs ys) -> P x y.
Proof.
  intros HP. induction HP as [|x' y' xs' ys' Hxy HP IH]; simpl; [tauto|].
  intros [[= <- <-]|Hin]; [exact Hxy|exact (IH Hin)].
Qed.

Section CapGAProofs.
Context {T : Type} `{Countable T} {R : Type} `{PyRandomLaws R}.
Variables (murid : list nat) (tutor : list T) (cap_init : gmap T Z).
Variables (pop_size : nat) (cross_p mut_p : Q) (sp : gmap (nat * T) Z) (PEN : Z).
Hypothesis Hsp : forall i t, (i < length murid)%nat -> In t tutor -> is_Some (sp !! (i, t)).
Hypothesis Hcap : forall t, In t tutor -> is_Some (cap_init !! t).
Hypothesis Hn : (2 <= length murid)%nat.
Hypothesis Htutor : tutor <> [].

(** A chromosome: one listed tutor per position. *)
Definition chromo_ok (c : list T) : Prop := length c = length murid /\ Forall (fun t => In t tutor) c.

Lemma ga_fitness_ok c : chromo_ok c -> exists f, ga_fitness murid tutor cap_init sp PEN c = Ok f.
Proof.
  intros [Hl Hf]. unfold ga_fitness.
  destruct (sum_res_ok (fun i => t <- py_getitem c i ;; dict_get sp (i, t)) (seq 0 (length murid))) as [s ->].
  { intros i Hi. apply in_seq in Hi.
    destruct (py_getitem_ok c i ltac:(lia)) as (t & -> & Hct). simpl.
    assert (Ht : In t tutor)
      by (rewrite List.Forall_forall in Hf; apply Hf, list_elem_of_In, list_elem_of_lookup_2 with i, Hct).
    destruct (Hsp i t ltac:(lia) Ht) as [v Hv].
    unfold dict_get. rewrite Hv. eauto. }
  simpl.
  destruct (sum_res_ok (fun t => c0 <- dict_get cap_init t ;;
      Ok (Z.max 0 (Z.of_nat (length (List.filter (fun a => bool_decide (a = t)) c)) - c0))) tutor) as [o ->].
  { intros t Ht. destruct (Hcap t Ht) as [c0 Hc0]. unfold dict_get. rewrite Hc0. simpl. eauto. }
  simpl. eauto.
Qed.

Lemma rand_chromo_ok k r :
  exists c r', rand_chromo tutor k r = Ok (c, r') /\ length c = k /\ Forall (fun t => In t tutor) c.
Proof.
  revert r. induction k as [|k IH]; intros r; simpl; [exists [], r; split_and!; [reflexivity|reflexivity|constructor]|].
  destruct (py_choice_ok r tutor Htutor) as (t & r1 & -> & Ht). simpl.
  destruct (IH r1) as (c & r' & -> & Hl & Hf). simpl. eexists _, _. split_and!; [reflexivity|simpl; lia|].
  constructor; assumption.
Qed.

Lemma rand_pop_ok k r :
  exists pop r', rand_pop murid tutor k r = Ok (pop, r') /\ length pop = k /\ Forall chromo_ok pop.
Proof.
  revert r. induction k as [|k IH]; intros r; simpl; [exists [], r; split_and!; [reflexivity|reflexivity|constructor]|].
  destruct (rand_chromo_ok (length murid) r) as (c & r1 & -> & Hl & Hf). simpl.
  destruct (IH r1) as (pop & r' & -> & Hp & Hok). simpl. eexists _, _. split_and!; [reflexivity|simpl; lia|].
  constructor; [split|]; assumption.
Qed.

(** The sort only reorders the population. *)
Lemma sort_by_fitness_ok pop :
  Forall chromo_ok pop ->
  exists sorted, sort_by_fitness murid tutor cap_init sp PEN pop = Ok sorted /\ sorted ≡ₚ pop.
Proof.
  intros Hok. unfold sort_by_fitness.
  destruct (res_map_ok (ga_fitness murid tutor cap_init sp PEN) pop) as (keys & -> & Hl).
  { intros c Hc. apply ga_fitness_ok. rewrite List.Forall_forall in Hok. apply Hok, Hc. }
  simpl. eexists. split; [reflexivity|].
  rewrite sort_desc_perm. rewrite fst_zip by lia. reflexivity.
Qed.

Lemma ga_mutate_ok c r : chromo_ok c -> exists c' r', ga_mutate murid tutor mut_p c r = Ok (c', r') /\ chromo_ok c'.
Proof.
  intros [Hl Hf]. unfold ga_mutate. destruct (random r) as [u r1].
  destruct (qltb u mut_p); [|eexists _, _; split; [reflexivity|split; assumption]].
  destruct (randrange_ok r1 (length murid) ltac:(lia)) as (i & r2 & -> & Hi). simpl.
  destruct (py_choice_ok r2 tutor Htutor) as (t & r3 & -> & Ht). simpl.
  rewrite list_setitem_ok by lia. simpl. eexists _, _. split; [reflexivity|].
  split; [rewrite length_insert; exact Hl|apply Forall_insert; assumption].
Qed.

Lemma crossover_ok (p1 p2 : list T) cp :
  chromo_ok p1 -> chromo_ok p2 -> chromo_ok (take cp p1 ++ drop cp p2).
Proof.
  intros [Hl1 Hf1] [Hl2 Hf2]. split.
  - rewrite length_app, length_take, length_drop. lia.
  - apply Forall_app. split; [apply Forall_take, Hf1|apply Forall_drop, Hf2].
Qed.

(** One iteration of the [while] loop: two chromosomes. *)
Lemma ga_offspring_ok pop r :
  Forall chromo_ok pop -> (2 <= length pop)%nat ->
  exists c1 c2 r', ga_offspring murid tutor cross_p mut_p pop r = Ok ((c1, c2), r') /\
                   chromo_ok c1 /\ chromo_ok c2.
Proof.
  intros Hok Hlen. rewrite List.Forall_forall in Hok. unfold ga_offspring.
  destruct (sample_two r (Nat.min 10 (length pop)) ltac:(lia)) as (x & y & r1 & -> & Hxy). simpl.
  destruct (py_getitem_ok pop x ltac:(lia)) as (p1 & -> & Hp1). simpl.
  destruct (py_getitem_ok pop y ltac:(lia)) as (p2 & -> & Hp2). simpl.
  assert (Hc1p : chromo_ok p1) by (apply Hok, list_elem_of_In, list_elem_of_lookup_2 with x, Hp1).
  assert (Hc2p : chromo_ok p2) by (apply Hok, list_elem_of_In, list_elem_of_lookup_2 with y, Hp2).
  destruct (random r1) as [u r2].
  assert (Hcs : exists c1 c2 r3,
            (if qltb u cross_p then
               k <- py_randint r2 1 (Z.of_nat (length murid) - 1) ;;
               Ok ((take (Z.to_nat k.1) p1 ++ drop (Z.to_nat k.1) p2,
                    take (Z.to_nat k.1) p2 ++ drop (Z.to_nat k.1) p1), k.2)
             else Ok ((p1, p2), r2)) = Ok ((c1, c2), r3) /\ chromo_ok c1 /\ chromo_ok c2).
  { destruct (qltb u cross_p); [|exists p1, p2, r2; split_and!; [reflexivity|assumption|assumption]].
    destruct (py_randint_ok r2 1 (Z.of_nat (length murid) - 1) ltac:(lia)) as (k & r3 & -> & _). simpl.
    eexists _, _, _. split; [reflexivity|split; apply crossover_ok; assumption]. }
  destruct Hcs as (c1 & c2 & r3 & -> & Hc1 & Hc2). simpl.
  destruct (ga_mutate_ok c1 r3 Hc1) as (c1' & r4 & -> & Hc1'). simpl.
  destruct (ga_mutate_ok c2 r4 Hc2) as (c2' & r5 & -> & Hc2'). simpl.
  exists c1', c2', r5. split_and!; [reflexivity|exact Hc1'|exact Hc2'].
Qed.

(** The [while] loop adds two chromosomes per iteration, so [fuel]
    suffices once [pop_size - len(new_pop) + 2 <= 2 * fuel]. *)
Lemma ga_breed_ok fuel pop new_pop r :
  Forall chromo_ok pop -> Forall chromo_ok new_pop ->
  ((length new_pop < pop_size)%nat -> (2 <= length pop)%nat) ->
  (pop_size - length new_pop + 2 <= 2 * fuel)%nat ->
  exists np r', ga_breed murid tutor pop_size cross_p mut_p fuel pop new_pop r = Ok (np, r') /\
                Forall chromo_ok np /\ (pop_size <= length np)%nat.
Proof.
  intros Hpop. revert new_pop r. induction fuel as [|f IH]; intros new_pop r Hnp Hlen Hfuel; [lia|].
  cbn [ga_breed]. destruct (Nat.ltb_spec (length new_pop) pop_size) as [Hlt|Hge].
  - destruct (ga_offspring_ok pop r Hpop (Hlen Hlt)) as (c1 & c2 & r1 & Ho & Hc1 & Hc2).
    rewrite Ho. cbn [res_bind fst snd].
    apply IH.
    + apply Forall_app_2; [exact Hnp|]. constructor; [exact Hc1|constructor; [exact Hc2|constructor]].
    + intros _. exact (Hlen Hlt).
    + rewrite length_app. simpl. lia.
  - exists new_pop, r. split_and!; [reflexivity|exact Hnp|lia].
Qed.

(** One generation keeps [pop_size] chromosomes. *)
Lemma ga_gen_ok pop r :
  Forall chromo_ok pop -> length pop = pop_size ->
  exists pop' r', ga_gen murid tutor cap_init pop_size cross_p mut_p sp PEN pop r = Ok (pop', r') /\
                  Forall chromo_ok pop' /\ length pop' = pop_size.
Proof.
  intros Hok Hl. unfold ga_gen.
  destruct (sort_by_fitness_ok pop Hok) as (sorted & -> & Hperm). cbn [res_bind].
  assert (Hs : Forall chromo_ok sorted) by (rewrite Hperm; exact Hok).
  pose proof (Permutation_length Hperm) as Hsl.
  destruct (ga_breed_ok (S pop_size) sorted (take 2 sorted) r Hs (Forall_take _ _ _ Hs))
    as (np & r' & -> & Hnp & Hnl).
  { rewrite length_take. lia. }
  { rewrite length_take. lia. }
  simpl. exists (take pop_size np), r'. split_and!; [reflexivity|apply Forall_take, Hnp|].
  rewrite length_take. lia.
Qed.

Lemma ga_gens_ok k pop r :
  Forall chromo_ok pop -> length pop = pop_size ->
  exists pop' r', ga_gens murid tutor cap_init pop_size cross_p mut_p sp PEN k pop r = Ok (pop', r') /\
                  Forall chromo_ok pop' /\ length pop' = pop_size.
Proof.
  revert pop r. induction k as [|k IH]; intros pop r Hok Hl; simpl; [eauto|].
  destruct (ga_gen_ok pop r Hok Hl) as (pop1 & r1 & -> & Hok1 & Hl1). simpl.
  exact (IH pop1 r1 Hok1 Hl1).
Qed.

(** The dict comprehension of line 165 returns on a chromosome of the
    right length. *)
Lemma ga_assignment_ok (best : list T) : length best = length murid -> exists a, ga_assignment murid best = Ok a.
Proof.
  intros Hl. unfold ga_assignment.
  assert (Hgen : forall ims (a0 : gmap nat T), Forall (fun im => (im.1 < length best)%nat) ims ->
            exists a, fold_left (fun acc im => a <- acc ;; t <- py_getitem best im.1 ;; Ok (<[im.2 := t]> a))
                                ims (Ok a0) = Ok a).
  { induction ims as [|im ims IH]; intros a0 Hims; simpl; [eauto|].
    apply Forall_cons in Hims as [Him Hims].
    destruct (py_getitem_ok best im.1 Him) as (t & -> & _). simpl. exact (IH _ Hims). }
  apply Hgen. apply List.Forall_forall. intros [i m] Him. simpl.
  apply in_combine_l in Him. apply in_seq in Him. lia.
Qed.
End CapGAProofs.

(** ** [ga_match] with a single student *)

Section CapGASingle.
Context {T : Type} `{Countable T} {R : Type} `{PyRandomLaws R}.
Variables (m : nat) (tutor : list T) (cross_p mut_p : Q).
Hypothesis Htutor : tutor <> [].

(** The mutation of a one-gene chromosome returns. *)
Lemma ga_mutate_single c r :
  length c = 1%nat -> exists c' r', ga_mutate [m] tutor mut_p c r = Ok (c', r') /\ length c' = 1%nat.
Proof.
  intros Hl. unfold ga_mutate. destruct (random r) as [u r1].
  destruct (qltb u mut_p); [|eauto].
  destruct (randrange_ok r1 (length [m]) ltac:(simpl; lia)) as (i & r2 & -> & Hi). cbn [res_bind fst snd].
  destruct (py_choice_ok r2 tutor Htutor) as (t & r3 & -> & _). cbn [res_bind fst snd].
  rewrite list_setitem_ok by (simpl in Hi; lia). cbn [res_bind].
  eexists _, _. split; [reflexivity|]. rewrite length_insert. exact Hl.
Qed.

(** C35. With a single student, one iteration of the breeding loop
    raises [ValueError] exactly when a crossover is drawn: for every
    state of [random] and every population of at least two one-gene
    chromosomes, [random.sample(pop[:10], 2)] returns, and the offspring
    step fails iff the next [random.random()] is below [cross_p], since
    [random.randint(1, len(murid) - 1)] is then [randint(1, 0)]. *)
Theorem ga_offspring_single_student pop r :
  (2 <= length pop)%nat -> Forall (fun c => length c = 1%nat) pop ->
  exists idx r1, sample r (Nat.min 10 (length pop)) 2 = Ok (idx, r1) /\
    (ga_offspring [m] tutor cross_p mut_p pop r = Err ValueError <-> ((random r1).1 < cross_p)%Q).
Proof.
  intros Hlen Hone. rewrite List.Forall_forall in Hone.
  destruct (sample_two r (Nat.min 10 (length pop)) ltac:(lia)) as (x & y & r1 & Hs & Hxy).
  exists [x; y], r1. split; [exact Hs|]. unfold ga_offspring. rewrite Hs. cbn [res_bind nth].
  destruct (py_getitem_ok pop x ltac:(lia)) as (p1 & -> & Hp1). cbn [res_bind].
  destruct (py_getitem_ok pop y ltac:(lia)) as (p2 & -> & Hp2). cbn [res_bind].
  destruct (random r1) as [u r2]. cbn [fst].
  destruct (qltb u cross_p) eqn:Hu.
  - apply qltb_spec in Hu. split; [intros _; exact Hu|intros _; reflexivity].
  - apply qltb_false in Hu. cbn [res_bind].
    assert (Hl1 : length p1 = 1%nat) by (apply Hone, list_elem_of_In, list_elem_of_lookup_2 with x, Hp1).
    assert (Hl2 : length p2 = 1%nat) by (apply Hone, list_elem_of_In, list_elem_of_lookup_2 with y, Hp2).
    destruct (ga_mutate_single p1 r2 Hl1) as (c1 & r3 & -> & _). cbn [res_bind fst snd].
    destruct (ga_mutate_single p2 r3 Hl2) as (c2 & r4 & -> & _). cbn [res_bind].
    split; [discriminate|intros Hlt; exfalso; apply (Qlt_not_le _ _ Hlt Hu)].
Qed.
End CapGASingle.

Section CapGAMatch.
Context {T : Type} `{Countable T} {R : Type} `{PyRandomLaws R}.

(** On [murid = list(range(n))] the returned dict is the chromosome. *)
Lemma ga_assignment_range n (best : list T) a :
  length best = n -> ga_assignment (seq 0 n) best = Ok a -> forall i, a !! i = best !! i.
Proof.
  intros Hl. unfold ga_assignment. rewrite length_seq.
  assert (Hgen : forall k s (a0 a : gmap nat T), (s + k <= n)%nat ->
    fold_left (fun acc im => a <- acc ;; t <- py_getitem best im.1 ;; Ok (<[im.2 := t]> a))
              (zip (seq s k) (seq s k)) (Ok a0) = Ok a ->
    forall j, a !! j = if decide (s <= j < s + k)%nat then best !! j else a0 !! j).
  { induction k as [|k IH]; intros s a0 a' Hk Hf j; simpl in Hf.
    - injection Hf as <-. rewrite decide_False by lia. reflexivity.
    - destruct (py_getitem_ok best s ltac:(lia)) as (t & Hg & Hs). rewrite Hg in Hf. simpl in Hf.
      rewrite (IH (S s) _ a' ltac:(lia) Hf j).
      destruct (decide (S s <= j < S s + k)%nat); [rewrite decide_True by lia; reflexivity|].
      destruct (decide (s = j)) as [<-|Hne].
      + rewrite decide_True by lia. rewrite lookup_insert_eq. symmetry. exact Hs.
      + rewrite lookup_insert_ne by exact Hne.
        destruct (decide (s <= j < s + S k)%nat); [lia|reflexivity]. }
  intros Hf i. rewrite (Hgen n 0%nat ∅ a ltac:(lia) Hf i).
  destruct (decide (0 <= i < 0 + n)%nat); [reflexivity|].
  rewrite lookup_empty. symmetry. apply lookup_ge_None_2. lia.
Qed.

Section GaMatchSound.
Variables (n : nat) (tutor : list T) (cap_init : gmap T Z) (pref : gmap (nat * T) (list Z)).
Variables (pop_size gens : nat) (cross_p mut_p : Q).
Hypothesis Hn : (2 <= n)%nat.
Hypothesis Htutor : tutor <> [].
Hypothesis Hpop : (1 <= pop_size)%nat.
Hypothesis Hpref : forall m t, In m (seq 0 n) -> In t tutor -> is_Some (pref !! (m, t)).
Hypothesis Hcap : forall t, In t tutor -> is_Some (cap_init !! t).

(** [ga_match] returns the best chromosome of the last population, as
    [max(pop, key=fitness)] picks it, read by position. *)
Lemma ga_match_ok r :
  exists a f r' sp PEN best pop0 r1 pop,
    ga_match (seq 0 n) tutor cap_init pref pop_size gens cross_p mut_p r = Ok ((a, f), r') /\
    score_table (seq 0 n) tutor pref = Ok sp /\ penalty (seq 0 n) sp = Ok PEN /\
    rand_pop (seq 0 n) tutor pop_size r = Ok (pop0, r1) /\
    ga_gens (seq 0 n) tutor cap_init pop_size cross_p mut_p sp PEN gens pop0 r1 = Ok (pop, r') /\
    In best pop /\
    (forall c fc, In c pop -> ga_fitness (seq 0 n) tutor cap_init sp PEN c = Ok fc -> (fc <= f)%Z) /\
    chromo_ok (seq 0 n) tutor best /\ ga_fitness (seq 0 n) tutor cap_init sp PEN best = Ok f /\
    ga_assignment (seq 0 n) best = Ok a.
Proof.
  assert (Hn' : (2 <= length (seq 0 n))%nat) by (rewrite length_seq; exact Hn).
  destruct (score_table_ok (seq 0 n) tutor pref Hpref) as (sp & Hsp & Hfull).
  assert (Hsp' : forall i t, (i < length (seq 0 n))%nat -> In t tutor -> is_Some (sp !! (i, t)))
    by (intros i t Hi Ht; apply Hfull; [apply in_seq; rewrite length_seq in Hi; lia|exact Ht]).
  destruct tutor as [|t0 ts] eqn:Et; [congruence|]. rewrite <- Et in *.
  destruct (Hsp' 0%nat t0 ltac:(lia) ltac:(rewrite Et; left; reflexivity)) as [v0 Hv0].
  destruct (penalty_ok (seq 0 n) sp _ _ Hv0) as [PEN HPEN].
  unfold ga_match. rewrite Hsp. cbn [res_bind]. rewrite HPEN. cbn [res_bind].
  destruct (rand_pop_ok (seq 0 n) tutor Hn' Htutor pop_size r) as (pop & r1 & Hrp & Hl & Hok).
  rewrite Hrp. cbn [res_bind fst snd].
  destruct (ga_gens_ok (seq 0 n) tutor cap_init pop_size cross_p mut_p sp PEN Hsp' Hcap Hn' Htutor gens pop r1 Hok Hl)
    as (pop' & r2 & Hg & Hok' & Hl'). rewrite Hg. cbn [res_bind fst snd].
  rewrite List.Forall_forall in Hok'.
  destruct (res_map_ok (ga_fitness (seq 0 n) tutor cap_init sp PEN) pop') as (keys & Hkeys & Hkl).
  { intros c Hc. exact (ga_fitness_ok (seq 0 n) tutor cap_init sp PEN Hsp' Hcap Hn' c (Hok' c Hc)). }
  pose proof (res_map_Forall2 _ _ _ Hkeys) as Hk2. rewrite Hkeys. cbn [res_bind].
  destruct (py_max_by_spec (fun cf : list T * Z => inject_Z cf.2) (zip pop' keys)) as ([best fb] & -> & Hin & Hmax).
  { destruct pop' as [|c pop'']; [simpl in Hl'; lia|]. destruct keys as [|k keys']; [simpl in Hkl; lia|]. discriminate. }
  cbn [res_bind fst snd].
  assert (Hb : chromo_ok (seq 0 n) tutor best) by (apply Hok', (in_combine_l _ _ _ _ Hin)).
  destruct (ga_assignment_ok (seq 0 n) Hn' best (proj1 Hb)) as [a Ha]. rewrite Ha. cbn [res_bind].
  pose proof (Forall2_zip_In _ _ _ _ _ Hk2 Hin) as Hf. rewrite Hf. cbn [res_bind].
  exists a, fb, r2, sp, PEN, best, pop, r1, pop'. split_and!; try reflexivity; try assumption.
  - exact (in_combine_l _ _ _ _ Hin).
  - intros c fc Hc Hfc.
    destruct (list_elem_of_lookup_1 pop' c ltac:(apply list_elem_of_In, Hc)) as [i Hi].
    destruct (Forall2_lookup_l _ _ _ i c Hk2 Hi) as (k & Hk & Hck).
    rewrite Hfc in Hck. injection Hck as <-.
    assert (In (c, fc) (zip pop' keys)) as Hz.
    { apply list_elem_of_In, list_elem_of_lookup_2 with i. rewrite lookup_zip_with, Hi, Hk. reflexivity. }
    pose proof (Hmax _ Hz) as Hle. simpl in Hle. rewrite <- Zle_Qle in Hle. exact Hle.
Qed.

(** C24. [ga_match] of tests/test.py runs to the end on students
    [list(range(n))]: with at least two students, tutors, every pair
    scored, every tutor given a capacity and [pop_size >= 1], it returns
    for every state of [random] a dict giving each student a listed
    tutor, which is a chromosome [best] of the population the [gens]
    generations end with, read by position, and that chromosome's
    penalised fitness, at least the fitness of every chromosome of that
    population ([max(pop, key=fitness)]). *)
Theorem ga_match_sound r :
  exists a f r', ga_match (seq 0 n) tutor cap_init pref pop_size gens cross_p mut_p r = Ok ((a, f), r') /\
    (forall i, (i < n)%nat -> exists t, a !! i = Some t /\ In t tutor) /\
    exists sp PEN best pop0 r1 pop, score_table (seq 0 n) tutor pref = Ok sp /\ penalty (seq 0 n) sp = Ok PEN /\
      rand_pop (seq 0 n) tutor pop_size r = Ok (pop0, r1) /\
      ga_gens (seq 0 n) tutor cap_init pop_size cross_p mut_p sp PEN gens pop0 r1 = Ok (pop, r') /\
      In best pop /\ ga_fitness (seq 0 n) tutor cap_init sp PEN best = Ok f /\
      (forall c fc, In c pop -> ga_fitness (seq 0 n) tutor cap_init sp PEN c = Ok fc -> (fc <= f)%Z) /\
      forall i, a !! i = best !! i.
Proof.
  destruct (ga_match_ok r)
    as (a & f & r' & sp & PEN & best & pop0 & r1 & pop & Hr & Hsp & HPEN & Hp0 & Hg & Hin & Hmax & [Hl Hb] & Hf & Ha).
  rewrite length_seq in Hl. pose proof (ga_assignment_range n best a Hl Ha) as Hab.
  exists a, f, r'. split_and!; [exact Hr| |exists sp, PEN, best, pop0, r1, pop; split_and!; assumption].
  intros i Hi. rewrite Hab. destruct (lookup_lt_is_Some_2 best i ltac:(lia)) as [t Ht].
  exists t. split; [exact Ht|]. rewrite List.Forall_forall in Hb. apply Hb, list_elem_of_In, list_elem_of_lookup_2 with i, Ht.
Qed.
End GaMatchSound.
End CapGAMatch.

(** ** Runs of the heuristics *)

Module HeuristicsExample.
Import CapacityExample Lcg.

(** One tutor of capacity [1] for two students. *)
Definition one_seat : gmap nat Z := {[0%nat := 1%Z]}.

(** Student [0] agrees only with tutor [0], student [1] only with tutor [1]. *)
Definition pos_pref : gmap (nat * nat) (list Z) :=
  list_to_map [((0, 0)%nat, [1; 1; 1; 1]%Z); ((0, 1)%nat, [0; 0; 0; 0]%Z);
               ((1, 0)%nat, [0; 0; 0; 0]%Z); ((1, 1)%nat, [1; 1; 1; 1]%Z)].

Definition two_seats : gmap nat Z := <[0%nat := 1%Z]> {[1%nat := 1%Z]}.

Definition caps21 : gmap nat Z := <[0%nat := 2%Z]> {[1%nat := 1%Z]}.

Lemma ex_pref_full m t : In m [0; 1; 2]%nat -> In t [0; 1]%nat -> is_Some (ex_pref !! (m, t)).
Proof. intros [<-|[<-|[<-|[]]]] [<-|[<-|[]]]; vm_compute; eexists; reflexivity. Qed.

Lemma caps21_full t : In t [0; 1]%nat -> is_Some (caps21 !! t).
Proof. intros [<-|[<-|[]]]; vm_compute; eexists; reflexivity. Qed.

Lemma cap_sa_match_sound_witness :
  exists best bf r',
    sa_match SaExample.exp_approx [0; 1; 2]%nat [0; 1]%nat caps21 ex_pref 1 (995 # 1000) 100 (mk_lcg 3)
      = Ok ((best, bf), r') /\
    assign_ok [0; 1; 2]%nat [0; 1]%nat best /\
    exists sp PEN, score_table [0; 1; 2]%nat [0; 1]%nat ex_pref = Ok sp /\
      penalty [0; 1; 2]%nat sp = Ok PEN /\ cap_fitness [0; 1; 2]%nat [0; 1]%nat caps21 sp PEN best = Ok bf.
Proof.
  apply (cap_sa_match_sound SaExample.exp_approx [0; 1; 2]%nat [0; 1]%nat caps21 ex_pref
           ex_pref_full caps21_full ltac:(discriminate) ltac:(discriminate) 1 (995 # 1000) 100 (mk_lcg 3));
    reflexivity.
Defined.

Lemma cap_sa_match_feasible_witness :
  exists best bf r',
    sa_match SaExample.exp_approx [0; 1; 2]%nat [0; 1]%nat caps21 ex_pref 1 (995 # 1000) 100 (mk_lcg 3)
      = Ok ((best, bf), r') /\
    ((0 < bf)%Z -> forall t, In t [0; 1]%nat -> (Z.of_nat (usage best t) <= cap_of caps21 t)%Z).
Proof.
  apply (cap_sa_match_feasible SaExample.exp_approx [0; 1; 2]%nat [0; 1]%nat caps21 ex_pref
           ex_pref_full caps21_full ltac:(discriminate) ltac:(discriminate) 1 (995 # 1000) 100 (mk_lcg 3));
    [reflexivity|reflexivity|].
  intros k vs Hk. apply (map_Forall_lookup_1 (fun _ vs => Forall (fun x => (0 <= x)%Z) vs) ex_pref k vs);
    [|exact Hk].
  apply (bool_decide_unpack _). vm_compute. reflexivity.
Defined.

Lemma ga_match_sound_witness :
  exists a f r', ga_match (seq 0 2) [0; 1]%nat two_seats pos_pref 4 3 (8 # 10) (1 # 10) (mk_lcg 2)
                   = Ok ((a, f), r') /\
    (forall i, (i < 2)%nat -> exists t, a !! i = Some t /\ In t [0; 1]%nat) /\
    exists sp PEN best pop0 r1 pop, score_table (seq 0 2) [0; 1]%nat pos_pref = Ok sp /\ penalty (seq 0 2) sp = Ok PEN /\
      rand_pop (seq 0 2) [0; 1]%nat 4 (mk_lcg 2) = Ok (pop0, r1) /\
      ga_gens (seq 0 2) [0; 1]%nat two_seats 4 (8 # 10) (1 # 10) sp PEN 3 pop0 r1 = Ok (pop, r') /\
      In best pop /\ ga_fitness (seq 0 2) [0; 1]%nat two_seats sp PEN best = Ok f /\
      (forall c fc, In c pop -> ga_fitness (seq 0 2) [0; 1]%nat two_seats sp PEN c = Ok fc -> (fc <= f)%Z) /\
      forall i, a !! i = best !! i.
Proof.
  apply (ga_match_sound 2 [0; 1]%nat two_seats pos_pref 4 3 (8 # 10) (1 # 10)
           ltac:(lia) ltac:(discriminate) ltac:(lia)).
  - intros m t Hm Ht. simpl in Hm. destruct Hm as [<-|[<-|[]]]; destruct Ht as [<-|[<-|[]]];
      vm_compute; eexists; reflexivity.
  - intros t [<-|[<-|[]]]; vm_compute; eexists; reflexivity.
Defined.
Lemma ex_pref_nonneg k vs : ex_pref !! k = Some vs -> Forall (fun x => (0 <= x)%Z) vs.
Proof.
  intros Hk. apply (map_Forall_lookup_1 (fun _ vs => Forall (fun x => (0 <= x)%Z) vs) ex_pref k vs); [|exact Hk].
  apply (bool_decide_unpack _). vm_compute. reflexivity.
Qed.

Lemma sa_match_v0_best_fit_witness :
  exists sp PEN a0 r1 s0 best bf r',
    score_table [0; 1]%nat [0%nat] ex_pref = Ok sp /\ penalty [0; 1]%nat sp = Ok PEN /\
    init_assign [0%nat] [0; 1]%nat (mk_lcg 3) ∅ = Ok (a0, r1) /\ assign_score [0; 1]%nat sp a0 = Ok s0 /\
    sa_match_v0 SaExample.exp_approx [0; 1]%nat [0%nat] one_seat ex_pref 1 (995 # 1000) 200 (mk_lcg 3)
      = Ok ((best, bf), r') /\
    assign_ok [0; 1]%nat [0%nat] best /\
    (exists f, cap_fitness [0; 1]%nat [0%nat] one_seat sp PEN best = Ok f /\ (f <= bf)%Z) /\
    (s0 <= bf)%Z.
Proof.
  apply (sa_match_v0_best_fit SaExample.exp_approx [0; 1]%nat [0%nat] one_seat ex_pref);
    [| |discriminate|discriminate|reflexivity|reflexivity|exact ex_pref_nonneg].
  - intros m t [<-|[<-|[]]] [<-|[]]; vm_compute; eexists; reflexivity.
  - intros t [<-|[]]; vm_compute; eexists; reflexivity.
Defined.

Lemma ga_offspring_single_student_witness :
  exists idx r1, sample (mk_lcg 5) (Nat.min 10 (length [[0%nat]; [1%nat]])) 2 = Ok (idx, r1) /\
    (ga_offspring [0%nat] [0; 1]%nat (8 # 10) (1 # 10) [[0%nat]; [1%nat]] (mk_lcg 5) = Err ValueError <->
     ((random r1).1 < 8 # 10)%Q).
Proof.
  apply (ga_offspring_single_student 0%nat [0; 1]%nat (8 # 10) (1 # 10) ltac:(discriminate)
           [[0%nat]; [1%nat]] (mk_lcg 5)); [simpl; lia|].
  repeat constructor.
Defined.
End HeuristicsExample.
