(* ===== verification/Drivers.v ===== *)
(** * The drivers: simulated_annealing/src/main.py and Genetic_Algorithm_Tutas/src/main.py

    Both drivers look for the folder [data] beside [src], run their
    solver on each CSV of [scenario_order] that exists, and report it
    under its title in [title_map].  They differ only in the solver they
    call and its parameters, so the loop is one [Section Driver] over the
    driver's [load_preferences] and the solver's [run_scenario] on
    frames; [SaMain] and [GaMain] instantiate it with their own loaders
    (each source file has its copy) and [run_scenario_sa] (Annealing.v)
    and [run_scenario_ga] (Genetic.v).  [DriverFacts] proves the loop
    against any solver that returns on the frames it accepts; the SA
    driver needs a student and a tutor per file, the GA driver two
    students and a tutor for each ([ga_frames_ok]).

    The file system is the set [dirs] of directories and the map [files]
    from a path to the frame [pd.read_csv] reads from it, so
    [os.path.isdir] and [os.path.isfile] are membership tests; the
    location of the script ([os.path.abspath(__file__)]) is an input.
    [load_preferences] lowers the [Status] column (ASCII letters) and
    splits the rows, keeping their order.  Printing is not modelled: the
    driver returns the list of [(title, result)] it prints, or [None]
    when the folder is missing; [time.perf_counter] is not modelled. *)

From Stdlib Require Import String Ascii QArith ZArith NArith Bool Lia.
From stdpp Require Import base list gmap strings.
From S2P Require Import Prelude PyPath Fitness Random Annealing Genetic.

Import PyPath.
Local Open Scope string_scope.

(** A row of the CSV: its [Status] column and the columns [row] reads. *)
Record csv_row : Type := mk_csv_row { status : string; fields : row }.

(** [str.lower()] on one character: ASCII letters only. *)
Definition ascii_lower (c : ascii) : ascii :=
  let n := N_of_ascii c in
  if ((65 <=? n)%N && (n <=? 90)%N) then ascii_of_N (n + 32) else c.

Fixpoint str_lower (s : string) : string :=
  match s with
  | EmptyString => EmptyString
  | String c s' => String (ascii_lower c) (str_lower s')
  end.

(** [load_preferences(path)] after [pd.read_csv]: lines 30-35 of the SA
    driver (31-37 of the GA driver). *)
Definition load_preferences (df : list csv_row) : list row * list row :=
  let df := map (fun r => mk_csv_row (str_lower (status r)) (fields r)) df in
  (fields <$> filter (fun r => status r = "murid") df,
   fields <$> filter (fun r => status r = "tutor") df).

(** [os.path.splitext(os.path.basename(file_path))[0]]. *)
Definition scenario_key (file_path : string) : string := (splitext (basename file_path)).1.

Section Driver.
Context {R Res : Type}.
(** The driver's own [load_preferences] after [pd.read_csv]. *)
Variable load : list csv_row -> list row * list row.
(** The solver's [run_scenario] on the two frames. *)
Variable run_one : list row -> list row -> R -> result (Res * R).
Variables (title_map : gmap string string) (scenario_order : list string).

(** [run_scenario(file_path, weights, params)]: the key of the file,
    its frames, and the solver's result. *)
Definition run_scenario_file (file_path : string) (df : list csv_row) (r : R)
    : result ((string * Res) * R) :=
  let key := scenario_key file_path in
  let (students, tutors) := load df in
  p <- run_one students tutors r ;;
  Ok ((key, p.1), p.2).

(** [for key in scenario_order]: skip a missing file, report the others
    under [title_map.get(key, key)]. *)
Fixpoint scenario_loop (data_dir : string) (files : gmap string (list csv_row)) (keys : list string)
    (r : R) : result (list (string * Res) * R) :=
  match keys with
  | [] => Ok ([], r)
  | key :: keys' =>
      let fpath := join data_dir (key ++ ".csv") in
      match files !! fpath with
      | None => scenario_loop data_dir files keys' r
      | Some df =>
          p <- run_scenario_file fpath df r ;;
          let '((k, res), r1) := p in
          let title := default k (title_map !! k) in
          q <- scenario_loop data_dir files keys' r1 ;;
          Ok ((title, res) :: q.1, q.2)
      end
  end.

(** [run_all_scenarios()]. *)
Definition run_all_scenarios (script_dir : string) (dirs : gset string)
    (files : gmap string (list csv_row)) (r : R) : result (option (list (string * Res)) * R) :=
  let project_root := dirname script_dir in
  let data_dir := join project_root "data" in
  if bool_decide (data_dir ∈ dirs) then
    p <- scenario_loop data_dir files scenario_order r ;;
    Ok (Some p.1, p.2)
  else Ok (None, r).
End Driver.

Module SaMain.

(** Lines 14-20. *)
Definition title_map : gmap string string :=
  list_to_map [
    ("scenario1_fixed", "Skenario 1 – Dataset Lengkap (10 pasang murid dan tutor)");
    ("scenario 2_5_fixed", "Skenario 2 – Perbandingan Metode Matching (5 pasang murid & tutor)");
    ("scenario 2_10_fixed", "Skenario 2 – Perbandingan Metode Matching (10 pasang murid & tutor)");
    ("scenario 2_25_fixed", "Skenario 2 – Perbandingan Metode Matching (25 pasang murid & tutor)");
    ("scenario3_conflict_heavy_fleksibel",
     "Skenario 3 – Konflik Preferensi Tinggi (Satu Tutor Diperebutkan Banyak Murid)")].

(** Lines 22-28. *)
Definition scenario_order : list string :=
  ["scenario1_fixed"; "scenario 2_5_fixed"; "scenario 2_10_fixed"; "scenario 2_25_fixed";
   "scenario3_conflict_heavy_fleksibel"].

Section SaMain.
Context {R : Type} `{PyRandom R}.
Variable exp : Q -> Q.

(** [run_scenario_sa(file_path, weights, sa_params)] with the weights and
    [sa_params = {'T0': 1.0, 'cooling': 0.995, 'steps': 1000}] of lines
    69-70. *)
Definition run_one (students tutors : list row) (r : R) : result (sa_result * R) :=
  run_scenario_sa exp students tutors FitnessExample.main_weights 1 (995 # 1000) 1000 r.

(** [run_all_scenarios()], lines 60-87. *)
Definition run_all (script_dir : string) (dirs : gset string) (files : gmap string (list csv_row))
    (r : R) : result (option (list (string * sa_result)) * R) :=
  run_all_scenarios load_preferences run_one title_map scenario_order script_dir dirs files r.
End SaMain.
End SaMain.

Module GaMain.

(** Lines 14-20. *)
Definition title_map : gmap string string :=
  list_to_map [
    ("scenario1_fixed", "Skenario 1 – Dataset Lengkap (10 pasang murid dan tutor)");
    ("scenario 2_5_fixed", "Skenario 2 – Perbandingan Metode Matching (5 pasang murid & tutor)");
    ("scenario 2_10_fixed", "Skenario 2 – Perbandingan Metode Matching (10 pasang murid & tutor)");
    ("scenario 2_25_fixed", "Skenario 2 – Perbandingan Metode Matching (25 pasang murid & tutor)");
    ("scenario3_conflict_heavy_fleksibel",
     "Skenario 3 – Konflik Preferensi Tinggi (Satu Tutor Diperebutkan Banyak Murid)")].

(** Lines 23-29. *)
Definition scenario_order : list string :=
  ["scenario1_fixed"; "scenario 2_5_fixed"; "scenario 2_10_fixed"; "scenario 2_25_fixed";
   "scenario3_conflict_heavy_fleksibel"].

(** [load_preferences(path)], lines 31-37: the same steps as the SA
    driver's, written again in this file of the source. *)
Definition load_preferences (df : list csv_row) : list row * list row :=
  let df := map (fun r => mk_csv_row (str_lower (status r)) (fields r)) df in
  (fields <$> filter (fun r => status r = "murid") df,
   fields <$> filter (fun r => status r = "tutor") df).

Section GaMain.
Context {R : Type} `{PyRandom R}.
Variable init_chromosome : R -> nat -> list Z * R.

(** [run_scenario(file_path, weights, ga_params)] with the weights and
    [ga_params = {'pop_size': 50, 'generations': 100, 'crossover_rate':
    0.8, 'mutation_rate': 0.1}] of lines 73-74. *)
Definition run_one (students tutors : list row) (r : R) : result ((ga_result * bool) * R) :=
  run_scenario_ga init_chromosome students tutors FitnessExample.main_weights 50 100 (8 # 10) (1 # 10) r.

(** [run_scenario(file_path, weights, ga_params)], lines 39-42: the key
    of the file and the frames of this driver's [load_preferences]. *)
Definition run_scenario (file_path : string) (df : list csv_row) (r : R)
    : result ((string * (ga_result * bool)) * R) :=
  run_scenario_file load_preferences run_one file_path df r.

(** [run_all_scenarios()], lines 62-92. *)
Definition run_all (script_dir : string) (dirs : gset string) (files : gmap string (list csv_row))
    (r : R) : result (option (list (string * (ga_result * bool))) * R) :=
  run_all_scenarios load_preferences run_one title_map scenario_order script_dir dirs files r.
End GaMain.
End GaMain.

(** ** The loop over the scenarios *)

(** A key the drivers can recover from its path. *)
Definition key_ok (key : string) : bool :=
  str_forallb (fun a => negb (Ascii.eqb a "/")) key && str_existsb (fun c => negb (Ascii.eqb c ".")) key.

(** Each frame has a student and a tutor. *)
Definition frames_ok (df : list csv_row) : Prop :=
  (0 < length (load_preferences df).1)%nat /\ (0 < length (load_preferences df).2)%nat.

(** Each frame of the GA driver has two students and a tutor for each. *)
Definition ga_frames_ok (df : list csv_row) : Prop :=
  (2 <= length (GaMain.load_preferences df).1)%nat /\
  (length (GaMain.load_preferences df).1 <= length (GaMain.load_preferences df).2)%nat.

Section DriverFacts.
Context {R Res : Type}.
Variable load : list csv_row -> list row * list row.
Variable run_one : list row -> list row -> R -> result (Res * R).
Variables (title_map : gmap string string) (scenario_order : list string).
(** The frames on which the solver returns. *)
Variable frames : list row -> list row -> Prop.
(** What the solver promises of its result there. *)
Variable good : Res -> Prop.
Hypothesis Hrun : forall s t r, frames s t -> exists res r', run_one s t r = Ok (res, r') /\ good res.

Lemma scenario_loop_ok data_dir files keys r :
  Forall (fun key => key_ok key = true) keys ->
  (forall key df, In key keys -> files !! join data_dir (key ++ ".csv") = Some df ->
     frames (load df).1 (load df).2) ->
  exists reps r', scenario_loop load run_one title_map data_dir files keys r = Ok (reps, r') /\
    map fst reps = (fun key => default key (title_map !! key)) <$>
                     filter (fun key => is_Some (files !! join data_dir (key ++ ".csv"))) keys /\
    Forall (fun rep => good rep.2) reps.
Proof.
  revert r. induction keys as [|key keys IH]; intros r Hk Hf; [exists [], r; split_and!; constructor|].
  apply Forall_cons in Hk as [Hkey Hks]. simpl.
  destruct (files !! join data_dir (key ++ ".csv")) as [df|] eqn:Hd.
  - rewrite filter_cons_True by (rewrite Hd; eauto).
    pose proof (Hf key df (or_introl eq_refl) Hd) as Hst.
    unfold run_scenario_file. destruct (load df) as [s t]. simpl in Hst.
    destruct (Hrun s t r Hst) as (res & r1 & -> & Hg). simpl.
    destruct (IH r1 Hks (fun k d Hin => Hf k d (or_intror Hin))) as (reps & r' & -> & Hm & Hgs). simpl.
    eexists _, _. split; [reflexivity|]. split; [|constructor; assumption]. simpl. rewrite Hm.
    apply andb_prop in Hkey as [Hs' Hk']. unfold scenario_key.
    rewrite (splitext_basename_join data_dir key "csv"); [reflexivity| |reflexivity|exact Hk'].
    rewrite str_forallb_app, Hs'. reflexivity.
  - rewrite filter_cons_False by (rewrite Hd; intros [? ?]; discriminate).
    apply IH; [exact Hks|]. intros k d Hin. apply Hf. right. exact Hin.
Qed.

(** [run_all_scenarios] reports the existing scenarios under their
    titles when the folder [data] exists. *)
Lemma run_all_scenarios_ok script_dir dirs files r :
  join (dirname script_dir) "data" ∈ dirs ->
  Forall (fun key => key_ok key = true) scenario_order ->
  (forall key df, In key scenario_order ->
     files !! join (join (dirname script_dir) "data") (key ++ ".csv") = Some df ->
     frames (load df).1 (load df).2) ->
  exists reps r', run_all_scenarios load run_one title_map scenario_order script_dir dirs files r
                    = Ok (Some reps, r') /\
    map fst reps = (fun key => default key (title_map !! key)) <$>
      filter (fun key => is_Some (files !! join (join (dirname script_dir) "data") (key ++ ".csv")))
             scenario_order /\
    Forall (fun rep => good rep.2) reps.
Proof.
  intros Hdir Hk Hf. unfold run_all_scenarios. rewrite bool_decide_eq_true_2 by exact Hdir.
  destruct (scenario_loop_ok _ files scenario_order r Hk Hf) as (reps & r' & -> & Hm).
  simpl. eauto.
Qed.

(** Without the folder [data] the driver returns at once. *)
Lemma run_all_scenarios_no_data script_dir dirs files r :
  join (dirname script_dir) "data" ∉ dirs ->
  run_all_scenarios load run_one title_map scenario_order script_dir dirs files r = Ok (None, r).
Proof. intros Hdir. unfold run_all_scenarios. rewrite bool_decide_eq_false_2 by exact Hdir. reflexivity. Qed.
End DriverFacts.

(** ** What the drivers report *)

(** C26. The path round trip of the drivers: the key [run_scenario]
    recovers with [splitext(basename(file_path))[0]] from the path
    [join(data_dir, f"{key}.csv")] that [run_all_scenarios] built is the
    key itself, for every directory and every key without ["/"] that has
    a character other than ["."] (all the keys of [scenario_order]). *)
Theorem scenario_key_join d key :
  key_ok key = true -> scenario_key (join d (key ++ ".csv")) = key.
Proof.
  intros [Hs Hk]%andb_prop. unfold scenario_key.
  apply splitext_basename_join; [rewrite str_forallb_app, Hs; reflexivity|reflexivity|exact Hk].
Qed.

(** An empty key does not come back: [splitext] keeps a leading dot. *)
Remark scenario_key_empty : scenario_key (join "data" ".csv") = ".csv".
Proof. reflexivity. Qed.

Lemma scenario_order_keys_ok : Forall (fun key => key_ok key = true) SaMain.scenario_order.
Proof. apply List.Forall_forall. intros k Hk. simpl in Hk. intuition subst; reflexivity. Qed.

Section SaDriverSound.
Context {R : Type} `{PyRandomLaws R}.
Variable exp : Q -> Q.

Lemma sa_run_one_ok s t r : (0 < length s)%nat -> (0 < length t)%nat ->
  exists res r', SaMain.run_one exp s t r = Ok (res, r').
Proof.
  intros Hs Ht. unfold SaMain.run_one.
  destruct (run_scenario_sa_sound exp s t FitnessExample.main_weights (995 # 1000)
              FitnessExample.main_weights_ok ltac:(reflexivity) 1 1000 r Hs Ht ltac:(reflexivity))
    as (res & r' & -> & _).
  eauto.
Qed.

(** C25. The SA driver runs to the end: when the folder [data] exists and
    every scenario file in it has a student and a tutor,
    [run_all_scenarios] returns (no exception, for every state of
    [random]) and reports exactly the scenarios of [scenario_order]
    whose file exists, in that order, each under its title from
    [title_map]. *)
Theorem sa_run_all_sound script_dir dirs files r :
  join (dirname script_dir) "data" ∈ dirs ->
  (forall key df, In key SaMain.scenario_order ->
     files !! join (join (dirname script_dir) "data") (key ++ ".csv") = Some df -> frames_ok df) ->
  exists reps r', SaMain.run_all exp script_dir dirs files r = Ok (Some reps, r') /\
    map fst reps = (fun key => default key (SaMain.title_map !! key)) <$>
      filter (fun key => is_Some (files !! join (join (dirname script_dir) "data") (key ++ ".csv")))
             SaMain.scenario_order.
Proof.
  intros Hdir Hf. unfold SaMain.run_all.
  assert (forall s t r, (0 < length s)%nat /\ (0 < length t)%nat ->
            exists res r', SaMain.run_one exp s t r = Ok (res, r') /\ True) as Hrun.
  { intros s t r0 [Hs Ht]. destruct (sa_run_one_ok s t r0 Hs Ht) as (res & r' & Hr). eauto. }
  destruct (run_all_scenarios_ok load_preferences (SaMain.run_one exp) SaMain.title_map SaMain.scenario_order
              (fun s t => (0 < length s)%nat /\ (0 < length t)%nat) (fun _ => True)
              Hrun script_dir dirs files r Hdir
              scenario_order_keys_ok Hf) as (reps & r' & Hr & Hm & _).
  eauto.
Qed.
End SaDriverSound.

Section GaDriverSound.
Context {R : Type} `{PyRandomLaws R}.
Variable init_chromosome : R -> nat -> list Z * R.
(** [init_chromosome] of the missing module [ga.chromosome] draws a
    permutation of the tutor indices. *)
Hypothesis Hinit : forall r k, (init_chromosome r k).1 ≡ₚ genes k.

Lemma ga_run_one_ok s t r : (2 <= length s)%nat -> (length s <= length t)%nat ->
  exists res r', GaMain.run_one init_chromosome s t r = Ok (res, r') /\
    best_chromosome res.1 ≡ₚ genes (length s).
Proof.
  intros Hs Ht. unfold GaMain.run_one.
  destruct (run_scenario_ga_ok init_chromosome s t FitnessExample.main_weights (fun r => Hinit r _)
              Hs Ht FitnessExample.main_weights_ok 50 100 (8 # 10) (1 # 10) r ltac:(lia))
    as (res & d & r' & -> & Hp & _).
  exists (res, d), r'. split; [reflexivity|exact Hp].
Qed.

(** C30. The GA driver runs to the end: when the folder [data] exists and
    every scenario file in it has at least two students and a tutor for
    each, [run_all_scenarios] returns for every state of [random],
    reports exactly the existing scenarios of [scenario_order] in order
    under their titles, and each reported [best_chromosome] is a
    permutation of [range(n)] for the [n >= 2] students of its file. *)
Theorem ga_run_all_sound script_dir dirs files r :
  join (dirname script_dir) "data" ∈ dirs ->
  (forall key df, In key GaMain.scenario_order ->
     files !! join (join (dirname script_dir) "data") (key ++ ".csv") = Some df -> ga_frames_ok df) ->
  exists reps r', GaMain.run_all init_chromosome script_dir dirs files r = Ok (Some reps, r') /\
    map fst reps = (fun key => default key (GaMain.title_map !! key)) <$>
      filter (fun key => is_Some (files !! join (join (dirname script_dir) "data") (key ++ ".csv")))
             GaMain.scenario_order /\
    Forall (fun rep => exists k, (2 <= k)%nat /\ best_chromosome rep.2.1 ≡ₚ genes k) reps.
Proof.
  intros Hdir Hf. unfold GaMain.run_all.
  apply (run_all_scenarios_ok GaMain.load_preferences (GaMain.run_one init_chromosome) GaMain.title_map
           GaMain.scenario_order (fun s t => (2 <= length s)%nat /\ (length s <= length t)%nat)
           (fun res => exists k, (2 <= k)%nat /\ best_chromosome res.1 ≡ₚ genes k)); [|exact Hdir|exact scenario_order_keys_ok|exact Hf].
  intros s t r0 [Hs Ht]. destruct (ga_run_one_ok s t r0 Hs Ht) as (res & r' & Hr & Hp). eauto 6.
Qed.
End GaDriverSound.

Module DriverExample.
Import FitnessExample Lcg.

(** [/repo/data] holds the first scenario: one student, one tutor, with
    [Status] in mixed case. *)
Definition ex_files : gmap string (list csv_row) :=
  {[ "/repo/data/scenario1_fixed.csv" := [mk_csv_row "Murid" stu0; mk_csv_row "TUTOR" tut0] ]}.

Lemma scenario_key_join_witness :
  scenario_key (join "/repo/data" ("scenario 2_5_fixed" ++ ".csv")) = "scenario 2_5_fixed".
Proof. apply scenario_key_join. reflexivity. Defined.

Lemma sa_run_all_sound_witness :
  exists reps r', SaMain.run_all SaExample.exp_approx "/repo/src" {["/repo/data"]} ex_files (Lcg.mk_lcg 7)
                    = Ok (Some reps, r') /\
    map fst reps = (fun key => default key (SaMain.title_map !! key)) <$>
      filter (fun key => is_Some (ex_files !! join (join (dirname "/repo/src") "data") (key ++ ".csv")))
             SaMain.scenario_order.
Proof.
  apply (sa_run_all_sound SaExample.exp_approx "/repo/src" {["/repo/data"]} ex_files (Lcg.mk_lcg 7)).
  - apply (bool_decide_unpack _). vm_compute. reflexivity.
  - intros key df _ Hd. unfold ex_files in Hd. apply lookup_singleton_Some in Hd as [_ <-].
    split; vm_compute; lia.
Defined.
(** The GA driver on a folder whose first scenario has two students
    and two tutors, [init_chromosome] a shuffle. *)
Definition ga_files : gmap string (list csv_row) :=
  {[ "/repo/data/scenario1_fixed.csv" :=
       [mk_csv_row "murid" stu0; mk_csv_row "Tutor" tut0; mk_csv_row "MURID" stu1; mk_csv_row "tutor" tut1] ]}.

Lemma ga_run_all_sound_witness :
  exists reps r', GaMain.run_all GaExample.shuffle_init "/repo/src" {["/repo/data"]} ga_files (Lcg.mk_lcg 7)
                    = Ok (Some reps, r') /\
    map fst reps = ["Skenario 1 – Dataset Lengkap (10 pasang murid dan tutor)"].
Proof.
  destruct (ga_run_all_sound GaExample.shuffle_init (fun r k => GaExample.shuffle_init_perm r k)
              "/repo/src" {["/repo/data"]} ga_files (Lcg.mk_lcg 7)) as (reps & r' & Hr & Hm & _).
  - apply (bool_decide_unpack _). vm_compute. reflexivity.
  - intros key df _ Hd. unfold ga_files in Hd. apply lookup_singleton_Some in Hd as [_ <-].
    split; vm_compute; lia.
  - exists reps, r'. split; [exact Hr|]. rewrite Hm. vm_compute. reflexivity.
Defined.
End DriverExample.
