(* ===== verification/CspDriver.v ===== *)
(** * The CSP driver: src/Backtracking_CSP/test.py

    For each CSV of [scenario_order] in the folder [data] beside the
    script, the driver loads the students and tutors ([load_preferences]),
    runs [backtracking_csp] with one variable per student, the domain
    [range(n_tutors)] for each and no constraint (tutors may be reused),
    scoring a pair with [score_pair] under [default_weights]; it runs the
    engine twice more to check that the score is the same, and averages
    the share of criteria met over the students ([pct_satisfied]).

    Scores: the engine of BackCSP.v counts in [Z]; [soft_score] is a
    float, a sum of multiples of the weights [0.3, 0.2, 0.2, 0.1, 0.2].
    The driver hands the engine the score in tenths
    ([soft_score_tenths]), which is exact ([soft_score_tenths_spec]): the
    engine only adds scores and compares them, and multiplying every
    score by [10] changes no comparison, so the assignment is the one the
    float engine finds up to float rounding, which is not modelled
    anywhere in this development, and [total_score] is [rep_total / 10].

    The first part holds for any solver meeting [CspSolverCorrect]: on a
    problem without constraints the optimum gives each variable its own
    best value ([unconstrained_optimum]), and one empty domain makes the
    problem infeasible.  The driver's theorems are proved from these.
    Printing and [time.perf_counter] are not modelled: [run_scenario]
    returns what the loop prints, as a [csp_report]. *)

From Stdlib Require Import String QArith Qround ZArith Lia Lqa.
From stdpp Require Import base list gmap strings.
From S2P Require Import Prelude PyPath CspSpec CspCore BackCSP Fitness Drivers.

Import PyPath.

(** ** Problems without constraints, for any correct solver *)

Section Unconstrained.
Context {V W : Type} `{Countable V} `{!CspSolver V W} `{!CspSolverCorrect V W}.
Variables (variables : list V) (domains : gmap V (list W)) (soft_score : V -> W -> Z).

(** The best score of [v] over its domain ([0] for an empty domain, as in
    [rem_upper]). *)
Definition var_max (v : V) : Z :=
  match dget domains v with
  | [] => 0%Z
  | x :: xs => py_max (soft_score v x) (map (soft_score v) xs)
  end.

Lemma var_max_ge v w : In w (dget domains v) -> (soft_score v w <= var_max v)%Z.
Proof.
  unfold var_max. destruct (dget domains v) as [|x xs]; [intros []|].
  intros Hw. apply py_max_ge. change (In (soft_score v w) (map (soft_score v) (x :: xs))).
  apply in_map, Hw.
Qed.

Lemma var_max_attained v :
  dget domains v <> [] -> exists w, In w (dget domains v) /\ soft_score v w = var_max v.
Proof.
  unfold var_max. destruct (dget domains v) as [|x xs]; [congruence|]. intros _.
  pose proof (py_max_in (soft_score v x) (map (soft_score v) xs)) as Hin.
  change (soft_score v x :: map (soft_score v) xs) with (map (soft_score v) (x :: xs)) in Hin.
  apply in_map_iff in Hin as (w & Hw & Hin). exists w. split; [exact Hin|exact Hw].
Qed.

(** Every variable at a best value of its domain. *)
Lemma best_assignment_exists (vs : list V) :
  (forall v, In v vs -> dget domains v <> []) ->
  exists a : gmap V W, (forall v, is_Some (a !! v) <-> In v vs) /\ within domains a /\
    forall v w, a !! v = Some w -> soft_score v w = var_max v.
Proof.
  induction vs as [|v vs IH]; intros Hne.
  { exists ∅. split_and!; [intros v; rewrite lookup_empty; split; [intros [? ?]; discriminate|intros []]
                          |intros v w; rewrite lookup_empty; discriminate
                          |intros v w; rewrite lookup_empty; discriminate]. }
  destruct (IH (fun u Hu => Hne u (or_intror Hu))) as (a & Hc & Hw & Hs).
  destruct (var_max_attained v (Hne v (or_introl eq_refl))) as (w & Hin & Hwv).
  exists (<[v := w]> a). split_and!.
  - intros u. rewrite lookup_insert_is_Some', Hc. simpl. split; intros [?|?]; auto.
  - intros u x. rewrite lookup_insert_Some. intros [[<- <-]|[_ Hu]]; [exact Hin|exact (Hw u x Hu)].
  - intros u x. rewrite lookup_insert_Some. intros [[<- <-]|[_ Hu]]; [exact Hwv|exact (Hs u x Hu)].
Qed.

(** The term of [v] in [score] is at most its best value. *)
Lemma score_term_le (a : gmap V W) v :
  within domains a -> is_Some (a !! v) ->
  ((match a !! v with Some w => soft_score v w | None => 0 end) <= var_max v)%Z.
Proof. intros Hw [w Hv]. rewrite Hv. apply var_max_ge, Hw, Hv. Qed.

Lemma no_constraints_wf : NoDup variables -> well_formed variables ([] : list (constraint V W)).
Proof. intros Hnd. split; [exact Hnd|constructor]. Qed.

(** With no constraint and no empty domain, the solver returns the sum of
    the best values, each variable at one of its best values. *)
Lemma unconstrained_optimum :
  NoDup variables -> (forall v, In v variables -> dget domains v <> []) ->
  exists a, csp_solve variables domains [] soft_score = Ok (a, Some (sum_by var_max variables)) /\
    complete variables a /\
    forall v, In v variables -> exists w, a !! v = Some w /\ In w (dget domains v) /\
                                          soft_score v w = var_max v.
Proof.
  intros Hnd Hne.
  destruct (csp_solve_optimal variables domains [] soft_score (no_constraints_wf Hnd)) as (r & Hr & Hopt).
  destruct (best_assignment_exists variables Hne) as (a0 & Hc0 & Hw0 & Hs0).
  assert (solution variables [] domains a0) as Hsol0 by (split_and!; [exact Hc0|exact Hw0|constructor]).
  assert (score variables soft_score a0 = sum_by var_max variables) as Hsc0.
  { apply sum_by_ext. intros v Hv. destruct (proj2 (Hc0 v) Hv) as [w Hw]. rewrite Hw. apply Hs0, Hw. }
  destruct r as [a [s|]]; simpl in Hopt; [|destruct Hopt as [_ Hno]; destruct (Hno a0 Hsol0)].
  destruct Hopt as ((Hc & Hw & _) & Hs & Hmax). cbn [fst] in Hs, Hc, Hw.
  pose proof (Hmax a0 Hsol0) as Hge.
  assert (forall v, In v variables ->
            ((match a !! v with Some w => soft_score v w | None => 0 end) <= var_max v)%Z) as Hle
    by (intros v Hv; apply score_term_le; [exact Hw|apply Hc, Hv]).
  pose proof (sum_by_le _ _ _ Hle) as Hsum. fold (score variables soft_score a) in Hsum.
  assert (s = sum_by var_max variables) as -> by lia.
  exists a. split_and!; [exact Hr|exact Hc|].
  intros v Hv. destruct (proj2 (Hc v) Hv) as [w Hav]. exists w. split_and!; [exact Hav|apply Hw, Hav|].
  pose proof (sum_by_le_eq _ _ _ Hle Hs v Hv) as Heq.
  cbv beta in Heq. rewrite Hav in Heq. exact Heq.
Qed.

(** With no constraint, a variable with an empty domain makes the solver
    return [({}, -inf)]. *)
Lemma unconstrained_empty_domain v :
  NoDup variables -> In v variables -> dget domains v = [] ->
  csp_solve variables domains [] soft_score = Ok (∅, None).
Proof.
  intros Hnd Hv He.
  destruct (csp_solve_optimal variables domains [] soft_score (no_constraints_wf Hnd)) as (r & Hr & Hopt).
  rewrite Hr. destruct r as [a [s|]]; simpl in Hopt.
  - destruct Hopt as ((Hc & Hw & _) & _). destruct (proj2 (Hc v) Hv) as [w Hav].
    pose proof (Hw v w Hav) as Hin. rewrite He in Hin. destruct Hin.
  - destruct Hopt as [Ha _]. cbn [fst] in Ha. subst a. reflexivity.
Qed.
End Unconstrained.

(** ** The driver, src/Backtracking_CSP/test.py *)

Module CspMain.
Local Open Scope string_scope.

(** Lines 9-15. *)
Definition scenario_order : list string :=
  ["scenario1_fixed"; "scenario 2_5_fixed"; "scenario 2_10_fixed"; "scenario 2_25_fixed";
   "scenario3_conflict_single_match"].

(** Lines 18-24. *)
Definition title_map : gmap string string :=
  list_to_map [
    ("scenario1_fixed", "Skenario 1 – Dataset Lengkap (10 pasang murid dan tutor)");
    ("scenario 2_5_fixed", "Skenario 2 – 5 Pasang Murid-Tutor");
    ("scenario 2_10_fixed", "Skenario 2 – 10 Pasang Murid-Tutor");
    ("scenario 2_25_fixed", "Skenario 2 – 25 Pasang Murid-Tutor");
    ("scenario3_conflict_single_match", "Skenario 3 – Konflik Preferensi")].

(** Lines 27-33. *)
Definition default_weights : gmap string Q :=
  list_to_map [("mata_kuliah", 3 # 10); ("subbab", 2 # 10); ("gaya_belajar", 2 # 10);
               ("mode", 1 # 10); ("waktu", 2 # 10)].

(** [load_preferences(path)] after [pd.read_csv], lines 36-42: the
    column names are stripped and lowered, so [status] is the column the
    row's [status] field stands for; its values are lowered and the rows
    split, keeping their order ([reset_index(drop=True)] numbers them
    from [0]). *)
Definition load_preferences (df : list csv_row) : list row * list row :=
  let df := map (fun r => mk_csv_row (str_lower (status r)) (fields r)) df in
  (fields <$> filter (fun r => status r = "murid") df,
   fields <$> filter (fun r => status r = "tutor") df).

(** [variables = list(range(n_students))], line 61. *)
Definition csp_variables (n_students : nat) : list nat := seq 0 n_students.

(** [domains = {i: list(range(n_tutors)) for i in variables}], line 62. *)
Definition csp_domains (n_students n_tutors : nat) : gmap nat (list nat) :=
  list_to_map ((fun i => (i, seq 0 n_tutors)) <$> csp_variables n_students).

(** [soft_score(var, val)], lines 67-71: [df.loc] raises [KeyError] out
    of range. *)
Definition soft_score (df_students df_tutors : list row) (weights : gmap string Q)
    (var val : nat) : result Q :=
  s <- loc df_students var ;;
  t <- loc df_tutors val ;;
  p <- score_pair s t weights ;;
  Ok p.1.

(** The score the engine receives, in tenths: [soft_score] times [10],
    an integer under [default_weights] ([soft_score_tenths_spec]).  The
    engine only calls it on a student and a tutor of the frames, where
    [soft_score] returns. *)
Definition soft_score_tenths (df_students df_tutors : list row) (var val : nat) : Z :=
  match soft_score df_students df_tutors default_weights var val with
  | Ok total => Qfloor (10 * total)
  | Err _ => 0%Z
  end.

(** [all(backtracking_csp(...)[1] == total_score for _ in range(k))],
    lines 80-83: the runs stop at the first score that differs. *)
Fixpoint all_same_score (run : result (gmap nat nat * option Z)) (total_score : option Z)
    (k : nat) : result bool :=
  match k with
  | O => Ok true
  | S k' =>
      r <- run ;;
      if bool_decide (r.2 = total_score) then all_same_score run total_score k' else Ok false
  end.

(** [for var, val in assignment.items(): total_sat += sat / num_metrics],
    lines 88-91.  The items come in the dict's order; the sum does not
    depend on it. *)
Fixpoint sat_loop (df_students df_tutors : list row) (weights : gmap string Q)
    (num_metrics : nat) (items : list (nat * nat)) (total_sat : Q) : result Q :=
  match items with
  | [] => Ok total_sat
  | (var, val) :: rest =>
      s <- loc df_students var ;;
      t <- loc df_tutors val ;;
      p <- score_pair s t weights ;;
      q <- py_div (qnat p.2) num_metrics ;;
      sat_loop df_students df_tutors weights num_metrics rest (total_sat + q)
  end.

(** What the loop prints for one scenario: the title, the assignment,
    [total_score] (in tenths; [None] is [-inf]), [pct_satisfied],
    [deterministic] and [best_assignment_list]. *)
Record csp_report : Type := mk_csp_report {
  rep_title : string;
  rep_assignment : gmap nat nat;
  rep_total : option Z;
  rep_pct : Q;
  rep_deterministic : bool;
  rep_list : list (option nat)
}.

(** The body of the loop for one CSV, lines 57-105. *)
Definition run_scenario (key : string) (df : list csv_row) : result csp_report :=
  let '(df_students, df_tutors) := load_preferences df in
  let n_students := length df_students in
  let n_tutors := length df_tutors in
  let variables := csp_variables n_students in
  let domains := csp_domains n_students n_tutors in
  let constraints : list (constraint nat nat) := [] in
  let weights := default_weights in
  let score := soft_score_tenths df_students df_tutors in
  r <- backtracking_csp variables constraints score domains ;;
  let '(assignment, total_score) := r in
  deterministic <- all_same_score (backtracking_csp variables constraints score domains) total_score 2 ;;
  let num_metrics := size default_weights in
  total_sat <- sat_loop df_students df_tutors weights num_metrics (map_to_list assignment) 0 ;;
  let pct_satisfied := if Nat.eqb n_students 0 then 0 else total_sat / qnat n_students in
  let title := default key (title_map !! key) in
  let best_assignment_list := (fun i => assignment !! i) <$> seq 0 n_students in
  Ok (mk_csp_report title assignment total_score pct_satisfied deterministic best_assignment_list).

(** [for key in scenario_order], lines 51-57: a missing file is skipped. *)
Fixpoint scenario_loop (data_dir : string) (files : gmap string (list csv_row)) (keys : list string)
    : result (list csp_report) :=
  match keys with
  | [] => Ok []
  | key :: keys' =>
      let path := join data_dir (key ++ ".csv") in
      match files !! path with
      | None => scenario_loop data_dir files keys'
      | Some df =>
          rep <- run_scenario key df ;;
          reps <- scenario_loop data_dir files keys' ;;
          Ok (rep :: reps)
      end
  end.

(** The [__main__] block, lines 44-53: [script_path] is
    [os.path.abspath(__file__)]; the folder [data] is not checked. *)
Definition main (script_path : string) (files : gmap string (list csv_row)) : result (list csp_report) :=
  let script_dir := dirname script_path in
  let data_dir := join script_dir "data" in
  scenario_loop data_dir files scenario_order.
End CspMain.

(** ** The driver's lemmas *)

Import CspMain.

Lemma default_weights_ok : weights_ok default_weights.
Proof.
  intros k Hk. simpl in Hk.
  destruct Hk as [<-|[<-|[<-|[<-|[<-|[]]]]]]; eexists; (split; [reflexivity|]);
    unfold Qle; simpl; lia.
Qed.

Lemma loc_ok (df : list row) i : (i < length df)%nat -> exists r, loc df i = Ok r.
Proof.
  intros Hi. unfold loc. destruct (nth_error df i) as [r|] eqn:E; [eauto|].
  apply nth_error_None in E. lia.
Qed.

(** The five weights are tenths, so ten times a weighted sum of bits is
    an integer. *)
Lemma tenths_exact b1 b2 b3 b4 b5 :
  let q := (3 # 10) * qnat (match_bit b1) + (2 # 10) * qnat (match_bit b2) +
           (2 # 10) * qnat (match_bit b3) + (1 # 10) * qnat (match_bit b4) +
           (2 # 10) * qnat (match_bit b5) in
  inject_Z (Qfloor (10 * q)) == 10 * q.
Proof. destruct b1, b2, b3, b4, b5; vm_compute; reflexivity. Qed.

(** The engine's score is [10 * soft_score] on a student and a tutor of
    the frames. *)
Lemma soft_score_tenths_spec df_students df_tutors var val :
  (var < length df_students)%nat -> (val < length df_tutors)%nat ->
  exists total, soft_score df_students df_tutors default_weights var val = Ok total /\
    inject_Z (soft_score_tenths df_students df_tutors var val) == 10 * total.
Proof.
  intros Hv Ht. destruct (loc_ok df_students var Hv) as [s Hs].
  destruct (loc_ok df_tutors val Ht) as [t Htu].
  unfold soft_score_tenths, soft_score. rewrite Hs, Htu. cbn [res_bind].
  unfold score_pair. cbn [res_bind fst]. eexists. split; [reflexivity|]. apply tenths_exact.
Qed.

Lemma all_same_score_ok (r : gmap nat nat * option Z) s k :
  r.2 = s -> all_same_score (Ok r) s k = Ok true.
Proof.
  intros Hs. induction k as [|k IH]; [reflexivity|]. cbn [all_same_score res_bind].
  rewrite bool_decide_eq_true_2 by exact Hs. exact IH.
Qed.

(** Every item of the loop of lines 89-91 is a student and a tutor of
    the frames: the loop returns, adding a share in [[0, 1]] per item. *)
Lemma sat_loop_bounds df_students df_tutors items ts :
  Forall (fun kv : nat * nat => kv.1 < length df_students /\ kv.2 < length df_tutors)%nat items ->
  exists q, sat_loop df_students df_tutors default_weights (size default_weights) items ts = Ok q /\
    ts <= q <= ts + qnat (length items).
Proof.
  pose proof (weights_ok_size default_weights default_weights_ok) as Hsize.
  revert ts. induction items as [|[var val] rest IH]; intros ts Hall; simpl.
  { exists ts. split; [reflexivity|]. change (qnat 0) with 0. lra. }
  apply Forall_cons in Hall as [[Hv Ht] Hrest]. simpl in Hv, Ht.
  destruct (loc_ok df_students var Hv) as [s ->]. destruct (loc_ok df_tutors val Ht) as [t ->].
  cbn [res_bind].
  destruct (score_pair_bounds_gen s t default_weights default_weights_ok) as (total & cnt & -> & Hc & _).
  cbn [res_bind snd]. destruct (pct_bounds cnt _ Hc Hsize) as (pct & -> & Hp). cbn [res_bind].
  destruct (IH (ts + pct) Hrest) as (q & -> & Hq). exists q. split; [reflexivity|].
  pose proof (qnat_succ (length rest)). lra.
Qed.

Lemma csp_domains_dget ns nt i : (i < ns)%nat -> dget (csp_domains ns nt) i = seq 0 nt.
Proof.
  intros Hi. unfold dget, csp_domains, csp_variables.
  rewrite (elem_of_list_to_map_1 _ i (seq 0 nt)); [reflexivity| |].
  - rewrite <- list_fmap_compose. unfold compose. simpl. rewrite list_fmap_id. apply NoDup_seq.
  - apply list_elem_of_fmap. exists i. split; [reflexivity|]. apply list_elem_of_In, in_seq. lia.
Qed.

Lemma in_csp_variables ns i : In i (csp_variables ns) <-> (i < ns)%nat.
Proof. unfold csp_variables. rewrite in_seq. lia. Qed.

(** The engine on the driver's problem, when every student has a tutor
    to choose from. *)
Lemma driver_engine_optimum (score : nat -> nat -> Z) ns nt :
  (0 < nt \/ ns = 0)%nat ->
  exists a, backtracking_csp (csp_variables ns) [] score (csp_domains ns nt) =
              Ok (a, Some (sum_by (var_max (csp_domains ns nt) score) (csp_variables ns))) /\
    complete (csp_variables ns) a /\
    forall i, (i < ns)%nat -> exists j, a !! i = Some j /\ (j < nt)%nat /\
                                        score i j = var_max (csp_domains ns nt) score i.
Proof.
  intros Hn.
  destruct (@unconstrained_optimum nat nat _ _ back_csp_solver back_csp_solver_correct
              (csp_variables ns) (csp_domains ns nt) score (NoDup_seq 0 ns)) as (a & Hr & Hc & Hbest).
  { intros v Hv%in_csp_variables. rewrite csp_domains_dget by exact Hv.
    destruct nt; [lia|discriminate]. }
  exists a. split_and!; [exact Hr|exact Hc|].
  intros i Hi. destruct (Hbest i (proj2 (in_csp_variables ns i) Hi)) as (j & Hj & Hin & Hs).
  rewrite csp_domains_dget, in_seq in Hin by exact Hi.
  exists j. split_and!; [exact Hj|lia|exact Hs].
Qed.

(** The items of a complete assignment within the domains are students
    and tutors, at most one per student. *)
Lemma complete_items ns nt (a : gmap nat nat) :
  complete (csp_variables ns) a -> (forall i j, a !! i = Some j -> (j < nt)%nat) ->
  Forall (fun kv : nat * nat => kv.1 < ns /\ kv.2 < nt)%nat (map_to_list a) /\
  (length (map_to_list a) <= ns)%nat.
Proof.
  intros Hc Hw. split.
  - apply List.Forall_forall. intros [i j] Hij%list_elem_of_In%elem_of_map_to_list. simpl.
    split; [apply in_csp_variables, Hc; eauto|exact (Hw i j Hij)].
  - rewrite <- (length_fmap fst). rewrite <- (length_seq ns 0).
    apply NoDup_incl_length; [apply NoDup_ListNoDup, NoDup_fst_map_to_list|].
    intros i Hi. apply list_elem_of_In, list_elem_of_fmap in Hi as ([i' j] & -> & Hij).
    apply elem_of_map_to_list in Hij. simpl. apply (Hc i'). eauto.
Qed.

Lemma pct_div_bounds q n : (0 < n)%nat -> 0 <= q <= qnat n -> 0 <= q / qnat n <= 1.
Proof.
  intros Hn Hq. assert (0 < qnat n) as Hpos by (unfold qnat, Qlt; simpl; lia). split.
  - apply Qle_shift_div_l; [exact Hpos|lra].
  - apply Qle_shift_div_r; [exact Hpos|lra].
Qed.

(** One scenario, once the engine and the loop of lines 89-91 have
    returned: the three runs of the engine agree. *)
Lemma run_scenario_unfold key df df_students df_tutors a total q :
  load_preferences df = (df_students, df_tutors) ->
  backtracking_csp (csp_variables (length df_students)) []
    (soft_score_tenths df_students df_tutors)
    (csp_domains (length df_students) (length df_tutors)) = Ok (a, total) ->
  sat_loop df_students df_tutors default_weights (size default_weights) (map_to_list a) 0 = Ok q ->
  run_scenario key df =
    Ok (mk_csp_report (default key (title_map !! key)) a total
          (if Nat.eqb (length df_students) 0 then 0 else q / qnat (length df_students)) true
          ((fun i => a !! i) <$> seq 0 (length df_students))).
Proof.
  intros Hl Hr Hq. unfold run_scenario. rewrite Hl. cbv beta iota zeta.
  rewrite Hr. cbn [res_bind]. rewrite all_same_score_ok by reflexivity. cbn [res_bind].
  rewrite Hq. reflexivity.
Qed.

(** [pct_satisfied] is a share. *)
Lemma pct_satisfied_bounds ns q k :
  (k <= ns)%nat -> 0 <= q <= 0 + qnat k ->
  0 <= (if Nat.eqb ns 0 then 0 else q / qnat ns) <= 1.
Proof.
  intros Hk Hq. destruct (Nat.eqb_spec ns 0) as [_|Hns]; [lra|].
  apply pct_div_bounds; [lia|]. pose proof (qnat_le k ns Hk). lra.
Qed.

(** Whatever the frames, the engine returns on the driver's problem,
    with an assignment of students to tutors. *)
Lemma driver_engine_returns (df_students df_tutors : list row) :
  exists r, backtracking_csp (csp_variables (length df_students)) []
              (soft_score_tenths df_students df_tutors)
              (csp_domains (length df_students) (length df_tutors)) = Ok r /\
    Forall (fun kv : nat * nat => kv.1 < length df_students /\ kv.2 < length df_tutors)%nat
           (map_to_list r.1) /\
    (length (map_to_list r.1) <= length df_students)%nat.
Proof.
  set (ns := length df_students). set (nt := length df_tutors).
  destruct (backtracking_csp_contract (csp_variables ns) [] (soft_score_tenths df_students df_tutors)
              (csp_domains ns nt) (no_constraints_wf _ (NoDup_seq 0 ns))) as (r & Hr & Hopt).
  exists r. split; [exact Hr|]. destruct r as [a [s|]]; simpl in Hopt.
  - destruct Hopt as ((Hc & Hw & _) & _). apply complete_items; [exact Hc|].
    intros i j Hij. pose proof (Hw i j Hij) as Hin.
    assert (i < ns)%nat as Hi by (apply in_csp_variables, Hc; eauto).
    rewrite csp_domains_dget, in_seq in Hin by exact Hi. lia.
  - destruct Hopt as [Ha _]. simpl in Ha |- *. subst a. rewrite map_to_list_empty.
    split; [constructor|simpl; lia].
Qed.

Lemma run_scenario_returns key df :
  exists rep, run_scenario key df = Ok rep /\ rep_title rep = default key (title_map !! key).
Proof.
  destruct (load_preferences df) as [df_students df_tutors] eqn:Hl.
  destruct (driver_engine_returns df_students df_tutors) as ([a total] & Hr & Hitems & _).
  destruct (sat_loop_bounds df_students df_tutors (map_to_list a) 0 Hitems) as (q & Hq & _).
  rewrite (run_scenario_unfold key df df_students df_tutors a total q Hl Hr Hq).
  eexists. split; reflexivity.
Qed.

Lemma csp_scenario_loop_ok data_dir files keys :
  exists reps, scenario_loop data_dir files keys = Ok reps /\
    rep_title <$> reps = (fun key => default key (title_map !! key)) <$>
      filter (fun key => is_Some (files !! join data_dir (key ++ ".csv"))) keys.
Proof.
  induction keys as [|key keys (reps & Hreps & Ht)]; [exists []; split; reflexivity|]. simpl.
  destruct (files !! join data_dir (key ++ ".csv")) as [df|] eqn:Hd.
  - rewrite filter_cons_True by (rewrite Hd; eauto).
    destruct (run_scenario_returns key df) as (rep & -> & Htitle). cbn [res_bind]. rewrite Hreps.
    exists (rep :: reps). split; [reflexivity|]. rewrite !fmap_cons, Htitle, Ht. reflexivity.
  - rewrite filter_cons_False by (rewrite Hd; intros [? ?]; discriminate).
    exists reps. split; [exact Hreps|exact Ht].
Qed.

Lemma lookup_empty_fmap (l : list nat) :
  (fun i => (∅ : gmap nat nat) !! i) <$> l = repeat None (length l).
Proof. induction l as [|i l IH]; [reflexivity|]. rewrite fmap_cons, IH, lookup_empty. reflexivity. Qed.

(** ** The driver's properties *)

(** C4. Without constraints the engine gives each variable one of its
    best values: on distinct variables whose domains are non-empty,
    [backtracking_csp(variables, domains, [], soft_score)] returns a
    complete assignment in which every variable takes a value of
    maximal score in its domain, with the sum of these maxima as its
    score (the reuse-permitted behaviour of the spec, for every input). *)
Theorem backtracking_csp_unconstrained {V W : Type} `{Countable V}
    (variables : list V) (domains : gmap V (list W)) (soft_score : V -> W -> Z) :
  NoDup variables -> (forall v, In v variables -> dget domains v <> []) ->
  exists a, backtracking_csp variables [] soft_score domains =
              Ok (a, Some (sum_by (var_max domains soft_score) variables)) /\
    complete variables a /\
    forall v, In v variables -> exists w, a !! v = Some w /\ In w (dget domains v) /\
                                          soft_score v w = var_max domains soft_score v.
Proof. exact (@unconstrained_optimum V W _ _ back_csp_solver back_csp_solver_correct variables domains soft_score). Qed.

(** C27. One scenario of the CSP driver, when there are tutors (or no
    students): the loop body returns; every student gets a tutor of
    maximal [soft_score] (in tenths), [total_score] is the sum of these
    maxima, [best_assignment_list] has no [None], the determinism check
    reports [True], and [pct_satisfied] is in [[0, 1]]. *)
Theorem run_scenario_optimal key df df_students df_tutors :
  load_preferences df = (df_students, df_tutors) ->
  (0 < length df_tutors \/ length df_students = 0)%nat ->
  let score := soft_score_tenths df_students df_tutors in
  let best := var_max (csp_domains (length df_students) (length df_tutors)) score in
  exists rep, run_scenario key df = Ok rep /\
    rep_title rep = default key (title_map !! key) /\
    rep_total rep = Some (sum_by best (csp_variables (length df_students))) /\
    (forall i, (i < length df_students)%nat -> exists j, rep_assignment rep !! i = Some j /\
        (j < length df_tutors)%nat /\ score i j = best i /\
        forall j', (j' < length df_tutors)%nat -> (score i j' <= score i j)%Z) /\
    Forall is_Some (rep_list rep) /\ length (rep_list rep) = length df_students /\
    rep_deterministic rep = true /\ 0 <= rep_pct rep <= 1.
Proof.
  intros Hl Hn score best.
  destruct (driver_engine_optimum score _ _ Hn) as (a & Hbt & Hc & Hbest).
  destruct (complete_items (length df_students) (length df_tutors) a Hc) as [Hitems Hlen].
  { intros i j Hij. assert (i < length df_students)%nat as Hi by (apply in_csp_variables, Hc; eauto).
    destruct (Hbest i Hi) as (j' & Hj' & Hlt & _). congruence. }
  destruct (sat_loop_bounds df_students df_tutors (map_to_list a) 0 Hitems) as (q & Hq & Hqb).
  rewrite (run_scenario_unfold key df df_students df_tutors a _ q Hl Hbt Hq).
  eexists. split; [reflexivity|]. cbn [rep_title rep_total rep_assignment rep_list rep_deterministic rep_pct].
  pose proof (pct_satisfied_bounds _ q _ Hlen Hqb) as Hpct.
  split_and!; [reflexivity|reflexivity| | | |reflexivity|exact (proj1 Hpct)|exact (proj2 Hpct)].
  - intros i Hi. destruct (Hbest i Hi) as (j & Hj & Hlt & Hs). exists j. split_and!; [exact Hj|exact Hlt|exact Hs|].
    intros j' Hj'. rewrite Hs. apply var_max_ge. rewrite csp_domains_dget, in_seq by exact Hi. lia.
  - apply Forall_fmap, List.Forall_forall. intros i Hi%in_seq. destruct (Hbest i ltac:(lia)) as (j & Hj & _).
    unfold compose. rewrite Hj. eauto.
  - rewrite length_fmap, length_seq. reflexivity.
Qed.

(** C28. One scenario without tutors: every student's domain
    [range(0)] is empty, so the engine returns [({}, -inf)]; the driver
    still returns, printing [-inf] as the total, a list of [None] and a
    fulfilment of [0]. *)
Theorem run_scenario_no_tutors key df df_students :
  load_preferences df = (df_students, []) -> (0 < length df_students)%nat ->
  exists rep, run_scenario key df = Ok rep /\ rep_total rep = None /\ rep_assignment rep = ∅ /\
    rep_list rep = repeat None (length df_students) /\ rep_pct rep == 0 /\
    rep_deterministic rep = true.
Proof.
  intros Hl Hn.
  pose proof (@unconstrained_empty_domain nat nat _ _ back_csp_solver back_csp_solver_correct
                (csp_variables (length df_students)) (csp_domains (length df_students) 0%nat)
                (soft_score_tenths df_students []) 0%nat (NoDup_seq 0 _)
                (proj2 (in_csp_variables _ 0%nat) Hn) (csp_domains_dget _ 0%nat 0%nat Hn)) as Hbt.
  rewrite (run_scenario_unfold key df df_students [] ∅ None 0 Hl Hbt) by (rewrite map_to_list_empty; reflexivity).
  eexists. split; [reflexivity|]. cbn [rep_total rep_assignment rep_list rep_pct rep_deterministic].
  split_and!; [reflexivity|reflexivity|rewrite lookup_empty_fmap, length_seq; reflexivity| |reflexivity].
  destruct (Nat.eqb_spec (length df_students) 0) as [?|_]; [lia|]. unfold Qdiv. apply Qmult_0_l.
Qed.

(** C29. The driver's [__main__] block returns on every file system and
    reports the scenarios of [scenario_order] whose CSV exists in the
    folder [data] beside the script, in that order, under their titles. *)
Theorem csp_main_reports script_path files :
  exists reps, main script_path files = Ok reps /\
    rep_title <$> reps = (fun key => default key (title_map !! key)) <$>
      filter (fun key => is_Some (files !! join (join (dirname script_path) "data") (key ++ ".csv")))
             scenario_order.
Proof. apply csp_scenario_loop_ok. Qed.

(** ** Runs of the driver *)

Module CspDriverExample.
Import FitnessExample.
Local Open Scope string_scope.

(** A CSV with [Status] in mixed case, students and tutors interleaved. *)
Definition ex_df : list csv_row :=
  [mk_csv_row "Murid" stu0; mk_csv_row "Tutor" tut0; mk_csv_row "murid" stu1; mk_csv_row "TUTOR" tut1].

(** The reuse-permitted scenario of the spec: two variables with the
    domain [[1, 2]] each and the value as its score. *)
Definition reuse_domains : gmap nat (list Z) := list_to_map [(0%nat, [1; 2]%Z); (1%nat, [1; 2]%Z)].

Lemma backtracking_csp_unconstrained_witness :
  NoDup [0; 1]%nat /\ (forall v, In v [0; 1]%nat -> dget reuse_domains v <> []) /\
  exists a, backtracking_csp [0; 1]%nat [] (fun _ w => w) reuse_domains =
              Ok (a, Some (sum_by (var_max reuse_domains (fun _ w => w)) [0; 1]%nat)) /\
    complete [0; 1]%nat a /\
    forall v, In v [0; 1]%nat -> exists w, a !! v = Some w /\ In w (dget reuse_domains v) /\
                                           w = var_max reuse_domains (fun _ w => w) v.
Proof.
  assert (NoDup [0; 1]%nat) as Hnd by exact (NoDup_seq 0 2).
  assert (forall v, In v [0; 1]%nat -> dget reuse_domains v <> []) as Hne
    by (intros v [<-|[<-|[]]]; discriminate).
  split; [exact Hnd|]. split; [exact Hne|].
  exact (backtracking_csp_unconstrained [0; 1]%nat reuse_domains (fun _ w => w) Hnd Hne).
Defined.

Lemma run_scenario_optimal_witness :
  load_preferences ex_df = ([stu0; stu1], [tut0; tut1]) /\
  exists rep, run_scenario "scenario1_fixed" ex_df = Ok rep /\
    rep_total rep = Some (sum_by (var_max (csp_domains 2 2) (soft_score_tenths [stu0; stu1] [tut0; tut1]))
                                 (csp_variables 2)) /\
    rep_deterministic rep = true /\ 0 <= rep_pct rep <= 1.
Proof.
  assert (load_preferences ex_df = ([stu0; stu1], [tut0; tut1])) as Hl by reflexivity.
  split; [exact Hl|].
  destruct (run_scenario_optimal "scenario1_fixed" ex_df [stu0; stu1] [tut0; tut1] Hl ltac:(left; simpl; lia))
    as (rep & Hr & _ & Ht & _ & _ & _ & Hd & Hp).
  exists rep. split_and!; [exact Hr|exact Ht|exact Hd|exact (proj1 Hp)|exact (proj2 Hp)].
Defined.

Lemma run_scenario_no_tutors_witness :
  load_preferences [mk_csv_row "Murid" stu0] = ([stu0], []) /\
  exists rep, run_scenario "scenario1_fixed" [mk_csv_row "Murid" stu0] = Ok rep /\
    rep_total rep = None /\ rep_list rep = [None].
Proof.
  assert (load_preferences [mk_csv_row "Murid" stu0] = ([stu0], [])) as Hl by reflexivity.
  split; [exact Hl|].
  destruct (run_scenario_no_tutors "scenario1_fixed" _ [stu0] Hl ltac:(simpl; lia))
    as (rep & Hr & Ht & _ & Hlist & _).
  exists rep. split_and!; [exact Hr|exact Ht|exact Hlist].
Defined.

(** The run itself: [stu0] matches [tut0] on every criterion (10
    tenths), [stu1] is flexible and shares subject and style with [tut1]
    (7 tenths), so the total is [1.7] and the fulfilment [(5/5 + 3/5)/2]. *)
Example csp_driver_run :
  exists rep, run_scenario "scenario1_fixed" ex_df = Ok rep /\
    rep_title rep = "Skenario 1 – Dataset Lengkap (10 pasang murid dan tutor)" /\
    rep_list rep = [Some 0%nat; Some 1%nat] /\ rep_total rep = Some 17%Z /\ rep_pct rep == 4 # 5.
Proof. eexists. split; [vm_compute; reflexivity|]. split_and!; vm_compute; reflexivity. Qed.
End CspDriverExample.
