(* ===== verification/Experiments.v ===== *)
(** * The experiment scripts of src/tests: test.py and test_sa.py

    Both scripts build random scenarios ([generate_preferences],
    [scenario_conflict_heavy], [scenario_capacity]) and run the solvers
    on them.  [TestPy] models test.py: its [run_scenario] runs
    [csp_backtrack], [sa_match] and [ga_match] (CapacityCSP.v,
    CapacityHeuristics.v) on one scenario and scores each answer with
    [evaluate], [repeat] times; [main] builds the three scenarios from
    one [random] state.  [TestSa] models test_sa.py, whose
    [generate_preferences] has no ["popular"] mode, and its
    [run_sa_only].

    A preference entry [{a: v for a in attrs}] always has the keys
    [attrs] in that order; it is the list of its values, the form
    [csp_backtrack] and the heuristics read.  The [weights] argument
    ([None] or a dict) is a [gmap], empty for [None]: both are false for
    [if weights:].  [popular_subset = None] makes [t in None] raise
    [TypeError].  [round(x, 2)] and the timings are not modelled: a
    record keeps the unrounded percentage.  test.py's summary,
    [groupby(["Scenario","Alg"]).mean()] of the concatenated frames, is a
    map from the group key to the mean [Score] and [%Constraint]
    ([concat_results], [groupby_sums], [summary]); test_sa.py's
    [agg(['mean','std'])] is not modelled (a square root on floats).
    test_sa.py's [sa_match] and [evaluate] repeat test.py's text and are
    defined as test.py's. *)

From Stdlib Require Import String QArith ZArith Lia Lqa.
From stdpp Require Import base list gmap strings.
From S2P Require Import Prelude Random CapacityCSP CapacityHeuristics.

Local Open Scope string_scope.

(** [{k: f(k) for k in ks}], evaluating [f] key by key. *)
Fixpoint dict_comp {K V} `{Countable K} (f : K -> result V) (ks : list K) (d : gmap K V)
    : result (gmap K V) :=
  match ks with
  | [] => Ok d
  | k :: ks' => v <- f k ;; dict_comp f ks' (<[k := v]> d)
  end.

(** [a // b] on integers: [ZeroDivisionError] for [b = 0]; [Z.div]
    rounds towards minus infinity as Python does. *)
Definition py_floordiv (a b : Z) : result Z :=
  if (b =? 0)%Z then Err ZeroDivisionError else Ok (a / b)%Z.

(** [attrs = ["waktu","topik","mode","gaya"]], line 10 of test.py. *)
Definition attrs : list string := ["waktu"; "topik"; "mode"; "gaya"].

(** [{a: (1 if b else 0) for a in attrs}]. *)
Definition const_attrs (b : bool) : list Z := map (fun _ => if b then 1%Z else 0%Z) attrs.

(** [pref[(m,t)][a] *= weights.get(a, 1)] for each [a] of [attrs]. *)
Definition weigh (weights : gmap string Z) (vs : list Z) : list Z :=
  zip_with (fun a v => (v * default 1 (weights !! a))%Z) attrs vs.

(** A row of the results frame: [Alg], [Score] and [%Constraint]. *)
Record record : Type := mk_record { rec_alg : string; rec_score : Z; rec_pct : Q }.

(** A scenario: [murid, tutor, cap, pref]. *)
Record scenario : Type := mk_scenario {
  sc_murid : list nat;
  sc_tutor : list nat;
  sc_cap : gmap nat Z;
  sc_pref : gmap (nat * nat) (list Z)
}.

Section Generate.
Context {R : Type} `{PyRandom R}.

(** [{a: random.randint(0,1) for a in attrs}]: one draw per key. *)
Fixpoint rand_attrs (keys : list string) (r : R) : result (list Z * R) :=
  match keys with
  | [] => Ok ([], r)
  | _ :: keys' =>
      p <- py_randint r 0 1 ;;
      q <- rand_attrs keys' p.2 ;;
      Ok (p.1 :: q.1, q.2)
  end.

(** [for t in tutor: pref[(m,t)] = {a: random.randint(0,1) for a in attrs}]. *)
Fixpoint random_loop (m : nat) (ts : list nat) (pref : gmap (nat * nat) (list Z)) (r : R)
    : result (gmap (nat * nat) (list Z) * R) :=
  match ts with
  | [] => Ok (pref, r)
  | t :: ts' => p <- rand_attrs attrs r ;; random_loop m ts' (<[(m, t) := p.1]> pref) p.2
  end.

(** [for t in tutor: for a in attrs: pref[(m,t)][a] *= weights.get(a,1)]. *)
Fixpoint weights_loop (weights : gmap string Z) (m : nat) (ts : list nat)
    (pref : gmap (nat * nat) (list Z)) : result (gmap (nat * nat) (list Z)) :=
  match ts with
  | [] => Ok pref
  | t :: ts' => vs <- dict_get pref (m, t) ;; weights_loop weights m ts' (<[(m, t) := weigh weights vs]> pref)
  end.

(** [for t in tutor: pref[(m,t)] = {a: (1 if good(t) else 0) for a in attrs}]. *)
Definition const_loop (good : nat -> bool) (m : nat) (ts : list nat) (pref : gmap (nat * nat) (list Z))
    : gmap (nat * nat) (list Z) :=
  fold_left (fun pref t => <[(m, t) := const_attrs (good t)]> pref) ts pref.

(** [if weights: ...], lines 28-31 of test.py. *)
Definition apply_weights (weights : gmap string Z) (m : nat) (tutor : list nat)
    (q : gmap (nat * nat) (list Z) * R) : result (gmap (nat * nat) (list Z) * R) :=
  if bool_decide (weights = ∅) then Ok q
  else pref' <- weights_loop weights m tutor q.1 ;; Ok (pref', q.2).

(** The [conflict] branch: [t_good = random.choice(tutor)]. *)
Definition conflict_branch (m : nat) (tutor : list nat) (pref : gmap (nat * nat) (list Z)) (r : R)
    : result (gmap (nat * nat) (list Z) * R) :=
  p <- py_choice r tutor ;;
  Ok (const_loop (fun t => bool_decide (t = p.1)) m tutor pref, p.2).
End Generate.

Module TestPy.
Section TestPy.
Context {R : Type} `{PyRandom R}.

(** The body of [for m in murid], lines 13-31. *)
Definition gen_student (mode : string) (tutor : list nat) (popular_subset : option (list nat))
    (weights : gmap string Z) (m : nat) (pref : gmap (nat * nat) (list Z)) (r : R)
    : result (gmap (nat * nat) (list Z) * R) :=
  q <- (if String.eqb mode "conflict" then conflict_branch m tutor pref r
        else if String.eqb mode "popular" then
          match popular_subset, tutor with
          | Some sub, _ => Ok (const_loop (fun t => bool_decide (t ∈ sub)) m tutor pref, r)
          | None, [] => Ok (pref, r)
          | None, _ :: _ => Err TypeError
          end
        else random_loop m tutor pref r) ;;
  apply_weights weights m tutor q.

Fixpoint gen_loop (mode : string) (tutor : list nat) (popular_subset : option (list nat))
    (weights : gmap string Z) (ms : list nat) (pref : gmap (nat * nat) (list Z)) (r : R)
    : result (gmap (nat * nat) (list Z) * R) :=
  match ms with
  | [] => Ok (pref, r)
  | m :: ms' =>
      p <- gen_student mode tutor popular_subset weights m pref r ;;
      gen_loop mode tutor popular_subset weights ms' p.1 p.2
  end.

(** [generate_preferences(murid, tutor, mode, popular_subset, weights)],
    lines 9-32. *)
Definition generate_preferences (murid tutor : list nat) (mode : string)
    (popular_subset : option (list nat)) (weights : gmap string Z) (r : R)
    : result (gmap (nat * nat) (list Z) * R) :=
  gen_loop mode tutor popular_subset weights murid ∅ r.

(** [scenario_conflict_heavy(n_m, n_t)], lines 34-40. *)
Definition scenario_conflict_heavy (n_m n_t : nat) (r : R) : result (scenario * R) :=
  let murid := seq 0 n_m in
  let tutor := seq 0 n_t in
  let cap := list_to_map ((fun t => (t, 1%Z)) <$> tutor) in
  p <- generate_preferences murid tutor "conflict" None ∅ r ;;
  Ok (mk_scenario murid tutor cap p.1, p.2).

(** [scenario_capacity(n_m, n_t, asym)], lines 42-52: [n_m // n_t] is
    only evaluated for a tutor. *)
Definition scenario_capacity (n_m n_t : nat) (asym : bool) (r : R) : result (scenario * R) :=
  let murid := seq 0 n_m in
  let tutor := seq 0 n_t in
  cap <- (if asym then dict_comp (fun t => Ok (if (t <? 2)%nat then 5%Z else 1%Z)) tutor ∅
          else dict_comp (fun _ => q <- py_floordiv (Z.of_nat n_m) (Z.of_nat n_t) ;; Ok (Z.max 1 q)) tutor ∅) ;;
  p <- generate_preferences murid tutor "random" None ∅ r ;;
  Ok (mk_scenario murid tutor cap p.1, p.2).

Variable exp : Q -> Q.

(** [round((score/(len(murid)*4))*100, 2)] before the rounding. *)
Definition pct_constraint (score : Z) (n_murid : nat) : result Q :=
  if Nat.eqb (n_murid * 4) 0 then Err ZeroDivisionError
  else Ok (inject_Z score / inject_Z (Z.of_nat (n_murid * 4)) * 100)%Q.

(** One iteration of [for _ in range(repeat)], lines 181-198: the three
    solvers with their default parameters, each answer scored by
    [evaluate]; the three records in the order CSP, SA, GA. *)
Definition run_once (sc : scenario) (r : R) : result (list record * R) :=
  let murid := sc_murid sc in
  let tutor := sc_tutor sc in
  let cap := sc_cap sc in
  let pref := sc_pref sc in
  sol_csp <- csp_backtrack murid tutor pref cap ;;
  m1 <- evaluate pref sol_csp.1 ;;
  p2 <- sa_match exp murid tutor cap pref 1 (995 # 1000) 2000 r ;;
  m2 <- evaluate pref p2.1.1 ;;
  p3 <- ga_match murid tutor cap pref 30 80 (8 # 10) (1 # 10) p2.2 ;;
  m3 <- evaluate pref p3.1.1 ;;
  c1 <- pct_constraint m1.1 (length murid) ;;
  c2 <- pct_constraint m2.1 (length murid) ;;
  c3 <- pct_constraint m3.1 (length murid) ;;
  Ok ([mk_record "CSP" m1.1 c1; mk_record "SA" m2.1 c2; mk_record "GA" m3.1 c3], p3.2).

(** [run_scenario(scenario_args, repeat)], lines 177-199. *)
Fixpoint run_scenario (sc : scenario) (repeat : nat) (r : R) : result (list record * R) :=
  match repeat with
  | O => Ok ([], r)
  | S k =>
      p <- run_once sc r ;;
      q <- run_scenario sc k p.2 ;;
      Ok ((p.1 ++ q.1)%list, q.2)
  end.

(** The [__main__] block, lines 201-212: the scenarios in the dict's
    order, built from one [random] state, then run three times each. *)
Definition main (r : R) : result (list (string * list record) * R) :=
  s1 <- scenario_conflict_heavy 15 5 r ;;
  s2 <- scenario_capacity 20 10 false s1.2 ;;
  s3 <- scenario_capacity 20 10 true s2.2 ;;
  d1 <- run_scenario s1.1 3 s3.2 ;;
  d2 <- run_scenario s2.1 3 d1.2 ;;
  d3 <- run_scenario s3.1 3 d2.2 ;;
  Ok ([("Conflict-Heavy", d1.1); ("Capacity-Sym", d2.1); ("Capacity-Asym", d3.1)], d3.2).
End TestPy.

(** [df["Scenario"] = name] on each frame of [results] and
    [pd.concat(results, ignore_index=True)], lines 210-214: the rows in
    order, each with its scenario. *)
Definition concat_results (results : list (string * list record)) : list (string * record) :=
  concat ((fun nd : string * list record => pair nd.1 <$> nd.2) <$> results).

(** The group key [["Scenario", "Alg"]] of a row. *)
Definition group_key (row : string * record) : string * string := (row.1, rec_alg row.2).

(** What [groupby(...).mean()] accumulates for a group: the sum of
    [Score], the sum of [%Constraint] and the number of rows. *)
Record group_acc : Type := mk_group_acc { g_score : Z; g_pct : Q; g_count : nat }.

Definition acc_add (o : option group_acc) (row : string * record) : group_acc :=
  let g := default (mk_group_acc 0 0 0) o in
  mk_group_acc (g_score g + rec_score row.2)%Z (g_pct g + rec_pct row.2)%Q (S (g_count g)).

Definition group_step (acc : gmap (string * string) group_acc) (row : string * record)
    : gmap (string * string) group_acc :=
  <[group_key row := acc_add (acc !! group_key row) row]> acc.

Definition groupby_sums (rows : list (string * record)) : gmap (string * string) group_acc :=
  foldl group_step ∅ rows.

(** [final.groupby(["Scenario","Alg"])[["Score","%Constraint",
    "Time(s)"]].mean()], line 216, without the timing column: the mean
    [Score] and [%Constraint] of each group. *)
Record group_mean : Type := mk_group_mean { mean_score : Q; mean_pct : Q }.

Definition summary (rows : list (string * record)) : gmap (string * string) group_mean :=
  (fun g => mk_group_mean (inject_Z (g_score g) / inject_Z (Z.of_nat (g_count g)))
                          (g_pct g / inject_Z (Z.of_nat (g_count g)))) <$> groupby_sums rows.
End TestPy.

Module TestSa.
Section TestSa.
Context {R : Type} `{PyRandom R}.

(** The body of [for m in murid], lines 10-21 of test_sa.py: no
    ["popular"] mode. *)
Definition gen_student (mode : string) (tutor : list nat) (weights : gmap string Z) (m : nat)
    (pref : gmap (nat * nat) (list Z)) (r : R) : result (gmap (nat * nat) (list Z) * R) :=
  q <- (if String.eqb mode "conflict" then conflict_branch m tutor pref r
        else random_loop m tutor pref r) ;;
  apply_weights weights m tutor q.

Fixpoint gen_loop (mode : string) (tutor : list nat) (weights : gmap string Z) (ms : list nat)
    (pref : gmap (nat * nat) (list Z)) (r : R) : result (gmap (nat * nat) (list Z) * R) :=
  match ms with
  | [] => Ok (pref, r)
  | m :: ms' => p <- gen_student mode tutor weights m pref r ;; gen_loop mode tutor weights ms' p.1 p.2
  end.

(** [generate_preferences(murid, tutor, mode, popular_subset, weights)],
    lines 7-22 ([popular_subset] is not read). *)
Definition generate_preferences (murid tutor : list nat) (mode : string)
    (popular_subset : option (list nat)) (weights : gmap string Z) (r : R)
    : result (gmap (nat * nat) (list Z) * R) :=
  gen_loop mode tutor weights murid ∅ r.

(** [scenario_conflict_heavy(n_m, n_t)], lines 24-29. *)
Definition scenario_conflict_heavy (n_m n_t : nat) (r : R) : result (scenario * R) :=
  let murid := seq 0 n_m in
  let tutor := seq 0 n_t in
  let cap := list_to_map ((fun t => (t, 1%Z)) <$> tutor) in
  p <- generate_preferences murid tutor "conflict" None ∅ r ;;
  Ok (mk_scenario murid tutor cap p.1, p.2).

(** [scenario_capacity(n_m, n_t, asym)], lines 30-38. *)
Definition scenario_capacity (n_m n_t : nat) (asym : bool) (r : R) : result (scenario * R) :=
  let murid := seq 0 n_m in
  let tutor := seq 0 n_t in
  cap <- (if asym then dict_comp (fun t => Ok (if (t <? 2)%nat then 5%Z else 1%Z)) tutor ∅
          else dict_comp (fun _ => q <- py_floordiv (Z.of_nat n_m) (Z.of_nat n_t) ;; Ok (Z.max 1 q)) tutor ∅) ;;
  p <- generate_preferences murid tutor "random" None ∅ r ;;
  Ok (mk_scenario murid tutor cap p.1, p.2).

Variable exp : Q -> Q.

(** [sa_match(murid, tutor, cap_init, pref, T0, cooling, steps)], lines
    42-66: the text of test.py's [sa_match] (its lines 101-127, less two
    comments), so test.py's definition (CapacityHeuristics.v). *)
Definition sa_match (murid tutor : list nat) (cap_init : gmap nat Z) (pref : gmap (nat * nat) (list Z))
    (T0 cooling : Q) (steps : Z) (r : R) : result ((gmap nat nat * Z) * R) :=
  CapacityHeuristics.sa_match exp murid tutor cap_init pref T0 cooling steps r.

(** [evaluate(assign, pref, cap)], lines 69-75: the text of test.py's
    [evaluate] (its lines 169-175), so its definition (CapacityCSP.v). *)
Definition evaluate (pref : gmap (nat * nat) (list Z)) (assign : gmap nat nat) : result (Z * Q) :=
  CapacityCSP.evaluate pref assign.

(** A row of the SA-only frame: [Scenario], [Score], [%Constraint]
    (here [evaluate]'s percentage, unrounded). *)
Record sa_record : Type := mk_sa_record { sa_name : string; sa_score : Z; sa_pct : Q }.

Fixpoint sa_repeat (name : string) (sc : scenario) (T0 cooling : Q) (steps : Z) (k : nat) (r : R)
    : result (list sa_record * R) :=
  match k with
  | O => Ok ([], r)
  | S k' =>
      p <- sa_match (sc_murid sc) (sc_tutor sc) (sc_cap sc) (sc_pref sc) T0 cooling steps r ;;
      e <- evaluate (sc_pref sc) p.1.1 ;;
      q <- sa_repeat name sc T0 cooling steps k' p.2 ;;
      Ok ((mk_sa_record name e.1 e.2 :: q.1)%list, q.2)
  end.

(** [run_sa_only(scenarios, repeat, **sa_kwargs)], lines 78-93. *)
Fixpoint run_sa_only (scenarios : list (string * scenario)) (repeat : nat) (T0 cooling : Q) (steps : Z)
    (r : R) : result (list sa_record * R) :=
  match scenarios with
  | [] => Ok ([], r)
  | (name, sc) :: rest =>
      p <- sa_repeat name sc T0 cooling steps repeat r ;;
      q <- run_sa_only rest repeat T0 cooling steps p.2 ;;
      Ok ((p.1 ++ q.1)%list, q.2)
  end.

(** The [__main__] block, lines 95-104. *)
Definition main (r : R) : result (list sa_record * R) :=
  s1 <- scenario_conflict_heavy 15 5 r ;;
  s2 <- scenario_capacity 10 10 false s1.2 ;;
  s3 <- scenario_capacity 10 10 true s2.2 ;;
  run_sa_only [("Conflict-Heavy", s1.1); ("Capacity-Sym", s2.1); ("Capacity-Asym", s3.1)] 5
              1 (995 # 1000) 1500 s3.2.
End TestSa.
End TestSa.

(** ** The generated preferences *)

(** An entry [{a: 0 or 1 for a in attrs}]: four values, each a bit. *)
Definition bits_ok (vs : list Z) : Prop :=
  length vs = length attrs /\ Forall (fun v => v = 0%Z \/ v = 1%Z) vs.

(** The shape of [pref]: exactly the pairs of a student and a tutor, each
    with four bits. *)
Definition pref_typed (murid tutor : list nat) (pref : gmap (nat * nat) (list Z)) : Prop :=
  (forall k, is_Some (pref !! k) <-> In k.1 murid /\ In k.2 tutor) /\
  map_Forall (fun _ vs => bits_ok vs) pref.

Lemma const_attrs_bits b : bits_ok (const_attrs b).
Proof.
  split; [reflexivity|]. unfold const_attrs. apply Forall_fmap, List.Forall_forall.
  intros a _. destruct b; simpl; auto.
Qed.

Lemma const_loop_lookup good m ts pref k :
  const_loop good m ts pref !! k =
  if bool_decide (k.1 = m /\ k.2 ∈ ts) then Some (const_attrs (good k.2)) else pref !! k.
Proof.
  unfold const_loop. revert pref. induction ts as [|t ts IH]; intros pref; simpl.
  { rewrite bool_decide_eq_false_2; [reflexivity|intros [_ Hk]; apply elem_of_nil in Hk; exact Hk]. }
  rewrite IH. destruct k as [m' t']. cbn [fst snd].
  destruct (decide (m' = m /\ t' ∈ ts)) as [H1|H1].
  - rewrite (bool_decide_eq_true_2 _ H1), bool_decide_eq_true_2; [reflexivity|].
    destruct H1 as [-> ?]. split; [reflexivity|apply elem_of_cons; right; assumption].
  - rewrite (bool_decide_eq_false_2 _ H1).
    destruct (decide (m' = m /\ t' = t)) as [[-> ->]|H2].
    + rewrite lookup_insert_eq, bool_decide_eq_true_2; [reflexivity|].
      split; [reflexivity|apply elem_of_cons; left; reflexivity].
    + rewrite lookup_insert_ne by (intros [= -> ->]; apply H2; auto).
      rewrite bool_decide_eq_false_2; [reflexivity|].
      intros [-> [->|Hin]%elem_of_cons]; [apply H2|apply H1]; auto.
Qed.

Section GenerateFacts.
Context {R : Type} `{PyRandomLaws R}.

Lemma rand_attrs_ok keys (r : R) :
  exists vs r', rand_attrs keys r = Ok (vs, r') /\ length vs = length keys /\
    Forall (fun v => v = 0%Z \/ v = 1%Z) vs.
Proof.
  revert r. induction keys as [|k keys IH]; intros r; simpl; [exists [], r; split_and!; auto|].
  destruct (py_randint_ok r 0 1 ltac:(lia)) as (v & r1 & -> & Hv). cbn [res_bind fst snd].
  destruct (IH r1) as (vs & r' & -> & Hl & Hf). cbn [res_bind fst snd].
  exists (v :: vs), r'. split_and!; [reflexivity|simpl; lia|constructor; [lia|exact Hf]].
Qed.

(** The random branch adds the pairs of [m] with four bits each. *)
Lemma random_loop_ok m ts pref (r : R) :
  exists pref' r', random_loop m ts pref r = Ok (pref', r') /\
    (forall k, is_Some (pref' !! k) <-> is_Some (pref !! k) \/ (k.1 = m /\ In k.2 ts)) /\
    (map_Forall (fun _ vs => bits_ok vs) pref -> map_Forall (fun _ vs => bits_ok vs) pref').
Proof.
  revert pref r. induction ts as [|t ts IH]; intros pref r; cbn [random_loop].
  { exists pref, r. split_and!; [reflexivity|intros k; split; [intros Hk; left; exact Hk|intros [?|[_ []]]; assumption]|auto]. }
  destruct (rand_attrs_ok attrs r) as (vs & r1 & -> & Hl & Hf). cbn [res_bind fst snd].
  destruct (IH (<[(m, t) := vs]> pref) r1) as (pref' & r' & -> & Hdom & Hok).
  exists pref', r'. split_and!; [reflexivity| |].
  - intros [m' t']. rewrite Hdom, lookup_insert_is_Some'. simpl. split.
    + intros [[Heq|Hs]|[-> Hin]]; [injection Heq as <- <-; right; auto|left; exact Hs|right; auto].
    + intros [Hs|[-> [->|Hin]]]; [left; right; exact Hs|left; left; reflexivity|right; auto].
  - intros Hp. apply Hok, map_Forall_insert_2; [split; [exact Hl|exact Hf]|exact Hp].
Qed.
End GenerateFacts.

Lemma apply_weights_empty {R : Type} (m : nat) (tutor : list nat) (q : gmap (nat * nat) (list Z) * R) :
  apply_weights ∅ m tutor q = Ok q.
Proof. unfold apply_weights. rewrite bool_decide_eq_true_2 by reflexivity. reflexivity. Qed.

Lemma const_loop_is_Some good m ts pref k :
  is_Some (const_loop good m ts pref !! k) <-> is_Some (pref !! k) \/ (k.1 = m /\ In k.2 ts).
Proof.
  rewrite const_loop_lookup, <- list_elem_of_In. case_bool_decide as Hk.
  - split; [intros _; right; exact Hk|intros _; eauto].
  - split; [intros Hs; left; exact Hs|intros [Hs|Hs]; [exact Hs|contradiction]].
Qed.

Section GenerateLoops.
Context {R : Type} `{PyRandomLaws R}.
Variables (tutor : list nat) (popular_subset : option (list nat)).

Lemma gen_loop_random mode ms pref (r : R) :
  String.eqb mode "conflict" = false -> String.eqb mode "popular" = false ->
  exists pref' r', TestPy.gen_loop mode tutor popular_subset ∅ ms pref r = Ok (pref', r') /\
    (forall k, is_Some (pref' !! k) <-> is_Some (pref !! k) \/ (In k.1 ms /\ In k.2 tutor)) /\
    (map_Forall (fun _ vs => bits_ok vs) pref -> map_Forall (fun _ vs => bits_ok vs) pref').
Proof.
  intros Hc Hp. revert pref r. induction ms as [|m ms IH]; intros pref r; cbn [TestPy.gen_loop].
  { exists pref, r. split_and!; [reflexivity|intros k; split; [intros Hk; left; exact Hk|intros [?|[[] _]]; assumption]|auto]. }
  unfold TestPy.gen_student. rewrite Hc, Hp.
  destruct (random_loop_ok m tutor pref r) as (pref1 & r1 & -> & Hdom1 & Hok1). cbn [res_bind].
  rewrite apply_weights_empty. cbn [res_bind fst snd].
  destruct (IH pref1 r1) as (pref' & r' & -> & Hdom & Hok).
  exists pref', r'. split_and!; [reflexivity| |auto].
  intros k. rewrite Hdom, Hdom1. simpl. split.
  - intros [[Hs|[-> Ht]]|[Hm Ht]]; [left; exact Hs|right; auto|right; auto].
  - intros [Hs|[[->|Hm] Ht]]; [left; left; exact Hs|left; right; auto|right; auto].
Qed.

(** In the ["conflict"] mode every student processed has one tutor
    [t_good] whose entry is all ones, the others all zeros; entries of
    other students are untouched. *)
Lemma gen_loop_conflict ms pref (r : R) :
  tutor <> [] ->
  exists pref' r', TestPy.gen_loop "conflict" tutor popular_subset ∅ ms pref r = Ok (pref', r') /\
    (forall k, is_Some (pref' !! k) <-> is_Some (pref !! k) \/ (In k.1 ms /\ In k.2 tutor)) /\
    (forall k, ~ In k.1 ms -> pref' !! k = pref !! k) /\
    (forall m, In m ms -> exists tg, In tg tutor /\
       forall t, In t tutor -> pref' !! (m, t) = Some (const_attrs (bool_decide (t = tg)))).
Proof.
  intros Ht. revert pref r. induction ms as [|m ms IH]; intros pref r; cbn [TestPy.gen_loop].
  { exists pref, r. split_and!; [reflexivity|intros k; split; [intros Hk; left; exact Hk|intros [?|[[] _]]; assumption]
                                |reflexivity|intros m []]. }
  unfold TestPy.gen_student, conflict_branch. cbn [String.eqb Ascii.eqb Bool.eqb andb].
  destruct (py_choice_ok r tutor Ht) as (tg & r1 & -> & Htg). cbn [res_bind fst snd].
  rewrite apply_weights_empty. cbn [res_bind fst snd].
  set (pref1 := const_loop (fun t => bool_decide (t = tg)) m tutor pref).
  destruct (IH pref1 r1) as (pref' & r' & -> & Hdom & Hframe & Hgood).
  exists pref', r'. split_and!; [reflexivity| | |].
  - intros k. rewrite Hdom. unfold pref1. rewrite const_loop_is_Some. simpl. split.
    + intros [[Hs|[-> Hk]]|[Hm Hk]]; [left; exact Hs|right; auto|right; auto].
    + intros [Hs|[[->|Hm] Hk]]; [left; left; exact Hs|left; right; auto|right; auto].
  - intros k Hk. rewrite Hframe by (intros Hin; apply Hk; right; exact Hin).
    unfold pref1. rewrite const_loop_lookup, bool_decide_eq_false_2; [reflexivity|].
    intros [Heq _]. apply Hk. left. symmetry. exact Heq.
  - intros m0 [<-|Hm0]; [|exact (Hgood m0 Hm0)].
    destruct (in_dec Nat.eq_dec m ms) as [Hin|Hnin]; [exact (Hgood m Hin)|].
    exists tg. split; [exact Htg|]. intros t Hin. rewrite Hframe by exact Hnin.
    unfold pref1. rewrite const_loop_lookup, bool_decide_eq_true_2; [reflexivity|].
    split; [reflexivity|apply list_elem_of_In, Hin].
Qed.
End GenerateLoops.

Lemma testsa_gen_loop_same {R : Type} `{PyRandom R} mode tutor popular_subset weights ms pref (r : R) :
  String.eqb mode "popular" = false ->
  TestSa.gen_loop mode tutor weights ms pref r = TestPy.gen_loop mode tutor popular_subset weights ms pref r.
Proof.
  intros Hp. revert pref r. induction ms as [|m ms IH]; intros pref r; [reflexivity|]. cbn [TestSa.gen_loop TestPy.gen_loop].
  unfold TestSa.gen_student, TestPy.gen_student. rewrite Hp.
  destruct (String.eqb mode "conflict");
    [destruct (conflict_branch m tutor pref r) as [p|e]|destruct (random_loop m tutor pref r) as [p|e]];
    cbn [res_bind]; try reflexivity;
    destruct (apply_weights weights m tutor p) as [q|e]; cbn [res_bind]; [apply IH|reflexivity|apply IH|reflexivity].
Qed.

(** ** Capacities below the number of students *)

Section Capacity.
Context {M T : Type} `{Countable M} `{Countable T}.

Lemma usage_insert_fresh (a : gmap M T) m t t' :
  a !! m = None -> usage (<[m := t]> a) t' = (usage a t' + if decide (t = t') then 1 else 0)%nat.
Proof.
  intros Hm. unfold usage. destruct (decide (t = t')) as [<-|Hne].
  - rewrite map_filter_insert_True by reflexivity.
    rewrite map_size_insert_None; [lia|]. apply map_lookup_filter_None_2. left. exact Hm.
  - rewrite map_filter_insert_not'; [lia|simpl; exact Hne|intros y Hy; rewrite Hm in Hy; discriminate].
Qed.

Lemma indicator_sum (t : T) tutor :
  NoDup tutor -> In t tutor -> sum_by (fun t' => if decide (t = t') then 1 else 0)%Z tutor = 1%Z.
Proof.
  induction tutor as [|t' ts IH]; intros Hnd Hin; [destruct Hin|].
  apply NoDup_cons in Hnd as [Hn Hnd]. rewrite sum_by_cons.
  destruct Hin as [<-|Hin].
  - rewrite decide_True by reflexivity. rewrite sum_by_zero; [lia|].
    intros u Hu. rewrite decide_False; [reflexivity|]. intros <-. apply Hn, list_elem_of_In, Hu.
  - rewrite decide_False by (intros <-; apply Hn, list_elem_of_In, Hin). rewrite IH by assumption. lia.
Qed.

(** Each student of [a] is counted once, under its tutor. *)
Lemma size_usage_sum (a : gmap M T) tutor :
  NoDup tutor -> (forall m t, a !! m = Some t -> In t tutor) ->
  Z.of_nat (size a) = sum_by (fun t => Z.of_nat (usage a t)) tutor.
Proof.
  intros Hnd. induction a as [|m t a Hm IH] using map_ind; intros Hval.
  - rewrite map_size_empty. symmetry. apply sum_by_zero. intros t _.
    unfold usage. rewrite map_filter_empty, map_size_empty. reflexivity.
  - rewrite map_size_insert_None by exact Hm.
    rewrite (sum_by_ext _ (fun t' => Z.of_nat (usage a t') + (if decide (t = t') then 1 else 0))%Z)
      by (intros t' _; rewrite usage_insert_fresh by exact Hm; destruct (decide (t = t')); lia).
    rewrite sum_by_add, indicator_sum by (try exact Hnd; apply (Hval m); apply lookup_insert_eq).
    rewrite <- IH; [lia|]. intros m' t' Hm'. apply (Hval m').
    rewrite lookup_insert_ne; [exact Hm'|]. intros ->. rewrite Hm in Hm'. discriminate.
Qed.

(** No assignment respecting the capacities places every student when
    the capacities add up to fewer than the students. *)
Lemma valid_over_capacity (murid : list M) (tutor : list T) (init : gmap T Z) (a : gmap M T) :
  NoDup tutor -> (sum_by (cap_of init) tutor < Z.of_nat (length murid))%Z ->
  ~ valid_assignment murid tutor init a.
Proof.
  intros Hnd Hlt (Hsize & Hkeys & Husage).
  pose proof (size_usage_sum a tutor Hnd (fun m t Hmt => proj2 (Hkeys m t Hmt))) as Hsum.
  pose proof (sum_by_le (fun t => Z.of_nat (usage a t)) (cap_of init) tutor (fun t _ => Husage t)).
  rewrite Hsize in Hsum. lia.
Qed.

(** Then [csp_backtrack] never records a complete assignment and returns
    its initial [best], [({}, -1)]. *)
Lemma over_capacity_result (murid : list M) (tutor : list T) pref (init : gmap T Z) :
  NoDup tutor ->
  (forall t c, init !! t = Some c -> (0 <= c)%Z) ->
  (forall m t, In m murid -> In t tutor -> is_Some (pref !! (m, t))) ->
  (forall t, In t tutor -> is_Some (init !! t)) ->
  (sum_by (cap_of init) tutor < Z.of_nat (length murid))%Z ->
  csp_backtrack murid tutor pref init = Ok (∅, (-1)%Z).
Proof.
  intros Hnd Hinit Hp Hc Hlt. destruct (score_table_ok murid tutor pref Hp) as (sp & Hsp & Hfull).
  destruct (csp_backtrack_outcome murid tutor pref init sp Hinit Hsp) as [(st & Hr & Hi)|[_ Hnf]];
    [|exfalso; apply Hnf; split; assumption].
  rewrite Hr. destruct (ci_best _ _ _ _ Hi) as [[-> ->]|[_ Hv]]; [reflexivity|].
  destruct (valid_over_capacity murid tutor init _ Hnd Hlt Hv).
Qed.
End Capacity.

(** ** The scenarios *)

Lemma dict_comp_ok {K V} `{Countable K} (f : K -> result V) (g : K -> V) ks (d : gmap K V) :
  (forall k, In k ks -> f k = Ok (g k)) ->
  exists c, dict_comp f ks d = Ok c /\
    forall k, c !! k = if bool_decide (k ∈ ks) then Some (g k) else d !! k.
Proof.
  revert d. induction ks as [|k ks IH]; intros d Hf; cbn [dict_comp].
  { exists d. split; [reflexivity|]. intros k. rewrite bool_decide_eq_false_2; [reflexivity|].
    intros Hk. apply elem_of_nil in Hk. exact Hk. }
  rewrite (Hf k (or_introl eq_refl)). cbn [res_bind].
  destruct (IH (<[k := g k]> d) (fun k' Hk' => Hf k' (or_intror Hk'))) as (c & -> & Hc).
  exists c. split; [reflexivity|]. intros k'. rewrite Hc.
  destruct (decide (k' ∈ ks)) as [Hin|Hnin].
  - rewrite !bool_decide_eq_true_2 by (rewrite ?elem_of_cons; auto). reflexivity.
  - rewrite (bool_decide_eq_false_2 _ Hnin). destruct (decide (k = k')) as [<-|Hne].
    + rewrite lookup_insert_eq, bool_decide_eq_true_2 by (apply elem_of_cons; left; reflexivity). reflexivity.
    + rewrite lookup_insert_ne by exact Hne. rewrite bool_decide_eq_false_2; [reflexivity|].
      rewrite elem_of_cons. intros [->|?]; [congruence|contradiction].
Qed.

(** [cap] of [scenario_capacity]: [5 if t < 2 else 1] or [max(1, n_m // n_t)]. *)
Definition capacity_of (n_m n_t : nat) (asym : bool) (t : nat) : Z :=
  if asym then (if (t <? 2)%nat then 5%Z else 1%Z) else Z.max 1 (Z.of_nat n_m / Z.of_nat n_t).

Section ScenarioFacts.
Context {R : Type} `{PyRandomLaws R}.

Lemma generate_random_typed murid tutor (r : R) :
  exists pref r', TestPy.generate_preferences murid tutor "random" None ∅ r = Ok (pref, r') /\
    pref_typed murid tutor pref.
Proof.
  destruct (gen_loop_random tutor None "random" murid ∅ r eq_refl eq_refl) as (pref & r' & Hr & Hdom & Hok).
  exists pref, r'. split; [exact Hr|]. split.
  - intros k. rewrite Hdom, lookup_empty. split; [intros [[? ?]|Hk]; [discriminate|exact Hk]|intros Hk; right; exact Hk].
  - apply Hok, map_Forall_empty.
Qed.

(** [scenario_capacity] returns, with [range(n_m)], [range(n_t)], the
    capacities [capacity_of] and well-typed preferences. *)
Lemma scenario_capacity_ok n_m n_t asym (r : R) :
  exists sc r', TestPy.scenario_capacity n_m n_t asym r = Ok (sc, r') /\
    sc_murid sc = seq 0 n_m /\ sc_tutor sc = seq 0 n_t /\
    (forall t, sc_cap sc !! t = if bool_decide (t < n_t)%nat then Some (capacity_of n_m n_t asym t) else None) /\
    pref_typed (seq 0 n_m) (seq 0 n_t) (sc_pref sc).
Proof.
  destruct (dict_comp_ok
              (if asym then (fun t => Ok (if (t <? 2)%nat then 5%Z else 1%Z))
               else (fun _ => q <- py_floordiv (Z.of_nat n_m) (Z.of_nat n_t) ;; Ok (Z.max 1 q)))
              (capacity_of n_m n_t asym) (seq 0 n_t) ∅) as (cap & Hcap & Hcl).
  { intros t Ht. apply in_seq in Ht. unfold capacity_of. destruct asym; [reflexivity|].
    unfold py_floordiv. rewrite (proj2 (Z.eqb_neq _ 0%Z)) by lia. reflexivity. }
  destruct (generate_random_typed (seq 0 n_m) (seq 0 n_t) r) as (pref & r' & Hg & Ht).
  unfold TestPy.scenario_capacity. destruct asym; rewrite Hcap; cbn [res_bind]; rewrite Hg; cbn [res_bind fst snd];
    (eexists _, _; split; [reflexivity|]); cbn [sc_murid sc_tutor sc_cap sc_pref]; split_and!; try reflexivity;
    try exact Ht; intros t; rewrite Hcl, lookup_empty;
    destruct (decide (t ∈ seq 0 n_t)) as [Hin|Hnin];
    solve [rewrite (bool_decide_eq_true_2 _ Hin), bool_decide_eq_true_2; [reflexivity|];
             apply list_elem_of_In, in_seq in Hin; lia
          |rewrite (bool_decide_eq_false_2 _ Hnin), bool_decide_eq_false_2; [reflexivity|];
             intros Hlt; apply Hnin, list_elem_of_In, in_seq; lia].
Qed.
End ScenarioFacts.

Lemma scenario_conflict_ok {R : Type} `{PyRandomLaws R} n_m n_t (r : R) :
  (0 < n_t)%nat ->
  exists sc r', TestPy.scenario_conflict_heavy n_m n_t r = Ok (sc, r') /\
    sc_murid sc = seq 0 n_m /\ sc_tutor sc = seq 0 n_t /\
    (forall t, In t (seq 0 n_t) -> is_Some (sc_cap sc !! t)) /\
    (forall t c, sc_cap sc !! t = Some c -> c = 1%Z) /\
    (forall m t, In m (seq 0 n_m) -> In t (seq 0 n_t) -> is_Some (sc_pref sc !! (m, t))).
Proof.
  intros Hn. destruct (gen_loop_conflict (seq 0 n_t) None (seq 0 n_m) ∅ r ltac:(destruct n_t; [lia|discriminate]))
    as (pref & r' & Hr & Hdom & _ & _).
  unfold TestPy.scenario_conflict_heavy, TestPy.generate_preferences. rewrite Hr. cbn [res_bind fst snd].
  eexists _, _. split; [reflexivity|]. cbn [sc_murid sc_tutor sc_cap sc_pref]. split_and!; [reflexivity|reflexivity| | |].
  - intros t Ht. exists 1%Z. apply elem_of_list_to_map_1.
    + rewrite <- list_fmap_compose. unfold compose. simpl. rewrite list_fmap_id. apply NoDup_seq.
    + apply list_elem_of_fmap. exists t. split; [reflexivity|apply list_elem_of_In, Ht].
  - intros t c Hc. apply elem_of_list_to_map_2, list_elem_of_fmap in Hc as (t' & [= _ <-] & _). reflexivity.
  - intros m t Hm Ht. apply Hdom. right. auto.
Qed.

Section EvaluateFacts.
Context {M T : Type} `{Countable M} `{Countable T}.

Lemma evaluate_ok (pref : gmap (M * T) (list Z)) (a : gmap M T) :
  (forall m t, a !! m = Some t -> is_Some (pref !! (m, t))) -> exists s q, evaluate pref a = Ok (s, q).
Proof.
  intros Ha. unfold evaluate. case_bool_decide; [eauto|].
  assert (forall l s0, (forall kv, In kv l -> is_Some (pref !! kv)) ->
    exists s, fold_left (fun acc kv => s <- acc ;; vs <- dict_get pref kv ;; Ok (s + sum_by (fun x => x) vs)%Z)
                        l (Ok s0) = Ok s) as Hfold.
  { induction l as [|kv l IH]; intros s0 Hl; cbn [fold_left]; [eauto|].
    destruct (Hl kv (or_introl eq_refl)) as [vs Hvs]. cbn [res_bind].
    assert (dict_get pref kv = Ok vs) as Hd by (unfold dict_get; rewrite Hvs; reflexivity).
    rewrite Hd. cbn [res_bind]. apply IH. intros kv' Hkv'. apply Hl. right. exact Hkv'. }
  destruct (Hfold (map_to_list a) 0%Z) as [s ->].
  { intros [m t] Hin. apply Ha. apply elem_of_map_to_list, list_elem_of_In, Hin. }
  cbn [res_bind]. eauto.
Qed.

(** What [csp_backtrack] returns can be scored by [evaluate]. *)
Lemma csp_backtrack_evaluable (murid : list M) (tutor : list T) pref (init : gmap T Z) :
  (forall t c, init !! t = Some c -> (0 <= c)%Z) ->
  (forall m t, In m murid -> In t tutor -> is_Some (pref !! (m, t))) ->
  (forall t, In t tutor -> is_Some (init !! t)) ->
  exists a x s q, csp_backtrack murid tutor pref init = Ok (a, x) /\ evaluate pref a = Ok (s, q).
Proof.
  intros Hinit Hp Hc. destruct (score_table_ok murid tutor pref Hp) as (sp & Hsp & Hfull).
  destruct (csp_backtrack_outcome murid tutor pref init sp Hinit Hsp) as [(st & Hr & Hi)|[_ Hnf]];
    [|exfalso; apply Hnf; split; assumption].
  destruct (evaluate_ok pref (best_assign st)) as (s & q & He).
  { intros m t Hmt. destruct (ci_best _ _ _ _ Hi) as [[_ Hb]|[_ (_ & Hkeys & _)]].
    - rewrite Hb, lookup_empty in Hmt. discriminate.
    - destruct (Hkeys m t Hmt). apply Hp; assumption. }
  exists (best_assign st), (best_score st), s, q. split; assumption.
Qed.
End EvaluateFacts.

(** ** The runs of test.py *)

(** What [run_scenario] needs of a scenario: students [range(n)] with
    [n >= 2] (for [ga_match]), a tutor, a preference for every pair and a
    non-negative capacity for every tutor. *)
Definition scenario_ok (sc : scenario) (n : nat) : Prop :=
  sc_murid sc = seq 0 n /\ (2 <= n)%nat /\ sc_tutor sc <> [] /\
  (forall m t, In m (sc_murid sc) -> In t (sc_tutor sc) -> is_Some (sc_pref sc !! (m, t))) /\
  (forall t, In t (sc_tutor sc) -> is_Some (sc_cap sc !! t)) /\
  (forall t c, sc_cap sc !! t = Some c -> (0 <= c)%Z).

Section RunFacts.
Context {R : Type} `{PyRandomLaws R}.
Variable exp : Q -> Q.

Lemma pct_constraint_ok score n : (0 < n)%nat -> exists c, TestPy.pct_constraint score n = Ok c.
Proof. intros Hn. unfold TestPy.pct_constraint. destruct (Nat.eqb_spec (n * 4) 0); [lia|eauto]. Qed.

(** One iteration runs the three solvers and scores their answers; the
    CSP row carries [evaluate]'s score of [csp_backtrack]'s answer. *)
Lemma run_once_ok sc n (r : R) :
  scenario_ok sc n ->
  exists a1 x1 s1 q1 s2 s3 c1 c2 c3 r',
    csp_backtrack (sc_murid sc) (sc_tutor sc) (sc_pref sc) (sc_cap sc) = Ok (a1, x1) /\
    evaluate (sc_pref sc) a1 = Ok (s1, q1) /\
    TestPy.run_once exp sc r = Ok ([mk_record "CSP" s1 c1; mk_record "SA" s2 c2; mk_record "GA" s3 c3], r').
Proof.
  intros (Hm & Hn & Ht & Hp & Hc & Hnn).
  destruct (csp_backtrack_evaluable _ _ _ _ Hnn Hp Hc) as (a1 & x1 & s1 & q1 & Hcsp & He1).
  assert (sc_murid sc <> []) as Hm0 by (rewrite Hm; destruct n; [lia|discriminate]).
  destruct (sa_match_ok exp (sc_murid sc) (sc_tutor sc) (sc_cap sc) (sc_pref sc) Hp Hc Hm0 Ht
              1 (995 # 1000) 2000 r ltac:(reflexivity) ltac:(reflexivity))
    as (sp & PEN & a2 & bf & r2 & _ & _ & Hsa & [Ha2 Hk2] & _ & _).
  destruct (evaluate_ok (sc_pref sc) a2) as (s2 & q2 & He2).
  { intros m t Hmt. pose proof (Hk2 m t Hmt) as Hm'. destruct (Ha2 m Hm') as (t' & Ht' & Hin).
    rewrite Hmt in Ht'. injection Ht' as <-. apply Hp; assumption. }
  rewrite Hm in Hp.
  destruct (ga_match_ok n (sc_tutor sc) (sc_cap sc) (sc_pref sc) 30 80 (8 # 10) (1 # 10) Hn Ht ltac:(lia) Hp Hc r2)
    as (a3 & f3 & r3 & sp3 & PEN3 & best & pop0 & r1 & pop & Hga & _ & _ & _ & _ & _ & _ & [Hlen Hbest] & _ & Hassign).
  rewrite length_seq in Hlen.
  destruct (evaluate_ok (sc_pref sc) a3) as (s3 & q3 & He3).
  { intros m t Hmt. rewrite (ga_assignment_range n best a3 Hlen Hassign) in Hmt.
    apply Hp; [apply in_seq; apply lookup_lt_Some in Hmt; lia|].
    rewrite List.Forall_forall in Hbest. apply Hbest, list_elem_of_In, list_elem_of_lookup_2 with m, Hmt. }
  assert (0 < length (sc_murid sc))%nat as Hl by (rewrite Hm, length_seq; lia).
  destruct (pct_constraint_ok s1 _ Hl) as [c1 Hc1]. destruct (pct_constraint_ok s2 _ Hl) as [c2 Hc2].
  destruct (pct_constraint_ok s3 _ Hl) as [c3 Hc3].
  exists a1, x1, s1, q1, s2, s3, c1, c2, c3, r3. split_and!; [exact Hcsp|exact He1|].
  unfold TestPy.run_once. rewrite Hcsp. cbn [res_bind fst]. rewrite He1. cbn [res_bind].
  rewrite Hsa. cbn [res_bind fst snd]. rewrite He2. cbn [res_bind]. rewrite Hm.
  rewrite Hga. cbn [res_bind fst snd]. rewrite He3. cbn [res_bind fst]. rewrite <- Hm.
  rewrite Hc1. cbn [res_bind]. rewrite Hc2. cbn [res_bind]. rewrite Hc3. reflexivity.
Qed.

(** [run_scenario] returns [3 * repeat] rows in the order CSP, SA, GA;
    every CSP row carries [evaluate]'s score of [csp_backtrack]'s answer. *)
Lemma run_scenario_ok sc n k (r : R) :
  scenario_ok sc n ->
  exists recs r', TestPy.run_scenario exp sc k r = Ok (recs, r') /\
    rec_alg <$> recs = concat (repeat ["CSP"; "SA"; "GA"] k) /\
    forall a1 x1 s1 q1, csp_backtrack (sc_murid sc) (sc_tutor sc) (sc_pref sc) (sc_cap sc) = Ok (a1, x1) ->
      evaluate (sc_pref sc) a1 = Ok (s1, q1) ->
      Forall (fun rc => rec_alg rc = "CSP" -> rec_score rc = s1) recs.
Proof.
  intros Hok. revert r. induction k as [|k IH]; intros r; cbn [TestPy.run_scenario].
  { exists [], r. split_and!; [reflexivity|reflexivity|constructor]. }
  destruct (run_once_ok sc n r Hok) as (a1 & x1 & s1 & q1 & s2 & s3 & c1 & c2 & c3 & r1 & Hcsp & He & ->).
  cbn [res_bind fst snd]. destruct (IH r1) as (recs & r' & -> & Halg & Hcsp_rows). cbn [res_bind fst snd].
  eexists _, _. split_and!; [reflexivity|rewrite fmap_app, Halg; reflexivity|].
  intros a1' x1' s1' q1' Hcsp' He'. rewrite Hcsp in Hcsp'. injection Hcsp' as <- <-.
  rewrite He in He'. injection He' as <- <-.
  apply Forall_app_2; [|exact (Hcsp_rows a1 x1 s1 q1 Hcsp He)].
  constructor; [intros _; reflexivity|].
  constructor; [intros Hc; discriminate|]. constructor; [intros Hc; discriminate|constructor].
Qed.
End RunFacts.

Lemma testsa_scenario_capacity_same {R : Type} `{PyRandom R} n_m n_t asym (r : R) :
  TestSa.scenario_capacity n_m n_t asym r = TestPy.scenario_capacity n_m n_t asym r.
Proof.
  unfold TestSa.scenario_capacity, TestPy.scenario_capacity, TestSa.generate_preferences, TestPy.generate_preferences.
  rewrite (testsa_gen_loop_same "random" (seq 0 n_t) None ∅ (seq 0 n_m) ∅ r eq_refl). reflexivity.
Qed.

Lemma testsa_scenario_conflict_same {R : Type} `{PyRandom R} n_m n_t (r : R) :
  TestSa.scenario_conflict_heavy n_m n_t r = TestPy.scenario_conflict_heavy n_m n_t r.
Proof.
  unfold TestSa.scenario_conflict_heavy, TestPy.scenario_conflict_heavy, TestSa.generate_preferences,
    TestPy.generate_preferences.
  rewrite (testsa_gen_loop_same "conflict" (seq 0 n_t) None ∅ (seq 0 n_m) ∅ r eq_refl). reflexivity.
Qed.

(** ** The properties of the experiment scripts *)

(** C36. The shape of a capacity scenario: for every random state,
    [scenario_capacity(n_m, n_t, asym)] of test.py (and its copy in
    test_sa.py, which builds the same scenario) returns [range(n_m)],
    [range(n_t)], the capacity [5 if t < 2 else 1] or [max(1, n_m //
    n_t)] for each tutor and no other key (so [n_t = 0] never divides by
    zero), and preferences with exactly one entry per (student, tutor)
    pair, each four values in [{0, 1}]. *)
Theorem scenario_capacity_typed {R : Type} `{PyRandomLaws R} n_m n_t asym (r : R) :
  exists sc r', TestPy.scenario_capacity n_m n_t asym r = Ok (sc, r') /\
    TestSa.scenario_capacity n_m n_t asym r = Ok (sc, r') /\
    sc_murid sc = seq 0 n_m /\ sc_tutor sc = seq 0 n_t /\
    (forall t, sc_cap sc !! t = if bool_decide (t < n_t)%nat then Some (capacity_of n_m n_t asym t) else None) /\
    pref_typed (seq 0 n_m) (seq 0 n_t) (sc_pref sc).
Proof.
  destruct (scenario_capacity_ok n_m n_t asym r) as (sc & r' & Hr & Hm & Ht & Hc & Hp).
  exists sc, r'. rewrite testsa_scenario_capacity_same. split_and!; assumption.
Qed.

(** C37. The ["conflict"] mode of [generate_preferences]: with tutors,
    every student gets one tutor [t_good] drawn by [random.choice] whose
    entry is all ones, every other tutor's entry all zeros, and the dict
    has exactly the (student, tutor) pairs; without tutors and with a
    student, [random.choice([])] raises [IndexError]. *)
Theorem generate_preferences_conflict {R : Type} `{PyRandomLaws R} murid tutor popular_subset (r : R) :
  (tutor <> [] ->
   exists pref r', TestPy.generate_preferences murid tutor "conflict" popular_subset ∅ r = Ok (pref, r') /\
     (forall k, is_Some (pref !! k) <-> In k.1 murid /\ In k.2 tutor) /\
     forall m, In m murid -> exists tg, In tg tutor /\
       forall t, In t tutor -> pref !! (m, t) = Some (const_attrs (bool_decide (t = tg)))) /\
  (tutor = [] -> murid <> [] ->
   TestPy.generate_preferences murid tutor "conflict" popular_subset ∅ r = Err IndexError).
Proof.
  split.
  - intros Ht. destruct (gen_loop_conflict tutor popular_subset murid ∅ r Ht) as (pref & r' & Hr & Hdom & _ & Hgood).
    exists pref, r'. split_and!; [exact Hr| |exact Hgood].
    intros k. rewrite Hdom, lookup_empty. split; [intros [[? ?]|Hk]; [discriminate|exact Hk]|intros Hk; right; exact Hk].
  - intros -> Hm. destruct murid as [|m murid]; [congruence|]. reflexivity.
Qed.

(** C38. The two copies of [generate_preferences] agree: test_sa.py's,
    which has no ["popular"] branch, returns what test.py's returns for
    every mode other than ["popular"], every weights dict and every
    random state. *)
Theorem testsa_generate_same {R : Type} `{PyRandom R} murid tutor mode popular_subset weights (r : R) :
  String.eqb mode "popular" = false ->
  TestSa.generate_preferences murid tutor mode popular_subset weights r =
  TestPy.generate_preferences murid tutor mode popular_subset weights r.
Proof. intros Hp. apply testsa_gen_loop_same, Hp. Qed.

Lemma capacity_scenario_ok (sc : scenario) n_m n_t asym :
  (2 <= n_m)%nat -> (0 < n_t)%nat ->
  sc_murid sc = seq 0 n_m -> sc_tutor sc = seq 0 n_t ->
  (forall t, sc_cap sc !! t = if bool_decide (t < n_t)%nat then Some (capacity_of n_m n_t asym t) else None) ->
  pref_typed (seq 0 n_m) (seq 0 n_t) (sc_pref sc) ->
  scenario_ok sc n_m.
Proof.
  intros Hm Ht Hmu Htu Hc [Hp _]. unfold scenario_ok. rewrite Htu. split_and!; [exact Hmu|exact Hm|destruct n_t; [lia|discriminate]| | |].
  - intros m t Hmi Hti. apply Hp. rewrite <- Hmu. split; assumption.
  - intros t Hti%in_seq. rewrite Hc, bool_decide_eq_true_2 by lia. eauto.
  - intros t c. rewrite Hc. case_bool_decide; [|discriminate]. intros [= <-].
    unfold capacity_of. destruct asym; [destruct (t <? 2)%nat|]; lia.
Qed.

(** The rows of test.py's [__main__]: it returns for every random state,
    building the three scenarios, and each reports nine rows, CSP, SA and
    GA three times.  In the ["Capacity-Asym"] scenario the tutors'
    capacities add up to [5 + 5 + 8 * 1 = 18] for [20] students, so
    [csp_backtrack] never completes an assignment and returns its
    initial [({}, -1)]: every CSP row of that scenario has score [0]. *)
Lemma testpy_main_asym_csp_zero {R : Type} `{PyRandomLaws R} (exp : Q -> Q) (r : R) :
  exists d1 d2 d3 r',
    TestPy.main exp r = Ok ([("Conflict-Heavy", d1); ("Capacity-Sym", d2); ("Capacity-Asym", d3)], r') /\
    rec_alg <$> d1 = concat (repeat ["CSP"; "SA"; "GA"] 3) /\
    rec_alg <$> d2 = concat (repeat ["CSP"; "SA"; "GA"] 3) /\
    rec_alg <$> d3 = concat (repeat ["CSP"; "SA"; "GA"] 3) /\
    Forall (fun rc => rec_alg rc = "CSP" -> rec_score rc = 0%Z) d3.
Proof.
  destruct (scenario_conflict_ok 15 5 r ltac:(lia)) as (s1 & r1 & Hs1 & Hm1 & Ht1 & Hc1 & Hv1 & Hp1).
  assert (scenario_ok s1 15) as Hok1.
  { unfold scenario_ok. rewrite Ht1, Hm1. split_and!; [reflexivity|lia|discriminate|exact Hp1|exact Hc1|].
    intros t c Htc. rewrite (Hv1 t c Htc). lia. }
  destruct (scenario_capacity_ok 20 10 false r1) as (s2 & r2 & Hs2 & Hm2 & Ht2 & Hc2 & Hp2).
  destruct (scenario_capacity_ok 20 10 true r2) as (s3 & r3 & Hs3 & Hm3 & Ht3 & Hc3 & Hp3).
  pose proof (capacity_scenario_ok s2 20 10 false ltac:(lia) ltac:(lia) Hm2 Ht2 Hc2 Hp2) as Hok2.
  pose proof (capacity_scenario_ok s3 20 10 true ltac:(lia) ltac:(lia) Hm3 Ht3 Hc3 Hp3) as Hok3.
  destruct (run_scenario_ok exp s1 15 3 r3 Hok1) as (d1 & r4 & Hd1 & Ha1 & _).
  destruct (run_scenario_ok exp s2 20 3 r4 Hok2) as (d2 & r5 & Hd2 & Ha2 & _).
  destruct (run_scenario_ok exp s3 20 3 r5 Hok3) as (d3 & r6 & Hd3 & Ha3 & Hrows).
  exists d1, d2, d3, r6. split_and!; [|exact Ha1|exact Ha2|exact Ha3|].
  - unfold TestPy.main. rewrite Hs1. cbn [res_bind fst snd]. rewrite Hs2. cbn [res_bind fst snd].
    rewrite Hs3. cbn [res_bind fst snd]. rewrite Hd1. cbn [res_bind fst snd]. rewrite Hd2. cbn [res_bind fst snd].
    rewrite Hd3. reflexivity.
  - destruct Hok3 as (_ & _ & _ & Hp & Hc & Hnn).
    apply (Hrows ∅ (-1)%Z 0%Z 0%Q); [|reflexivity].
    apply over_capacity_result; [rewrite Ht3; apply NoDup_seq|exact Hnn|exact Hp|exact Hc|].
    rewrite Hm3, Ht3, length_seq.
    rewrite (sum_by_ext _ (capacity_of 20 10 true) (seq 0 10)); [reflexivity|].
    intros t Hti%in_seq. unfold cap_of. rewrite Hc3, bool_decide_eq_true_2 by lia. reflexivity.
Qed.

(** ** The summary of test.py: [groupby(["Scenario","Alg"]).mean()] *)

Lemma group_step_lookup acc row k :
  TestPy.group_step acc row !! k =
    if decide (TestPy.group_key row = k) then Some (TestPy.acc_add (acc !! k) row) else acc !! k.
Proof.
  unfold TestPy.group_step. case_decide as Hk.
  - subst k. apply lookup_insert_eq.
  - apply lookup_insert_ne. exact Hk.
Qed.

(** A group accumulates exactly its own rows, in order. *)
Lemma groupby_fold_lookup rows acc k :
  foldl TestPy.group_step acc rows !! k =
    foldl (fun o row => Some (TestPy.acc_add o row)) (acc !! k)
          (filter (fun row => TestPy.group_key row = k) rows).
Proof.
  revert acc. induction rows as [|row rows IH]; intros acc; [reflexivity|].
  simpl. rewrite IH, group_step_lookup, filter_cons. case_decide; reflexivity.
Qed.

Lemma acc_add_fold o (l : list (string * record)) :
  l <> [] -> exists g, foldl (fun o row => Some (TestPy.acc_add o row)) o l = Some g /\
    TestPy.g_count g = (TestPy.g_count (default (TestPy.mk_group_acc 0 0 0) o) + length l)%nat /\
    TestPy.g_score g = (TestPy.g_score (default (TestPy.mk_group_acc 0 0 0) o) +
                        sum_by (fun row => rec_score row.2) l)%Z.
Proof.
  revert o. induction l as [|row l IH]; intros o Hl; [congruence|]. simpl.
  destruct l as [|row' l'].
  - eexists. split; [reflexivity|]. simpl. rewrite sum_by_cons, sum_by_nil. split; lia.
  - destruct (IH (Some (TestPy.acc_add o row)) ltac:(discriminate)) as (g & -> & Hc & Hs).
    exists g. split; [reflexivity|]. rewrite Hc, Hs, (sum_by_cons _ row). simpl. split; lia.
Qed.

(** A group of [groupby_sums] is the count and the summed [Score] of
    the rows with its key; a key without rows has no group. *)
Lemma groupby_sums_lookup rows k :
  let l := filter (fun row => TestPy.group_key row = k) rows in
  (l = [] /\ TestPy.groupby_sums rows !! k = None) \/
  (l <> [] /\ exists g, TestPy.groupby_sums rows !! k = Some g /\
     TestPy.g_count g = length l /\ TestPy.g_score g = sum_by (fun row => rec_score row.2) l).
Proof.
  intros l. unfold TestPy.groupby_sums. rewrite groupby_fold_lookup, lookup_empty. fold l.
  destruct l as [|row l'] eqn:El; [left; split; reflexivity|].
  right. rewrite <- El. split; [rewrite El; discriminate|].
  destruct (acc_add_fold None l ltac:(rewrite El; discriminate)) as (g & Hg & Hc & Hs).
  exists g. split; [exact Hg|]. simpl in Hc, Hs. split; lia.
Qed.

Lemma length_filter_fmap {A B} (P : B -> Prop) `{forall b, Decision (P b)} (f : A -> B) (l : list A) :
  length (filter (fun a => P (f a)) l) = length (filter P (f <$> l)).
Proof.
  induction l as [|a l IH]; [reflexivity|]. rewrite fmap_cons, !filter_cons.
  case_decide; simpl; rewrite IH; reflexivity.
Qed.

Lemma group_keys_concat (results : list (string * list record)) :
  TestPy.group_key <$> TestPy.concat_results results =
    concat ((fun nd : string * list record => pair nd.1 <$> (rec_alg <$> nd.2)) <$> results).
Proof.
  unfold TestPy.concat_results. induction results as [|[name d] results IH]; [reflexivity|].
  rewrite !fmap_cons. cbn [concat]. rewrite fmap_app, IH, <- !list_fmap_compose. reflexivity.
Qed.

(** The summary has a row for exactly the keys of the frame. *)
Lemma summary_is_Some rows k :
  is_Some (TestPy.summary rows !! k) <-> k ∈ TestPy.group_key <$> rows.
Proof.
  unfold TestPy.summary. rewrite lookup_fmap, fmap_is_Some.
  destruct (groupby_sums_lookup rows k) as [[Hl ->]|[Hl (g & -> & _)]].
  - split; [intros [? ?]; discriminate|]. intros (row & -> & Hin)%list_elem_of_fmap.
    destruct (filter_nil_not_elem_of _ _ row Hl eq_refl Hin).
  - split; [intros _|eauto].
    destruct (filter _ rows) as [|row l] eqn:E; [congruence|].
    assert (row ∈ filter (fun row => TestPy.group_key row = k) rows) as Hr by (rewrite E; left).
    apply list_elem_of_filter in Hr as [<- Hr]. apply list_elem_of_fmap_2, Hr.
Qed.

(** Each mean is over the rows of its key. *)
Lemma groupby_count rows k g :
  TestPy.groupby_sums rows !! k = Some g ->
  TestPy.g_count g = length (filter (fun x => x = k) (TestPy.group_key <$> rows)).
Proof.
  intros Hg. rewrite <- (length_filter_fmap (fun x => x = k)).
  destruct (groupby_sums_lookup rows k) as [[_ Hn]|[_ (g' & Hg' & Hc & _)]]; congruence.
Qed.

(** C39. The report of test.py: its [__main__] block returns for every
    random state, and the summary it prints,
    [final.groupby(["Scenario","Alg"]).mean()] of the concatenated
    frames, has one row for each of the three scenarios and the three
    algorithms, each a mean over the three repetitions.  In
    ["Capacity-Asym"] the capacities add up to [5 + 5 + 8 * 1 = 18] for
    [20] students, so [csp_backtrack] never completes an assignment and
    the mean CSP [Score] printed for that scenario is [0]. *)
Theorem testpy_main_summary {R : Type} `{PyRandomLaws R} (exp : Q -> Q) (r : R) :
  exists res r', TestPy.main exp r = Ok (res, r') /\
    (forall k, is_Some (TestPy.summary (TestPy.concat_results res) !! k) <->
       k.1 ∈ ["Conflict-Heavy"; "Capacity-Sym"; "Capacity-Asym"] /\ k.2 ∈ ["CSP"; "SA"; "GA"]) /\
    (forall k g, TestPy.groupby_sums (TestPy.concat_results res) !! k = Some g -> TestPy.g_count g = 3%nat) /\
    exists g, TestPy.summary (TestPy.concat_results res) !! ("Capacity-Asym", "CSP") = Some g /\
      (TestPy.mean_score g == 0)%Q.
Proof.
  destruct (testpy_main_asym_csp_zero exp r) as (d1 & d2 & d3 & r' & Hm & Ha1 & Ha2 & Ha3 & Hz).
  set (res := [("Conflict-Heavy", d1); ("Capacity-Sym", d2); ("Capacity-Asym", d3)]).
  set (names := ["Conflict-Heavy"; "Capacity-Sym"; "Capacity-Asym"]).
  set (algs := ["CSP"; "SA"; "GA"]).
  set (K := concat ((fun n => pair n <$> concat (repeat algs 3)) <$> names)).
  assert (HK : TestPy.group_key <$> TestPy.concat_results res = K).
  { unfold res. rewrite group_keys_concat, !fmap_cons. cbn [fst snd]. rewrite Ha1, Ha2, Ha3. reflexivity. }
  assert (Hcount : Forall (fun k => length (filter (fun x => x = k) K) = 3%nat) K)
    by (apply (bool_decide_unpack _); vm_compute; reflexivity).
  assert (Hmem : forall k, k ∈ K <-> k.1 ∈ names /\ k.2 ∈ algs).
  { intros [n a]. assert (EK : K = mjoin ((fun n => pair n <$> concat (repeat algs 3)) <$> names))
      by reflexivity.
    rewrite EK, list_elem_of_join. split.
    - intros (l & Hin & Hl). apply list_elem_of_fmap in Hl as (n' & -> & Hn').
      apply list_elem_of_fmap in Hin as (a' & [= <- <-] & Ha). simpl. split; [exact Hn'|].
      revert Ha. unfold algs. simpl. rewrite !elem_of_cons, !elem_of_nil. tauto.
    - intros [Hn Ha]. exists (pair n <$> concat (repeat algs 3)). split; [|apply list_elem_of_fmap; eauto].
      apply list_elem_of_fmap_2. revert Ha. unfold algs. simpl. rewrite !elem_of_cons, !elem_of_nil. tauto. }
  exists res, r'. split; [exact Hm|]. split_and!.
  - intros k. rewrite summary_is_Some, HK. apply Hmem.
  - intros k g Hg. rewrite (groupby_count _ k g Hg), HK.
    rewrite Forall_forall in Hcount. apply Hcount.
    rewrite <- HK. apply summary_is_Some. unfold TestPy.summary. rewrite lookup_fmap, Hg. eauto.
  - set (rows := TestPy.concat_results res).
    assert (is_Some (TestPy.summary rows !! ("Capacity-Asym", "CSP"))) as [m Hsome].
    { apply summary_is_Some. unfold rows. rewrite HK. apply Hmem. unfold names, algs. simpl. rewrite !elem_of_cons. tauto. }
    destruct (groupby_sums_lookup rows ("Capacity-Asym", "CSP")) as [[_ Hn]|[_ (g & Hg & _ & Hs)]].
    { unfold TestPy.summary in Hsome. rewrite lookup_fmap, Hn in Hsome. discriminate. }
    eexists. unfold TestPy.summary. rewrite lookup_fmap, Hg. split; [reflexivity|]. simpl.
    rewrite Hs, sum_by_zero; [reflexivity|].
    intros row (Hk & Hin)%list_elem_of_In%list_elem_of_filter.
    apply list_elem_of_In, in_concat in Hin as (l & Hl & Hin). simpl in Hl.
    destruct Hl as [<-|[<-|[<-|[]]]]; apply in_map_iff in Hin as (rc & <- & Hrc);
      unfold TestPy.group_key in Hk; simpl in Hk; simplify_eq.
    rewrite List.Forall_forall in Hz. apply Hz; assumption.
Qed.

Section SaOnlyFacts.
Context {R : Type} `{PyRandomLaws R}.
Variable exp : Q -> Q.

Lemma sa_repeat_ok name sc T0 cooling steps k (r : R) :
  sc_murid sc <> [] -> sc_tutor sc <> [] ->
  (forall m t, In m (sc_murid sc) -> In t (sc_tutor sc) -> is_Some (sc_pref sc !! (m, t))) ->
  (forall t, In t (sc_tutor sc) -> is_Some (sc_cap sc !! t)) ->
  (0 < T0)%Q -> (0 < cooling)%Q ->
  exists recs r', TestSa.sa_repeat exp name sc T0 cooling steps k r = Ok (recs, r') /\
    TestSa.sa_name <$> recs = repeat name k.
Proof.
  intros Hm Ht Hp Hc HT Hcool. revert r. induction k as [|k IH]; intros r; cbn [TestSa.sa_repeat].
  { exists [], r. split; reflexivity. }
  unfold TestSa.sa_match, TestSa.evaluate.
  destruct (sa_match_ok exp _ _ _ _ Hp Hc Hm Ht T0 cooling steps r HT Hcool)
    as (sp & PEN & a & bf & r1 & _ & _ & -> & [Ha Hk] & _ & _). cbn [res_bind fst snd].
  destruct (evaluate_ok (sc_pref sc) a) as (s & q & ->).
  { intros m t Hmt. pose proof (Hk m t Hmt) as Hm'. destruct (Ha m Hm') as (t' & Ht' & Hin).
    rewrite Hmt in Ht'. injection Ht' as <-. apply Hp; assumption. }
  cbn [res_bind fst snd]. destruct (IH r1) as (recs & r' & -> & Hn). cbn [res_bind fst snd].
  eexists _, _. split; [reflexivity|]. rewrite fmap_cons, Hn. reflexivity.
Qed.
End SaOnlyFacts.

(** C40. The [__main__] block of test_sa.py returns for every random
    state: [run_sa_only] runs [sa_match] five times on each of the three
    scenarios, in the dict's order, and scores each answer with
    [evaluate]. *)
Theorem testsa_main_runs {R : Type} `{PyRandomLaws R} (exp : Q -> Q) (r : R) :
  exists recs r', TestSa.main exp r = Ok (recs, r') /\
    TestSa.sa_name <$> recs =
      (repeat "Conflict-Heavy" 5 ++ repeat "Capacity-Sym" 5 ++ repeat "Capacity-Asym" 5)%list.
Proof.
  destruct (scenario_conflict_ok 15 5 r ltac:(lia)) as (s1 & r1 & Hs1 & Hm1 & Ht1 & Hc1 & _ & Hp1).
  destruct (scenario_capacity_ok 10 10 false r1) as (s2 & r2 & Hs2 & Hm2 & Ht2 & Hc2 & Hp2).
  destruct (scenario_capacity_ok 10 10 true r2) as (s3 & r3 & Hs3 & Hm3 & Ht3 & Hc3 & Hp3).
  destruct (capacity_scenario_ok s2 10 10 false ltac:(lia) ltac:(lia) Hm2 Ht2 Hc2 Hp2)
    as (_ & _ & Ht2' & Hp2' & Hc2' & _).
  destruct (capacity_scenario_ok s3 10 10 true ltac:(lia) ltac:(lia) Hm3 Ht3 Hc3 Hp3)
    as (_ & _ & Ht3' & Hp3' & Hc3' & _).
  assert (Hq1 : (0 < 1)%Q) by reflexivity. assert (Hq2 : (0 < 995 # 1000)%Q) by reflexivity.
  destruct (sa_repeat_ok exp "Conflict-Heavy" s1 1 (995 # 1000) 1500 5 r3
              ltac:(rewrite Hm1; discriminate) ltac:(rewrite Ht1; discriminate)
              ltac:(rewrite Hm1, Ht1; exact Hp1) ltac:(rewrite Ht1; exact Hc1) Hq1 Hq2)
    as (d1 & r4 & Hd1 & Hn1).
  destruct (sa_repeat_ok exp "Capacity-Sym" s2 1 (995 # 1000) 1500 5 r4
              ltac:(rewrite Hm2; discriminate) Ht2' Hp2' Hc2' Hq1 Hq2) as (d2 & r5 & Hd2 & Hn2).
  destruct (sa_repeat_ok exp "Capacity-Asym" s3 1 (995 # 1000) 1500 5 r5
              ltac:(rewrite Hm3; discriminate) Ht3' Hp3' Hc3' Hq1 Hq2) as (d3 & r6 & Hd3 & Hn3).
  exists (d1 ++ (d2 ++ (d3 ++ [])))%list, r6. split.
  - unfold TestSa.main. rewrite testsa_scenario_conflict_same, Hs1. cbn [res_bind fst snd].
    rewrite testsa_scenario_capacity_same, Hs2. cbn [res_bind fst snd].
    rewrite testsa_scenario_capacity_same, Hs3. cbn [res_bind fst snd TestSa.run_sa_only].
    rewrite Hd1. cbn [res_bind fst snd]. rewrite Hd2. cbn [res_bind fst snd]. rewrite Hd3. reflexivity.
  - rewrite !fmap_app, Hn1, Hn2, Hn3. reflexivity.
Qed.

(** ** Instances *)

Module ExperimentsExample.
Import Lcg.

Lemma scenario_capacity_typed_witness :
  exists sc r', TestPy.scenario_capacity 20 10 true (mk_lcg 7) = Ok (sc, r') /\
    TestSa.scenario_capacity 20 10 true (mk_lcg 7) = Ok (sc, r') /\
    sc_murid sc = seq 0 20 /\ sc_tutor sc = seq 0 10 /\
    (forall t, sc_cap sc !! t = if bool_decide (t < 10)%nat then Some (capacity_of 20 10 true t) else None) /\
    pref_typed (seq 0 20) (seq 0 10) (sc_pref sc).
Proof. exact (scenario_capacity_typed 20 10 true (mk_lcg 7)). Defined.

Lemma generate_preferences_conflict_witness :
  [0; 1; 2]%nat <> [] /\
  exists pref r', TestPy.generate_preferences [0; 1]%nat [0; 1; 2]%nat "conflict" None ∅ (mk_lcg 3) = Ok (pref, r') /\
     (forall k, is_Some (pref !! k) <-> In k.1 [0; 1]%nat /\ In k.2 [0; 1; 2]%nat) /\
     forall m, In m [0; 1]%nat -> exists tg, In tg [0; 1; 2]%nat /\
       forall t, In t [0; 1; 2]%nat -> pref !! (m, t) = Some (const_attrs (bool_decide (t = tg))).
Proof.
  split; [discriminate|].
  exact (proj1 (generate_preferences_conflict [0; 1]%nat [0; 1; 2]%nat None (mk_lcg 3)) ltac:(discriminate)).
Defined.

Lemma testsa_generate_same_witness :
  String.eqb "random" "popular" = false /\
  TestSa.generate_preferences [0; 1]%nat [0; 1]%nat "random" None ∅ (mk_lcg 5) =
  TestPy.generate_preferences [0; 1]%nat [0; 1]%nat "random" None ∅ (mk_lcg 5).
Proof. split; [reflexivity|]. apply testsa_generate_same. reflexivity. Defined.

Lemma testpy_main_summary_witness :
  exists res r', TestPy.main (fun q => q) (mk_lcg 11) = Ok (res, r') /\
    (forall k, is_Some (TestPy.summary (TestPy.concat_results res) !! k) <->
       k.1 ∈ ["Conflict-Heavy"; "Capacity-Sym"; "Capacity-Asym"] /\ k.2 ∈ ["CSP"; "SA"; "GA"]) /\
    (forall k g, TestPy.groupby_sums (TestPy.concat_results res) !! k = Some g -> TestPy.g_count g = 3%nat) /\
    exists g, TestPy.summary (TestPy.concat_results res) !! ("Capacity-Asym", "CSP") = Some g /\
      (TestPy.mean_score g == 0)%Q.
Proof. exact (testpy_main_summary (fun q => q) (mk_lcg 11)). Defined.

Lemma testsa_main_runs_witness :
  exists recs r', TestSa.main (fun q => q) (mk_lcg 11) = Ok (recs, r') /\
    TestSa.sa_name <$> recs =
      (repeat "Conflict-Heavy" 5 ++ repeat "Capacity-Sym" 5 ++ repeat "Capacity-Asym" 5)%list.
Proof. exact (testsa_main_runs (fun q => q) (mk_lcg 11)). Defined.
End ExperimentsExample.
